(* ===== verification/_CoqProject ===== *)
-Q . S2P
Prelude.v
PyStr.v
Regex.v
RegexFacts.v
State.v
StateFacts.v
Frame.v
Reporter.v
Agree.v
Cleanse.v
CleanseFacts.v
Expr.v
ExprFacts.v
Lines.v
Nesting.v
NestingFacts.v
FilePath.v
FilePathFacts.v
Hooks.v
HooksFacts.v
Includes.v
IncludesFacts.v
Functions.v
Casts.v
FunctionsFacts.v
Language.v
LanguageFacts.v
Spacing.v
Style.v
Usage.v
Process.v
SpacingFacts.v
StyleFacts.v
StyleSafety.v
ProcessFacts.v
Ending.v
EndingFacts.v
OptionsFacts.v
AgreeFacts.v
