(* ===== verification/Prelude.v ===== *)
(** * A model of [cpplint.py]

    The repository is a C++ coroutine framework with the Python tools that check
    it.  The Python program with logic of its own is the style checker
    [src/tools/cpplint/cpplint.py]; this library models it function by function and
    proves what its parts promise.  The scripts beside it, [src/tools/utils.py] and
    [src/tools/install_hooks.py], are modelled over a file system; the C++ code is not.

    ** How the program works

    A file is read as a list of lines.  [CleansedLines] makes four views of them:
    the raw lines, the lines without raw strings, the lines without comments, and
    the elided lines, without comments and string contents.  [ProcessFileData] then
    runs, for every line, the updates of the state kept along the file (the nesting
    of blocks, the includes seen, the function being counted) and the checks, which
    look at the elided line and some lines around it.  A check reports through the
    [error] function it is given; the program passes [Error], which asks the NOLINT
    suppressions, the verbosity and the filters, and counts and prints the error.

    ** Files

    Foundations, which model the language and its library and not the program:
    - [Prelude]: strings as lists of code points, the exceptions, the result type,
      Python's indexing and ranges;
    - [PyStr]: the methods of Python's strings, with their lemmas;
    - [Regex]: a backtracking matcher in continuation style, the parser of Python's
      pattern syntax ([rx] parses a constant pattern at compile time), searching,
      substitution and splitting;
    - [RegexFacts]: the matcher finds the first success of a relational semantics
      [Mt], so that a match or the absence of one can be reasoned about; lemmas on
      the bounds and the characters of a group, and on what the parser accepts.

    Components, each a file of definitions and, where it has theorems, a file of
    facts:
    - [State], [StateFacts]: the globals of the module, [_CppLintState], the monad
      [M] that threads them and keeps the state when an exception is raised, the
      NOLINT suppressions, [_ShouldPrintError] and [Error];
    - [Cleanse], [CleanseFacts]: [CleanseRawStrings], [RemoveMultiLineComments],
      [CleanseComments], [_CollapseStrings] and [CleansedLines];
    - [Expr], [ExprFacts]: [CloseExpression], [ReverseCloseExpression], [IsDecltype]
      and [_GetTextInside];
    - [Lines]: the helpers and checks of a single line;
    - [Nesting], [NestingFacts]: [NestingState], its blocks on a heap with
      references (a block on the stack is changed in place, [copy.deepcopy] makes
      new ones), the preprocessor stack, [Update] and the namespace indentation;
    - [FilePath], [FilePathFacts]: [os.path], [FileInfo] and the header guard names,
      over the record [OS] of what the operating system answers;
    - [Includes], [IncludesFacts]: [_IncludeState], the checks of include
      directives, of the header guard and of the headers a file needs;
    - [Functions], [FunctionsFacts]: [_FunctionState] and the length of functions;
    - [Casts]: the casts and the non-const references;
    - [Language], [LanguageFacts]: the language rules of one line and the explicit
      constructors;
    - [Spacing], [SpacingFacts]: comments, blank lines, operators, parentheses, commas,
      braces, class sections and function calls;
    - [Style], [StyleFacts]: braces, trailing semicolons, empty bodies, the CHECK macros,
      the alternative tokens, and [CheckStyle], which runs them and the spacing checks;
    - [StyleSafety]: [CheckStyle] returns on every line of every file, since the blocks start
      at lines of the file;
    - [Usage]: the text of [PrintUsage];
    - [Process], [ProcessFacts], [OptionsFacts]: [ProcessLine], [ProcessFileData], the
      configuration files, [ProcessFile], the command line and [main], over the record
      [Host] of what the program asks of its surroundings;
    - [Hooks], [HooksFacts]: the scripts, independent of the checker: a tree of directories
      and regular files with a working directory, the functions of [os], [glob] and [shutil]
      they use, [walk_dir], [working_directory] and the installation of the git hooks.

    Across the components:
    - [Frame]: [keeps R m] says that the program [m] relates the states before and after
      it by [R], however it ends; [keeps_step] follows the structure of any program;
    - [Reporter]: the abstract reporter, a log to which errors are appended that the
      settings let through, and the relation [represents] between a log and a state;
    - [Ending], [EndingFacts]: [raises E m] says that the exceptions of [m] satisfy [E];
      every check raises ordinary exceptions only, so that no loop runs out of fuel;
    - [Agree], [AgreeFacts]: [blind m] says that [m], run from two states that [agree] but
      for the output format, the quiet flag and the text written, gives the same result in
      states that agree; every function of the program is blind.

    A function of the source keeps its name.  A method is a function of the record
    that models its object; a loop is a [Fixpoint] named after it ([close_loop] for
    the loop of [CloseExpression]); a long function is the composition of the
    definitions that model its parts.  A pattern is a constant named after its use.

    ** State, errors and interfaces

    A function that may raise returns [res]; one that may also report is in the
    monad [M] over [globals].  The error function is an argument, as in the source.
    Theorems on checks are proved against the class [Handler] of error functions
    that return and keep an invariant; [Error_handler] is the instance for [Error],
    with the invariant [sound]: the filters are signed and the counts add up.  The
    classes [Keeper] and [Raiser] are the same for [keeps] and [raises].
    [total I m Q] says that from a state with [I] the program [m] returns a value
    with [Q] in a state with [I]; [total_step] follows the structure of a check.

    ** What the theorems show

    - Reporting: the last matching filter decides, an error is counted and printed
      exactly when it is to be, the counters add up, NOLINT silences its line,
      malformed filters are refused, the cache of compiled patterns is transparent.
    - Cleansing: it never raises and keeps the number of lines; the lines of a multi-line
      comment, from the one that opens it to the first that ends one, and no others, are
      blanked ([decommented]); string literals are emptied.
    - Brackets: the bracket that closes a balanced expression is found, on the line
      or lines below, and going back from it returns; positions stay in the file.
    - Nesting: [Update] returns on every line and keeps the stack well formed; it closes at
      most as many blocks as the line has closing tokens and keeps the ones below ([turns]);
      braces open and close blocks; the second branch of a conditional starts from the
      blocks of its [#if], and after [#endif] those of the first branch stand.
    - Paths and includes: the names of header guards are identifiers; the search for the
      repository runs on forever exactly when every directory from the file's up to the root
      is a Subversion checkout; the accepted orders of headers are a regular language; an
      include directive enters its header in the innermost section; the header guard check
      returns.
    - Functions and language: the lines of a body are counted and reported above the
      trigger, the arguments of a constructor are the shortest balanced groups.
    - Style: the masking of operator names ends and keeps the columns, the loop of the
      CHECK macros splits the expression at a relational operator, and no style check raises
      on any line of any file.
    - The whole program: the processing of a file is simulated by the abstract reporter,
      a file leaves the filters as they were, an accepted command line leaves the settings
      well formed, and [main] ends, with the exit status that tells whether an error was
      counted or with an ordinary exception; the output format and the quiet flag
      decide what is written, not what is found.
    - The scripts: the hooks of the repository replace the installed ones and nothing else
      changes, the walk of a directory meets everything below it once, the working directory
      is restored.
    Theorems on defects of the source say when it raises or does not return: an
    unbalanced parameter text, Subversion checkouts all the way up to the root directory, a
    negative verbosity.

    The theorems on code that looks for the repository ([main], the style checks, the
    include and header guard checks) have the hypothesis [no_root_svn]: the working directory
    is absolute and no root directory contains [.svn].  Any other directory may, the working
    directory included.  [RepositoryName_diverges] shows what happens without it.

    ** Fuel

    Every loop that is not structural has fuel and raises [OutOfFuel] without it; the
    totality theorems show it is never raised where the source terminates.  The
    matcher needs no more iterations of a repetition than characters left plus the
    minimum; the loops over a line consume a character each round, so its length and
    one is enough; the loops over lines advance by one; the loops over a path shorten
    it, and so does the search for configuration files; [template_fuel] is the number of
    characters and lines of the file.  [mask_operators] has the length of the line, since
    each round masks a character that is not part of a word; [parse_check] the length of
    the expression; [Getopt.getopt] the number of arguments.  [main_ends] composes these:
    from any state and for any surroundings with [no_root_svn], no loop of the program
    exhausts its fuel.
    The fuel of [walk_dir] is the number of nodes of the file system and one.

    ** Outside the model

    [unicodedata], [os] and the iteration order of dictionaries and sets are parameters;
    the lines of a configuration file and the decoded text of a source file are given by
    [Host].  [getopt] and [int] of the standard library are modelled in [Process], and
    [isdigit] and case conversion on ASCII; white space is that of Unicode.  Patterns are
    matched as without flags on the strings of the program; a pattern of [exclude_files]
    outside the syntax [Regex] parses counts as malformed.  The replacement of
    [sys.stderr] by a re-encoding writer, recursion limits and memory are not modelled.
    The file system of [Hooks] has no links and no permissions. *)

From stdpp Require Export base tactics option list numbers strings pretty gmap.
From Stdlib Require Export ZArith NArith Ascii Lia.

#[export] Set Default Goal Selector "!".

(** * Characters and strings

    The linter reads its input with the utf8 codec, so a line is a sequence of
    code points.  A character is a code point, a string a list of them. *)

Abbreviation str := (list N).

(** A literal of the source.  A back quote in the Rocq literal stands for the
    double quote character: the source has no back quote in any literal. *)
Definition of_string (s : string) : str :=
  (fun a => let c := Ascii.N_of_ascii a in if (c =? 96)%N then 34%N else c)
    <$> String.list_ascii_of_string s.

Coercion of_string : string >-> list.
Coercion Ascii.N_of_ascii : Ascii.ascii >-> N.

Declare Scope py_scope.
Delimit Scope py_scope with py.

(** Boolean equality of strings ([==] of the source). *)
Definition str_eqb (a b : str) : bool := bool_decide (a = b).
Notation "a =s b" := (str_eqb a b) (at level 70) : py_scope.
Notation "a <>s b" := (negb (str_eqb a b)) (at level 70) : py_scope.

(** Concatenation of strings. *)
Notation "a +s b" := (@app N a b) (right associativity, at level 60) : py_scope.

(** [x in (a, b, ...)] over strings. *)
Definition str_in (x : str) (l : list str) : bool := existsb (str_eqb x) l.

(** The truth value of a string. *)
Definition nonempty (s : str) : bool := match s with [] => false | _ => true end.

(** * Results: the exceptions the modelled code can raise *)

Inductive exn : Type :=
| IndexError
| KeyError
| AttributeError
| AssertionError
| ValueError (msg : str)
| ReError
| IOError
| OSError
| ShutilError
| OutOfFuel
| SystemExit (code : Z) (msg : str).

Inductive res (A : Type) : Type :=
| Ok (a : A)
| Raise (e : exn).
Arguments Ok {A} a.
Arguments Raise {A} e.

#[export] Instance res_ret : MRet res := @Ok.
#[export] Instance res_bind : MBind res := fun A B f m =>
  match m with Ok a => f a | Raise e => Raise e end.

(** A dereference of [None]: [m.group(...)] when [m] is [None]. *)
Definition some_or (e : exn) {A} (o : option A) : res A :=
  match o with Some a => Ok a | None => Raise e end.

(** Python indexing: negative indices count from the end. *)
Definition py_index {A} (l : list A) (i : Z) : option A :=
  if (i <? 0)%Z then
    if (Z.of_nat (length l) + i <? 0)%Z then None
    else l !! Z.to_nat (Z.of_nat (length l) + i)
  else l !! Z.to_nat i.

Definition idx {A} (l : list A) (i : Z) : res A := some_or IndexError (py_index l i).

(** [range(a, b)] *)
Definition zrange (a b : Z) : list Z :=
  (fun k => (a + Z.of_nat k)%Z) <$> seq 0 (Z.to_nat (b - a)).

(** [xrange(a, b, -1)] *)
Definition zrange_down (a b : Z) : list Z :=
  (fun k => (a - Z.of_nat k)%Z) <$> seq 0 (Z.to_nat (a - b)).

(** * Automation *)

Create HintDb py discriminated.

(** Split every conditional and match of the goal. *)
Ltac split_matches :=
  repeat first [ case_match | case_decide | progress simplify_eq/= ].

(** Turn boolean tests of the code into propositions. *)
Ltac bool_hyps :=
  repeat match goal with
  | H : (_ && _) = true |- _ => apply andb_prop in H as [? ?]
  | H : (_ || _) = false |- _ => apply orb_false_elim in H as [? ?]
  | H : negb _ = true |- _ => apply negb_true_iff in H
  | H : negb _ = false |- _ => apply negb_false_iff in H
  | H : str_eqb _ _ = true |- _ => apply bool_decide_eq_true in H
  | H : str_eqb _ _ = false |- _ => apply bool_decide_eq_false in H
  | H : bool_decide _ = true |- _ => apply bool_decide_eq_true in H
  | H : bool_decide _ = false |- _ => apply bool_decide_eq_false in H
  | H : (_ =? _)%Z = true |- _ => apply Z.eqb_eq in H
  | H : (_ =? _)%Z = false |- _ => apply Z.eqb_neq in H
  | H : (_ <? _)%Z = true |- _ => apply Z.ltb_lt in H
  | H : (_ <? _)%Z = false |- _ => apply Z.ltb_ge in H
  | H : (_ <=? _)%Z = true |- _ => apply Z.leb_le in H
  | H : (_ <=? _)%Z = false |- _ => apply Z.leb_gt in H
  | H : (_ =? _)%N = true |- _ => apply N.eqb_eq in H
  | H : (_ =? _)%N = false |- _ => apply N.eqb_neq in H
  | H : (_ =? _)%nat = true |- _ => apply Nat.eqb_eq in H
  | H : (_ =? _)%nat = false |- _ => apply Nat.eqb_neq in H
  | H : (_ <? _)%nat = true |- _ => apply Nat.ltb_lt in H
  | H : (_ <? _)%nat = false |- _ => apply Nat.ltb_ge in H
  end.

(** * Generic lemmas *)

Lemma str_eqb_eq (a b : str) : str_eqb a b = true <-> a = b.
Proof. apply bool_decide_eq_true. Qed.

Lemma str_eqb_refl (a : str) : str_eqb a a = true.
Proof. by apply str_eqb_eq. Qed.

Lemma str_eqb_neq (a b : str) : str_eqb a b = false <-> a <> b.
Proof. apply bool_decide_eq_false. Qed.

Lemma str_in_elem (x : str) (l : list str) : str_in x l = true <-> x ∈ l.
Proof.
  unfold str_in. rewrite existsb_exists. split.
  - intros (y & Hin & Heq). apply str_eqb_eq in Heq as ->. by apply list_elem_of_In.
  - intros Hin. exists x. split; [by apply list_elem_of_In|apply str_eqb_refl].
Qed.

Lemma res_bind_Ok {A B} (m : res A) (f : A -> res B) b :
  m ≫= f = Ok b <-> exists a, m = Ok a /\ f a = Ok b.
Proof. destruct m; simpl; naive_solver. Qed.

Lemma py_index_pos {A} (l : list A) (i : Z) :
  (0 <= i)%Z -> py_index l i = l !! Z.to_nat i.
Proof. intros. unfold py_index. destruct (Z.ltb_spec i 0); [lia|done]. Qed.

Lemma py_index_is_Some {A} (l : list A) (i : Z) :
  (0 <= i < Z.of_nat (length l))%Z -> is_Some (py_index l i).
Proof. intros. rewrite py_index_pos by lia. apply lookup_lt_is_Some_2. lia. Qed.

Lemma py_index_Some_lt {A} (l : list A) (i : Z) x :
  (0 <= i)%Z -> py_index l i = Some x -> (i < Z.of_nat (length l))%Z.
Proof.
  intros Hi. rewrite py_index_pos by done. intros H%lookup_lt_Some. lia.
Qed.

Lemma elem_of_zrange (a b i : Z) : i ∈ zrange a b <-> (a <= i < b)%Z.
Proof.
  unfold zrange. rewrite list_elem_of_fmap. setoid_rewrite elem_of_seq. split.
  - intros (k & -> & ?). lia.
  - intros. exists (Z.to_nat (i - a)). lia.
Qed.

Lemma length_zrange (a b : Z) : length (zrange a b) = Z.to_nat (b - a).
Proof. unfold zrange. by rewrite length_fmap, length_seq. Qed.
