(* ===== verification/PyStr.v ===== *)
(** Python's string methods, as far as the linter uses them, on strings of code
    points: searching, slicing, splitting, stripping, replacing, case and
    number formatting, with the lemmas the components share.  The strings of
    the linter are [unicode] objects, so white space is Unicode white space;
    case conversion is modelled on ASCII letters and is the identity on the
    other code points. *)

From S2P Require Import Prelude.

Open Scope Z_scope.

(** * Slices: [s[a:b]] *)

(** A slice bound, relative to the end when negative and clamped to the string. *)
Definition slice_bound (n : nat) (i : Z) : nat :=
  if i <? 0 then Z.to_nat (Z.of_nat n + i) else Nat.min (Z.to_nat i) n.

Definition slice {A} (s : list A) (a b : Z) : list A :=
  let n := length s in
  let a' := slice_bound n a in
  let b' := slice_bound n b in
  take (b' - a') (drop a' s).

Definition slice_from {A} (s : list A) (a : Z) : list A :=
  drop (slice_bound (length s) a) s.

Definition slice_to {A} (s : list A) (b : Z) : list A :=
  take (slice_bound (length s) b) s.

(** [len(s)] *)
Definition len {A} (s : list A) : Z := Z.of_nat (length s).

(** * Prefixes, suffixes and search *)

Fixpoint prefixb (p s : str) : bool :=
  match p, s with
  | [], _ => true
  | x :: p', y :: s' => (x =? y)%N && prefixb p' s'
  | _ :: _, [] => false
  end.

Definition startswith (s p : str) : bool := prefixb p s.
Definition endswith (s p : str) : bool := prefixb (reverse p) (reverse s).

(** First index at which [sub] occurs. *)
Fixpoint find_nat (sub s : str) : option nat :=
  if prefixb sub s then Some 0%nat
  else match s with
       | [] => None
       | _ :: t => S <$> find_nat sub t
       end.

(** Last index at which [sub] occurs. *)
Fixpoint rfind_nat (sub s : str) : option nat :=
  match s with
  | [] => if prefixb sub [] then Some 0%nat else None
  | _ :: t =>
      match rfind_nat sub t with
      | Some i => Some (S i)
      | None => if prefixb sub s then Some 0%nat else None
      end
  end.

Definition opt_pos (o : option nat) : Z :=
  match o with Some i => Z.of_nat i | None => -1 end.

Definition find (s sub : str) : Z := opt_pos (find_nat sub s).
Definition rfind (s sub : str) : Z := opt_pos (rfind_nat sub s).

(** [s.find(sub, start)] *)
Definition find_from (s sub : str) (start : Z) : Z :=
  if len s <? start then -1
  else let k := slice_bound (length s) start in
       match find_nat sub (drop k s) with
       | Some i => Z.of_nat (k + i)
       | None => -1
       end.

(** [sub in s] *)
Definition contains (s sub : str) : bool :=
  match find_nat sub s with Some _ => true | None => false end.

(** * Non-overlapping occurrences, from the left

    [k] counts the characters of an occurrence still to be skipped; the
    separator is not empty in any use. *)

Fixpoint count_aux (sub s : str) (k : nat) : nat :=
  match s with
  | [] => 0
  | _ :: t =>
      match k with
      | S k' => count_aux sub t k'
      | O => if prefixb sub s then S (count_aux sub t (length sub - 1))
             else count_aux sub t 0
      end
  end%nat.

Definition count (s sub : str) : Z := Z.of_nat (count_aux sub s 0).

Fixpoint replace_aux (old new s : str) (k : nat) : str :=
  match s with
  | [] => []
  | c :: t =>
      match k with
      | S k' => replace_aux old new t k'
      | O => if prefixb old s then new ++ replace_aux old new t (length old - 1)
             else c :: replace_aux old new t 0
      end
  end.

Definition replace (s old new : str) : str := replace_aux old new s 0.

(** [acc] is the current field, reversed. *)
Fixpoint split_aux (sep s : str) (k : nat) (acc : str) : list str :=
  match s with
  | [] => [reverse acc]
  | c :: t =>
      match k with
      | S k' => split_aux sep t k' acc
      | O => if prefixb sep s then reverse acc :: split_aux sep t (length sep - 1) []
             else split_aux sep t 0 (c :: acc)
      end
  end.

Definition split (s sep : str) : list str := split_aux sep s 0 [].

Fixpoint join (sep : str) (l : list str) : str :=
  match l with
  | [] => []
  | [x] => x
  | x :: l' => x ++ sep ++ join sep l'
  end.

(** [s.partition(sep)] *)
Definition partition (s sep : str) : str * str * str :=
  match find_nat sep s with
  | Some i => (take i s, sep, drop (i + length sep) s)
  | None => (s, [], [])
  end.

(** * White space *)

(** White space of [unicode.isspace] in Python 2.7. *)
Definition is_space (c : N) : bool :=
  ((9 <=? c) && (c <=? 13) || (28 <=? c) && (c <=? 32) || (c =? 133) || (c =? 160)
   || (c =? 5760) || (c =? 6158) || (8192 <=? c) && (c <=? 8202)
   || (c =? 8232) || (c =? 8233) || (c =? 8239) || (c =? 8287) || (c =? 12288))%N.

Fixpoint drop_while (p : N -> bool) (s : str) : str :=
  match s with
  | [] => []
  | c :: t => if p c then drop_while p t else s
  end.

Fixpoint take_while (p : N -> bool) (s : str) : str :=
  match s with
  | [] => []
  | c :: t => if p c then c :: take_while p t else []
  end.

Definition lstrip (s : str) : str := drop_while is_space s.
Definition rstrip (s : str) : str := reverse (drop_while is_space (reverse s)).
Definition strip (s : str) : str := rstrip (lstrip s).

(** [s.strip(chars)] and its one-sided variants *)
Definition mem_chars (chars : str) (c : N) : bool := existsb (N.eqb c) chars.
Definition lstrip_chars (s chars : str) : str := drop_while (mem_chars chars) s.
Definition rstrip_chars (s chars : str) : str :=
  reverse (drop_while (mem_chars chars) (reverse s)).
Definition strip_chars (s chars : str) : str :=
  rstrip_chars (lstrip_chars s chars) chars.

(** [s.isspace()]: not empty and only white space *)
Definition isspace (s : str) : bool := nonempty s && forallb is_space s.

(** [s.split()]: maximal runs of characters that are not white space *)
Fixpoint words_aux (s acc : str) : list str :=
  match s with
  | [] => if nonempty acc then [reverse acc] else []
  | c :: t =>
      if is_space c
      then (if nonempty acc then reverse acc :: words_aux t [] else words_aux t [])
      else words_aux t (c :: acc)
  end.

Definition words (s : str) : list str := words_aux s [].

(** * Character classes and case *)

Definition is_digit (c : N) : bool := ((48 <=? c) && (c <=? 57))%N.
Definition is_upper (c : N) : bool := ((65 <=? c) && (c <=? 90))%N.
Definition is_lower (c : N) : bool := ((97 <=? c) && (c <=? 122))%N.
Definition is_alnum (c : N) : bool := is_digit c || is_upper c || is_lower c.

Definition lower_char (c : N) : N := if is_upper c then (c + 32)%N else c.
Definition upper_char (c : N) : N := if is_lower c then (c - 32)%N else c.
Definition lower (s : str) : str := lower_char <$> s.
Definition upper (s : str) : str := upper_char <$> s.

(** [s.isdigit()] *)
Definition isdigit (s : str) : bool := nonempty s && forallb is_digit s.

(** [c * n] *)
Definition repeat_str (s : str) (n : Z) : str := concat (replicate (Z.to_nat n) s).

(** [str(n)], [%d] *)
Definition str_of_Z (n : Z) : str := of_string (pretty n).

(** [cmp] on strings: the order of code points *)
Fixpoint str_ltb (a b : str) : bool :=
  match a, b with
  | _, [] => false
  | [], _ :: _ => true
  | x :: a', y :: b' => (x <? y)%N || ((x =? y)%N && str_ltb a' b')
  end.

(** * Lemmas *)

Lemma prefixb_app (p s : str) : prefixb p (p ++ s) = true.
Proof. induction p as [|x p IH]; simpl; [done|]. by rewrite N.eqb_refl. Qed.

Lemma prefixb_spec (p s : str) : prefixb p s = true <-> exists t, s = p ++ t.
Proof.
  split; [|intros [t ->]; apply prefixb_app].
  revert s. induction p as [|x p IH]; intros s; simpl; [by exists s|].
  destruct s as [|y s]; [done|]. intros H. bool_hyps. subst.
  destruct (IH s) as [t ->]; [done|]. by exists t.
Qed.

Lemma prefixb_length (p s : str) : prefixb p s = true -> (length p <= length s)%nat.
Proof. intros [t ->]%prefixb_spec. rewrite length_app. lia. Qed.

Lemma prefixb_take_drop (p s : str) :
  prefixb p s = true -> s = p ++ drop (length p) s.
Proof. intros [t ->]%prefixb_spec. by rewrite drop_app_length. Qed.

Lemma prefixb_refl (p : str) : prefixb p p = true.
Proof. apply prefixb_spec. exists []. by rewrite app_nil_r. Qed.

Lemma startswith_spec (s p : str) : startswith s p = true <-> exists t, s = p ++ t.
Proof. apply prefixb_spec. Qed.

Lemma endswith_spec (s p : str) : endswith s p = true <-> exists t, s = t ++ p.
Proof.
  unfold endswith. rewrite prefixb_spec. split; intros [t Ht].
  - exists (reverse t). rewrite <- (reverse_involutive s), Ht, reverse_app.
    by rewrite reverse_involutive.
  - exists (reverse t). by rewrite Ht, reverse_app.
Qed.

Lemma find_nat_Some (sub s : str) i :
  find_nat sub s = Some i ->
  (i <= length s)%nat /\ prefixb sub (drop i s) = true.
Proof.
  revert i. induction s as [|c s IH]; intros i; simpl.
  - destruct (prefixb sub []) eqn:E; [|done]. intros [= <-]. simpl. by split; [lia|].
  - destruct (prefixb sub (c :: s)) eqn:E; [intros [= <-]; simpl; split; [lia|done]|].
    destruct (find_nat sub s) as [j|] eqn:Ej; [|done]. intros [= <-].
    destruct (IH j) as [? ?]; [done|]. simpl. split; [lia|done].
Qed.

Lemma find_nat_None (sub s : str) :
  find_nat sub s = None <-> forall i, prefixb sub (drop i s) = false.
Proof.
  split.
  - induction s as [|c s IH]; simpl; destruct (prefixb sub _) eqn:E; try done.
    + intros _ i. by destruct i.
    + destruct (find_nat sub s); [done|]. intros _ [|i]; [done|]. by apply IH.
  - induction s as [|c s IH]; intros H; simpl; pose proof (H 0%nat) as H0; simpl in H0;
      rewrite H0; [done|].
    rewrite IH; [done|]. intros i. apply (H (S i)).
Qed.

Lemma find_nat_first (sub s : str) i j :
  find_nat sub s = Some i -> (j < i)%nat -> prefixb sub (drop j s) = false.
Proof.
  revert i j. induction s as [|c s IH]; intros i j; simpl.
  - destruct (prefixb sub []); [intros [= <-]; lia|done].
  - destruct (prefixb sub (c :: s)) eqn:E; [intros [= <-]; lia|].
    destruct (find_nat sub s) as [k|] eqn:Ek; [|done]. intros [= <-] Hj.
    destruct j as [|j]; [done|]. simpl. eapply IH; [done|lia].
Qed.

Lemma find_nat_split (sub s : str) i :
  find_nat sub s = Some i -> s = take i s ++ sub ++ drop (i + length sub) s.
Proof.
  intros [_ H%prefixb_take_drop]%find_nat_Some.
  rewrite <- drop_drop. rewrite <- H. by rewrite take_drop.
Qed.

Lemma contains_spec (s sub : str) :
  contains s sub = true <-> exists a b, s = a ++ sub ++ b.
Proof.
  unfold contains. split.
  - destruct (find_nat sub s) as [i|] eqn:E; [|done]. intros _.
    apply find_nat_split in E. eauto.
  - intros (a & b & ->). destruct (find_nat sub (a ++ sub ++ b)) eqn:E; [done|].
    rewrite find_nat_None in E. specialize (E (length a)).
    rewrite drop_app_length, prefixb_app in E. done.
Qed.

Lemma find_ge (s sub : str) : -1 <= find s sub.
Proof. unfold find. destruct (find_nat sub s); simpl; lia. Qed.

Lemma find_lt (s sub : str) : find s sub <= len s.
Proof.
  unfold find, len. destruct (find_nat sub s) eqn:E; simpl; [|lia].
  apply find_nat_Some in E. lia.
Qed.

Lemma find_nonneg_contains (s sub : str) : (0 <= find s sub) <-> contains s sub = true.
Proof. unfold find, contains. destruct (find_nat sub s); simpl; split; (lia || done). Qed.

Lemma drop_while_suffix p (s : str) : exists t, s = t ++ drop_while p s /\ forallb p t = true.
Proof.
  induction s as [|c s [t [Ht Hp]]]; simpl; [by exists []|].
  destruct (p c) eqn:E; [|by exists []].
  exists (c :: t). simpl. rewrite E. split; [by f_equal|done].
Qed.

Lemma drop_while_head p (s : str) c t : drop_while p s = c :: t -> p c = false.
Proof.
  induction s as [|d s IH]; simpl; [done|]. destruct (p d) eqn:E; [done|].
  by intros [= <- <-].
Qed.

Lemma drop_while_id p (s : str) :
  match s with [] => True | c :: _ => p c = false end -> drop_while p s = s.
Proof. destruct s; simpl; [done|]. by intros ->. Qed.

Lemma drop_while_all p (s : str) : forallb p s = true -> drop_while p s = [].
Proof. induction s as [|c s IH]; simpl; [done|]. intros H. bool_hyps. by rewrite H, IH. Qed.

Lemma drop_while_nil p (s : str) : drop_while p s = [] -> forallb p s = true.
Proof. induction s as [|c s IH]; simpl; [done|]. destruct (p c); [done|discriminate]. Qed.

Lemma take_drop_while p (s : str) : take_while p s ++ drop_while p s = s.
Proof. induction s as [|c s IH]; simpl; [done|]. destruct (p c); simpl; [by rewrite IH|done]. Qed.

Lemma length_drop_while p (s : str) : (length (drop_while p s) <= length s)%nat.
Proof. induction s as [|c s IH]; simpl; [lia|]. destruct (p c); simpl; lia. Qed.

Lemma length_replace_aux_char (a b : N) (s : str) :
  length (replace_aux [a] [b] s 0) = length s.
Proof.
  induction s as [|c s IH]; simpl; [done|].
  destruct ((a =? c)%N && true); simpl; by rewrite IH.
Qed.

Lemma replace_char (a b : N) (s : str) :
  replace s [a] [b] = (fun c => if (a =? c)%N then b else c) <$> s.
Proof.
  unfold replace. induction s as [|c s IH]; simpl; [done|].
  rewrite andb_true_r. destruct (a =? c)%N; simpl; by rewrite IH.
Qed.

(** A string without the pattern is left unchanged. *)
Lemma replace_not_contains (s old new : str) :
  contains s old = false -> replace s old new = s.
Proof.
  unfold replace, contains. destruct (find_nat old s) eqn:E; [done|]. intros _.
  rewrite find_nat_None in E. induction s as [|c s IH]; simpl; [done|].
  pose proof (E 0%nat) as E0. simpl in E0. rewrite E0. f_equal. apply IH.
  intros i. apply (E (S i)).
Qed.

Lemma slice_bound_le n i : (slice_bound n i <= n)%nat.
Proof. unfold slice_bound. destruct (Z.ltb_spec i 0); lia. Qed.

Lemma slice_from_pos {A} (s : list A) a : 0 <= a -> slice_from s a = drop (Z.to_nat a) s.
Proof.
  intros Ha. unfold slice_from, slice_bound. destruct (Z.ltb_spec a 0); [lia|].
  destruct (Nat.le_gt_cases (Z.to_nat a) (length s)).
  - by rewrite Nat.min_l by done.
  - rewrite Nat.min_r by lia. by rewrite !drop_ge by lia.
Qed.

Lemma slice_to_pos {A} (s : list A) b : 0 <= b -> slice_to s b = take (Z.to_nat b) s.
Proof.
  intros Hb. unfold slice_to, slice_bound. destruct (Z.ltb_spec b 0); [lia|].
  destruct (Nat.le_gt_cases (Z.to_nat b) (length s)).
  - by rewrite Nat.min_l by done.
  - rewrite Nat.min_r by lia. by rewrite !take_ge by lia.
Qed.

(** [s[1:-1]] of a bracketed string *)
Lemma slice_inner (a b : N) (s : str) : slice ([a] ++ s ++ [b]) 1 (-1) = s.
Proof.
  unfold slice, slice_bound. cbn [Z.ltb Z.compare].
  rewrite !length_app. cbn [length].
  replace (Nat.min (Z.to_nat 1) _) with 1%nat by lia.
  replace (Z.to_nat _ - 1)%nat with (length s) by lia.
  change (drop 1 ([a] ++ s ++ [b])) with (s ++ [b]). by rewrite take_app_length.
Qed.

Lemma words_aux_nonempty (s acc : str) w : w ∈ words_aux s acc -> nonempty w = true.
Proof.
  revert acc. induction s as [|c s IH]; intros acc; simpl.
  - destruct acc as [|a acc]; simpl; [by intros ?%not_elem_of_nil|].
    intros ->%list_elem_of_singleton. rewrite reverse_cons.
    by destruct (reverse acc).
  - destruct (is_space c); [|apply IH].
    destruct acc as [|a acc]; simpl; [apply IH|].
    intros [->|Hw]%elem_of_cons; [|by eapply IH].
    rewrite reverse_cons. by destruct (reverse acc).
Qed.

Lemma lower_char_idemp c : lower_char (lower_char c) = lower_char c.
Proof.
  unfold lower_char, is_upper. destruct ((65 <=? c)%N && (c <=? 90)%N) eqn:E; [|by rewrite E].
  apply andb_prop in E as [?%N.leb_le ?%N.leb_le].
  destruct ((65 <=? c + 32)%N && (c + 32 <=? 90)%N) eqn:E2; [|done].
  apply andb_prop in E2 as [?%N.leb_le ?%N.leb_le]. lia.
Qed.

Lemma lower_idemp s : lower (lower s) = lower s.
Proof.
  unfold lower. induction s as [|c s IH]; [done|].
  rewrite !fmap_cons, lower_char_idemp. f_equal. exact IH.
Qed.

#[export] Hint Resolve prefixb_app prefixb_refl slice_bound_le : py.
