(* ===== verification/Regex.v ===== *)
(** Python's [re] module, as far as the linter uses it: the syntax tree of a
    pattern, a parser of the pattern syntax ([sre_parse]), a backtracking
    matcher with captures, greedy and lazy repetition, look-ahead and back
    references ([_sre]), and [match], [search], [sub], [finditer], [findall],
    [split] and [escape].  [(rx ...)] parses a constant pattern when the file is
    compiled; a pattern that does not parse is an error of the development. *)

From S2P Require Import Prelude PyStr.

Open Scope Z_scope.

(** * Syntax *)

Inductive citem : Type :=
| CIChar (c : N)
| CIRange (lo hi : N)
| CIDigit | CINotDigit
| CISpace | CINotSpace
| CIWord | CINotWord.

Inductive regex : Type :=
| REmpty
| RSet (neg : bool) (items : list citem)
| RAny
| RSeq (r1 r2 : regex)
| RAlt (r1 r2 : regex)
| RRep (greedy : bool) (lo : nat) (hi : option nat) (r : regex)
| RGroup (n : nat) (r : regex)
| RBackref (n : nat)
| RBol
| REol
| RWordB (neg : bool)
| RLook (neg : bool) (r : regex).

Record pattern : Type := mkPattern {
  p_regex : regex;
  p_groups : nat;
  p_icase : bool
}.

(** * Characters

    The byte classes of a pattern compiled without the UNICODE flag. *)

Definition re_space (c : N) : bool := ((9 <=? c) && (c <=? 13) || (c =? 32))%N.
Definition re_word (c : N) : bool := is_alnum c || (c =? 95)%N.

Definition item_match (it : citem) (c : N) : bool :=
  match it with
  | CIChar d => (c =? d)%N
  | CIRange lo hi => ((lo <=? c) && (c <=? hi))%N
  | CIDigit => is_digit c
  | CINotDigit => negb (is_digit c)
  | CISpace => re_space c
  | CINotSpace => negb (re_space c)
  | CIWord => re_word c
  | CINotWord => negb (re_word c)
  end.

Definition set_match (icase neg : bool) (items : list citem) (c : N) : bool :=
  xorb neg
    (existsb (fun it => item_match it c
                        || (icase && (item_match it (lower_char c)
                                      || item_match it (upper_char c)))) items).

Definition newline : N := 10.

(** * Positions and captures *)

Abbreviation caps := (list (option (nat * nat))).

Definition word_at (s : str) (i : nat) : bool :=
  match s !! i with Some c => re_word c | None => false end.

Definition word_before (s : str) (i : nat) : bool :=
  match i with O => false | S j => word_at s j end.

Definition at_word_boundary (s : str) (i : nat) : bool :=
  xorb (word_before s i) (word_at s i).

(** [$]: the end of the string, or just before a newline that ends it *)
Definition at_eol (s : str) (i : nat) : bool :=
  (i =? length s)%nat
  || ((S i =? length s)%nat && match s !! i with Some c => (c =? newline)%N | None => false end).

(** The text a group has captured. *)
Definition captured (s : str) (c : caps) (n : nat) : option str :=
  match c !! n with
  | Some (Some (a, b)) => Some (take (b - a) (drop a s))
  | _ => None
  end.

Definition below (n : nat) (hi : option nat) : bool :=
  match hi with Some h => (n <? h)%nat | None => true end.

Definition or_else {A} (a : option A) (b : unit -> option A) : option A :=
  match a with Some _ => a | None => b tt end.

(** * The matcher

    [m r i c k] matches [r] at position [i] under captures [c] and then runs
    the continuation; [None] makes it backtrack.  An iteration that matched the
    empty string is the last one of its repetition, as in [_sre]. *)

Section Matcher.
Context (s : str) (icase : bool).

Definition cont : Type := nat -> caps -> option (nat * caps).

Section Loop.
Context (body : nat -> caps -> cont -> option (nat * caps)).
Context (greedy : bool) (lo : nat) (hi : option nat) (k : cont).

Fixpoint rep_loop (fuel cnt : nat) (last : option nat) (i : nat) (c : caps)
    : option (nat * caps) :=
  match fuel with
  | O => None
  | S f =>
      if (cnt <? lo)%nat then body i c (fun j c' => rep_loop f (S cnt) last j c')
      else
        let more (_ : unit) :=
          if below cnt hi && negb (bool_decide (last = Some i))
          then body i c (fun j c' => rep_loop f (S cnt) (Some i) j c')
          else None in
        if greedy then or_else (more tt) (fun _ => k i c)
        else or_else (k i c) more
  end.
End Loop.

(** Enough iterations: the mandatory ones, one per character left, an empty
    one and the final exit. *)
Definition rep_fuel (lo i : nat) : nat := lo + (length s - i) + 2.

Fixpoint m (r : regex) (i : nat) (c : caps) (k : cont) {struct r} : option (nat * caps) :=
  match r with
  | REmpty => k i c
  | RSet neg items =>
      match s !! i with
      | Some ch => if set_match icase neg items ch then k (S i) c else None
      | None => None
      end
  | RAny =>
      match s !! i with
      | Some ch => if (ch =? newline)%N then None else k (S i) c
      | None => None
      end
  | RSeq r1 r2 => m r1 i c (fun j c' => m r2 j c' k)
  | RAlt r1 r2 => or_else (m r1 i c k) (fun _ => m r2 i c k)
  | RRep greedy lo hi r1 => rep_loop (m r1) greedy lo hi k (rep_fuel lo i) 0 None i c
  | RGroup n r1 => m r1 i c (fun j c' => k j (<[n := Some (i, j)]> c'))
  | RBackref n =>
      match captured s c n with
      | Some t => if prefixb t (drop i s) then k (i + length t)%nat c else None
      | None => None
      end
  | RBol => if (i =? 0)%nat then k i c else None
  | REol => if at_eol s i then k i c else None
  | RWordB neg => if xorb neg (at_word_boundary s i) then k i c else None
  | RLook false r1 =>
      match m r1 i c (fun j c' => Some (j, c')) with
      | Some (_, c') => k i c'
      | None => None
      end
  | RLook true r1 =>
      match m r1 i c (fun j c' => Some (j, c')) with
      | Some _ => None
      | None => k i c
      end
  end.
End Matcher.

(** * Match objects *)

Record match_obj : Type := mkMatch {
  mo_string : str;
  mo_start : nat;
  mo_end : nat;
  mo_caps : caps
}.

(** [pattern.match] at a position *)
Definition match_at (p : pattern) (s : str) (i : nat) : option match_obj :=
  match m s (p_icase p) (p_regex p) i (replicate (S (p_groups p)) None)
          (fun j c => Some (j, c)) with
  | Some (j, c) => Some (mkMatch s i j c)
  | None => None
  end.

(** [n] more positions to try, from [i] on *)
Fixpoint search_from (p : pattern) (s : str) (n i : nat) : option match_obj :=
  match match_at p s i with
  | Some mo => Some mo
  | None => match n with O => None | S n' => search_from p s n' (S i) end
  end.

Definition search_at (p : pattern) (s : str) (i : nat) : option match_obj :=
  if (i <=? length s)%nat then search_from p s (length s - i) i else None.

Definition re_match (p : pattern) (s : str) : option match_obj := match_at p s 0.
Definition re_search (p : pattern) (s : str) : option match_obj := search_at p s 0.

(** [m.group(0)], and [m.group(n)], which is [None] for a group that did not
    take part in the match. *)
Definition group0 (mo : match_obj) : str :=
  take (mo_end mo - mo_start mo) (drop (mo_start mo) (mo_string mo)).

Definition group (mo : match_obj) (n : nat) : option str :=
  captured (mo_string mo) (mo_caps mo) n.

(** The text of a group that always takes part in a match of its pattern. *)
Definition grp (mo : match_obj) (n : nat) : str := default [] (group mo n).

(** [m.start()], [m.end()], [m.start(n)] (-1 for a group that did not take part) *)
Definition mstart (mo : match_obj) : Z := Z.of_nat (mo_start mo).
Definition mend (mo : match_obj) : Z := Z.of_nat (mo_end mo).
Definition mstart_group (mo : match_obj) (n : nat) : Z :=
  match mo_caps mo !! n with
  | Some (Some (a, _)) => Z.of_nat a
  | _ => -1
  end.

Definition is_some {A} (o : option A) : bool :=
  match o with Some _ => true | None => false end.

(** * Iterating over matches

    [scan] is the loop of [finditer]; [sub] ignores an empty match at the end
    of the previous one. *)

Fixpoint scan (p : pattern) (s : str) (fuel i : nat) : list match_obj :=
  match fuel with
  | O => []
  | S f =>
      match search_at p s i with
      | None => []
      | Some mo =>
          mo :: scan p s f (if (mo_end mo =? mo_start mo)%nat then S (mo_end mo) else mo_end mo)
      end
  end.

Definition finditer (p : pattern) (s : str) : list match_obj := scan p s (S (S (length s))) 0.

(** Text of [s] between the matches kept by [sub] and [split]; [e] is the end
    of the last one. *)
Fixpoint sub_pieces (s : str) (rep : match_obj -> str) (e : nat) (first : bool)
    (l : list match_obj) : str :=
  match l with
  | [] => drop e s
  | mo :: l' =>
      if negb first && (mo_start mo =? e)%nat && (mo_end mo =? e)%nat
      then sub_pieces s rep e first l'
      else take (mo_start mo - e) (drop e s) ++ rep mo ++ sub_pieces s rep (mo_end mo) false l'
  end.

Definition re_sub_fn (p : pattern) (rep : match_obj -> str) (s : str) : str :=
  sub_pieces s rep 0 true (finditer p s).

(** [pattern.sub(rep, s)] with a replacement without escapes *)
Definition re_sub (p : pattern) (rep s : str) : str := re_sub_fn p (fun _ => rep) s.

(** [re.findall] of a pattern with one group *)
Definition findall (p : pattern) (s : str) : list str :=
  (fun mo => default [] (group mo 1)) <$> finditer p s.

(** [re.split], which skips empty matches *)
Fixpoint split_pieces (s : str) (e : nat) (l : list match_obj) : list str :=
  match l with
  | [] => [drop e s]
  | mo :: l' =>
      if (mo_start mo =? mo_end mo)%nat then split_pieces s e l'
      else take (mo_start mo - e) (drop e s) :: split_pieces s (mo_end mo) l'
  end.

Definition re_split (p : pattern) (s : str) : list str := split_pieces s 0 (finditer p s).

(** * Parsing patterns

    A token is a character or a backslash with the character after it. *)

Inductive tok : Type := TC (c : N) | TE (c : N).

Fixpoint tokenize (s : str) : option (list tok) :=
  match s with
  | [] => Some []
  | c :: t =>
      if (c =? "\"%char)%N then
        match t with
        | [] => None
        | d :: t' => l ← tokenize t'; Some (TE d :: l)
        end
      else l ← tokenize t; Some (TC c :: l)
  end.

Definition is_tc (c : N) (t : tok) : bool :=
  match t with TC d => (c =? d)%N | TE _ => false end.

Definition ceq (c : N) (a : Ascii.ascii) : bool := (c =? Ascii.N_of_ascii a)%N.

(** Escapes that stand for one character, in and out of a class. *)
Definition simple_escape (c : N) : option N :=
  if ceq c "n" then Some 10%N
  else if ceq c "t" then Some 9%N
  else if ceq c "r" then Some 13%N
  else if ceq c "f" then Some 12%N
  else if ceq c "v" then Some 11%N
  else if ceq c "a" then Some 7%N
  else if is_digit c || ceq c "x" then None
  else Some c.

Definition class_escape (c : N) : option citem :=
  if ceq c "d" then Some CIDigit
  else if ceq c "D" then Some CINotDigit
  else if ceq c "s" then Some CISpace
  else if ceq c "S" then Some CINotSpace
  else if ceq c "w" then Some CIWord
  else if ceq c "W" then Some CINotWord
  else None.

Definition set_escape (c : N) : option citem :=
  match class_escape c with
  | Some it => Some it
  | None => if ceq c "b" then Some (CIChar 8) else CIChar <$> simple_escape c
  end.

Definition set_item (t : tok) : option citem :=
  match t with TC c => Some (CIChar c) | TE c => set_escape c end.

Definition mk_range (a b : citem) : option citem :=
  match a, b with
  | CIChar lo, CIChar hi => if (lo <=? hi)%N then Some (CIRange lo hi) else None
  | _, _ => None
  end.

(** The items of a class up to its closing bracket; [first] when none has been
    read. *)
Fixpoint parse_set (fuel : nat) (first : bool) (ts : list tok) (acc : list citem)
    : option (list citem * list tok) :=
  match fuel with
  | O => None
  | S f =>
      match ts with
      | [] => None
      | t :: ts' =>
          if is_tc "]"%char t && negb first then Some (reverse acc, ts')
          else
            it ← set_item t;
            match ts' with
            | t1 :: t2 :: ts'' =>
                if is_tc "-"%char t1 then
                  if is_tc "]"%char t2
                  then Some (reverse (CIChar "-"%char :: it :: acc), ts'')
                  else it2 ← set_item t2;
                       rg ← mk_range it it2;
                       parse_set f false ts'' (rg :: acc)
                else parse_set f false ts' (it :: acc)
            | _ => parse_set f false ts' (it :: acc)
            end
      end
  end.

Fixpoint digits_value (acc : nat) (ds : list N) : nat :=
  match ds with
  | [] => acc
  | d :: t => digits_value (10 * acc + N.to_nat (d - 48)) t
  end.

Fixpoint take_digits (ts : list tok) : list N * list tok :=
  match ts with
  | TC c :: ts' =>
      if is_digit c then let '(ds, r) := take_digits ts' in (c :: ds, r) else ([], ts)
  | _ => ([], ts)
  end.

(** [{lo,hi}] after the opening brace; [None] when the brace is a literal. *)
Definition parse_braces (ts : list tok) : option (nat * option nat * list tok) :=
  match ts with
  | t :: _ => if is_tc "}"%char t then None else
      let '(lo, r) := take_digits ts in
      let '(hi, r') :=
        match r with
        | t' :: r1 => if is_tc ","%char t' then take_digits r1 else (lo, r)
        | [] => (lo, r)
        end in
      match r' with
      | t'' :: r'' =>
          if is_tc "}"%char t'' then
            Some (digits_value 0 lo,
                  if bool_decide (hi = []) then None else Some (digits_value 0 hi), r'')
          else None
      | [] => None
      end
  | [] => None
  end.

(** Repetition operator at the head of [ts]. *)
Definition parse_quant (ts : list tok) : option (nat * option nat * list tok) :=
  match ts with
  | TC c :: ts' =>
      if ceq c "*" then Some (0%nat, None, ts')
      else if ceq c "+" then Some (1%nat, None, ts')
      else if ceq c "?" then Some (0%nat, Some 1%nat, ts')
      else if ceq c "{" then parse_braces ts'
      else None
  | _ => None
  end.

(** An element of a sequence, and whether it can be repeated. *)
Abbreviation elem := (bool * regex)%type.

Definition seq_of (l : list elem) : regex :=
  match l with
  | [] => REmpty
  | e :: l' => foldl (fun r e' => RSeq e'.2 r) e.2 l'
  end.

Definition octal (c : N) : bool := ((48 <=? c) && (c <=? 55))%N.

(** An escape out of a class. *)
Definition parse_escape (c : N) (ts : list tok) : option (elem * list tok) :=
  match class_escape c with
  | Some it => Some ((true, RSet false [it]), ts)
  | None =>
      if ceq c "b" then Some ((false, RWordB false), ts)
      else if ceq c "B" then Some ((false, RWordB true), ts)
      else if ceq c "A" then Some ((false, RBol), ts)
      else if ceq c "0" then
        match ts with
        | TC d1 :: TC d2 :: ts' =>
            if octal d1 && octal d2
            then Some ((true, RSet false [CIChar (8 * (d1 - 48) + (d2 - 48))%N]), ts')
            else None
        | _ => None
        end
      else if is_digit c then
        match ts with
        | TC d :: _ => if is_digit d then None
                       else Some ((true, RBackref (N.to_nat (c - 48))), ts)
        | _ => Some ((true, RBackref (N.to_nat (c - 48))), ts)
        end
      else e ← simple_escape c; Some ((true, RSet false [CIChar e]), ts)
  end.

(** Alternatives up to a closing parenthesis or the end; [acc] holds the
    elements of the current alternative, last first. *)
Fixpoint parse_alt (fuel : nat) (ts : list tok) (g : nat) (acc : list elem)
    : option (regex * list tok * nat) :=
  match fuel with
  | O => None
  | S f =>
      match ts with
      | [] => Some (seq_of acc, [], g)
      | TE c :: ts' =>
          '(e, r) ← parse_escape c ts';
          parse_alt f r g (e :: acc)
      | TC c :: ts' =>
          if ceq c ")" then Some (seq_of acc, ts, g)
          else if ceq c "|" then
            '(r2, rest, g') ← parse_alt f ts' g [];
            Some (RAlt (seq_of acc) r2, rest, g')
          else
            match parse_quant ts with
            | Some (lo, hi, r) =>
                match acc with
                | (true, e) :: acc' =>
                    match r with
                    | TC q :: r' =>
                        if ceq q "?"
                        then parse_alt f r' g ((false, RRep false lo hi e) :: acc')
                        else parse_alt f r g ((false, RRep true lo hi e) :: acc')
                    | _ => parse_alt f r g ((false, RRep true lo hi e) :: acc')
                    end
                | _ => None
                end
            | None =>
                if ceq c "." then parse_alt f ts' g ((true, RAny) :: acc)
                else if ceq c "^" then parse_alt f ts' g ((false, RBol) :: acc)
                else if ceq c "$" then parse_alt f ts' g ((false, REol) :: acc)
                else if ceq c "[" then
                  '(neg, r) ← Some (match ts' with
                                     | t :: r => if is_tc "^"%char t then (true, r) else (false, ts')
                                     | [] => (false, ts')
                                     end);
                  '(items, r') ← parse_set f true r [];
                  parse_alt f r' g ((true, RSet neg items) :: acc)
                else if ceq c "(" then
                  (* the kind of the group, and its body *)
                  '(kind, body) ← (match ts' with
                    | TC q :: TC x :: r =>
                        if ceq q "?" then
                          if ceq x ":" then Some (1%nat, r)
                          else if ceq x "=" then Some (2%nat, r)
                          else if ceq x "!" then Some (3%nat, r)
                          else None
                        else Some (0%nat, ts')
                    | _ => Some (0%nat, ts')
                    end);
                  let n := if (kind =? 0)%nat then S g else g in
                  '(e, rest, g') ← parse_alt f body n [];
                  match rest with
                  | TC _ :: rest' =>
                      let e' := match kind with
                                | O => RGroup n e
                                | 1%nat => e
                                | 2%nat => RLook false e
                                | _ => RLook true e
                                end in
                      parse_alt f rest' g' ((true, e') :: acc)
                  | _ => None
                  end
                else parse_alt f ts' g ((true, RSet false [CIChar c]) :: acc)
            end
      end
  end.

(** The flag group [(?i)] at the head of a pattern. *)
Definition strip_icase (s : str) : bool * str :=
  if prefixb "(?i)" s then (true, drop 4 s) else (false, s).

Definition re_compile (s : str) : option pattern :=
  let '(icase, body) := strip_icase s in
  ts ← tokenize body;
  '(r, rest, g) ← parse_alt (S (S (length body))) ts 0 [];
  match rest with
  | [] => Some (mkPattern r g icase)
  | _ => None
  end.

(** The flag [re.I] *)
Definition with_icase (p : pattern) : pattern := mkPattern (p_regex p) (p_groups p) true.

(** A constant pattern, parsed at compile time. *)
Notation "'rx' p" :=
  (ltac:(let r := eval vm_compute in (re_compile p%string) in
         match r with Some ?x => exact x end))
  (at level 10, p at level 9, only parsing).

(** [re.escape] *)
Fixpoint escape (s : str) : str :=
  match s with
  | [] => []
  | c :: t =>
      (if is_alnum c then [c]
       else if (c =? 0)%N then of_string "\000"
       else [Ascii.N_of_ascii "\"%char; c]) ++ escape t
  end.
