(* ===== verification/RegexFacts.v ===== *)
(** What the matcher of [Regex] computes: a reference semantics as the ordered
    list of all ways to match ([outs]), a declarative relation without order or
    fuel ([Mt]), their agreement with the matcher, and what follows for
    [match] and [search]. *)

From S2P Require Import Prelude PyStr Regex.

#[local] Set Warnings "-clear-no-such-hyp".

Open Scope nat_scope.

(** * Reference semantics *)

Fixpoint first_some {A B} (k : A -> option B) (l : list A) : option B :=
  match l with
  | [] => None
  | x :: l' => match k x with Some y => Some y | None => first_some k l' end
  end.

Section Semantics.
Context (s : str) (icase : bool).

(** Iterations of a body given by the list of its matches. *)
Fixpoint rep_outs (body : nat -> caps -> list (nat * caps)) (greedy : bool) (lo : nat)
    (hi : option nat) (fuel cnt : nat) (last : option nat) (i : nat) (c : caps)
    : list (nat * caps) :=
  match fuel with
  | O => []
  | S f =>
      if cnt <? lo
      then body i c ≫= fun x => rep_outs body greedy lo hi f (S cnt) last x.1 x.2
      else
        let more :=
          if below cnt hi && negb (bool_decide (last = Some i))
          then body i c ≫= fun x => rep_outs body greedy lo hi f (S cnt) (Some i) x.1 x.2
          else [] in
        if greedy then more ++ [(i, c)] else (i, c) :: more
  end.

(** All the ways to match [r] at [i], in the order they are tried. *)
Fixpoint outs (r : regex) (i : nat) (c : caps) : list (nat * caps) :=
  match r with
  | REmpty => [(i, c)]
  | RSet neg items =>
      match s !! i with
      | Some ch => if set_match icase neg items ch then [(S i, c)] else []
      | None => []
      end
  | RAny =>
      match s !! i with
      | Some ch => if (ch =? newline)%N then [] else [(S i, c)]
      | None => []
      end
  | RSeq r1 r2 => outs r1 i c ≫= fun x => outs r2 x.1 x.2
  | RAlt r1 r2 => outs r1 i c ++ outs r2 i c
  | RRep greedy lo hi r1 => rep_outs (outs r1) greedy lo hi (rep_fuel s lo i) 0 None i c
  | RGroup n r1 => (fun x => (x.1, <[n := Some (i, x.1)]> x.2)) <$> outs r1 i c
  | RBackref n =>
      match captured s c n with
      | Some t => if prefixb t (drop i s) then [(i + length t, c)] else []
      | None => []
      end
  | RBol => if i =? 0 then [(i, c)] else []
  | REol => if at_eol s i then [(i, c)] else []
  | RWordB neg => if xorb neg (at_word_boundary s i) then [(i, c)] else []
  | RLook false r1 => match outs r1 i c with [] => [] | x :: _ => [(i, x.2)] end
  | RLook true r1 => match outs r1 i c with [] => [(i, c)] | _ => [] end
  end.

(** Iterations of a body given by a relation. *)
Inductive Rep (B : nat -> caps -> nat -> caps -> Prop) (lo : nat) (hi : option nat)
    : nat -> option nat -> nat -> caps -> nat -> caps -> Prop :=
| Rep_stop cnt last i c : lo <= cnt -> Rep B lo hi cnt last i c i c
| Rep_must cnt last i c j c' e c'' :
    cnt < lo -> B i c j c' -> Rep B lo hi (S cnt) last j c' e c'' ->
    Rep B lo hi cnt last i c e c''
| Rep_more cnt last i c j c' e c'' :
    lo <= cnt -> below cnt hi = true -> last <> Some i -> B i c j c' ->
    Rep B lo hi (S cnt) (Some i) j c' e c'' ->
    Rep B lo hi cnt last i c e c''.

(** [r] matches from [i] to [j], turning the captures [c] into [c']. *)
Fixpoint Mt (r : regex) (i : nat) (c : caps) (j : nat) (c' : caps) : Prop :=
  match r with
  | REmpty => j = i /\ c' = c
  | RSet neg items =>
      exists ch, s !! i = Some ch /\ set_match icase neg items ch = true
                 /\ j = S i /\ c' = c
  | RAny => exists ch, s !! i = Some ch /\ ch <> newline /\ j = S i /\ c' = c
  | RSeq r1 r2 => exists k ck, Mt r1 i c k ck /\ Mt r2 k ck j c'
  | RAlt r1 r2 => Mt r1 i c j c' \/ Mt r2 i c j c'
  | RRep _ lo hi r1 => Rep (Mt r1) lo hi 0 None i c j c'
  | RGroup n r1 => exists c1, Mt r1 i c j c1 /\ c' = <[n := Some (i, j)]> c1
  | RBackref n =>
      exists t, captured s c n = Some t /\ prefixb t (drop i s) = true
                /\ j = i + length t /\ c' = c
  | RBol => i = 0 /\ j = i /\ c' = c
  | REol => at_eol s i = true /\ j = i /\ c' = c
  | RWordB neg => xorb neg (at_word_boundary s i) = true /\ j = i /\ c' = c
  | RLook false r1 => j = i /\ exists e l, outs r1 i c = (e, c') :: l
  | RLook true r1 => j = i /\ c' = c /\ outs r1 i c = []
  end.

(** * The matcher finds the first success of the reference semantics *)

Lemma first_some_ext {A B} (k k' : A -> option B) l :
  (forall x, k x = k' x) -> first_some k l = first_some k' l.
Proof. intros H. induction l as [|x l IH]; simpl; [done|]. by rewrite H, IH. Qed.

Lemma first_some_app {A B} (k : A -> option B) l1 l2 :
  first_some k (l1 ++ l2) = or_else (first_some k l1) (fun _ => first_some k l2).
Proof. induction l1 as [|x l1 IH]; simpl; [done|]. by destruct (k x). Qed.

Lemma first_some_bind {A B C} (k : B -> option C) (f : A -> list B) l :
  first_some k (l ≫= f) = first_some (fun x => first_some k (f x)) l.
Proof.
  induction l as [|x l IH]; [done|].
  rewrite bind_cons, first_some_app, IH. simpl. by destruct (first_some k (f x)).
Qed.

Lemma first_some_fmap {A B C} (k : B -> option C) (f : A -> B) l :
  first_some k (f <$> l) = first_some (fun x => k (f x)) l.
Proof.
  induction l as [|x l IH]; [done|]. rewrite fmap_cons. simpl.
  destruct (k (f x)); [done|]. exact IH.
Qed.

Definition unc (k : cont) : nat * caps -> option (nat * caps) := fun x => k x.1 x.2.

Lemma rep_loop_outs body bodyl greedy lo hi k :
  (forall i c k', body i c k' = first_some (unc k') (bodyl i c)) ->
  forall fuel cnt last i c,
    rep_loop body greedy lo hi k fuel cnt last i c
    = first_some (unc k) (rep_outs bodyl greedy lo hi fuel cnt last i c).
Proof.
  intros Hb. induction fuel as [|f IH]; intros cnt last i c; [done|].
  cbn [rep_loop rep_outs]. destruct (cnt <? lo).
  { rewrite Hb, first_some_bind. apply first_some_ext. intros [j c']. apply IH. }
  set (more := if below cnt hi && _ then body _ _ _ else None).
  set (morel := if below cnt hi && _ then bodyl i c ≫= _ else []).
  assert (more = first_some (unc k) morel) as Hm.
  { unfold more, morel. destruct (below cnt hi && _); [|done].
    rewrite Hb, first_some_bind. apply first_some_ext. intros [j c']. apply IH. }
  destruct greedy.
  - rewrite first_some_app, <- Hm. unfold or_else. destruct more; [done|].
    cbn. unfold unc. simpl. by destruct (k i c).
  - cbn [first_some]. unfold unc at 1. simpl. unfold or_else. fold more.
    destruct (k i c); [done|]. done.
Qed.

Lemma m_outs r : forall i c k, m s icase r i c k = first_some (unc k) (outs r i c).
Proof.
  induction r as [|neg items| |r1 IH1 r2 IH2|r1 IH1 r2 IH2|g lo hi r IH|n r IH|n| | |neg|neg r IH];
    intros i c k; cbn [m outs].
  - simpl. unfold unc. simpl. by destruct (k i c).
  - destruct (s !! i); [|done]. destruct set_match; [|done].
    simpl. unfold unc. simpl. by destruct (k _ c).
  - destruct (s !! i) as [ch|]; [|done]. destruct (ch =? newline)%N; [done|].
    simpl. unfold unc. simpl. by destruct (k _ c).
  - rewrite IH1, first_some_bind. apply first_some_ext. intros [j c']. apply IH2.
  - by rewrite first_some_app, IH1, IH2.
  - by apply rep_loop_outs.
  - rewrite IH, first_some_fmap. done.
  - destruct captured; [|done]. destruct prefixb; [|done].
    simpl. unfold unc. simpl. by destruct (k _ c).
  - destruct (i =? 0); [|done]. simpl. unfold unc. simpl. by destruct (k i c).
  - destruct at_eol; [|done]. simpl. unfold unc. simpl. by destruct (k i c).
  - destruct xorb; [|done]. simpl. unfold unc. simpl. by destruct (k i c).
  - rewrite !IH. destruct neg; destruct (outs r i c) as [|[e c'] l]; simpl; try done;
      unfold unc; simpl; by destruct (k i _).
Qed.

(** * Bounds *)

Lemma Rep_bounds (B : nat -> caps -> nat -> caps -> Prop) lo hi cnt last i c j c' :
  (forall i c j c', B i c j c' -> i <= j <= Nat.max i (length s)) ->
  Rep B lo hi cnt last i c j c' -> i <= j <= Nat.max i (length s).
Proof.
  intros HB. induction 1 as [|????????? H1|??????????? H1]; [lia| |];
    apply HB in H1; lia.
Qed.

Lemma lookup_bound i ch : s !! i = Some ch -> i < length s.
Proof. apply lookup_lt_Some. Qed.

Lemma Mt_bounds r i c j c' : Mt r i c j c' -> i <= j <= Nat.max i (length s).
Proof.
  revert i c j c'.
  induction r as [|neg items| |r1 IH1 r2 IH2|r1 IH1 r2 IH2|g lo hi r IH|n r IH|n| | |neg|neg r IH];
    intros i c j c'; simpl.
  - intros [-> _]. lia.
  - intros (ch & H%lookup_bound & _ & -> & _). lia.
  - intros (ch & H%lookup_bound & _ & -> & _). lia.
  - intros (k & ck & H1%IH1 & H2%IH2). lia.
  - intros [H%IH1|H%IH2]; lia.
  - by apply Rep_bounds.
  - intros (c1 & H%IH & _). lia.
  - intros (t & _ & H%prefixb_length & -> & _). rewrite length_drop in H. lia.
  - intros (_ & -> & _). lia.
  - intros (_ & -> & _). lia.
  - intros (_ & -> & _). lia.
  - destruct neg; [intros (-> & _)|intros (-> & _)]; lia.
Qed.

(** * The reference semantics is the declarative relation *)

Lemma rep_outs_sound bodyl (B : nat -> caps -> nat -> caps -> Prop) g lo hi :
  (forall i c j c', (j, c') ∈ bodyl i c -> B i c j c') ->
  forall fuel cnt last i c j c',
    (j, c') ∈ rep_outs bodyl g lo hi fuel cnt last i c -> Rep B lo hi cnt last i c j c'.
Proof.
  intros HB. induction fuel as [|f IH]; intros cnt last i c j c'; cbn [rep_outs];
    [by intros ?%not_elem_of_nil|].
  destruct (Nat.ltb_spec cnt lo) as [Hlt|Hge].
  { intros ([k ck] & Hr & Hk)%list_elem_of_bind. eapply Rep_must; eauto. }
  set (morel := if below cnt hi && _ then bodyl i c ≫= _ else []).
  assert ((j, c') ∈ morel -> Rep B lo hi cnt last i c j c') as Hmore.
  { unfold morel. destruct (below cnt hi && _) eqn:E; [|by intros ?%not_elem_of_nil].
    bool_hyps. intros ([k ck] & Hr & Hk)%list_elem_of_bind. eapply Rep_more; eauto. }
  destruct g.
  - intros [?|[= -> ->]%list_elem_of_singleton]%elem_of_app; [by apply Hmore|by constructor].
  - intros [[= -> ->]|?]%elem_of_cons; [by constructor|by apply Hmore].
Qed.

Definition rep_need (lo cnt : nat) (last : option nat) (i : nat) : nat :=
  (lo - cnt) + (length s - i) + (if bool_decide (last = Some i) then 1 else 2).

(** [rep_need] bounds the fuel an iteration uses: every step but an empty one
    consumes a mandatory iteration or a character. *)
Lemma rep_outs_complete bodyl (B : nat -> caps -> nat -> caps -> Prop) g lo hi :
  (forall i c j c', B i c j c' -> (j, c') ∈ bodyl i c) ->
  (forall i c j c', B i c j c' -> i <= j <= Nat.max i (length s)) ->
  forall cnt last i c j c',
    Rep B lo hi cnt last i c j c' ->
    forall fuel, rep_need lo cnt last i <= fuel ->
    (j, c') ∈ rep_outs bodyl g lo hi fuel cnt last i c.
Proof.
  intros HB Hb cnt last i c j c'.
  induction 1 as [cnt last i c Hlo|cnt last i c k ck e c'' Hlt H1 H2 IH
                 |cnt last i c k ck e c'' Hlo Hbel Hlast H1 H2 IH];
    intros fuel Hf; unfold rep_need in *; destruct fuel as [|f];
    try (exfalso; case_bool_decide; lia); cbn [rep_outs].
  - destruct (Nat.ltb_spec cnt lo) as [?|?]; [lia|].
    destruct g; [apply elem_of_app; right; by left|by left].
  - destruct (Nat.ltb_spec cnt lo) as [?|?]; [|lia].
    apply list_elem_of_bind. exists (k, ck). split; [|by apply HB].
    apply IH. pose proof (Hb _ _ _ _ H1).
    destruct (decide (k = i)) as [->|]; repeat case_bool_decide; simplify_eq; lia.
  - destruct (Nat.ltb_spec cnt lo) as [?|?]; [lia|].
    rewrite Hbel. rewrite (bool_decide_eq_false_2 _ Hlast). simpl.
    assert ((e, c'') ∈ bodyl i c ≫= fun x => rep_outs bodyl g lo hi f (S cnt) (Some i) x.1 x.2).
    { apply list_elem_of_bind. exists (k, ck). split; [|by apply HB].
      apply IH. pose proof (Hb _ _ _ _ H1).
      rewrite (bool_decide_eq_false_2 _ Hlast) in Hf.
      destruct (decide (i = k)) as [->|]; [rewrite bool_decide_eq_true_2 by done; lia|].
      rewrite bool_decide_eq_false_2 by congruence. lia. }
    destruct g; [apply elem_of_app; by left|by right].
Qed.

Lemma elem_of_if_singleton {A} (b : bool) (x y : A) :
  x ∈ (if b then [y] else []) <-> b = true /\ x = y.
Proof.
  destruct b; [rewrite list_elem_of_singleton; naive_solver|].
  split; [by intros ?%not_elem_of_nil|naive_solver].
Qed.

Theorem outs_Mt r i c j c' : (j, c') ∈ outs r i c <-> Mt r i c j c'.
Proof.
  revert i c j c'.
  induction r as [|neg items| |r1 IH1 r2 IH2|r1 IH1 r2 IH2|g lo hi r IH|n r IH|n| | |neg|neg r IH];
    intros i c j c'; cbn [outs Mt].
  - rewrite list_elem_of_singleton. naive_solver.
  - destruct (s !! i); [rewrite elem_of_if_singleton; naive_solver|].
    split; [by intros ?%not_elem_of_nil|naive_solver].
  - destruct (s !! i) as [ch|]; [|split; [by intros ?%not_elem_of_nil|naive_solver]].
    destruct (N.eqb_spec ch newline).
    + split; [by intros ?%not_elem_of_nil|naive_solver].
    + rewrite list_elem_of_singleton. naive_solver.
  - rewrite list_elem_of_bind. split.
    + intros ([k ck] & H2%IH2 & H1%IH1). eauto.
    + intros (k & ck & H1%IH1 & H2%IH2). by exists (k, ck).
  - by rewrite elem_of_app, IH1, IH2.
  - split.
    + apply rep_outs_sound. intros. by apply IH.
    + intros H. eapply rep_outs_complete; [..|exact H|].
      * intros. by apply IH.
      * intros. eapply Mt_bounds. done.
      * unfold rep_need, rep_fuel. case_bool_decide; lia.
  - rewrite list_elem_of_fmap. split.
    + intros ([k ck] & [= -> ->] & H%IH). eauto.
    + intros (c1 & H%IH & ->). by exists (j, c1).
  - destruct captured; [rewrite elem_of_if_singleton; naive_solver|].
    split; [by intros ?%not_elem_of_nil|naive_solver].
  - rewrite elem_of_if_singleton, Nat.eqb_eq. naive_solver.
  - rewrite elem_of_if_singleton. naive_solver.
  - rewrite elem_of_if_singleton. naive_solver.
  - destruct neg; destruct (outs r i c) as [|[e ce] l];
      rewrite ?list_elem_of_singleton; split;
      try (by intros ?%not_elem_of_nil); naive_solver.
Qed.
End Semantics.

Arguments Mt : simpl never.

(** * Matching at a position *)

Definition caps0 (p : pattern) : caps := replicate (S (p_groups p)) None.

(** [p] matches [s] from [i] to [j]. *)
Definition matches_at (p : pattern) (s : str) (i j : nat) : Prop :=
  exists c', Mt s (p_icase p) (p_regex p) i (caps0 p) j c'.

Lemma match_at_outs p s i :
  match_at p s i =
  match outs s (p_icase p) (p_regex p) i (caps0 p) with
  | [] => None
  | x :: _ => Some (mkMatch s i x.1 x.2)
  end.
Proof.
  unfold match_at. rewrite m_outs. unfold caps0. by destruct outs as [|[j c] l].
Qed.

Lemma match_at_Some p s i mo :
  match_at p s i = Some mo ->
  mo_string mo = s /\ mo_start mo = i
  /\ Mt s (p_icase p) (p_regex p) i (caps0 p) (mo_end mo) (mo_caps mo).
Proof.
  rewrite match_at_outs. destruct outs as [|[j c] l] eqn:E; [done|].
  intros [= <-]. simpl. split_and!; [done..|]. apply outs_Mt. rewrite E. by left.
Qed.

Lemma match_at_None p s i : match_at p s i = None <-> forall j, ~ matches_at p s i j.
Proof.
  rewrite match_at_outs. split.
  - destruct outs eqn:E; [|done]. intros _ j [c' H%outs_Mt]. rewrite E in H.
    by apply not_elem_of_nil in H.
  - intros H. destruct outs as [|[j c'] l] eqn:E; [done|]. exfalso.
    apply (H j). exists c'. apply outs_Mt. rewrite E. by left.
Qed.

Lemma match_at_is_some p s i :
  is_some (match_at p s i) = true <-> exists j, matches_at p s i j.
Proof.
  destruct (match_at p s i) eqn:E; simpl; split; try done.
  - intros _. apply match_at_Some in E as (_ & _ & H). by eexists _, _.
  - intros [j Hj]. rewrite match_at_None in E. by destruct (E j).
Qed.

Lemma match_at_bounds p s i mo :
  i <= length s -> match_at p s i = Some mo -> i <= mo_end mo <= length s.
Proof. intros Hi (_ & _ & H%Mt_bounds)%match_at_Some. lia. Qed.

(** * Searching *)

Lemma search_from_Some p s n i mo :
  search_from p s n i = Some mo ->
  exists k, i <= k <= i + n /\ match_at p s k = Some mo
            /\ forall k', i <= k' < k -> match_at p s k' = None.
Proof.
  revert i. induction n as [|n IH]; intros i; simpl; destruct (match_at p s i) eqn:E.
  - intros [= <-]. exists i. split_and!; [lia..|done|lia].
  - done.
  - intros [= <-]. exists i. split_and!; [lia..|done|lia].
  - intros (k & Hk & Hm & Hn)%IH. exists k. split_and!; [lia..|done|].
    intros k' ?. destruct (decide (k' = i)) as [->|]; [done|]. apply Hn. lia.
Qed.

Lemma search_from_None p s n i :
  search_from p s n i = None <-> forall k, i <= k <= i + n -> match_at p s k = None.
Proof.
  revert i. induction n as [|n IH]; intros i; simpl; destruct (match_at p s i) eqn:E.
  - split; [done|]. intros H. rewrite H in E by lia. done.
  - split; [|done]. intros _ k ?. by replace k with i by lia.
  - split; [done|]. intros H. rewrite H in E by lia. done.
  - rewrite IH. split; intros H k Hk; [|apply H; lia].
    destruct (decide (k = i)) as [->|]; [done|]. apply H. lia.
Qed.

Lemma re_search_Some p s mo :
  re_search p s = Some mo ->
  match_at p s (mo_start mo) = Some mo /\ mo_start mo <= mo_end mo <= length s
  /\ forall k, k < mo_start mo -> match_at p s k = None.
Proof.
  unfold re_search, search_at. simpl. intros (k & Hk & Hm & Hn)%search_from_Some.
  pose proof (match_at_Some _ _ _ _ Hm) as (_ & <- & _).
  pose proof (match_at_bounds p s (mo_start mo) mo ltac:(lia) Hm).
  split_and!; [done|lia..|]. intros k' ?. apply Hn. lia.
Qed.

Lemma re_search_None p s :
  re_search p s = None <-> forall i j, i <= length s -> ~ matches_at p s i j.
Proof.
  unfold re_search, search_at. simpl. rewrite search_from_None. split.
  - intros H i j ?. apply match_at_None. apply H. lia.
  - intros H k ?. apply match_at_None. intros j. apply H. lia.
Qed.

Lemma re_search_is_some p s :
  is_some (re_search p s) = true <-> exists i j, i <= length s /\ matches_at p s i j.
Proof.
  destruct (re_search p s) eqn:E; simpl; split; try done.
  - intros _. apply re_search_Some in E as (H & ? & _).
    apply match_at_Some in H as (_ & _ & H). eexists _, _. split; [|by eexists]. lia.
  - intros (i & j & Hi & Hm). rewrite re_search_None in E. by destruct (E i j).
Qed.

(** * Reasoning about concrete patterns *)

(** Patterns without groups leave the captures alone. *)
Fixpoint no_groups (r : regex) : bool :=
  match r with
  | RSeq r1 r2 | RAlt r1 r2 => no_groups r1 && no_groups r2
  | RRep _ _ _ r1 => no_groups r1
  | RLook false r1 => no_groups r1
  | RGroup _ _ => false
  | _ => true
  end.

(** A lower bound on the length of what a pattern matches. *)
Fixpoint min_len (r : regex) : nat :=
  match r with
  | RSet _ _ | RAny => 1
  | RSeq r1 r2 => min_len r1 + min_len r2
  | RAlt r1 r2 => Nat.min (min_len r1) (min_len r2)
  | RRep _ lo _ r1 => lo * min_len r1
  | RGroup _ r1 => min_len r1
  | _ => 0
  end.

Section Concrete.
Context (s : str) (icase : bool).

Lemma Rep_no_caps (B : nat -> caps -> nat -> caps -> Prop) lo hi cnt last i c j c' :
  (forall i c j c', B i c j c' -> c' = c) -> Rep B lo hi cnt last i c j c' -> c' = c.
Proof. intros HB. induction 1; [done| |]; naive_solver. Qed.

Lemma Mt_no_groups r i c j c' :
  no_groups r = true -> Mt s icase r i c j c' -> c' = c.
Proof.
  revert i c j c'.
  induction r as [|neg items| |r1 IH1 r2 IH2|r1 IH1 r2 IH2|g lo hi r IH|n r IH|n| | |neg|neg r IH];
    intros i c j c' Hn; cbn [Mt no_groups] in *; bool_hyps.
  - by intros [_ ->].
  - by intros (ch & _ & _ & _ & ->).
  - by intros (ch & _ & _ & _ & ->).
  - intros (k & ck & H1 & H2). apply IH1 in H1 as ->; [|done]. by apply IH2 in H2.
  - intros [H1|H2]; [by apply IH1 in H1|by apply IH2 in H2].
  - apply Rep_no_caps. intros ????. by apply IH.
  - done.
  - by intros (t & _ & _ & _ & ->).
  - by intros (_ & _ & ->).
  - by intros (_ & _ & ->).
  - by intros (_ & _ & ->).
  - destruct neg; [by intros (_ & -> & _)|]. intros (-> & e & l & E).
    apply (IH i c e c'); [done|]. apply outs_Mt. rewrite E. by left.
Qed.

Lemma Rep_min (B : nat -> caps -> nat -> caps -> Prop) n lo hi cnt last i c j c' :
  (forall i c j c', B i c j c' -> (i + n <= j)%nat) ->
  Rep B lo hi cnt last i c j c' -> (i + (lo - cnt) * n <= j)%nat.
Proof.
  intros HB. induction 1 as [cnt last i c H|cnt last i c k ck e c'' Hlt H1 H2 IH
                            |cnt last i c k ck e c'' Hlo _ _ H1 H2 IH].
  - replace (lo - cnt)%nat with 0%nat by lia. lia.
  - apply HB in H1. replace (lo - cnt)%nat with (S (lo - S cnt)) by lia. lia.
  - apply HB in H1. replace (lo - cnt)%nat with 0%nat by lia. lia.
Qed.

Lemma Mt_min_len r i c j c' : Mt s icase r i c j c' -> (i + min_len r <= j)%nat.
Proof.
  revert i c j c'.
  induction r as [|neg items| |r1 IH1 r2 IH2|r1 IH1 r2 IH2|g lo hi r IH|n r IH|n| | |neg|neg r IH];
    intros i c j c'; cbn [Mt min_len].
  - intros [-> _]. lia.
  - intros (ch & _ & _ & -> & _). lia.
  - intros (ch & _ & _ & -> & _). lia.
  - intros (k & ck & H1%IH1 & H2%IH2). lia.
  - intros [H%IH1|H%IH2]; lia.
  - intros H%(Rep_min _ (min_len r)); [|done]. by rewrite Nat.sub_0_r in H.
  - intros (c1 & H%IH & _). lia.
  - intros (t & _ & _ & -> & _). lia.
  - intros (_ & -> & _). lia.
  - intros (_ & -> & _). lia.
  - intros (_ & -> & _). lia.
  - destruct neg; [intros (-> & _)|intros (-> & _)]; lia.
Qed.

(** A body that consumes one character satisfying [P]. *)
Definition one_char (B : nat -> caps -> nat -> caps -> Prop) (P : N -> Prop) : Prop :=
  forall i c j c', B i c j c' <-> exists ch, s !! i = Some ch /\ P ch /\ j = S i /\ c' = c.

Definition run_of (P : N -> Prop) (i j : nat) : Prop :=
  forall k, (i <= k < j)%nat -> exists ch, s !! k = Some ch /\ P ch.

Lemma Rep_one_char_run B P hi cnt last i c j c' :
  one_char B P -> Rep B 0 hi cnt last i c j c' ->
  (i <= j)%nat /\ c' = c /\ run_of P i j.
Proof.
  intros HB. remember 0%nat as lo eqn:Hlo.
  induction 1 as [|cnt last i c k ck e c'' Hlt|cnt last i c k ck e c'' _ _ _ H1 _ IH];
    subst; [split_and!; [done..|]; intros ??; lia|lia|].
  apply HB in H1 as (ch & Hch & Hm & -> & ->). destruct IH as (Hle & -> & Hall).
  split_and!; [lia|done|]. intros k Hk.
  destruct (decide (k = i)) as [->|]; [by exists ch|]. apply Hall. lia.
Qed.

Lemma run_Rep_one_char B P n cnt last i c :
  one_char B P -> (forall l, last = Some l -> (l < i)%nat) -> run_of P i (i + n) ->
  Rep B 0 None cnt last i c (i + n)%nat c.
Proof.
  intros HB. revert cnt last i. induction n as [|n IH]; intros cnt last i Hl Hall.
  - rewrite Nat.add_0_r. constructor. lia.
  - destruct (Hall i) as (ch & Hch & Hm); [lia|].
    apply (Rep_more _ _ _ _ _ i c (S i) c); [lia|done| | |].
    + intros ->. specialize (Hl i eq_refl). lia.
    + apply HB. by exists ch.
    + replace (i + S n)%nat with (S i + n)%nat by lia. apply IH.
      * intros l [= <-]. lia.
      * intros k Hk. apply Hall. lia.
Qed.

Lemma star_one_char B P i c j c' :
  one_char B P ->
  Rep B 0 None 0 None i c j c' <-> (i <= j)%nat /\ c' = c /\ run_of P i j.
Proof.
  intros HB. split; [by apply Rep_one_char_run|]. intros (Hle & -> & Hall).
  replace j with (i + (j - i))%nat by lia. apply (run_Rep_one_char _ P); [done..|].
  by replace (i + (j - i))%nat with j by lia.
Qed.

Definition set_char (neg : bool) (items : list citem) (ch : N) : Prop :=
  set_match icase neg items ch = true.

Definition not_newline (ch : N) : Prop := ch <> newline.

(** A greedy or lazy star of a class, or of [.], matches exactly the runs of
    its characters. *)
Lemma Mt_star_set g neg items i c j c' :
  Mt s icase (RRep g 0 None (RSet neg items)) i c j c' <->
  (i <= j)%nat /\ c' = c /\ run_of (set_char neg items) i j.
Proof. by apply star_one_char. Qed.

Lemma Mt_star_any g i c j c' :
  Mt s icase (RRep g 0 None RAny) i c j c' <->
  (i <= j)%nat /\ c' = c /\ run_of not_newline i j.
Proof. by apply star_one_char. Qed.

Lemma length_captured c n a b :
  c !! n = Some (Some (a, b)) -> (length (default [] (captured s c n)) <= b - a)%nat.
Proof. intros E. unfold captured. rewrite E. simpl. rewrite length_take. lia. Qed.

Lemma captured_insert c n i j :
  (n < length c)%nat ->
  captured s (<[n := Some (i, j)]> c) n = Some (take (j - i) (drop i s)).
Proof. intros H. unfold captured. by rewrite list_lookup_insert_eq. Qed.

Lemma captured_insert_ne c n n' v :
  n <> n' -> captured s (<[n := v]> c) n' = captured s c n'.
Proof. intros H. unfold captured. by rewrite list_lookup_insert_ne. Qed.
End Concrete.

(** No match, no substitution. *)
Lemma re_sub_no_match p rep s : re_search p s = None -> re_sub p rep s = s.
Proof.
  intros H. unfold re_sub, re_sub_fn, finditer. cbn [scan].
  unfold re_search in H. by rewrite H.
Qed.

Lemma Match_is_some p s j :
  matches_at p s 0 j -> exists mo, re_match p s = Some mo.
Proof.
  intros H. destruct (re_match p s) eqn:E; [by eexists|].
  unfold re_match in E. rewrite match_at_None in E. by destruct (E j).
Qed.

(** Split a hypothesis on a concrete pattern into its steps. *)
Ltac mt_inv :=
  repeat match goal with
  | H : Mt _ _ (RSeq _ _) _ _ _ _ |- _ => destruct H as (? & ? & ? & ?)
  | H : Mt _ _ (RGroup _ _) _ _ _ _ |- _ => destruct H as (? & ? & ?)
  | H : Mt _ _ (RSet _ _) _ _ _ _ |- _ => destruct H as (? & ? & ? & ? & ?)
  | H : Mt _ _ RAny _ _ _ _ |- _ => destruct H as (? & ? & ? & ? & ?)
  | H : Mt _ _ RBol _ _ _ _ |- _ => destruct H as (? & ? & ?)
  | H : Mt _ _ REol _ _ _ _ |- _ => destruct H as (? & ? & ?)
  | H : Mt _ _ REmpty _ _ _ _ |- _ => destruct H as (? & ?)
  | H : Mt _ _ (RWordB _) _ _ _ _ |- _ => destruct H as (? & ? & ?)
  | H : Mt _ _ (RRep _ 0 None (RSet _ _)) _ _ _ _ |- _ =>
      apply Mt_star_set in H; destruct H as (? & ? & ?)
  | H : Mt _ _ (RRep _ 0 None RAny) _ _ _ _ |- _ =>
      apply Mt_star_any in H; destruct H as (? & ? & ?)
  end; subst.

(** * The characters a match runs over *)

(** Every character [r] can consume satisfies [P]. *)
Fixpoint within (P : N -> Prop) (icase : bool) (r : regex) : Prop :=
  match r with
  | RSet neg items => forall ch, set_match icase neg items ch = true -> P ch
  | RAny => forall ch, ch <> newline -> P ch
  | RSeq r1 r2 | RAlt r1 r2 => within P icase r1 /\ within P icase r2
  | RRep _ _ _ r1 | RGroup _ r1 => within P icase r1
  | RBackref _ => False
  | _ => True
  end.

Lemma run_of_app s P i j k :
  run_of s P i j -> run_of s P j k -> run_of s P i k.
Proof. intros H1 H2 l Hl. destruct (decide (l < j)%nat); [apply H1|apply H2]; lia. Qed.

Lemma run_of_one s (P : N -> Prop) i ch : s !! i = Some ch -> P ch -> run_of s P i (S i).
Proof. intros H HP k Hk. assert (k = i) as -> by lia. by exists ch. Qed.

Lemma run_of_nil s P i : run_of s P i i.
Proof. intros k Hk. lia. Qed.

Lemma Mt_within s icase P r i c j c' :
  within P icase r -> Mt s icase r i c j c' -> run_of s P i j.
Proof.
  revert i c j c'.
  induction r as [|neg items| |r1 IH1 r2 IH2|r1 IH1 r2 IH2|g lo hi r IH|n r IH|n| | |neg|neg r IH];
    intros i c j c' Hw; cbn [Mt within] in *.
  - intros [-> _]. apply run_of_nil.
  - intros (ch & H & HP%Hw & -> & _). by eapply run_of_one.
  - intros (ch & H & HP%Hw & -> & _). by eapply run_of_one.
  - destruct Hw as [Hw1 Hw2]. intros (k & ck & H1 & H2).
    eapply run_of_app; [by eapply IH1|by eapply IH2].
  - destruct Hw as [Hw1 Hw2]. intros [H|H]; [by eapply IH1|by eapply IH2].
  - intros HR. induction HR as [|cnt last i c k ck e c'' Hlt H1 H2 IHR
      |cnt last i c k ck e c'' Hlt Hb Hl H1 H2 IHR]; [apply run_of_nil| |];
      (eapply run_of_app; [by eapply IH|exact IHR]).
  - intros (c1 & H & _). by eapply IH.
  - done.
  - intros (_ & -> & _). apply run_of_nil.
  - intros (_ & -> & _). apply run_of_nil.
  - intros (_ & -> & _). apply run_of_nil.
  - destruct neg; intros [-> _]; apply run_of_nil.
Qed.

Lemma run_of_Forall s P i j :
  run_of s P i j -> Forall P (take (j - i) (drop i s)).
Proof.
  intros H. apply Forall_forall. intros x Hx.
  apply list_elem_of_lookup in Hx as [k Hk].
  apply lookup_take_Some in Hk as [Hk Hlt]. rewrite lookup_drop in Hk.
  destruct (H (i + k)%nat) as (ch & Hch & HP); [lia|]. congruence.
Qed.

(** * Patterns built at run time

    The parser on the tokens of a pattern, one step at a time, and the effect of
    literal characters in the middle of it. *)

Lemma tokenize_app P ts s :
  tokenize P = Some ts -> tokenize (P ++ s) = app ts <$> tokenize s.
Proof.
  remember (length P) as n eqn:Hn. revert P ts Hn.
  induction (lt_wf n) as [n _ IH]; intros P ts -> HP.
  destruct P as [|a P]; simpl in *; [simplify_eq; by destruct (tokenize s)|].
  destruct (a =? _)%N.
  - destruct P as [|d P]; simpl in *; [done|].
    destruct (tokenize P) as [l|] eqn:E; simplify_eq/=.
    rewrite (IH (length P) ltac:(simpl; lia) P l eq_refl E). by destruct (tokenize s).
  - destruct (tokenize P) as [l|] eqn:E; simplify_eq/=.
    rewrite (IH (length P) ltac:(simpl; lia) P l eq_refl E). by destruct (tokenize s).
Qed.

Lemma parse_set_mono f f' first ts acc x :
  parse_set f first ts acc = Some x -> (f <= f')%nat -> parse_set f' first ts acc = Some x.
Proof.
  revert f' first ts acc. induction f as [|f IH]; intros f' first ts acc; [done|].
  destruct f' as [|f']; [lia|]. intros H Hle. cbn [parse_set] in *.
  destruct ts as [|t ts]; [done|]. destruct (_ && _); [done|].
  destruct (set_item t); [|done]. cbn [mbind option_bind] in *.
  destruct ts as [|t1 [|t2 ts]]; [apply IH; [done|lia]..|].
  destruct (is_tc _ t1); [|apply IH; [done|lia]]. destruct (is_tc _ t2); [done|].
  destruct (set_item t2); [|done]. cbn [mbind option_bind] in *.
  destruct (mk_range _ _); [|done]. apply IH; [done|lia].
Qed.

Lemma parse_alt_mono f f' ts g acc x :
  parse_alt f ts g acc = Some x -> (f <= f')%nat -> parse_alt f' ts g acc = Some x.
Proof.
  revert f' ts g acc x. induction f as [|f IH]; intros f' ts g acc x; [done|].
  destruct f' as [|f']; [lia|]. intros H Hle.
  assert (forall ts g acc x, parse_alt f ts g acc = Some x -> parse_alt f' ts g acc = Some x)
    as IH' by (intros ???? Hx; apply (IH _ _ _ _ _ Hx); lia).
  clear IH. cbn [parse_alt] in *. destruct ts as [|[c|c] ts]; [done| |].
  2: { destruct (parse_escape c ts) as [[e r]|]; [|done]. cbn [mbind option_bind] in *. by apply IH'. }
  destruct (ceq c ")"); [done|]. destruct (ceq c "|").
  { destruct (parse_alt f ts g []) as [[[r2 rest] g']|] eqn:E; [|done].
    by rewrite (IH' _ _ _ _ E). }
  destruct (parse_quant _) as [[[lo hi] r]|].
  { destruct acc as [|[[] e] acc]; [done| |done].
    destruct r as [|[q|q] r]; [by apply IH'| |by apply IH'].
    destruct (ceq q "?"); by apply IH'. }
  destruct (ceq c "."); [by apply IH'|]. destruct (ceq c "^"); [by apply IH'|].
  destruct (ceq c "$"); [by apply IH'|]. destruct (ceq c "[").
  { destruct (match ts with [] => _ | _ => _ end) as [neg r]. cbn [mbind option_bind] in *.
    destruct (parse_set f true r []) as [[items r']|] eqn:E; [|done].
    rewrite (parse_set_mono _ f' _ _ _ _ E) by lia. cbn [mbind option_bind] in *. by apply IH'. }
  destruct (ceq c "("); [|by apply IH'].
  destruct (match ts with [] => _ | _ => _ end) as [[k body]|]; [|done].
  cbn [mbind option_bind] in *.
  destruct (parse_alt f body _ []) as [[[e rest] g']|] eqn:E; [|done].
  rewrite (IH' _ _ _ _ E). cbn [mbind option_bind] in *.
  destruct rest as [|[t|t] rest]; [done| |done]. by apply IH'.
Qed.

(** Characters without a meaning of their own in a pattern. *)
Definition plain_char (c : N) : bool := negb (mem_chars ")|.^$[(*+?{\" c).

Definition not_lazy (ts : list tok) : bool :=
  match ts with TC q :: _ => negb (ceq q "?") | _ => true end.

Lemma step_lit m c ts g acc :
  plain_char c = true ->
  parse_alt (S m) (TC c :: ts) g acc = parse_alt m ts g ((true, RSet false [CIChar c]) :: acc).
Proof.
  intros H. unfold plain_char, mem_chars in H. apply negb_true_iff in H. simpl in H.
  repeat (apply orb_false_elim in H as [? H]).
  cbn [parse_alt]. unfold parse_quant, ceq. simpl.
  repeat match goal with H : (?a =? ?b)%N = false |- _ => rewrite H; clear H end. done.
Qed.

Lemma step_esc m c ts g acc e :
  parse_escape c ts = Some (e, ts) ->
  parse_alt (S m) (TE c :: ts) g acc = parse_alt m ts g (e :: acc).
Proof. intros H. cbn [parse_alt]. by rewrite H. Qed.

Lemma step_quant m c ts g acc e lo hi :
  parse_quant (TC c :: ts) = Some (lo, hi, ts) -> ceq c ")" || ceq c "|" = false ->
  not_lazy ts = true ->
  parse_alt (S m) (TC c :: ts) g ((true, e) :: acc)
  = parse_alt m ts g ((false, RRep true lo hi e) :: acc).
Proof.
  intros Hq Hc Hl. apply orb_false_elim in Hc as [Hc1 Hc2]. cbn [parse_alt].
  rewrite Hc1, Hc2, Hq. destruct ts as [|[q|q] ts]; [done| |done].
  simpl in Hl. apply negb_true_iff in Hl. by rewrite Hl.
Qed.

Lemma step_bol m ts g acc :
  parse_alt (S m) (TC "^"%char :: ts) g acc = parse_alt m ts g ((false, RBol) :: acc).
Proof. done. Qed.

Lemma step_any m ts g acc :
  parse_alt (S m) (TC "."%char :: ts) g acc = parse_alt m ts g ((true, RAny) :: acc).
Proof. done. Qed.

(** A capturing group whose body parses on its own. *)
Lemma step_group m f body rest g g' e acc :
  match body with TC q :: TC _ :: _ => negb (ceq q "?") | _ => false end = true ->
  parse_alt f (body ++ TC ")"%char :: rest) (S g) [] = Some (e, TC ")"%char :: rest, g') ->
  (f <= m)%nat ->
  parse_alt (S m) (TC "("%char :: body ++ TC ")"%char :: rest) g acc
  = parse_alt m rest g' ((true, RGroup (S g) e) :: acc).
Proof.
  intros Hb He Hf. apply (parse_alt_mono _ m) in He; [|done].
  cbn [parse_alt]. unfold parse_quant. simpl.
  destruct body as [|[q|q] [|[x|x] body]]; try done. apply negb_true_iff in Hb.
  cbn [app] in *. rewrite Hb. cbn [mbind option_bind Nat.eqb]. simpl in He |- *. by rewrite He.
Qed.

(** A run of literal tokens. *)
Definition literal (t : tok) : bool :=
  match t with
  | TC c => plain_char c
  | TE c => negb (is_alnum c) && match simple_escape c with Some _ => true | None => false end
  end.

Lemma class_escape_alnum c : is_alnum c = false -> class_escape c = None.
Proof.
  intros H. unfold class_escape, ceq.
  repeat match goal with
  | |- context [(c =? ?k)%N] =>
      destruct (N.eqb_spec c k) as [E|_]; [rewrite E in H; by vm_compute in H|]
  end. done.
Qed.

Lemma parse_escape_literal c ts :
  literal (TE c) = true -> exists e, parse_escape c ts = Some ((true, e), ts).
Proof.
  intros H. cbn [literal] in H. apply andb_prop in H as [Hn H]. apply negb_true_iff in Hn.
  destruct (simple_escape c) as [e|] eqn:E; [|done].
  exists (RSet false [CIChar e]). unfold parse_escape. rewrite class_escape_alnum by done.
  unfold ceq. repeat match goal with
  | |- context [(c =? ?k)%N] =>
      destruct (N.eqb_spec c k) as [E'|_]; [rewrite E' in Hn; by vm_compute in Hn|]
  end.
  unfold is_alnum in Hn. do 2 apply orb_false_elim in Hn as [Hn _]. rewrite Hn. by rewrite E.
Qed.

Lemma parse_alt_literals w f ts g acc :
  Forall (fun t => literal t = true) w ->
  exists es, parse_alt (length w + f) (w ++ ts) g acc = parse_alt f ts g (es ++ acc).
Proof.
  intros Hw. revert acc. induction Hw as [|t w Ht Hw IH]; intros acc; [by exists []|].
  cbn [length app Nat.add]. destruct t as [c|c].
  - rewrite step_lit by done. destruct (IH ((true, RSet false [CIChar c]) :: acc)) as [es ->].
    exists (es ++ [(true, RSet false [CIChar c])]). by rewrite <- app_assoc.
  - destruct (parse_escape_literal c (w ++ ts) Ht) as [e He]. rewrite (step_esc _ _ _ _ _ _ He).
    destruct (IH ((true, e) :: acc)) as [es ->]. exists (es ++ [(true, e)]). by rewrite <- app_assoc.
Qed.

(** The names the linter puts into patterns: identifiers with qualifiers. *)
Definition name_char (c : N) : Prop := re_word c = true \/ c = Ascii.N_of_ascii ":".
Definition name_ok (w : str) : Prop := Forall name_char w.

Definition escape_tok (c : N) : tok := if is_alnum c then TC c else TE c.

Lemma word_cases c : re_word c = true -> is_alnum c = true \/ c = Ascii.N_of_ascii "_".
Proof. unfold re_word. rewrite orb_true_iff, N.eqb_eq. tauto. Qed.

Lemma alnum_range c : is_alnum c = true ->
  (48 <= c <= 57 \/ 65 <= c <= 90 \/ 97 <= c <= 122)%N.
Proof.
  unfold is_alnum, is_digit, is_upper, is_lower.
  rewrite !orb_true_iff, !andb_true_iff, !N.leb_le. lia.
Qed.

Lemma alnum_plain c : is_alnum c = true -> plain_char c = true.
Proof.
  intros H%alnum_range. unfold plain_char, mem_chars. simpl.
  repeat match goal with |- context [(c =? ?k)%N] => destruct (N.eqb_spec c k); [lia|] end. done.
Qed.

Lemma name_char_plain c : name_char c -> plain_char c = true.
Proof. by intros [[H| ->]%word_cases| ->]; [apply alnum_plain| |]. Qed.

Lemma name_char_no_backslash c : name_char c -> (c =? Ascii.N_of_ascii "\")%N = false.
Proof.
  intros Hc. destruct (N.eqb_spec c (Ascii.N_of_ascii "\")) as [E|_]; [|done].
  rewrite E in Hc. apply name_char_plain in Hc. by vm_compute in Hc.
Qed.

Lemma tokenize_name w s : name_ok w -> tokenize (w ++ s) = app (TC <$> w) <$> tokenize s.
Proof.
  induction 1 as [|c w Hc Hw IH]; [simpl; by destruct (tokenize s)|].
  cbn [app tokenize]. rewrite name_char_no_backslash, IH by done. by destruct (tokenize s).
Qed.

Lemma name_char_escape c t s :
  name_char c ->
  tokenize (((if is_alnum c then [c] else if (c =? 0)%N then of_string "\000"
              else [Ascii.N_of_ascii "\"%char; c]) ++ t) ++ s)
  = cons (escape_tok c) <$> tokenize (t ++ s).
Proof.
  intros Hc. unfold escape_tok. destruct (is_alnum c) eqn:E.
  - cbn [app tokenize]. rewrite name_char_no_backslash by done.
    by destruct (tokenize (t ++ s)).
  - destruct Hc as [[H| ->]%word_cases| ->]; [congruence| |]; simpl; by destruct (tokenize (t ++ s)).
Qed.

Lemma tokenize_escape w s :
  name_ok w -> tokenize (escape w ++ s) = app (escape_tok <$> w) <$> tokenize s.
Proof.
  induction 1 as [|c w Hc Hw IH]; [simpl; by destruct (tokenize s)|].
  cbn [escape]. rewrite name_char_escape, IH by done. by destruct (tokenize s).
Qed.

Lemma name_literals w : name_ok w -> Forall (fun t => literal t = true) (TC <$> w).
Proof. intros H. apply Forall_fmap. eapply Forall_impl; [done|]. apply name_char_plain. Qed.

Lemma escape_literals w : name_ok w -> Forall (fun t => literal t = true) (escape_tok <$> w).
Proof.
  intros H. apply Forall_fmap. eapply Forall_impl; [done|]. intros c Hc. simpl.
  unfold escape_tok. destruct (is_alnum c) eqn:E; [by apply alnum_plain|].
  by destruct Hc as [[?| ->]%word_cases| ->]; [congruence| |].
Qed.

Lemma length_escape w : name_ok w -> (length w <= length (escape w))%nat.
Proof.
  induction 1 as [|c w Hc Hw IH]; simpl; [done|]. rewrite length_app.
  destruct (is_alnum c); simpl; [lia|]. destruct (c =? 0)%N; simpl; lia.
Qed.

(** [r?] *)
Lemma Mt_opt s icase g r i c j c' :
  Mt s icase (RRep g 0 (Some 1%nat) r) i c j c' -> (j = i /\ c' = c) \/ Mt s icase r i c j c'.
Proof.
  intros H. change (Rep (Mt s icase r) 0 (Some 1%nat) 0 None i c j c') in H.
  inversion H as [|? ? ? ? ? ? ? ? Hlt|? ? ? ? k ck ? ? _ _ _ H1 H2]; subst; [by left|lia|].
  right. inversion H2 as [|? ? ? ? ? ? ? ? Hlt|? ? ? ? ? ? ? ? _ Hb]; subst; [done|lia|done].
Qed.

Lemma Mt_set_run s icase g lo hi neg items P i c j c' :
  Mt s icase (RRep g lo hi (RSet neg items)) i c j c' ->
  (forall ch, set_match icase neg items ch = true -> P ch) ->
  Forall P (take (j - i) (drop i s)).
Proof. intros H HP. eapply run_of_Forall, Mt_within; [|exact H]. exact HP. Qed.

(** * The characters of a group *)

(** Whatever group [n] captures consists of characters with [P]. *)
Fixpoint group_within (P : N -> Prop) (icase : bool) (n : nat) (r : regex) : Prop :=
  match r with
  | RGroup k r1 => (k = n -> within P icase r1) /\ group_within P icase n r1
  | RSeq r1 r2 | RAlt r1 r2 => group_within P icase n r1 /\ group_within P icase n r2
  | RRep _ _ _ r1 | RLook _ r1 => group_within P icase n r1
  | _ => True
  end.

Definition span_ok (s : str) (P : N -> Prop) (o : option (option (nat * nat))) : Prop :=
  forall a b, o = Some (Some (a, b)) -> run_of s P a b.

Lemma Mt_spans s icase P n r i c j c' :
  group_within P icase n r -> span_ok s P (c !! n) -> Mt s icase r i c j c' ->
  span_ok s P (c' !! n).
Proof.
  revert i c j c'.
  induction r as [|neg items| |r1 IH1 r2 IH2|r1 IH1 r2 IH2|g lo hi r IH|k r IH|k| | |neg|neg r IH];
    intros i c j c' Hg Hc; cbn [Mt group_within] in *.
  - by intros [_ ->].
  - by intros (ch & _ & _ & _ & ->).
  - by intros (ch & _ & _ & _ & ->).
  - destruct Hg. intros (k & ck & H1 & H2). eapply IH2; [done| |exact H2]. by eapply IH1.
  - destruct Hg. intros [H1|H1]; [by eapply IH1|by eapply IH2].
  - intros HR. induction HR as [|cnt last i c k ck e c'' Hlt H1 H2 IHR
      |cnt last i c k ck e c'' Hlt Hb Hl H1 H2 IHR]; [done| |]; apply IHR; by eapply IH.
  - destruct Hg as [Hk Hg]. intros (c1 & H & ->). intros a b. destruct (decide (k = n)) as [-> | Hne].
    + destruct (decide (n < length c1)%nat).
      * rewrite list_lookup_insert_eq by done. intros [= <- <-]. by eapply Mt_within; [apply Hk|].
      * rewrite list_insert_ge by lia. revert a b. by eapply IH.
    + rewrite list_lookup_insert_ne by done. revert a b. by eapply IH.
  - by intros (t & _ & _ & _ & ->).
  - by intros (_ & _ & ->).
  - by intros (_ & _ & ->).
  - by intros (_ & _ & ->).
  - destruct neg; [by intros (_ & -> & _)|]. intros (-> & e & l & E).
    eapply (IH i c e c'); [done..|]. apply outs_Mt. rewrite E. left.
Qed.

Lemma group_Forall P n p s mo i :
  match_at p s i = Some mo -> group_within P (p_icase p) n (p_regex p) -> Forall P (grp mo n).
Proof.
  intros (<- & _ & H)%match_at_Some Hg.
  assert (span_ok (mo_string mo) P (mo_caps mo !! n)) as Hs.
  { eapply Mt_spans; [exact Hg| |exact H]. intros a b Hab. unfold caps0 in Hab.
    apply list_elem_of_lookup_2, elem_of_replicate in Hab as [? _]. done. }
  unfold grp, group, captured. destruct (mo_caps mo !! n) as [[[a b]|]|] eqn:E; [|constructor..].
  apply run_of_Forall. by apply Hs.
Qed.

Lemma group_length mo n : (length (grp mo n) <= length (mo_string mo))%nat.
Proof.
  unfold grp, group, captured. destruct (mo_caps mo !! n) as [[[a b]|]|]; simpl; [|lia..].
  rewrite length_take, length_drop. lia.
Qed.

(** A pattern whose tokens the parser reads in at most [m] steps compiles. *)
Lemma re_compile_parts s ts m :
  prefixb "(?i)" s = false -> tokenize s = Some ts ->
  (m <= S (S (length s)))%nat -> (exists r g, parse_alt m ts 0 [] = Some (r, [], g)) ->
  exists p, re_compile s = Some p.
Proof.
  intros Hi Ht Hm (r & g & Hp). unfold re_compile, strip_icase. rewrite Hi, Ht. cbn [mbind option_bind].
  rewrite (parse_alt_mono _ _ _ _ _ _ Hp Hm). by eexists.
Qed.

(** One token of a pattern that stands for itself, an escape, an anchor or a
    repetition; [Hl] says the pattern goes on with something else. *)
Ltac pattern_step Hl :=
  first
    [ rewrite step_bol | rewrite step_any
    | rewrite step_lit by reflexivity
    | erewrite step_esc by reflexivity
    | erewrite step_quant by (reflexivity || exact Hl) ].

(** * Substitution of single characters *)

Lemma match_at_set s neg items i mo g :
  match_at (mkPattern (RSet neg items) g false) s i = Some mo <->
  exists c, s !! i = Some c /\ set_match false neg items c = true
            /\ mo = mkMatch s i (S i) (replicate (S g) None).
Proof.
  unfold match_at. simpl. destruct (s !! i) as [c|].
  - destruct (set_match false neg items c) eqn:E; split.
    + intros [= <-]. by exists c.
    + by intros (d & [= <-] & _ & ->).
    + done.
    + intros (d & [= <-] & H & _). congruence.
  - split; [done|]. by intros (d & ? & _).
Qed.

Lemma search_at_set s neg items i g :
  (i <= length s)%nat ->
  match search_at (mkPattern (RSet neg items) g false) s i with
  | Some mo => exists k c, mo = mkMatch s k (S k) (replicate (S g) None) /\ (i <= k)%nat
       /\ s !! k = Some c /\ set_match false neg items c = true
       /\ forall k' d, (i <= k' < k)%nat -> s !! k' = Some d -> set_match false neg items d = false
  | None => forall k d, (i <= k)%nat -> s !! k = Some d -> set_match false neg items d = false
  end.
Proof.
  intros Hi. unfold search_at. rewrite (proj2 (Nat.leb_le _ _) Hi).
  assert (forall k d, match_at (mkPattern (RSet neg items) g false) s k = None ->
    s !! k = Some d -> set_match false neg items d = false) as Hnone.
  { intros k d Hk Hd. destruct (set_match false neg items d) eqn:E; [|done].
    assert (match_at (mkPattern (RSet neg items) g false) s k
            = Some (mkMatch s k (S k) (replicate (S g) None))) as H.
    { apply match_at_set. by exists d. } congruence. }
  destruct (search_from _ s (length s - i) i) as [mo|] eqn:E.
  - apply search_from_Some in E as (k & Hk & (c & Hc & Hset & ->)%match_at_set & Hfirst).
    exists k, c. split; [done|]. split; [lia|]. split; [done|]. split; [done|].
    intros k' d Hk' Hd. by apply (Hnone k' d); [apply Hfirst|].
  - intros k d Hk Hd. apply (Hnone k d); [|done].
    rewrite search_from_None in E. apply E. apply lookup_lt_Some in Hd. lia.
Qed.

Lemma concat_map_id (f : N -> str) (s : str) :
  (forall k d, s !! k = Some d -> f d = [d]) -> concat (f <$> s) = s.
Proof.
  induction s as [|c s IH]; intros H; [done|]. cbn. rewrite (H 0%nat c) by done. simpl. f_equal.
  apply IH. intros k. by apply (H (S k)).
Qed.

Lemma sub_pieces_set s rep neg items g fuel e :
  (length s - e < fuel)%nat -> (e <= length s)%nat ->
  let f c := if set_match false neg items c then rep else [c] in
  forall first, sub_pieces s (fun _ => rep) e first
    (scan (mkPattern (RSet neg items) g false) s fuel e) = concat (f <$> drop e s).
Proof.
  intros Hf He f. revert e Hf He. induction fuel as [|n IH]; intros e Hf He first; [lia|].
  cbn [scan]. pose proof (search_at_set s neg items e g He) as Hs.
  destruct (search_at _ s e) as [mo|].
  - destruct Hs as (k & c & -> & Hk & Hc & Hset & Hfirst). cbn [mo_end mo_start].
    apply lookup_lt_Some in Hc as Hlt.
    replace (S k =? k)%nat with false by (symmetry; apply Nat.eqb_neq; lia).
    cbn [sub_pieces mo_start mo_end]. rewrite (proj2 (Nat.eqb_neq (S k) e)) by lia.
    rewrite andb_false_r. rewrite (IH (S k)) by lia.
    rewrite <- (take_drop (k - e) (drop e s)) at 2. rewrite fmap_app, concat_app. f_equal.
    + symmetry. apply concat_map_id. intros j d Hj.
      apply lookup_take_Some in Hj as [Hj Hjk]. rewrite lookup_drop in Hj.
      unfold f. by rewrite (Hfirst (e + j)%nat d) by (lia || done).
    + rewrite drop_drop. replace (e + (k - e))%nat with k by lia.
      rewrite (drop_S _ _ _ Hc). cbn. unfold f at 2. by rewrite Hset.
  - cbn [sub_pieces]. symmetry. apply concat_map_id. intros j d Hj. rewrite lookup_drop in Hj.
    unfold f. by rewrite (Hs (e + j)%nat d) by (lia || done).
Qed.

(** [sub] of a class replaces exactly its characters. *)
Lemma re_sub_set s rep neg items g :
  re_sub (mkPattern (RSet neg items) g false) rep s
  = concat ((fun c => if set_match false neg items c then rep else [c]) <$> s).
Proof.
  unfold re_sub, re_sub_fn, finditer. rewrite (sub_pieces_set s rep neg items g) by lia.
  by rewrite drop_0.
Qed.

(** A match keeps the number of captures. *)
Lemma Mt_caps_length s icase r i c j c' : Mt s icase r i c j c' -> length c' = length c.
Proof.
  revert i c j c'.
  induction r as [|neg items| |r1 IH1 r2 IH2|r1 IH1 r2 IH2|g lo hi r IH|n r IH|n| | |neg|neg r IH];
    intros i c j c'; cbn [Mt].
  - by intros [_ ->].
  - by intros (ch & _ & _ & _ & ->).
  - by intros (ch & _ & _ & _ & ->).
  - intros (k & ck & H1 & H2). apply IH1 in H1. apply IH2 in H2. congruence.
  - intros [H1|H2]; eauto.
  - induction 1; [done| |]; match goal with H : Mt _ _ _ _ _ _ _ |- _ => apply IH in H end; congruence.
  - intros (c1 & H & ->). rewrite length_insert. eauto.
  - by intros (t & _ & _ & _ & ->).
  - by intros (_ & _ & ->).
  - by intros (_ & _ & ->).
  - by intros (_ & _ & ->).
  - destruct neg; [by intros (_ & -> & _)|]. intros (-> & e & l & E).
    apply (IH i c e c'). apply outs_Mt. rewrite E. by left.
Qed.

(** The text of the group [n] when the whole of it was matched last. *)
Lemma grp_insert mo n i j c :
  mo_caps mo = <[n := Some (i, j)]> c -> (n < length c)%nat ->
  grp mo n = take (j - i) (drop i (mo_string mo)).
Proof. intros Hc Hn. unfold grp, group. by rewrite Hc, captured_insert. Qed.

(** The text of a captured group. *)
Lemma grp_text mo n a b :
  mo_caps mo !! n = Some (Some (a, b)) -> grp mo n = take (b - a) (drop a (mo_string mo)).
Proof. intros E. unfold grp, group, captured. by rewrite E. Qed.

(** What follows the place where [$] matches. *)
Lemma at_eol_rest s i : at_eol s i = true -> drop i s = [] \/ drop i s = [newline].
Proof.
  unfold at_eol. intros [->%Nat.eqb_eq|[Hi%Nat.eqb_eq H]%andb_prop]%orb_prop.
  - left. by rewrite drop_ge by lia.
  - destruct (s !! i) as [c|] eqn:E; [|done]. apply N.eqb_eq in H as ->.
    right. rewrite (drop_S _ _ _ E), Hi. by rewrite drop_ge by lia.
Qed.

(** * Alternatives of literals *)

(** The strings a pattern of literals and alternatives stands for. *)
Fixpoint literals (r : regex) : option (list str) :=
  match r with
  | REmpty => Some [[]]
  | RSet false [CIChar d] => Some [[d]]
  | RSeq r1 r2 =>
      l1 ← literals r1; l2 ← literals r2; Some (mbind (M:=list) (fun a => (fun b => a ++ b) <$> l2) l1)
  | RAlt r1 r2 => l1 ← literals r1; l2 ← literals r2; Some (l1 ++ l2)
  | _ => None
  end.

Lemma Mt_literals s r l i c j c' :
  literals r = Some l -> Mt s false r i c j c' ->
  exists w, w ∈ l /\ drop i s = w ++ drop j s /\ j = (i + length w)%nat /\ c' = c.
Proof.
  revert l i c j c'.
  induction r as [|neg items| |r1 IH1 r2 IH2|r1 IH1 r2 IH2|g lo hi r IH|n r IH|n| | |neg|neg r IH];
    intros l i c j c' Hl; cbn [literals Mt] in *; try discriminate Hl.
  - injection Hl as <-. intros [-> ->]. exists []. simpl. split_and!; [left|done|lia|done].
  - destruct neg; [done|]. destruct items as [|[d| | | | | | | ] [|]]; try done.
    injection Hl as <-. intros (ch & Hch & Hm & -> & ->). exists [d].
    unfold set_match in Hm. simpl in Hm. rewrite !orb_false_r in Hm. apply N.eqb_eq in Hm as ->.
    split_and!; [left|by rewrite (drop_S _ _ _ Hch)|simpl; lia|done].
  - destruct (literals r1) as [l1|]; [|done]. destruct (literals r2) as [l2|]; [|done].
    injection Hl as <-. intros (k & ck & H1 & H2).
    destruct (IH1 l1 _ _ _ _ eq_refl H1) as (w1 & Hw1 & Hd1 & -> & ->).
    destruct (IH2 l2 _ _ _ _ eq_refl H2) as (w2 & Hw2 & Hd2 & -> & ->).
    exists (w1 ++ w2). split_and!; [|by rewrite Hd1, Hd2, app_assoc|rewrite length_app; lia|done].
    apply list_elem_of_bind. exists w1. split; [|done]. apply list_elem_of_fmap. by exists w2.
  - destruct (literals r1) as [l1|]; [|done]. destruct (literals r2) as [l2|]; [|done].
    injection Hl as <-. intros [H|H].
    + destruct (IH1 l1 _ _ _ _ eq_refl H) as (w & Hw & Hrest). exists w.
      split; [apply elem_of_app; by left|done].
    + destruct (IH2 l2 _ _ _ _ eq_refl H) as (w & Hw & Hrest). exists w.
      split; [apply elem_of_app; by right|done].
Qed.

(** Every match [finditer] yields is a match at some position. *)
Lemma finditer_match p s mo : mo ∈ finditer p s -> exists i, match_at p s i = Some mo.
Proof.
  unfold finditer. generalize (S (S (length s))) as fuel. generalize 0%nat as i.
  intros i fuel. revert i. induction fuel as [|f IH]; intros i; cbn [scan];
    [by intros ?%not_elem_of_nil|].
  destruct (search_at p s i) as [mo1|] eqn:E; [|by intros ?%not_elem_of_nil].
  intros [->|H]%elem_of_cons; [|by eapply IH].
  unfold search_at in E. destruct (i <=? length s)%nat; [|done].
  apply search_from_Some in E as (k & _ & E & _). by exists k.
Qed.
