(* ===== verification/State.v ===== *)
(** The module-wide state of the linter: its constants, the NOLINT suppression
    tables, the [_CppLintState] object with its filters and counters, the
    compiled-pattern cache, and the [Error] function every check reports to.
    The state is threaded by a monad that keeps it when an exception is raised. *)

From S2P Require Import Prelude PyStr Regex.

Open Scope Z_scope.
Open Scope py_scope.

(** * Constants *)

Definition _ERROR_CATEGORIES : list str := of_string <$> [
  "build/class"; "build/c++11"; "build/c++14"; "build/c++tr1"; "build/deprecated";
  "build/endif_comment"; "build/explicit_make_pair"; "build/forward_decl";
  "build/header_guard"; "build/include"; "build/include_alpha"; "build/include_order";
  "build/include_what_you_use"; "build/namespaces"; "build/printf_format";
  "build/storage_class"; "legal/copyright"; "readability/alt_tokens";
  "readability/braces"; "readability/casting"; "readability/check";
  "readability/constructors"; "readability/fn_size"; "readability/inheritance";
  "readability/multiline_comment"; "readability/multiline_string";
  "readability/namespace"; "readability/nolint"; "readability/nul";
  "readability/strings"; "readability/todo"; "readability/utf8"; "runtime/arrays";
  "runtime/casting"; "runtime/explicit"; "runtime/int"; "runtime/init";
  "runtime/invalid_increment"; "runtime/member_string_references"; "runtime/memset";
  "runtime/indentation_namespace"; "runtime/operator"; "runtime/printf";
  "runtime/printf_format"; "runtime/references"; "runtime/string";
  "runtime/threadsafe_fn"; "runtime/vlog"; "whitespace/blank_line";
  "whitespace/braces"; "whitespace/comma"; "whitespace/comments";
  "whitespace/empty_conditional_body"; "whitespace/empty_if_body";
  "whitespace/empty_loop_body"; "whitespace/end_of_line"; "whitespace/ending_newline";
  "whitespace/forcolon"; "whitespace/indent"; "whitespace/line_length";
  "whitespace/newline"; "whitespace/operators"; "whitespace/parens";
  "whitespace/semicolon"; "whitespace/tab"; "whitespace/todo"]%string.

Definition _LEGACY_ERROR_CATEGORIES : list str := of_string <$> [
  "readability/streams"; "readability/function"]%string.

Definition _DEFAULT_FILTERS : list str := of_string <$> [
  "-build/include_alpha"]%string.

Definition _DEFAULT_C_SUPPRESSED_CATEGORIES : list str := of_string <$> [
  "readability/casting"]%string.

Definition _DEFAULT_KERNEL_SUPPRESSED_CATEGORIES : list str := of_string <$> [
  "whitespace/tab"]%string.

(** * Matching through the module's helpers *)

(** [Match], [Search] and [ReplaceAll] on a compiled pattern. *)
Definition Match (p : pattern) (s : str) : option match_obj := re_match p s.
Definition Search (p : pattern) (s : str) : option match_obj := re_search p s.
Definition ReplaceAll (p : pattern) (rep s : str) : str := re_sub p rep s.

(** The truth value of a match. *)
Definition matches (p : pattern) (s : str) : bool := is_some (Match p s).
Definition searches (p : pattern) (s : str) : bool := is_some (Search p s).

(** The same helpers with [_regexp_compile_cache]: a pattern string is compiled
    the first time it is used. *)
Module RegexpCache.
Definition cache : Type := gmap str pattern.

Definition compiled (pat : str) (c : cache) : res pattern * cache :=
  match c !! pat with
  | Some p => (Ok p, c)
  | None =>
      match re_compile pat with
      | Some p => (Ok p, <[pat := p]> c)
      | None => (Raise ReError, c)
      end
  end.

Definition Match (pat s : str) (c : cache) : res (option match_obj) * cache :=
  let '(r, c') := compiled pat c in (p ← r; Ok (re_match p s), c').

Definition Search (pat s : str) (c : cache) : res (option match_obj) * cache :=
  let '(r, c') := compiled pat c in (p ← r; Ok (re_search p s), c').

Definition ReplaceAll (pat rep s : str) (c : cache) : res str * cache :=
  let '(r, c') := compiled pat c in (p ← r; Ok (re_sub p rep s), c').
End RegexpCache.

(** * The state *)

Record CppLintState : Type := mkCppLintState {
  verbose_level : Z;
  error_count : Z;
  filters : list str;
  filters_backup : list str;
  counting : str;
  errors_by_category : gmap str Z;
  quiet : bool;
  output_format : str
}.

Definition CppLintState_init : CppLintState :=
  mkCppLintState 1 0 _DEFAULT_FILTERS _DEFAULT_FILTERS "total" ∅ false "emacs".

Record globals : Type := mkGlobals {
  cpplint_state : CppLintState;
  error_suppressions : gmap (option str) (gset Z);
  global_error_suppressions : gmap str bool;
  line_length : Z;
  root : option str;
  valid_extensions : gset str;
  hpp_headers : gset str;
  stderr : list str;
  stdout : list str
}.

Definition globals_init : globals :=
  mkGlobals CppLintState_init ∅ ∅ 80 None
    (list_to_set (of_string <$> ["cc"; "h"; "cpp"; "cu"; "cuh"]%string))
    (list_to_set (of_string <$> ["h"]%string)) [] [].

(** Updates of one field. *)
Definition with_lint (f : CppLintState -> CppLintState) (g : globals) : globals :=
  mkGlobals (f (cpplint_state g)) (error_suppressions g) (global_error_suppressions g)
    (line_length g) (root g) (valid_extensions g) (hpp_headers g) (stderr g) (stdout g).
Definition with_suppressions (m : gmap (option str) (gset Z)) (gm : gmap str bool)
    (g : globals) : globals :=
  mkGlobals (cpplint_state g) m gm
    (line_length g) (root g) (valid_extensions g) (hpp_headers g) (stderr g) (stdout g).
Definition with_line_length (n : Z) (g : globals) : globals :=
  mkGlobals (cpplint_state g) (error_suppressions g) (global_error_suppressions g)
    n (root g) (valid_extensions g) (hpp_headers g) (stderr g) (stdout g).
Definition with_root (r : option str) (g : globals) : globals :=
  mkGlobals (cpplint_state g) (error_suppressions g) (global_error_suppressions g)
    (line_length g) r (valid_extensions g) (hpp_headers g) (stderr g) (stdout g).
Definition with_extensions (v h : gset str) (g : globals) : globals :=
  mkGlobals (cpplint_state g) (error_suppressions g) (global_error_suppressions g)
    (line_length g) (root g) v h (stderr g) (stdout g).
Definition with_output (e o : list str) (g : globals) : globals :=
  mkGlobals (cpplint_state g) (error_suppressions g) (global_error_suppressions g)
    (line_length g) (root g) (valid_extensions g) (hpp_headers g) e o.

Definition with_filters (fs bk : list str) (c : CppLintState) : CppLintState :=
  mkCppLintState (verbose_level c) (error_count c) fs bk (counting c)
    (errors_by_category c) (quiet c) (output_format c).
Definition with_counts (n : Z) (m : gmap str Z) (c : CppLintState) : CppLintState :=
  mkCppLintState (verbose_level c) n (filters c) (filters_backup c) (counting c)
    m (quiet c) (output_format c).
Definition with_settings (v : Z) (cnt : str) (q : bool) (o : str) (c : CppLintState)
    : CppLintState :=
  mkCppLintState v (error_count c) (filters c) (filters_backup c) cnt
    (errors_by_category c) q o.

(** * The monad *)

Definition M (A : Type) : Type := globals -> globals * res A.

#[export] Instance M_ret : MRet M := fun A a g => (g, Ok a).
#[export] Instance M_bind : MBind M := fun A B f m g =>
  match m g with
  | (g', Ok a) => f a g'
  | (g', Raise e) => (g', Raise e)
  end.

Definition raise {A} (e : exn) : M A := fun g => (g, Raise e).
Definition lift {A} (r : res A) : M A := fun g => (g, r).
Definition get : M globals := fun g => (g, Ok g).
Definition modify (f : globals -> globals) : M unit := fun g => (f g, Ok tt).
Definition skip : M unit := mret tt.
Definition when (b : bool) (m : M unit) : M unit := if b then m else skip.

(** [for x in l: f(x)] *)
Fixpoint for_each {A} (l : list A) (f : A -> M unit) : M unit :=
  match l with
  | [] => skip
  | x :: l' => f x ;; for_each l' f
  end.

(** [a[i]] and [m.group(n)] of a match that may be [None] *)
Definition line_at (l : list str) (i : Z) : M str := lift (idx l i).
Definition the_match (o : option match_obj) : M match_obj := lift (some_or AttributeError o).

(** [sys.stderr.write] and [sys.stdout.write] *)
Definition write_stderr (s : str) : M unit :=
  modify (fun g => with_output (stderr g ++ [s]) (stdout g) g).
Definition write_stdout (s : str) : M unit :=
  modify (fun g => with_output (stderr g) (stdout g ++ [s]) g).

(** The type of an error handler: file name, line, category, confidence, message. *)
Definition error_fn : Type := str -> Z -> str -> Z -> str -> M unit.

(** * [_CppLintState] *)

Definition _Quiet : M bool := g ← get; mret (quiet (cpplint_state g)).
Definition _OutputFormat : M str := g ← get; mret (output_format (cpplint_state g)).
Definition _VerboseLevel : M Z := g ← get; mret (verbose_level (cpplint_state g)).
Definition _Filters : M (list str) := g ← get; mret (filters (cpplint_state g)).

Definition _SetOutputFormat (fmt : str) : M unit :=
  modify (with_lint (fun c => with_settings (verbose_level c) (counting c) (quiet c) fmt c)).

Definition _SetQuiet (q : bool) : M bool :=
  last_quiet ← _Quiet;
  modify (with_lint (fun c =>
    with_settings (verbose_level c) (counting c) q (output_format c) c)) ;;
  mret last_quiet.

Definition _SetVerboseLevel (level : Z) : M Z :=
  last_verbose_level ← _VerboseLevel;
  modify (with_lint (fun c =>
    with_settings level (counting c) (quiet c) (output_format c) c)) ;;
  mret last_verbose_level.

Definition _SetCountingStyle (style : str) : M unit :=
  modify (with_lint (fun c =>
    with_settings (verbose_level c) style (quiet c) (output_format c) c)).

(** A filter must start with a sign. *)
Definition signed (filt : str) : bool := startswith filt "+" || startswith filt "-".

(** The filters a comma-separated list adds. *)
Definition clean_filters (fs : str) : list str :=
  filter (fun f => nonempty f = true) (strip <$> split fs ",").

Definition filter_message (filt : str) : str :=
  (of_string "Every filter in --filters must start with + or - (" ++ filt
   ++ of_string " does not)")%list.

Definition _AddFilters (fs : str) : M unit :=
  modify (with_lint (fun c =>
    with_filters (filters c ++ clean_filters fs) (filters_backup c) c)) ;;
  now ← _Filters;
  for_each now (fun filt =>
    when (negb (signed filt)) (raise (ValueError (filter_message filt)))).

Definition _SetFilters (fs : str) : M unit :=
  modify (with_lint (fun c => with_filters _DEFAULT_FILTERS (filters_backup c) c)) ;;
  _AddFilters fs.

Definition _BackupFilters : M unit :=
  modify (with_lint (fun c => with_filters (filters c) (filters c) c)).

Definition _RestoreFilters : M unit :=
  modify (with_lint (fun c => with_filters (filters_backup c) (filters_backup c) c)).

Definition ResetErrorCounts : M unit := modify (with_lint (with_counts 0 ∅)).

Definition IncrementErrorCount (category : str) : M unit :=
  modify (with_lint (fun c =>
    let n := error_count c + 1 in
    if str_in (counting c) [of_string "toplevel"; of_string "detailed"] then
      let category :=
        if counting c <>s "detailed" then default [] (head (split category "/"))
        else category in
      let now := default 0 (errors_by_category c !! category) in
      with_counts n (<[category := now + 1]> (errors_by_category c)) c
    else with_counts n (errors_by_category c) c)).

(** The categories are printed in the iteration order of the dictionary, which
    Python leaves open: [order] lists its items. *)
Definition PrintErrorCounts (order : gmap str Z -> list (str * Z)) : M unit :=
  g ← get;
  for_each (order (errors_by_category (cpplint_state g))) (fun it =>
    write_stderr (of_string "Category '" ++ it.1 ++ of_string "' errors found: "
                  ++ str_of_Z it.2 ++ [newline])%list) ;;
  write_stdout (of_string "Total errors found: "
                ++ str_of_Z (error_count (cpplint_state g)) ++ [newline])%list.

(** * NOLINT suppressions *)

(** [_error_suppressions.setdefault(key, set()).add(line)] *)
Definition add_suppression (key : option str) (line : Z) : M unit :=
  modify (fun g =>
    let old := default ∅ (error_suppressions g !! key) in
    with_suppressions (<[key := {[line]} ∪ old]> (error_suppressions g))
      (global_error_suppressions g) g).

Definition _NOLINT : pattern := rx "\bNOLINT(NEXTLINE)?\b(\([^)]+\))?".

Definition ParseNolintSuppressions (filename raw_line : str) (linenum : Z) (error : error_fn)
    : M unit :=
  match Search _NOLINT raw_line with
  | None => skip
  | Some matched =>
      let suppressed_line :=
        if nonempty (grp matched 1) then linenum + 1 else linenum in
      match group matched 2 with
      | None => add_suppression None suppressed_line
      | Some category =>
          if category =s "(*)" then add_suppression None suppressed_line
          else if startswith category "(" && endswith category ")" then
            let category := slice category 1 (-1) in
            if str_in category _ERROR_CATEGORIES
            then add_suppression (Some category) suppressed_line
            else when (negb (str_in category _LEGACY_ERROR_CATEGORIES))
                   (error filename linenum "readability/nolint" 5
                      (of_string "Unknown NOLINT error category: " ++ category)%list)
          else skip
      end
  end.

Definition _SEARCH_C_FILE : pattern :=
  rx "\b(?:LINT_C_FILE|vim?:\s*.*(\s*|:)filetype=c(\s*|:|$))".
Definition _SEARCH_KERNEL_FILE : pattern := rx "\b(?:LINT_KERNEL_FILE)".

Definition suppress_globally (cats : list str) : M unit :=
  for_each cats (fun category => modify (fun g =>
    with_suppressions (error_suppressions g)
      (<[category := true]> (global_error_suppressions g)) g)).

Definition ProcessGlobalSuppresions (lines : list str) : M unit :=
  for_each lines (fun line =>
    when (searches _SEARCH_C_FILE line)
      (suppress_globally _DEFAULT_C_SUPPRESSED_CATEGORIES) ;;
    when (searches _SEARCH_KERNEL_FILE line)
      (suppress_globally _DEFAULT_KERNEL_SUPPRESSED_CATEGORIES)).

Definition ResetNolintSuppressions : M unit := modify (with_suppressions ∅ ∅).

Definition IsErrorSuppressedByNolint (category : str) (linenum : Z) (g : globals) : bool :=
  default false (global_error_suppressions g !! category)
  || bool_decide (linenum ∈ default ∅ (error_suppressions g !! Some category))
  || bool_decide (linenum ∈ default ∅ (error_suppressions g !! None)).

(** * Reporting *)

(** The filters decide in order; the assertion fails on one without a sign. *)
Fixpoint filter_loop (fs : list str) (category : str) (is_filtered : bool) : res bool :=
  match fs with
  | [] => Ok is_filtered
  | one_filter :: fs' =>
      if startswith one_filter "-" then
        filter_loop fs' category
          (if startswith category (slice_from one_filter 1) then true else is_filtered)
      else if startswith one_filter "+" then
        filter_loop fs' category
          (if startswith category (slice_from one_filter 1) then false else is_filtered)
      else Raise AssertionError
  end.

Definition _ShouldPrintError (category : str) (confidence linenum : Z) (g : globals)
    : res bool :=
  if IsErrorSuppressedByNolint category linenum g then Ok false
  else if confidence <? verbose_level (cpplint_state g) then Ok false
  else is_filtered ← filter_loop (filters (cpplint_state g)) category false;
       Ok (negb is_filtered).

(** The line written for an error. *)
Definition error_text (fmt filename : str) (linenum : Z) (category : str) (confidence : Z)
    (message : str) : str :=
  if fmt =s "vs7" then
    (filename ++ of_string "(" ++ str_of_Z linenum ++ of_string "): error cpplint: ["
     ++ category ++ of_string "] " ++ message ++ of_string " [" ++ str_of_Z confidence
     ++ of_string "]" ++ [newline])%list
  else if fmt =s "eclipse" then
    (filename ++ of_string ":" ++ str_of_Z linenum ++ of_string ": warning: " ++ message
     ++ of_string "  [" ++ category ++ of_string "] [" ++ str_of_Z confidence
     ++ of_string "]" ++ [newline])%list
  else
    (filename ++ of_string ":" ++ str_of_Z linenum ++ of_string ":  " ++ message
     ++ of_string "  [" ++ category ++ of_string "] [" ++ str_of_Z confidence
     ++ of_string "]" ++ [newline])%list.

Definition Error : error_fn := fun filename linenum category confidence message =>
  g ← get;
  should ← lift (_ShouldPrintError category confidence linenum g);
  when should
    (IncrementErrorCount category ;;
     write_stderr (error_text (output_format (cpplint_state g)) filename linenum category
                     confidence message)).

(** * Options shared by the command line and the configuration files *)

(** [str.split] does not raise, so the error branch of the source is dead. *)
Definition ProcessHppHeadersOption (val : str) : M unit :=
  modify (fun g =>
    let h := list_to_set (split val ",") in
    with_extensions (valid_extensions g ∪ h) h g).

Definition IsHeaderExtension (file_extension : str) (g : globals) : bool :=
  bool_decide (file_extension ∈ hpp_headers g).

Definition _IsSourceExtension (s : str) : bool :=
  str_in s (of_string <$> ["c"; "cc"; "cpp"; "cxx"]%string).
