(* ===== verification/StateFacts.v ===== *)
(** Properties of the module-wide state: the filters decide by the last match,
    malformed filter lists are refused, an error is counted and printed exactly
    when it should be, the counters add up, NOLINT comments silence [Error], and
    the pattern cache is transparent.  [gives m Q] says what a program returns if it
    returns. *)

From S2P Require Import Prelude PyStr Regex RegexFacts State.

Open Scope Z_scope.
Open Scope py_scope.

(** * Specifications *)

Definition filters_wf (g : globals) : Prop :=
  Forall (fun f => signed f = true) (filters (cpplint_state g)).

(** The filter's name, without its sign, is a prefix of the category. *)
Definition filter_hits (category f : str) : bool := startswith category (slice_from f 1).

(** The last filter whose name is a prefix of the category decides; without one
    the category is printed. *)
Definition verdict (fs : list str) (category : str) : bool :=
  match List.find (filter_hits category) (reverse fs) with
  | Some f => startswith f "+"
  | None => true
  end.

(** The decision [_ShouldPrintError] should take. *)
Definition printed (category : str) (confidence linenum : Z) (g : globals) : bool :=
  negb (IsErrorSuppressedByNolint category linenum g)
  && (verbose_level (cpplint_state g) <=? confidence)
  && verdict (filters (cpplint_state g)) category.

Definition detailed_counting (g : globals) : bool :=
  str_in (counting (cpplint_state g)) [of_string "toplevel"; of_string "detailed"].

Definition category_total (m : gmap str Z) : Z := map_fold (fun _ n acc => n + acc) 0 m.

(** The per-category counts add up to the total. *)
Definition counts_ok (g : globals) : Prop :=
  detailed_counting g = true ->
  category_total (errors_by_category (cpplint_state g)) = error_count (cpplint_state g).

Definition run_errors (l : list (str * Z * str * Z * str)) : M unit :=
  for_each l (fun e => Error e.1.1.1.1 e.1.1.1.2 e.1.1.2 e.1.2 e.2).

(** Every cached pattern is the compilation of its key. *)
Definition cache_ok (c : RegexpCache.cache) : Prop :=
  map_Forall (fun pat p => re_compile pat = Some p) c.

(** * Monad lemmas *)

Lemma M_bind_eq {A B} (m : M A) (f : A -> M B) g :
  (m ≫= f) g = match m g with (g', Ok a) => f a g' | (g', Raise e) => (g', Raise e) end.
Proof. done. Qed.

Lemma for_each_check {A} (bad : A -> bool) (e : A -> exn) (l : list A) g :
  for_each l (fun x => when (bad x) (raise (e x))) g
  = (g, match List.find bad l with Some x => Raise (e x) | None => Ok tt end).
Proof.
  induction l as [|x l IH]; simpl; [done|]. rewrite M_bind_eq.
  unfold when at 1. destruct (bad x); [done|exact IH].
Qed.

(** A loop whose body always succeeds and keeps [P] succeeds and keeps [P]. *)
Lemma for_each_inv {A} (P : globals -> Prop) (f : A -> M unit) (l : list A) g :
  (forall x g, x ∈ l -> P g -> exists g', f x g = (g', Ok tt) /\ P g') ->
  P g -> exists g', for_each l f g = (g', Ok tt) /\ P g'.
Proof.
  revert g. induction l as [|x l IH]; intros g Hf Hg; simpl; [by exists g|].
  destruct (Hf x g) as (g1 & E & H1); [left|done|]. rewrite M_bind_eq, E.
  apply IH; [|done]. intros. apply Hf; [by right|done].
Qed.

(** * Filters *)

Lemma signed_cases f : signed f = true ->
  startswith f "-" = true \/ (startswith f "-" = false /\ startswith f "+" = true).
Proof. unfold signed. destruct (startswith f "-"), (startswith f "+"); naive_solver. Qed.

Lemma signed_exclusive f : startswith f "-" = true -> startswith f "+" = false.
Proof. by intros [t ->]%startswith_spec. Qed.

Lemma find_app {A} (p : A -> bool) l1 l2 :
  List.find p (l1 ++ l2) = match List.find p l1 with Some x => Some x | None => List.find p l2 end.
Proof. induction l1 as [|x l1 IH]; simpl; [done|]. by destruct (p x). Qed.

Lemma filter_loop_verdict fs category b :
  Forall (fun f => signed f = true) fs ->
  filter_loop fs category b
  = Ok (match List.find (filter_hits category) (reverse fs) with
        | Some f => negb (startswith f "+")
        | None => b
        end).
Proof.
  intros H. revert b. induction H as [|f fs Hf H IH]; intros b; [done|].
  cbn [filter_loop]. rewrite reverse_cons, find_app.
  set (hit := List.find (filter_hits category) (reverse fs)) in *. cbn [List.find].
  change (startswith category (slice_from f 1)) with (filter_hits category f).
  destruct (signed_cases f Hf) as [E|[E1 E2]].
  - rewrite E, IH. destruct hit, (filter_hits category f);
      by rewrite ?(signed_exclusive f E).
  - rewrite E1, E2, IH. destruct hit, (filter_hits category f); by rewrite ?E2.
Qed.

Lemma ShouldPrintError_total category confidence linenum g :
  filters_wf g ->
  _ShouldPrintError category confidence linenum g
  = Ok (printed category confidence linenum g).
Proof.
  intros Hwf. unfold _ShouldPrintError, printed.
  destruct IsErrorSuppressedByNolint; [done|]. simpl.
  destruct (Z.leb_spec (verbose_level (cpplint_state g)) confidence) as [Hle|Hlt];
    destruct (Z.ltb_spec confidence (verbose_level (cpplint_state g))) as [?|?]; try lia; [|done].
  rewrite filter_loop_verdict by done. unfold verdict. simpl.
  destruct List.find; [|done]. by rewrite negb_involutive.
Qed.

(** * Counting *)

Lemma category_total_insert m k v :
  category_total (<[k := v]> m) = v - default 0 (m !! k) + category_total m.
Proof.
  unfold category_total.
  assert (forall (m : gmap str Z) k v, m !! k = None ->
    map_fold (fun _ n acc => n + acc) 0 (<[k := v]> m)
    = v + map_fold (fun _ n acc => n + acc) 0 m) as Hnew.
  { intros m' k' v' Hk. apply (map_fold_insert_L (fun _ n acc => n + acc)); [|done]. intros. lia. }
  destruct (m !! k) as [o|] eqn:E; simpl.
  - rewrite <- (insert_delete_id m k o) at 2 by done.
    rewrite <- insert_delete_eq. rewrite !Hnew by apply lookup_delete_eq. lia.
  - rewrite Hnew by done. lia.
Qed.

Lemma IncrementErrorCount_run category g :
  exists g', IncrementErrorCount category g = (g', Ok tt)
    /\ error_count (cpplint_state g') = error_count (cpplint_state g) + 1
    /\ stderr g' = stderr g /\ stdout g' = stdout g
    /\ filters (cpplint_state g') = filters (cpplint_state g)
    /\ counting (cpplint_state g') = counting (cpplint_state g)
    /\ (counts_ok g -> counts_ok g').
Proof.
  eexists. split; [done|]. unfold counts_ok, with_lint.
  destruct (detailed_counting g) eqn:E; unfold detailed_counting in *;
    cbn [cpplint_state stderr stdout]; rewrite E.
  - cbn [with_counts error_count errors_by_category filters counting].
    rewrite E. split_and!; try done. intros H _. rewrite category_total_insert.
    rewrite H by done. lia.
  - cbn [with_counts error_count errors_by_category filters counting]. rewrite E.
    by split_and!.
Qed.

(** * Properties of the filters *)

(** C9: when every active filter is signed, the loop of [_ShouldPrintError]
    cannot fail its assertion, and prints an error exactly when no NOLINT
    suppresses it, its confidence reaches the verbosity level, and the last
    filter whose name is a prefix of the category, if any, is a [+] filter. *)
Theorem ShouldPrintError_verdict category confidence linenum g :
  filters_wf g ->
  _ShouldPrintError category confidence linenum g
  = Ok (negb (IsErrorSuppressedByNolint category linenum g)
        && (verbose_level (cpplint_state g) <=? confidence)
        && verdict (filters (cpplint_state g)) category).
Proof. apply ShouldPrintError_total. Qed.

(** A state with the filters of [--filter=-whitespace,+whitespace/braces]. *)
Definition sample_state : globals :=
  with_lint (with_filters (of_string <$> ["-build/include_alpha"; "-whitespace";
                                          "+whitespace/braces"]%string) []) globals_init.

Lemma sample_state_wf : filters_wf sample_state.
Proof. repeat constructor. Qed.

Lemma ShouldPrintError_verdict_witness :
  filters_wf sample_state
  /\ _ShouldPrintError "whitespace/braces" 4 7 sample_state = Ok true
  /\ _ShouldPrintError "whitespace/tab" 4 7 sample_state = Ok false.
Proof.
  split; [exact sample_state_wf|]. split.
  - rewrite (ShouldPrintError_verdict "whitespace/braces" 4 7 sample_state sample_state_wf).
    reflexivity.
  - rewrite (ShouldPrintError_verdict "whitespace/tab" 4 7 sample_state sample_state_wf).
    reflexivity.
Defined.

(** [_AddFilters], on every input. *)
Lemma AddFilters_run fs g :
  let now := filters (cpplint_state g) ++ clean_filters fs in
  _AddFilters fs g
  = (with_lint (fun c => with_filters (filters c ++ clean_filters fs) (filters_backup c) c) g,
     match List.find (fun f => negb (signed f)) now with
     | Some f => Raise (ValueError (filter_message f))
     | None => Ok tt
     end).
Proof.
  intros now. unfold _AddFilters. rewrite M_bind_eq. unfold modify at 1. cbv beta iota.
  rewrite M_bind_eq. unfold _Filters. rewrite M_bind_eq. unfold get. cbv beta iota.
  unfold mret, M_ret. cbv beta iota. apply for_each_check.
Qed.

(** C30: [SetFilters] appends the non-empty, stripped fields of the list to the
    default filters, and raises [ValueError] for the first one that does not
    start with a sign; when it does not raise, every active filter is signed, so
    the assertion of [_ShouldPrintError] cannot fail later. *)
Theorem SetFilters_spec fs g :
  let now := _DEFAULT_FILTERS ++ clean_filters fs in
  exists g', _SetFilters fs g
             = (g', match List.find (fun f => negb (signed f)) now with
                    | Some f => Raise (ValueError (filter_message f))
                    | None => Ok tt
                    end)
    /\ filters (cpplint_state g') = now
    /\ (List.find (fun f => negb (signed f)) now = None -> filters_wf g').
Proof.
  intros now. eexists. split_and!.
  - unfold _SetFilters. rewrite M_bind_eq. unfold modify at 1. cbv beta iota.
    rewrite AddFilters_run. reflexivity.
  - done.
  - intros Hnone. unfold filters_wf. simpl. apply Forall_forall. intros f Hf.
    apply list_elem_of_In, (List.find_none _ _ Hnone), negb_false_iff in Hf. exact Hf.
Qed.

(** C6: [Error] on signed filters never raises; it adds one line to the error
    output and one to the error count when the error is to be printed, and
    changes nothing at all otherwise. *)
Theorem Error_effect filename linenum category confidence message g :
  filters_wf g ->
  exists g', Error filename linenum category confidence message g = (g', Ok tt)
    /\ if printed category confidence linenum g
       then error_count (cpplint_state g') = error_count (cpplint_state g) + 1
            /\ stderr g' = stderr g ++ [error_text (output_format (cpplint_state g)) filename
                                          linenum category confidence message]
            /\ stdout g' = stdout g
            /\ filters (cpplint_state g') = filters (cpplint_state g)
       else g' = g.
Proof.
  intros Hwf. unfold Error. rewrite M_bind_eq. unfold get at 1. cbv beta iota.
  rewrite M_bind_eq. unfold lift. rewrite ShouldPrintError_total by done. cbv beta iota.
  destruct (printed category confidence linenum g); simpl; [|by eexists].
  rewrite M_bind_eq.
  destruct (IncrementErrorCount_run category g) as (g1 & E & Hc & He & Ho & Hf & _ & _).
  rewrite E. eexists. split; [done|]. simpl. by rewrite Hc, He, Ho, Hf.
Qed.

Lemma Error_effect_witness :
  filters_wf sample_state
  /\ exists g', Error "a.cc" 7 "whitespace/braces" 4 "m" sample_state = (g', Ok tt)
       /\ error_count (cpplint_state g') = 1
       /\ stderr g' = [of_string "a.cc:7:  m  [whitespace/braces] [4]" ++ [newline]].
Proof.
  split; [exact sample_state_wf|].
  destruct (Error_effect "a.cc" 7 "whitespace/braces" 4 "m" sample_state sample_state_wf)
    as (g' & E & Hc & He & _).
  exists g'. split; [exact E|]. split; [rewrite Hc; reflexivity|rewrite He; reflexivity].
Defined.

Lemma Error_keeps filename linenum category confidence message g :
  filters_wf g -> counts_ok g ->
  exists g', Error filename linenum category confidence message g = (g', Ok tt)
    /\ filters_wf g' /\ counts_ok g'.
Proof.
  intros Hwf Hc. unfold Error. rewrite M_bind_eq. unfold get at 1. cbv beta iota.
  rewrite M_bind_eq. unfold lift. rewrite ShouldPrintError_total by done. cbv beta iota.
  destruct (printed category confidence linenum g); simpl; [|by eexists].
  rewrite M_bind_eq.
  destruct (IncrementErrorCount_run category g) as (g1 & E & _ & _ & _ & Hf & _ & Hk).
  rewrite E. eexists. split; [done|]. split; [|by apply Hk].
  unfold filters_wf in *. simpl. by rewrite Hf.
Qed.

Lemma IncrementErrorCount_verbosity category g :
  verbose_level (cpplint_state (IncrementErrorCount category g).1)
  = verbose_level (cpplint_state g).
Proof.
  unfold IncrementErrorCount, modify, with_lint. cbn [fst cpplint_state].
  by destruct (str_in (counting (cpplint_state g)) _).
Qed.

Lemma Error_verbosity filename linenum category confidence message g g' r :
  Error filename linenum category confidence message g = (g', r) ->
  verbose_level (cpplint_state g') = verbose_level (cpplint_state g).
Proof.
  unfold Error. rewrite M_bind_eq. unfold get at 1. cbv beta iota. rewrite M_bind_eq.
  unfold lift. destruct (_ShouldPrintError category confidence linenum g) as [[]|e];
    [|by intros [= <- _]..].
  cbn [when]. rewrite M_bind_eq. rewrite <- (IncrementErrorCount_verbosity category g).
  destruct (IncrementErrorCount category g) as [g1 [[]|e]]; by intros [= <- _].
Qed.

(** C21: after [ResetErrorCounts], whatever errors are reported, the counts kept
    per category add up to the total count (with the counting style [toplevel]
    or [detailed], the ones that keep them), and no report raises. *)
Theorem run_errors_counts l g :
  filters_wf g ->
  exists g0 g', ResetErrorCounts g = (g0, Ok tt) /\ run_errors l g0 = (g', Ok tt)
    /\ counts_ok g'.
Proof.
  intros Hwf. eexists. unfold run_errors.
  edestruct (for_each_inv (fun g => filters_wf g /\ counts_ok g)
    (fun e => Error e.1.1.1.1 e.1.1.1.2 e.1.1.2 e.1.2 e.2) l
    (with_lint (with_counts 0 ∅) g)) as (g' & E & _ & H).
  - intros e g1 _ [H1 H2]. by apply Error_keeps.
  - split; [exact Hwf|]. intros _. apply map_fold_empty.
  - exists g'. split; [reflexivity|]. split; [exact E|exact H].
Qed.

(** [Error] one line of each of two categories, with detailed counting. *)
Definition detailed_state : globals :=
  with_lint (with_settings 1 "detailed" false "emacs") sample_state.

Definition two_errors : list (str * Z * str * Z * str) :=
  [(of_string "a.cc", 3, of_string "build/include", 4, of_string "m");
   (of_string "a.cc", 4, of_string "runtime/int", 4, of_string "m")].

Lemma run_errors_counts_witness :
  filters_wf detailed_state
  /\ exists g0 g', ResetErrorCounts detailed_state = (g0, Ok tt)
       /\ run_errors two_errors g0 = (g', Ok tt) /\ counts_ok g'.
Proof.
  assert (filters_wf detailed_state) as H by repeat constructor.
  split; [exact H|]. exact (run_errors_counts two_errors detailed_state H).
Defined.

(** * NOLINT *)

Lemma add_suppression_run key line g :
  exists g', add_suppression key line g = (g', Ok tt)
    /\ cpplint_state g' = cpplint_state g
    /\ (forall category, key = None \/ key = Some category ->
        IsErrorSuppressedByNolint category line g' = true)
    /\ forall category n, IsErrorSuppressedByNolint category n g = true ->
        IsErrorSuppressedByNolint category n g' = true.
Proof.
  eexists. split; [done|]. split; [done|].
  assert (forall k n (m : gmap (option str) (gset Z)), bool_decide (n ∈ default ∅ (m !! k)) = true ->
    bool_decide (n ∈ default ∅ (<[key := {[line]} ∪ default ∅ (m !! key)]> m !! k)) = true)
    as Hmono.
  { intros k n m. rewrite !bool_decide_eq_true. intros Hn.
    destruct (decide (key = k)) as [->|]; [rewrite lookup_insert_eq; set_solver|].
    by rewrite lookup_insert_ne. }
  assert (forall m : gmap (option str) (gset Z), bool_decide (line ∈ default ∅
    (<[key := {[line]} ∪ default ∅ (m !! key)]> m !! key)) = true) as Hnew.
  { intros m. rewrite bool_decide_eq_true, lookup_insert_eq. set_solver. }
  unfold IsErrorSuppressedByNolint, with_suppressions. simpl. split.
  - intros category [-> | ->]; rewrite Hnew; by rewrite ?orb_true_r.
  - intros category n. rewrite !orb_true_iff. intros [[H|H]|H]; eauto.
Qed.

(** C23: a NOLINT comment silences the checks: after a line whose comment names
    no category (or [*], or a known category) has been parsed, [Error] on the
    suppressed line (the next one for NOLINTNEXTLINE), for every category (for
    the named one), changes nothing. *)
Theorem Nolint_silences raw_line linenum filename mo category error g :
  Search _NOLINT raw_line = Some mo ->
  (group mo 2 = None \/ group mo 2 = Some (of_string "(*)")
   \/ (group mo 2 = Some (of_string "(" ++ category ++ of_string ")")
       /\ category ∈ _ERROR_CATEGORIES)) ->
  let line := if nonempty (grp mo 1) then linenum + 1 else linenum in
  exists g', ParseNolintSuppressions filename raw_line linenum error g = (g', Ok tt)
    /\ forall f confidence message,
         Error f line category confidence message g' = (g', Ok tt).
Proof.
  intros Hs Hcat line. unfold ParseNolintSuppressions. rewrite Hs.
  fold line.
  assert (forall key, key = None \/ key = Some category ->
    exists g', add_suppression key line g = (g', Ok tt)
    /\ forall f confidence message,
         Error f line category confidence message g' = (g', Ok tt)) as Hadd.
  { intros key Hkey. destruct (add_suppression_run key line g) as (g' & E & _ & Hsup & _).
    exists g'. split; [done|]. intros f confidence message.
    unfold Error. rewrite M_bind_eq. unfold get at 1. cbv beta iota.
    rewrite M_bind_eq. unfold lift, _ShouldPrintError. by rewrite Hsup. }
  destruct Hcat as [-> | [-> | [-> Hin]]]; [by apply Hadd; left..|].
  destruct (str_eqb _ (of_string "(*)")) eqn:Hstar; [by apply Hadd; left|].
  assert (startswith (of_string "(" ++ category ++ of_string ")") "(" = true) as ->.
  { apply startswith_spec. by eexists. }
  assert (endswith (of_string "(" ++ category ++ of_string ")") ")" = true) as ->.
  { apply endswith_spec. exists (of_string "(" ++ category). by rewrite <- app_assoc. }
  simpl andb. cbv iota.
  assert (slice (of_string "(" ++ category ++ of_string ")") 1 (-1) = category) as ->.
  { apply slice_inner. }
  assert (str_in category _ERROR_CATEGORIES = true) as ->; [by apply str_in_elem|].
  apply Hadd. by right.
Qed.

Lemma Nolint_silences_witness :
  exists g', ParseNolintSuppressions "a.cc" "int x;  // NOLINT(runtime/int)" 7 Error
               globals_init = (g', Ok tt)
    /\ Error "a.cc" 7 "runtime/int" 4 "m" g' = (g', Ok tt).
Proof.
  destruct (Nolint_silences "int x;  // NOLINT(runtime/int)" 7 "a.cc"
              (mkMatch (of_string "int x;  // NOLINT(runtime/int)") 11 30
                 [None; None; Some (17, 30)%nat])
              "runtime/int" Error globals_init) as (g' & E & H).
  - vm_compute. reflexivity.
  - right. right. split; [vm_compute; reflexivity|].
    apply str_in_elem. vm_compute. reflexivity.
  - exists g'. split; [exact E|]. apply H.
Defined.

(** [_regexp_compile_cache] is transparent: on a cache whose entries are the
    compilations of their keys, [Match], [Search] and [ReplaceAll] return what
    compiling the pattern afresh gives (or its error), and leave such a cache. *)
Lemma RegexpCache_transparent pat rep s c :
  cache_ok c ->
  let fresh := some_or ReError (re_compile pat) in
  (RegexpCache.Match pat s c).1 = (p ← fresh; Ok (Match p s))
  /\ (RegexpCache.Search pat s c).1 = (p ← fresh; Ok (Search p s))
  /\ (RegexpCache.ReplaceAll pat rep s c).1 = (p ← fresh; Ok (ReplaceAll p rep s))
  /\ cache_ok (RegexpCache.Match pat s c).2
  /\ cache_ok (RegexpCache.Search pat s c).2
  /\ cache_ok (RegexpCache.ReplaceAll pat rep s c).2.
Proof.
  intros Hc fresh.
  assert ((RegexpCache.compiled pat c).1 = fresh /\ cache_ok (RegexpCache.compiled pat c).2)
    as [E1 E2].
  { unfold RegexpCache.compiled, fresh. destruct (c !! pat) as [p|] eqn:E.
    - by rewrite (Hc _ _ E).
    - destruct (re_compile pat) eqn:Ep; [|done]. split; [done|].
      apply map_Forall_insert_2; [done|exact Hc]. }
  unfold RegexpCache.Match, RegexpCache.Search, RegexpCache.ReplaceAll.
  destruct (RegexpCache.compiled pat c) as [r c']. simpl in *. by rewrite E1.
Qed.

Lemma RegexpCache_transparent_witness :
  cache_ok ∅
  /\ is_some (match (RegexpCache.Search "\bVLOG\(" "  VLOG(2)" ∅).1 with
              | Ok o => o | Raise _ => None end) = true.
Proof.
  assert (cache_ok ∅) as H by apply map_Forall_empty. split; [exact H|].
  destruct (RegexpCache_transparent "\bVLOG\(" [] "  VLOG(2)" ∅ H) as (_ & E & _).
  rewrite E. vm_compute. reflexivity.
Defined.

(** * Programs that do not raise

    [total I m Q]: from a state with [I], [m] returns a value with [Q] in a state
    with [I].  Every check is proved against the interface [Handler] of the error
    function it reports to; [Error] is an instance. *)

Definition total (I : globals -> Prop) {A} (m : M A) (Q : A -> Prop) : Prop :=
  forall g, I g -> exists g' a, m g = (g', Ok a) /\ I g' /\ Q a.

Class Handler (I : globals -> Prop) (error : error_fn) : Prop :=
  handler_total filename linenum category confidence message :
    total I (error filename linenum category confidence message) (fun _ => True).

Definition sound (g : globals) : Prop := filters_wf g /\ counts_ok g.

#[export] Instance Error_handler : Handler sound Error.
Proof.
  intros f l c n m g [Hf Hc]. destruct (Error_keeps f l c n m g Hf Hc) as (g' & H & ?).
  by exists g', tt.
Qed.

Section Total.
Context (I : globals -> Prop).

Lemma total_weaken {A} (m : M A) (Q Q' : A -> Prop) :
  total I m Q -> (forall a, Q a -> Q' a) -> total I m Q'.
Proof. intros H HQ g Hg. destruct (H g Hg) as (g' & a & ? & ? & ?). exists g', a. auto. Qed.

Lemma total_ret {A} (a : A) (Q : A -> Prop) : Q a -> total I (mret a) Q.
Proof. intros HQ g Hg. by exists g, a. Qed.

Lemma total_skip (Q : unit -> Prop) : Q tt -> total I skip Q.
Proof. apply total_ret. Qed.

Lemma total_bind {A B} (m : M A) (f : A -> M B) (P : A -> Prop) (Q : B -> Prop) :
  total I m P -> (forall a, P a -> total I (f a) Q) -> total I (m ≫= f) Q.
Proof.
  intros Hm Hf g Hg. destruct (Hm g Hg) as (g1 & a & E & Hg1 & Ha).
  destruct (Hf a Ha g1 Hg1) as (g2 & b & ? & ? & ?). exists g2, b.
  by rewrite M_bind_eq, E.
Qed.

Lemma total_lift {A} (r : res A) (Q : A -> Prop) a : r = Ok a -> Q a -> total I (lift r) Q.
Proof. intros -> HQ g Hg. by exists g, a. Qed.

Lemma total_line_at (l : list str) (i : Z) (Q : str -> Prop) :
  0 <= i < len l -> (forall x, l !! Z.to_nat i = Some x -> Q x) -> total I (line_at l i) Q.
Proof.
  intros Hi HQ. destruct (lookup_lt_is_Some_2 l (Z.to_nat i)) as [x Hx]; [unfold len in *; lia|].
  apply (total_lift _ _ x); [|by apply HQ]. unfold idx. by rewrite py_index_pos, Hx by lia.
Qed.

Lemma total_when (b : bool) (m : M unit) :
  (b = true -> total I m (fun _ => True)) -> total I (when b m) (fun _ => True).
Proof. destruct b; [intros H; by apply H|intros _; by apply total_skip]. Qed.

Lemma total_for_each {A} (l : list A) (f : A -> M unit) :
  (forall x, x ∈ l -> total I (f x) (fun _ => True)) -> total I (for_each l f) (fun _ => True).
Proof.
  induction l as [|x l IH]; intros H; [by apply total_skip|].
  apply (total_bind _ _ (fun _ => True)); [apply H; left|].
  intros _ _. apply IH. intros y Hy. apply H. by right.
Qed.

Lemma total_get (Q : globals -> Prop) : (forall g, I g -> Q g) -> total I get Q.
Proof. intros H g Hg. exists g, g. auto. Qed.
End Total.

(** Follow the structure of a check: its lines exist, its errors return. *)
Ltac total_step :=
  match goal with
  | |- total _ skip _ => by apply total_skip
  | |- total _ (mret _) _ => by apply total_ret
  | |- total _ (when _ _) _ => apply total_when; intros ?
  | |- total _ (line_at ?l ?i ≫= _) _ =>
      apply (total_bind _ _ _ (fun x => l !! Z.to_nat i = Some x));
      [apply total_line_at; [|by intros ? ?]|intros ? ?]
  | |- total _ (_ ≫= _) _ => apply (total_bind _ _ _ (fun _ => True)); [|intros ? _]
  | |- total _ (if ?b then _ else _) _ => destruct b eqn:?
  | H : Handler _ ?error |- total _ (?error _ _ _ _ _) _ => apply H
  | |- total _ (for_each _ _) _ => apply total_for_each; intros ? ?
  end.

#[export] Hint Resolve total_skip total_ret total_when total_for_each : py.

(** An invariant that only looks at the [_CppLintState] object. *)
Class OnLint (I : globals -> Prop) : Prop :=
  on_lint g g' : cpplint_state g = cpplint_state g' -> I g -> I g'.

#[export] Instance sound_on_lint : OnLint sound.
Proof.
  intros g g' E [Hf Hc]. unfold sound, filters_wf, counts_ok, detailed_counting in *.
  by rewrite <- E.
Qed.

Lemma total_modify I `{!OnLint I} (f : globals -> globals) :
  (forall g, cpplint_state (f g) = cpplint_state g) -> total I (modify f) (fun _ => True).
Proof.
  intros H g Hg. exists (f g), tt. split; [done|]. split; [|done]. by eapply on_lint; [|exact Hg].
Qed.

Lemma ParseNolintSuppressions_total I error `{!Handler I error, !OnLint I}
    filename raw_line linenum :
  total I (ParseNolintSuppressions filename raw_line linenum error) (fun _ => True).
Proof.
  unfold ParseNolintSuppressions. destruct (Search _ _) as [mo|]; [|repeat total_step].
  assert (forall key line, total I (add_suppression key line) (fun _ => True)) as Hadd.
  { intros key line. by apply total_modify. }
  destruct (group mo 2) as [category|]; [|apply Hadd].
  repeat (total_step || apply Hadd).
Qed.

(** * What a program returns

    [gives m Q]: when the program [m] returns, its value has [Q]. *)

Definition gives {A} (m : M A) (Q : A -> Prop) : Prop := forall g g' a, m g = (g', Ok a) -> Q a.

Lemma gives_bind {A B} (m : M A) (f : A -> M B) (P : A -> Prop) (Q : B -> Prop) :
  gives m P -> (forall a, P a -> gives (f a) Q) -> gives (m ≫= f) Q.
Proof.
  intros Hm Hf g g' b. rewrite M_bind_eq. destruct (m g) as [g1 [a|e]] eqn:E; [|done].
  intros Eb. by apply (Hf a (Hm g g1 a E) g1 g').
Qed.

Lemma gives_ret {A} (a : A) (Q : A -> Prop) : Q a -> gives (mret a) Q.
Proof. by intros H g g' b [= <- <-]. Qed.

Lemma gives_lift {A} (r : res A) (Q : A -> Prop) : (forall a, r = Ok a -> Q a) -> gives (lift r) Q.
Proof. intros H g g' b [= <- ->]. by apply H. Qed.

Lemma gives_any {A} (m : M A) : gives m (fun _ => True).
Proof. done. Qed.

Lemma total_gives I {A} (m : M A) (P Q : A -> Prop) :
  total I m P -> gives m Q -> total I m (fun a => P a /\ Q a).
Proof.
  intros Ht Hg g HI. destruct (Ht g HI) as (g' & a & E & HI' & Ha).
  exists g', a. split_and!; [done..|by apply (Hg g g')].
Qed.
