(* ===== verification/Frame.v ===== *)
(** What a program leaves alone: [keeps R m] says that [m] relates the states before
    and after it by [R], whether it returns or raises.  The checks keep [reports]:
    they change no setting, they only add to the error output, and the number of
    errors does not go down. *)

From S2P Require Import Prelude PyStr Regex State StateFacts.

Open Scope Z_scope.
Open Scope py_scope.

Definition keeps (R : globals -> globals -> Prop) {A} (m : M A) : Prop :=
  forall g g' r, m g = (g', r) -> R g g'.

Lemma keeps_run R {A} (m : M A) g g' r : keeps R m -> m g = (g', r) -> R g g'.
Proof. intros H. apply H. Qed.

(** An error function that keeps [R]. *)
Class Keeper (R : globals -> globals -> Prop) (error : error_fn) : Prop :=
  keeper filename linenum category confidence message :
    keeps R (error filename linenum category confidence message).

(** [R] does not look at the NOLINT suppressions. *)
Class OffSuppressions (R : globals -> globals -> Prop) : Prop :=
  off_suppressions g m gm : R g (with_suppressions m gm g).

Section Keeps.
Context (R : globals -> globals -> Prop) `{!PreOrder R}.

Lemma keeps_ret {A} (a : A) : keeps R (mret a).
Proof. by intros g g' r [= <- _]. Qed.

Lemma keeps_lift {A} (r : res A) : keeps R (lift r).
Proof. by intros g g' r' [= <- _]. Qed.

Lemma keeps_raise {A} e : keeps R (raise (A:=A) e).
Proof. by intros g g' r' [= <- _]. Qed.

Lemma keeps_get : keeps R get.
Proof. by intros g g' r' [= <- _]. Qed.

Lemma keeps_modify f : (forall g, R g (f g)) -> keeps R (modify f).
Proof. by intros H g g' r' [= <- _]. Qed.

Lemma keeps_bind {A B} (m : M A) (f : A -> M B) :
  keeps R m -> (forall a, keeps R (f a)) -> keeps R (m ≫= f).
Proof.
  intros Hm Hf g g' r. rewrite M_bind_eq. destruct (m g) as [g1 [a|e]] eqn:E.
  - intros H. transitivity g1; [by eapply Hm|by eapply Hf].
  - intros [= <- _]. by eapply Hm.
Qed.

Lemma keeps_when (b : bool) m : keeps R m -> keeps R (when b m).
Proof. destruct b; [done|]. intros _. apply keeps_ret. Qed.

Lemma keeps_for_each {A} (l : list A) f :
  (forall x, x ∈ l -> keeps R (f x)) -> keeps R (for_each l f).
Proof.
  induction l as [|x l IH]; intros H; [apply keeps_ret|].
  apply keeps_bind; [apply H; left|]. intros _. apply IH. intros y Hy. apply H. by right.
Qed.
End Keeps.

Create HintDb keeps discriminated.

(** The function a term applies. *)
Ltac head_of t := lazymatch t with ?f _ => head_of f | _ => t end.

(** Follow the structure of a program, unfolding its parts. *)
Ltac keeps_step :=
  cbv beta zeta;
  lazymatch goal with
  | |- keeps _ skip => apply keeps_ret; exact _
  | |- keeps _ (mret _) => apply keeps_ret; exact _
  | |- keeps _ (lift _) => apply keeps_lift; exact _
  | |- keeps _ (line_at _ _) => apply keeps_lift; exact _
  | |- keeps _ (the_match _) => apply keeps_lift; exact _
  | |- keeps _ (raise _) => apply keeps_raise; exact _
  | |- keeps _ get => apply keeps_get; exact _
  | |- keeps _ (when _ _) => apply keeps_when; [exact _|]
  | |- keeps _ (mbind _ _) => apply keeps_bind; [exact _| |intros ?]
  | |- keeps _ (for_each _ _) => apply keeps_for_each; [exact _|intros ? ?]
  | |- keeps _ (match ?x with _ => _ end) => destruct x
  | H : Keeper _ ?error |- keeps _ (?error _ _ _ _ _) => apply H
  | |- keeps _ (Error _ _ _ _ _) => first [apply keeper | unfold Error]
  | |- keeps _ (modify _) =>
      apply keeps_modify; intros ?; first [apply off_suppressions | solve [auto with keeps]]
  | |- keeps _ ?m => first [solve [eauto 2 with keeps] | let h := head_of m in unfold h]
  end.

Ltac keeps_all := repeat keeps_step.

(** * Reports *)

Definition settings (g : globals) :=
  (verbose_level (cpplint_state g), filters (cpplint_state g), filters_backup (cpplint_state g),
   counting (cpplint_state g), quiet (cpplint_state g), output_format (cpplint_state g),
   line_length g, root g, valid_extensions g, hpp_headers g).

Definition reports (g g' : globals) : Prop :=
  settings g' = settings g
  /\ error_count (cpplint_state g) <= error_count (cpplint_state g')
  /\ stderr g `prefix_of` stderr g' /\ stdout g' = stdout g.

#[export] Instance reports_preorder : PreOrder reports.
Proof.
  split.
  - intros g. split_and!; done.
  - intros g1 g2 g3 (S1 & E1 & P1 & O1) (S2 & E2 & P2 & O2). split_and!; try congruence; [lia|].
    by etransitivity.
Qed.

#[export] Instance reports_off_suppressions : OffSuppressions reports.
Proof. intros g m gm. by split_and!. Qed.

#[export] Instance Error_reports : Keeper reports Error.
Proof.
  intros f l c n m. unfold Error. keeps_step; [keeps_step|]. keeps_step; [keeps_step|].
  keeps_step. keeps_step.
  - apply keeps_modify. intros g. unfold reports, settings, with_lint, with_counts.
    cbn [cpplint_state stderr stdout line_length root valid_extensions hpp_headers].
    destruct (str_in _ _); cbn; split_and!; (done || lia).
  - apply keeps_modify. intros g. unfold reports, settings. cbn. split_and!; try done.
    by eexists [_].
Qed.

(** A successful sequence. *)
Lemma bind_Ok {A B} (m : M A) (f : A -> M B) g g' b :
  (m ≫= f) g = (g', Ok b) -> exists g1 a, m g = (g1, Ok a) /\ f a g1 = (g', Ok b).
Proof. rewrite M_bind_eq. destruct (m g) as [g1 [a|e]]; [eauto|done]. Qed.

(** ** Settings only *)

Definition same_settings (g g' : globals) : Prop := settings g' = settings g.

#[export] Instance same_settings_preorder : PreOrder same_settings.
Proof. split; [by intros g|]. intros g1 g2 g3 H1 H2. by etransitivity. Qed.

#[export] Instance same_settings_off_suppressions : OffSuppressions same_settings.
Proof. by intros g m gm. Qed.

#[export] Instance Error_same_settings : Keeper same_settings Error.
Proof. intros f l c n m g g' r H. by destruct (Error_reports _ _ _ _ _ _ _ _ H). Qed.

#[export] Hint Extern 1 (same_settings _ _) => reflexivity : keeps.

(** ** The settings a configuration file cannot change *)

Definition fixed (g : globals) :=
  (verbose_level (cpplint_state g), filters_backup (cpplint_state g), counting (cpplint_state g),
   quiet (cpplint_state g), output_format (cpplint_state g)).

Definition same_fixed (g g' : globals) : Prop := fixed g' = fixed g.

#[export] Instance same_fixed_preorder : PreOrder same_fixed.
Proof. split; [by intros g|]. intros g1 g2 g3 H1 H2. by etransitivity. Qed.

#[export] Instance same_fixed_off_suppressions : OffSuppressions same_fixed.
Proof. by intros g m gm. Qed.

#[export] Hint Extern 1 (same_fixed _ _) => reflexivity : keeps.
