(* ===== verification/Reporter.v ===== *)
(** What the checks of a file do to the world, abstractly: they append errors to a log.
    The detailed state -- the error output, the number of errors and the numbers by
    category -- represents the log, and every run of the checks is simulated by steps
    that log one error which the settings let through. *)

From S2P Require Import Prelude PyStr Regex State StateFacts Frame.

Open Scope Z_scope.
Open Scope py_scope.

(** * The abstract reporter *)

Record Report : Type := mkReport {
  r_file : str;
  r_line : Z;
  r_category : str;
  r_confidence : Z;
  r_message : str
}.

Abbreviation log := (list Report).

(** The filters are signed, and let the category through; the confidence is enough. *)
Definition shown (v : Z) (fs : list str) (r : Report) : Prop :=
  v <= r_confidence r /\ Forall (fun f => signed f = true) fs /\ verdict fs (r_category r) = true.

Inductive logs (v : Z) (fs : list str) : log -> log -> Prop :=
| log_one l r : shown v fs r -> logs v fs l (l ++ [r]).

(** The key a category is counted under, if it is. *)
Definition count_key (style category : str) : option str :=
  if style =s "detailed" then Some category
  else if style =s "toplevel" then Some (default [] (head (split category "/")))
  else None.

Definition tally (style : str) (m : gmap str Z) (r : Report) : gmap str Z :=
  match count_key style (r_category r) with
  | Some key => <[key := default 0 (m !! key) + 1]> m
  | None => m
  end.

Definition render (fmt : str) (r : Report) : str :=
  error_text fmt (r_file r) (r_line r) (r_category r) (r_confidence r) (r_message r).

(** Since [g0] the errors of the log were reported, and nothing else happened. *)
Record represents (g0 : globals) (l : log) (g : globals) : Prop := mkRepresents {
  rep_settings : settings g = settings g0;
  rep_stdout : stdout g = stdout g0;
  rep_stderr : stderr g = (stderr g0 ++ (render (output_format (cpplint_state g0)) <$> l))%list;
  rep_count : error_count (cpplint_state g) = error_count (cpplint_state g0) + len l;
  rep_categories : errors_by_category (cpplint_state g)
    = foldl (tally (counting (cpplint_state g0))) (errors_by_category (cpplint_state g0)) l
}.

(** From a state that represents a log to one that represents a log reached from it. *)
Definition simulated (g0 g g' : globals) : Prop :=
  forall l, represents g0 l g ->
  exists l', rtc (logs (verbose_level (cpplint_state g0)) (filters (cpplint_state g0))) l l'
             /\ represents g0 l' g'.

(** * The error function is simulated *)

Lemma represents_refl g : represents g [] g.
Proof. split; simpl; [done..| | |done]; [by rewrite app_nil_r|unfold len; simpl; lia]. Qed.

#[export] Instance simulated_preorder g0 : PreOrder (simulated g0).
Proof.
  split.
  - intros g l H. exists l. by split.
  - intros g1 g2 g3 H1 H2 l (l1 & Hl1 & (l2 & ? & ?)%H2)%H1. exists l2. split; [by etransitivity|done].
Qed.

#[export] Instance simulated_off_suppressions g0 : OffSuppressions (simulated g0).
Proof. intros g m gm l [H1 H2 H3 H4 H5]. exists l. split; [done|]. by split. Qed.

Lemma filter_loop_signed fs category b b' :
  filter_loop fs category b = Ok b' -> Forall (fun f => signed f = true) fs.
Proof.
  revert b. induction fs as [|f fs IH]; intros b; [constructor|]. cbn [filter_loop].
  destruct (startswith f "-") eqn:E1; [|destruct (startswith f "+") eqn:E2; [|done]];
    intros H; constructor; (by eapply IH) || unfold signed; by rewrite ?E1, ?E2, ?orb_true_r.
Qed.

Lemma ShouldPrintError_shown filename linenum category confidence message g :
  _ShouldPrintError category confidence linenum g = Ok true ->
  shown (verbose_level (cpplint_state g)) (filters (cpplint_state g))
    (mkReport filename linenum category confidence message).
Proof.
  unfold _ShouldPrintError. destruct (IsErrorSuppressedByNolint _ _ _); [done|].
  destruct (Z.ltb_spec confidence (verbose_level (cpplint_state g))); [done|].
  destruct (filter_loop _ _ _) as [b|] eqn:E; [|done]. intros [= Hb%negb_true_iff]. subst b.
  apply filter_loop_signed in E as Hf. split; [done|]. split; [done|].
  rewrite filter_loop_verdict in E by done. injection E as E. unfold verdict. simpl.
  destruct (List.find _ _); [|done]. by apply negb_false_iff in E.
Qed.

(** Counting an error is the tally of the log. *)
Lemma IncrementErrorCount_tally r g :
  IncrementErrorCount (r_category r) g
  = (with_lint (with_counts (error_count (cpplint_state g) + 1)
       (tally (counting (cpplint_state g)) (errors_by_category (cpplint_state g)) r)) g, Ok tt).
Proof.
  unfold IncrementErrorCount, modify, with_lint, tally, count_key. f_equal. f_equal.
  unfold str_in. cbn [existsb]. destruct (str_eqb (counting (cpplint_state g)) "detailed") eqn:Ed.
  - by rewrite orb_true_r.
  - by destruct (str_eqb (counting (cpplint_state g)) "toplevel").
Qed.

#[export] Instance Error_simulated g0 : Keeper (simulated g0) Error.
Proof.
  intros f n c conf m g g' res. unfold Error. rewrite M_bind_eq. unfold get at 1. cbv beta iota.
  rewrite M_bind_eq. unfold lift.
  destruct (_ShouldPrintError c conf n g) as [[]|e] eqn:E; cbn [when];
    [|intros [= <- _]; reflexivity..].
  set (r := mkReport f n c conf m). change (IncrementErrorCount c) with (IncrementErrorCount (r_category r)).
  rewrite M_bind_eq, IncrementErrorCount_tally. intros [= <- _] l [H1 H2 H3 H4 H5].
  pose proof (ShouldPrintError_shown f n c conf m g E) as Hs. fold r in Hs.
  unfold settings in H1. injection H1. intros _ _ _ _ Hfmt Hq Hcnt _ Hfs Hv.
  exists (l ++ [r])%list. split.
  - apply rtc_once. constructor. by rewrite <- Hfs, <- Hv.
  - split; cbn.
    + exact H1.
    + exact H2.
    + rewrite H3, fmap_app, <- app_assoc, Hfmt. done.
    + rewrite H4. unfold len. rewrite length_app. simpl. lia.
    + by rewrite foldl_app, <- H5, Hcnt.
Qed.
