(* ===== verification/Agree.v ===== *)
(** What the linter finds does not depend on how it reports: two states [agree] when they
    differ in the output format, the quiet flag and what was written so far only; a
    program is [blind] when from states that agree it has the same result and leaves
    states that agree. *)

From S2P Require Import Prelude PyStr Regex State StateFacts Frame.

Open Scope Z_scope.
Open Scope py_scope.

Record agree (g1 g2 : globals) : Prop := mkAgree {
  ag_verbose : verbose_level (cpplint_state g1) = verbose_level (cpplint_state g2);
  ag_count : error_count (cpplint_state g1) = error_count (cpplint_state g2);
  ag_filters : filters (cpplint_state g1) = filters (cpplint_state g2);
  ag_backup : filters_backup (cpplint_state g1) = filters_backup (cpplint_state g2);
  ag_counting : counting (cpplint_state g1) = counting (cpplint_state g2);
  ag_categories : errors_by_category (cpplint_state g1) = errors_by_category (cpplint_state g2);
  ag_suppressions : error_suppressions g1 = error_suppressions g2;
  ag_global : global_error_suppressions g1 = global_error_suppressions g2;
  ag_length : line_length g1 = line_length g2;
  ag_root : root g1 = root g2;
  ag_extensions : valid_extensions g1 = valid_extensions g2;
  ag_headers : hpp_headers g1 = hpp_headers g2
}.

#[export] Instance agree_equivalence : Equivalence agree.
Proof.
  split.
  - intros g. by split.
  - intros g1 g2 []. by split.
  - intros g1 g2 g3 [] []. split; congruence.
Qed.

Definition blind {A} (m : M A) : Prop :=
  forall g1 g2, agree g1 g2 -> (m g1).2 = (m g2).2 /\ agree (m g1).1 (m g2).1.

(** An error function that is blind. *)
Class Blind (error : error_fn) : Prop :=
  blind_error filename linenum category confidence message :
    blind (error filename linenum category confidence message).

(** * Combinators *)

Lemma blind_result {A} (r : res A) : blind (fun g => (g, r)).
Proof. by intros g1 g2 H. Qed.

Lemma blind_ret {A} (a : A) : blind (mret a).
Proof. apply blind_result. Qed.

Lemma blind_lift {A} (r : res A) : blind (lift r).
Proof. apply blind_result. Qed.

Lemma blind_raise {A} e : blind (raise (A:=A) e).
Proof. apply blind_result. Qed.

Lemma blind_modify f : (forall g1 g2, agree g1 g2 -> agree (f g1) (f g2)) -> blind (modify f).
Proof. intros Hf g1 g2 H. split; [done|]. by apply Hf. Qed.

Lemma blind_bind {A B} (m : M A) (f : A -> M B) :
  blind m -> (forall a, blind (f a)) -> blind (m ≫= f).
Proof.
  intros Hm Hf g1 g2 H. rewrite !M_bind_eq. destruct (Hm g1 g2 H) as [E H'].
  destruct (m g1) as [h1 r1], (m g2) as [h2 r2]. cbn in E, H'. subst r2.
  destruct r1 as [a|e]; [by apply Hf|by split].
Qed.

(** What is read of the state is what the states agree on. *)
Lemma blind_get {A} (f : globals -> M A) :
  (forall g1 g2, agree g1 g2 -> f g1 = f g2) -> (forall g, blind (f g)) -> blind (get ≫= f).
Proof.
  intros Hf Hb g1 g2 H. rewrite !M_bind_eq. unfold get. rewrite (Hf g1 g2 H). by apply Hb.
Qed.

Lemma blind_when (b : bool) m : blind m -> blind (when b m).
Proof. destruct b; [done|]. intros _. apply blind_ret. Qed.

Lemma blind_for_each {A} (l : list A) f : (forall x, x ∈ l -> blind (f x)) -> blind (for_each l f).
Proof.
  induction l as [|x l IH]; intros H; [apply blind_ret|].
  apply blind_bind; [apply H; left|]. intros _. apply IH. intros y Hy. apply H. by right.
Qed.

Create HintDb blind discriminated.

(** Rewrite what the states agree on. *)
Ltac agree_rewrite H :=
  destruct H; unfold IsHeaderExtension, IsErrorSuppressedByNolint, with_lint, with_suppressions,
    with_filters, with_counts, with_settings, with_line_length, with_root, with_extensions,
    with_output in *; cbn; repeat match goal with E : _ = _ |- _ => rewrite E; clear E end.

Ltac blind_step :=
  cbv beta zeta;
  lazymatch goal with
  | |- blind skip => apply blind_ret
  | |- blind (mret _) => apply blind_ret
  | |- blind (lift _) => apply blind_lift
  | |- blind (line_at _ _) => apply blind_lift
  | |- blind (the_match _) => apply blind_lift
  | |- blind (raise _) => apply blind_raise
  | |- blind (when _ _) => apply blind_when
  | |- blind (mbind _ get) =>
      apply blind_get; [let H := fresh in intros ? ? H; agree_rewrite H; reflexivity|intros ?]
  | |- blind (mbind _ _) => apply blind_bind; [|intros ?]
  | |- blind (for_each _ _) => apply blind_for_each; intros ? ?
  | |- blind (match ?x with _ => _ end) => destruct x
  | H : Blind ?error |- blind (?error _ _ _ _ _) => apply H
  | |- blind (Error _ _ _ _ _) => apply blind_error
  | |- blind (modify _) =>
      apply blind_modify; let H := fresh in intros ? ? H; split; agree_rewrite H; reflexivity
  | |- blind ?m => first [solve [eauto 2 with blind] | let h := head_of m in unfold h]
  end.

Ltac blind_all := repeat blind_step.

(** * Reporting *)

Lemma write_stderr_agree s1 s2 g1 g2 :
  agree g1 g2 -> agree (write_stderr s1 g1).1 (write_stderr s2 g2).1.
Proof. intros []. by split. Qed.

Lemma IncrementErrorCount_blind category : blind (IncrementErrorCount category).
Proof.
  unfold IncrementErrorCount. apply blind_modify. intros g1 g2 []. unfold with_lint. cbv zeta.
  rewrite ag_counting0, ag_count0, ag_categories0. destruct (str_in _ _); by split.
Qed.

(** The format decides how an error is written, not whether. *)
#[export] Instance Error_blind : Blind Error.
Proof.
  intros f l c n m g1 g2 H. unfold Error. rewrite !M_bind_eq. unfold get. cbv beta iota.
  assert (_ShouldPrintError c n l g1 = _ShouldPrintError c n l g2) as E.
  { destruct H. unfold _ShouldPrintError, IsErrorSuppressedByNolint.
    by rewrite ag_suppressions0, ag_global0, ag_verbose0, ag_filters0. }
  rewrite !M_bind_eq, E. unfold lift. destruct (_ShouldPrintError c n l g2) as [[]|e]; [|by split..].
  cbn [when]. rewrite !M_bind_eq. destruct (IncrementErrorCount_blind c g1 g2 H) as [E2 H2].
  destruct (IncrementErrorCount c g1) as [h1 r1], (IncrementErrorCount c g2) as [h2 r2].
  cbn in E2, H2. subst r2. destruct r1; [|done]. split; [done|]. by apply write_stderr_agree.
Qed.
