(* ===== verification/Cleanse.v ===== *)
(** Preparing the lines of a file for the checks: removal of C++11 raw strings,
    of multi-line comments and of comments on a line, collapsing of string and
    character literals, and the [CleansedLines] object that holds the results. *)

From S2P Require Import Prelude PyStr Regex State.

Open Scope Z_scope.
Open Scope py_scope.

(** The empty string literal that replaces a literal. *)
Definition empty_literal : str := "``".
Definition dquote : str := "`".

(** * Patterns *)

Definition _RE_PATTERN_CLEANSE_LINE_ESCAPES : pattern :=
  rx "\\([abfnrtv?`\\\']|\d+|x[0-9a-fA-F]+)".

Definition _RE_PATTERN_C_COMMENTS : string := "/\*(?:[^*]|\*(?!/))*\*/".

Definition _RE_PATTERN_CLEANSE_LINE_C_COMMENTS : pattern :=
  rx ("(\s*" ++ _RE_PATTERN_C_COMMENTS ++ "\s*$|" ++
      _RE_PATTERN_C_COMMENTS ++ "\s+|" ++
      "\s+" ++ _RE_PATTERN_C_COMMENTS ++ "(?=\W)|" ++
      _RE_PATTERN_C_COMMENTS ++ ")").

Definition _RE_PATTERN_INCLUDE : pattern := rx "^\s*#\s*include\s*([<`])([^>`]*)[>`].*$".

(** The patterns of [CleanseRawStrings]. *)
Definition _LEADING_SPACE : pattern := rx "^(\s*)\S".
Definition _RAW_STRING : pattern := rx "^(.*?)\b(?:R|u8R|uR|UR|LR)`([^\s\\()]*)\((.*)$".
Definition _LINE_COMMENT : pattern := rx "^([^\'`]|\'(\\.|[^\'])*\'|`(\\.|[^`])*`)*//".

(** The patterns of [_CollapseStrings]. *)
Definition _FIRST_QUOTE : pattern := rx "^([^\'`]*)([\'`])(.*)$".
Definition _NUMBER_PREFIX : pattern := rx "\b(?:0[bBxX]?|[1-9])[0-9a-fA-F]*$".
Definition _DIGIT_SEPARATORS : pattern := rx "^((?:\'?[0-9a-zA-Z_])*)(.*)$".

(** * Strings and raw strings *)

Definition IsCppString (line : str) : bool :=
  let line := replace line "\\" "XX" in
  Z.land (count line dquote - count line "\`" - count line "'`'") 1 =? 1.

(** The loop that looks for the beginning of raw strings, entered with no
    delimiter pending; it stops when none is left or one does not end on the
    line. *)
Fixpoint raw_string_loop (fuel : nat) (line : str) : res (option str * str) :=
  match fuel with
  | O => Raise OutOfFuel
  | S f =>
      match Match _RAW_STRING line with
      | Some matched =>
          if negb (matches _LINE_COMMENT (grp matched 1)) then
            let delimiter := (of_string ")" ++ grp matched 2 ++ dquote)%list in
            let e := find (grp matched 3) delimiter in
            if 0 <=? e then
              raw_string_loop f
                (grp matched 1 ++ empty_literal ++ slice_from (grp matched 3) (e + len delimiter))
            else Ok (Some delimiter, (grp matched 1 ++ empty_literal)%list)
          else Ok (None, line)
      | None => Ok (None, line)
      end
  end.

Definition raw_string_fuel (line : str) : nat := S (length line).

(** One line: the delimiter pending after it, and the line without raw strings. *)
Definition cleanse_raw_line (delimiter : option str) (line : str) : res (option str * str) :=
  match delimiter with
  | Some d =>
      let e := find line d in
      if 0 <=? e then
        leading_space ← some_or AttributeError (Match _LEADING_SPACE line);
        let line := (grp leading_space 1 ++ empty_literal ++ slice_from line (e + len d))%list in
        raw_string_loop (raw_string_fuel line) line
      else Ok (Some d, empty_literal)
  | None => raw_string_loop (raw_string_fuel line) line
  end.

Fixpoint cleanse_raw_lines (delimiter : option str) (raw_lines : list str) : res (list str) :=
  match raw_lines with
  | [] => Ok []
  | line :: rest =>
      '(delimiter, line) ← cleanse_raw_line delimiter line;
      out ← cleanse_raw_lines delimiter rest;
      Ok (line :: out)
  end.

Definition CleanseRawStrings (raw_lines : list str) : res (list str) :=
  cleanse_raw_lines None raw_lines.

(** * Multi-line comments *)

(** First line from [lineix] on that satisfies [p], or the number of lines. *)
Fixpoint next_line (p : str -> bool) (lines : list str) (fuel lineix : nat) : nat :=
  match fuel with
  | O => length lines
  | S f =>
      match lines !! lineix with
      | Some l => if p l then lineix else next_line p lines f (S lineix)
      | None => length lines
      end
  end.

Definition opens_comment (line : str) : bool :=
  startswith (strip line) "/*" && (find_from (strip line) "*/" 2 <? 0).

Definition closes_comment (line : str) : bool := endswith (strip line) "*/".

Definition FindNextMultiLineCommentStart (lines : list str) (lineix : nat) : nat :=
  next_line opens_comment lines (length lines - lineix) lineix.

Definition FindNextMultiLineCommentEnd (lines : list str) (lineix : nat) : nat :=
  next_line closes_comment lines (length lines - lineix) lineix.

Definition RemoveMultiLineCommentsFromRange (lines : list str) (first last : nat) : list str :=
  foldl (fun ls i => <[i := of_string "/**/"]> ls) lines (seq first (last - first)).

Fixpoint remove_comments_loop (fuel : nat) (filename : str) (lines : list str) (lineix : nat)
    (error : error_fn) : M (list str) :=
  match fuel with
  | O => raise OutOfFuel
  | S f =>
      if (lineix <? length lines)%nat then
        let lineix_begin := FindNextMultiLineCommentStart lines lineix in
        if (length lines <=? lineix_begin)%nat then mret lines
        else
          let lineix_end := FindNextMultiLineCommentEnd lines lineix_begin in
          if (length lines <=? lineix_end)%nat then
            error filename (Z.of_nat lineix_begin + 1) "readability/multiline_comment" 5
              "Could not find end of multi-line comment" ;;
            mret lines
          else
            remove_comments_loop f filename
              (RemoveMultiLineCommentsFromRange lines lineix_begin (S lineix_end))
              (S lineix_end) error
      else mret lines
  end.

Definition RemoveMultiLineComments (filename : str) (lines : list str) (error : error_fn)
    : M (list str) :=
  remove_comments_loop (S (length lines)) filename lines 0 error.

(** * Comments on a line *)

Definition CleanseComments (line : str) : str :=
  let commentpos := find line "//" in
  let line :=
    if negb (commentpos =? -1) && negb (IsCppString (slice_to line commentpos))
    then rstrip (slice_to line commentpos)
    else line in
  re_sub _RE_PATTERN_CLEANSE_LINE_C_COMMENTS [] line.

(** * Collapsing literals *)

Fixpoint collapse_loop (fuel : nat) (collapsed elided : str) : res str :=
  match fuel with
  | O => Raise OutOfFuel
  | S f =>
      match Match _FIRST_QUOTE elided with
      | None => Ok (collapsed ++ elided)
      | Some mo =>
          let hd := grp mo 1 in
          let quote := grp mo 2 in
          let tail := grp mo 3 in
          if quote =s dquote then
            let second_quote := find tail dquote in
            if 0 <=? second_quote
            then collapse_loop f (collapsed ++ hd ++ empty_literal)
                   (slice_from tail (second_quote + 1))
            else Ok (collapsed ++ elided)
          else if searches _NUMBER_PREFIX hd then
            match_literal ← some_or AttributeError (Match _DIGIT_SEPARATORS ("'" ++ tail));
            collapse_loop f
              (collapsed ++ hd ++ replace (grp match_literal 1) "'" [])
              (grp match_literal 2)
          else
            let second_quote := find tail "'" in
            if 0 <=? second_quote
            then collapse_loop f (collapsed ++ hd ++ of_string "''")
                   (slice_from tail (second_quote + 1))
            else Ok (collapsed ++ elided)
      end
  end%list.

Definition _CollapseStrings (elided : str) : res str :=
  if matches _RE_PATTERN_INCLUDE elided then Ok elided
  else
    let elided := re_sub _RE_PATTERN_CLEANSE_LINE_ESCAPES [] elided in
    collapse_loop (S (length elided)) [] elided.

(** * [CleansedLines] *)

Record CleansedLines : Type := mkCleansedLines {
  elided : list str;
  lines : list str;
  raw_lines : list str;
  lines_without_raw_strings : list str
}.

Definition NumLines (cl : CleansedLines) : Z := len (raw_lines cl).

Definition elide_line (line : str) : res str :=
  e ← _CollapseStrings line; Ok (CleanseComments e).

Fixpoint elide_lines (ls : list str) : res (list str) :=
  match ls with
  | [] => Ok []
  | l :: ls' => e ← elide_line l; es ← elide_lines ls'; Ok (e :: es)
  end.

Definition CleansedLines_init (raw : list str) : res CleansedLines :=
  without ← CleanseRawStrings raw;
  es ← elide_lines without;
  Ok (mkCleansedLines es (CleanseComments <$> without) raw without).
