(* ===== verification/CleanseFacts.v ===== *)
(** Properties of the cleansing passes: they terminate and never raise, keep the
    number of lines, leave alone what has no literal or comment, and remove what
    they promise to remove. *)

From S2P Require Import Prelude PyStr Regex RegexFacts State StateFacts Cleanse.

#[local] Set Warnings "-clear-no-such-hyp".

Open Scope Z_scope.
Open Scope py_scope.

(** * Specifications *)

(** The line opens a raw string outside a comment. *)
Definition opens_raw (line : str) : bool :=
  match Match _RAW_STRING line with
  | Some matched => negb (matches _LINE_COMMENT (grp matched 1))
  | None => false
  end.

(** * Captures of the patterns *)

(** Reduce a match of a concrete pattern to positions and captures: every step
    without groups leaves the captures alone and advances by its least length. *)
Ltac match_inv H p :=
  let Hb := fresh "Hb" in
  pose proof (match_at_bounds _ _ _ _ (Nat.le_0_l _) H) as Hb;
  apply match_at_Some in H as (? & ? & H); unfold p in H;
  cbn [p_regex p_icase p_groups caps0] in H; mt_inv;
  repeat match goal with
  | H : Mt _ _ _ _ _ _ _ |- _ =>
      pose proof (Mt_min_len _ _ _ _ _ _ _ H);
      apply Mt_no_groups in H; [|reflexivity]; subst
  end.

Lemma grp_bound mo n a b :
  mo_caps mo !! n = Some (Some (a, b)) -> (length (grp mo n) <= b - a)%nat.
Proof. apply length_captured. Qed.

Lemma RAW_STRING_shape line mo :
  Match _RAW_STRING line = Some mo ->
  (length (grp mo 1) + length (grp mo 2) + length (grp mo 3) + 3 <= length line)%nat.
Proof.
  intros Hm. match_inv Hm _RAW_STRING.
  match goal with H : mo_caps mo = _ |- _ => simpl in H; rename H into Hc end.
  pose proof (grp_bound mo 1 _ _ ltac:(rewrite Hc; reflexivity)).
  pose proof (grp_bound mo 2 _ _ ltac:(rewrite Hc; reflexivity)).
  pose proof (grp_bound mo 3 _ _ ltac:(rewrite Hc; reflexivity)).
  simpl in *. lia.
Qed.

Lemma length_slice_from {A} (l : list A) a :
  (length (slice_from l a) <= length l)%nat.
Proof. unfold slice_from. rewrite length_drop. lia. Qed.

Lemma length_slice_from_pos {A} (l : list A) a :
  0 <= a -> length (slice_from l a) = (length l - Z.to_nat a)%nat.
Proof. intros H. rewrite slice_from_pos by done. apply length_drop. Qed.

Lemma find_prefix line sub : 0 <= find line sub -> find line sub + len sub <= len line.
Proof.
  unfold find, len. destruct (find_nat sub line) as [i|] eqn:E; simpl; [|lia].
  apply find_nat_Some in E as [? ?%prefixb_length]. rewrite length_drop in *. lia.
Qed.

(** The loop ends before its fuel does, and leaves no raw string open. *)
Lemma raw_string_loop_ok fuel line :
  (length line < fuel)%nat ->
  exists d out, raw_string_loop fuel line = Ok (d, out)
    /\ (forall x, d = Some x -> exists t, x = of_string ")" ++ t)
    /\ (d = None -> opens_raw out = false).
Proof.
  revert line. induction fuel as [|f IH]; intros line Hf; [lia|]. cbn [raw_string_loop].
  destruct (Match _RAW_STRING line) as [mo|] eqn:E.
  - destruct (negb (matches _LINE_COMMENT (grp mo 1))) eqn:Ec.
    + destruct (Z.leb_spec 0 (find (grp mo 3) (of_string ")" ++ grp mo 2 ++ dquote))) as [He|He];
        [|eexists _, _; split_and!; [done| |done]; intros x [= <-]; by eexists].
      apply IH. pose proof (RAW_STRING_shape _ _ E) as Hl.
      apply find_prefix in He as Hp. rewrite !length_app.
      rewrite length_slice_from_pos by (unfold len; lia).
      unfold len in *. rewrite !length_app in *. simpl in *. lia.
    + eexists _, _. split_and!; [done..|]. intros _. unfold opens_raw. by rewrite E.
  - eexists _, _. split_and!; [done..|]. intros _. unfold opens_raw. by rewrite E.
Qed.

(** A line with a character that is not white space has a leading space. *)
Lemma LEADING_SPACE_total line k ch :
  line !! k = Some ch -> re_space ch = false -> exists mo, Match _LEADING_SPACE line = Some mo.
Proof.
  intros Hk Hch.
  assert (exists j d, line !! j = Some d /\ re_space d = false
    /\ run_of line (fun ch => re_space ch = true) 0 j) as (j & d & Hj & Hd & Hlt).
  { revert k Hk. induction line as [|a l IH]; intros k Hk; [done|].
    destruct (re_space a) eqn:Ea.
    - destruct k as [|k]; [simplify_eq/=; congruence|].
      destruct (IH k Hk) as (j & d & Hj & Hd & Hlt).
      exists (S j), d. split_and!; [done..|]. intros [|i] Hi; [by exists a|].
      destruct (Hlt i) as (e & He & Hs); [lia|]. by exists e.
    - exists 0%nat, a. split_and!; [done..|]. intros i ?. lia. }
  apply (Match_is_some _ _ (S j)). eexists. unfold _LEADING_SPACE. cbn [p_regex p_icase].
  exists 0%nat, (caps0 _LEADING_SPACE). split; [done|].
  eexists j, _. split.
  - eexists. split; [|reflexivity]. apply Mt_star_set. split_and!; [lia|reflexivity|].
    intros i Hi. destruct (Hlt i Hi) as (e & He & Hs). exists e. split; [done|].
    unfold set_char. simpl. by rewrite Hs.
  - exists d. split_and!; [done| |done|done]. simpl. by rewrite Hd.
Qed.

Lemma cleanse_raw_line_ok d line :
  (forall x, d = Some x -> exists t, x = of_string ")" ++ t) ->
  exists d' out, cleanse_raw_line d line = Ok (d', out)
    /\ (forall x, d' = Some x -> exists t, x = of_string ")" ++ t)
    /\ (d' = None -> opens_raw out = false).
Proof.
  intros Hd. unfold cleanse_raw_line. destruct d as [x|].
  - destruct (Z.leb_spec 0 (find line x)) as [He|He]; [|by eexists _, _].
    destruct (Hd x eq_refl) as [t ->].
    assert (exists k, line !! k = Some (Ascii.N_of_ascii ")")) as [k Hk].
    { unfold find in He. destruct (find_nat _ line) as [i|] eqn:Ei; [|simpl in He; lia].
      apply find_nat_Some in Ei as [_ [u Hu]%prefixb_spec].
      exists i. rewrite <- (Nat.add_0_r i), <- lookup_drop, Hu. done. }
    destruct (LEADING_SPACE_total line k _ Hk eq_refl) as [mo ->]. cbn [some_or mbind res_bind].
    apply raw_string_loop_ok. unfold raw_string_fuel. lia.
  - apply raw_string_loop_ok. unfold raw_string_fuel. lia.
Qed.

Lemma cleanse_raw_lines_ok raw d :
  (forall x, d = Some x -> exists t, x = of_string ")" ++ t) ->
  exists out, cleanse_raw_lines d raw = Ok out /\ length out = length raw.
Proof.
  revert d. induction raw as [|line raw IH]; intros d Hd; simpl; [by exists []|].
  destruct (cleanse_raw_line_ok d line Hd) as (d' & l & -> & Hd' & _). simpl.
  destruct (IH d' Hd') as (out & -> & Hl). simpl. exists (l :: out). simpl. by rewrite Hl.
Qed.

Lemma cleanse_raw_lines_id raw :
  Forall (fun l => opens_raw l = false) raw -> cleanse_raw_lines None raw = Ok raw.
Proof.
  induction 1 as [|l raw Hl _ IH]; simpl; [done|].
  unfold opens_raw in Hl. destruct (Match _RAW_STRING l); simpl.
  - rewrite Hl. simpl. by rewrite IH.
  - by rewrite IH.
Qed.

Lemma CleanseRawStrings_ok raw :
  exists out, CleanseRawStrings raw = Ok out /\ length out = length raw.
Proof. by apply cleanse_raw_lines_ok. Qed.

(** C24: [CleanseRawStrings] always terminates without an exception (the [None]
    its [leading_space.group] could meet never occurs), returns as many lines as
    it is given, and changes nothing when no line opens a raw string. *)
Theorem CleanseRawStrings_total raw :
  exists out, CleanseRawStrings raw = Ok out /\ length out = length raw
    /\ (Forall (fun l => opens_raw l = false) raw -> out = raw).
Proof.
  destruct (cleanse_raw_lines_ok raw None) as (out & E & Hl); [done|].
  exists out. split_and!; [done..|]. intros H%cleanse_raw_lines_id.
  unfold CleanseRawStrings in *. congruence.
Qed.

(** A raw string that opens and closes on a line leaves that line with no
    raw string open: whenever [cleanse_raw_line] reports no pending delimiter,
    the line it returns opens none outside a comment. *)
Lemma cleanse_raw_line_closed line out :
  cleanse_raw_line None line = Ok (None, out) -> opens_raw out = false.
Proof.
  intros E. destruct (cleanse_raw_line_ok None line) as (d & l & E' & _ & H); [done|].
  rewrite E in E'. simplify_eq. by apply H.
Qed.

Lemma cleanse_raw_line_closed_witness :
  opens_raw "f(``);" = false.
Proof.
  apply (cleanse_raw_line_closed "f(R`x(a))x`);"). vm_compute. reflexivity.
Defined.

(** * Multi-line comments *)

Lemma length_snoc {A} (l : list A) x : length (l ++ [x]) = S (length l).
Proof. rewrite length_app. simpl. lia. Qed.

(** The first line of [ls] with [p], if any, when the search starts after [pre]. *)
Lemma next_line_split p pre ls :
  let r := next_line p (pre ++ ls) (length (pre ++ ls) - length pre) (length pre) in
  (exists a l b, ls = a ++ l :: b /\ Forall (fun x => p x = false) a /\ p l = true
     /\ r = length (pre ++ a))
  \/ Forall (fun x => p x = false) ls /\ r = length (pre ++ ls).
Proof.
  cbv zeta. rewrite length_app, Nat.add_comm, Nat.add_sub. revert pre.
  induction ls as [|x ls IH]; intros pre.
  { right. split; [constructor|]. simpl. by rewrite app_nil_r. }
  cbn [length next_line]. rewrite list_lookup_middle by done. destruct (p x) eqn:Ep.
  { left. exists [], x, ls. rewrite app_nil_r. by repeat constructor. }
  specialize (IH (pre ++ [x])). rewrite length_snoc, <- app_assoc in IH. simpl in IH.
  destruct IH as [(a & l & b & -> & Ha & Hl & Hr)|[Ha Hr]].
  - left. exists (x :: a), l, b. split_and!; [done|by constructor|done|].
    by rewrite Hr, <- app_assoc.
  - right. split; [by constructor|]. rewrite Hr. lia.
Qed.

Lemma remove_range_middle pre mid post :
  RemoveMultiLineCommentsFromRange (pre ++ mid ++ post) (length pre) (length (pre ++ mid))
  = pre ++ replicate (length mid) (of_string "/**/") ++ post.
Proof.
  unfold RemoveMultiLineCommentsFromRange. rewrite length_app, Nat.add_comm, Nat.add_sub.
  revert pre. induction mid as [|x mid IH]; intros pre; [done|]. simpl. rewrite insert_app_r_alt by lia.
  rewrite Nat.sub_diag. simpl. specialize (IH (pre ++ [of_string "/**/"])).
  by rewrite <- !app_assoc, length_snoc in IH.
Qed.

(** The lines of a comment: the first opens it, the last is the first that ends one. *)
Definition is_comment (comment : list str) : Prop :=
  (exists l rest, comment = l :: rest /\ opens_comment l = true)
  /\ exists body c, comment = body ++ [c] /\ Forall (fun l => closes_comment l = false) body
       /\ closes_comment c = true.

Lemma is_comment_split l b body c post :
  opens_comment l = true -> l :: b = body ++ c :: post ->
  Forall (fun x => closes_comment x = false) body -> closes_comment c = true -> is_comment (body ++ [c]).
Proof.
  intros Hl E Hb Hc. split; [|by exists body, c]. destruct body; simplify_eq/=; by eexists _, _.
Qed.

(** The lines [ls] with the multi-line comments removed are [ls'].  A comment starts on the
    first line that opens one and does not close it, and ends on the first line from there
    on that ends with the end of a comment; its lines, and only those, become the empty comment,
    and the lines after it are treated alike.  The number is the line of a comment that is
    never closed, which is kept with all that follows. *)
Inductive decommented : list str -> list str -> option nat -> Prop :=
| decommented_none ls :
    Forall (fun l => opens_comment l = false) ls -> decommented ls ls None
| decommented_unclosed pre l post :
    Forall (fun l => opens_comment l = false) pre -> opens_comment l = true ->
    Forall (fun l => closes_comment l = false) (l :: post) ->
    decommented (pre ++ l :: post) (pre ++ l :: post) (Some (length pre))
| decommented_comment pre comment post post' r :
    Forall (fun l => opens_comment l = false) pre -> is_comment comment ->
    decommented post post' r ->
    decommented (pre ++ comment ++ post) (pre ++ replicate (length comment) (of_string "/**/") ++ post')
      (Nat.add (length (pre ++ comment)) <$> r).

Lemma decommented_length ls ls' r : decommented ls ls' r -> length ls' = length ls.
Proof.
  induction 1; [done..|]. rewrite !length_app, length_replicate. lia.
Qed.

(** The program that returns [ls'] after the error for a comment never closed. *)
Definition removal (filename : str) (error : error_fn) (ls' : list str) (unclosed : option nat)
    : M (list str) :=
  match unclosed with
  | None => mret ls'
  | Some b =>
      error filename (Z.of_nat b + 1) "readability/multiline_comment" 5
        "Could not find end of multi-line comment" ;;
      mret ls'
  end.

Lemma remove_comments_loop_ok filename error fuel pre ls :
  (length ls < fuel)%nat ->
  exists ls' r, decommented ls ls' r
    /\ forall g, remove_comments_loop fuel filename (pre ++ ls) (length pre) error g
                 = removal filename error (pre ++ ls') (Nat.add (length pre) <$> r) g.
Proof.
  revert pre ls. induction fuel as [|f IH]; intros pre ls Hf; [lia|]. cbn [remove_comments_loop].
  destruct (Nat.ltb_spec (length pre) (length (pre ++ ls))) as [Hlt|Hge].
  2: { rewrite length_app in Hge. destruct ls; simpl in *; [|lia]. exists [], None. split; [|done]. repeat constructor. }
  unfold FindNextMultiLineCommentStart, FindNextMultiLineCommentEnd.
  destruct (next_line_split opens_comment pre ls) as [(a & l & b & -> & Ha & Hl & ->)|[Ha ->]].
  2: { exists ls, None. split; [by constructor|]. by rewrite Nat.leb_refl. }
  destruct (Nat.leb_spec (length (pre ++ a ++ l :: b)) (length (pre ++ a))) as [Hle|_].
  { rewrite !length_app in Hle. simpl in Hle. lia. }
  rewrite (app_assoc pre). destruct (next_line_split closes_comment (pre ++ a) (l :: b))
    as [(body & c & post & E & Hb & Hc & ->)|[Hb ->]].
  - rewrite E. destruct (Nat.leb_spec (length ((pre ++ a) ++ body ++ c :: post)) (length ((pre ++ a) ++ body))) as [Hle|_].
    { rewrite !length_app in Hle. simpl in Hle. lia. }
    assert (S (length ((pre ++ a) ++ body)) = length ((pre ++ a) ++ (body ++ [c]))) as ->.
    { rewrite !length_app. simpl. lia. }
    assert ((pre ++ a) ++ body ++ c :: post = (pre ++ a) ++ (body ++ [c]) ++ post) as ->
      by by rewrite <- (app_assoc body).
    rewrite remove_range_middle. set (gone := replicate _ _).
    destruct (IH (pre ++ a ++ gone) post) as (post' & r & Hd & Hg).
    { rewrite length_app, E, length_app in Hf. simpl in Hf. lia. }
    exists (a ++ gone ++ post'), (Nat.add (length (a ++ body ++ [c])) <$> r). split.
    + replace (a ++ body ++ c :: post) with (a ++ (body ++ [c]) ++ post) by by rewrite <- (app_assoc body).
      apply decommented_comment; [done|by eapply is_comment_split|done].
    + intros g. specialize (Hg g).
      assert (length (pre ++ a ++ gone) = length ((pre ++ a) ++ body ++ [c])) as Hlen.
      { unfold gone. rewrite !length_app, length_replicate. lia. }
      rewrite Hlen in Hg. rewrite <- !app_assoc in *. rewrite Hg. f_equal.
      destruct r; [|done]. simpl. f_equal. rewrite !length_app. lia.
  - exists (a ++ l :: b), (Some (length a)). split; [by constructor|].
    intros g. rewrite Nat.leb_refl. simpl. by rewrite <- app_assoc, length_app.
Qed.

(** C16: [RemoveMultiLineComments] returns on any lines.  Every multi-line comment, from the
    line that opens it to the first line that ends one, is replaced by as many empty
    comments, no other line changes, and the number of lines stays the same; a comment that
    is never closed is reported at its first line and kept, and nothing else is. *)
Theorem RemoveMultiLineComments_spec filename ls error :
  exists ls' unclosed, decommented ls ls' unclosed /\ length ls' = length ls
    /\ forall g, RemoveMultiLineComments filename ls error g = removal filename error ls' unclosed g.
Proof.
  destruct (remove_comments_loop_ok filename error (S (length ls)) [] ls) as (ls' & r & Hd & H); [lia|].
  exists ls', r. split; [done|]. split; [by eapply decommented_length|].
  intros g. rewrite <- (option_fmap_id r). exact (H g).
Qed.

(** * Collapsing literals *)

Lemma FIRST_QUOTE_shape e mo :
  Match _FIRST_QUOTE e = Some mo ->
  (length (grp mo 1) + length (grp mo 3) + 1 <= length e)%nat
  /\ newline ∉ grp mo 3.
Proof.
  intros Hm. match_inv Hm _FIRST_QUOTE.
  match goal with H : mo_caps mo = _ |- _ => simpl in H; rename H into Hc end.
  pose proof (grp_bound mo 1 _ _ ltac:(rewrite Hc; reflexivity)).
  pose proof (grp_bound mo 3 _ _ ltac:(rewrite Hc; reflexivity)).
  simpl in *. split; [lia|].
  match goal with H : run_of _ not_newline _ _ |- _ => rename H into Hrun end.
  unfold grp, group, captured. rewrite Hc. simpl.
  intros [k Hk]%list_elem_of_lookup_1. apply lookup_take_Some in Hk as [Hk Hlt].
  rewrite lookup_drop in Hk.
  match type of Hk with _ !! ?p = _ => destruct (Hrun p) as (ch & Hch & Hne); [lia|] end.
  unfold not_newline in Hne. congruence.
Qed.

Lemma DIGIT_SEPARATORS_total s :
  newline ∉ s -> exists mo, Match _DIGIT_SEPARATORS s = Some mo /\ (length (grp mo 2) <= length s)%nat.
Proof.
  intros Hnl.
  destruct (Match_is_some _DIGIT_SEPARATORS s (length s)) as [mo Hmo].
  - eexists. unfold _DIGIT_SEPARATORS. cbn [p_regex p_icase].
    exists 0%nat, (caps0 _DIGIT_SEPARATORS). split; [done|].
    exists 0%nat. eexists. split.
    { eexists. split; [|reflexivity]. constructor. lia. }
    exists (length s). eexists. split.
    { eexists. split; [|reflexivity]. apply Mt_star_any. split_and!; [lia|reflexivity|].
      intros k Hk. destruct (lookup_lt_is_Some_2 s k) as [ch Hch]; [lia|].
      exists ch. split; [done|]. intros ->. apply Hnl. by eapply list_elem_of_lookup_2. }
    split_and!; [|done|done]. unfold at_eol. by rewrite Nat.eqb_refl.
  - exists mo. split; [done|]. match_inv Hmo _DIGIT_SEPARATORS.
    match goal with H : mo_caps mo = _ |- _ => rename H into Hc end.
    pose proof (grp_bound mo 2 _ _ ltac:(rewrite Hc; reflexivity)).
    simpl in *. lia.
Qed.

Lemma NUMBER_PREFIX_nonempty hd : searches _NUMBER_PREFIX hd = true -> (1 <= length hd)%nat.
Proof.
  intros H. apply re_search_is_some in H as (i & j & Hi & c' & Hm).
  apply Mt_min_len in Hm as H1. apply Mt_bounds in Hm as H2. simpl in H1. lia.
Qed.

(** The collapsed text of [e] does not depend on what precedes it, nor on the
    fuel once it exceeds the length of [e]. *)
Lemma collapse_loop_ok n e :
  (length e <= n)%nat ->
  exists out, forall fuel acc, (length e < fuel)%nat -> collapse_loop fuel acc e = Ok (acc ++ out).
Proof.
  revert e. induction n as [n IH] using lt_wf_ind. intros e He.
  assert (forall e', (length e' < length e)%nat -> exists out, forall fuel acc,
    (length e' < fuel)%nat -> collapse_loop fuel acc e' = Ok (acc ++ out)) as Hrec.
  { intros e' ?. apply (IH (length e')); lia. }
  assert (forall (F : nat -> str -> res str) hd e', (length e' < length e)%nat ->
    (forall f acc, F (S f) acc = collapse_loop f (acc ++ hd) e') ->
    exists out, forall fuel acc, (length e < fuel)%nat -> F fuel acc = Ok (acc ++ out)) as Hstep.
  { intros F hd e' Hl HF. destruct (Hrec e' Hl) as [out Hout]. exists (hd ++ out).
    intros [|f] acc Hf; [lia|]. rewrite HF, Hout by lia. by rewrite app_assoc. }
  assert (forall F, (forall f acc, F (S f) acc = Ok (acc ++ e)) ->
    exists out, forall fuel acc, (length e < fuel)%nat -> F fuel acc = Ok (acc ++ out)) as Hend.
  { intros F HF. exists e. intros [|f] acc Hf; [lia|]. apply HF. }
  destruct (Match _FIRST_QUOTE e) as [mo|] eqn:E.
  2:{ apply (Hend (fun fuel acc => collapse_loop fuel acc e)). intros f acc. simpl. by rewrite E. }
  destruct (FIRST_QUOTE_shape _ _ E) as [Hl Hnl].
  assert (forall q, 0 <= find (grp mo 3) q ->
    (length (slice_from (grp mo 3) (find (grp mo 3) q + 1)) < length e)%nat) as Hsl.
  { intros q Hq. pose proof (length_slice_from (grp mo 3) (find (grp mo 3) q + 1)). lia. }
  destruct (str_eqb (grp mo 2) dquote) eqn:Eq;
    [|destruct (searches _NUMBER_PREFIX (grp mo 1)) eqn:En].
  - destruct (Z.leb_spec 0 (find (grp mo 3) dquote)) as [Hf|Hf].
    + apply (Hstep (fun fuel acc => collapse_loop fuel acc e) (grp mo 1 ++ empty_literal) _
               (Hsl dquote Hf)).
      intros f acc. cbn [collapse_loop]. rewrite E, Eq.
      by destruct (Z.leb_spec 0 (find (grp mo 3) dquote)); [|lia].
    + apply (Hend (fun fuel acc => collapse_loop fuel acc e)). intros f acc.
      cbn [collapse_loop]. rewrite E, Eq.
      by destruct (Z.leb_spec 0 (find (grp mo 3) dquote)); [lia|].
  - destruct (DIGIT_SEPARATORS_total ("'" ++ grp mo 3)) as (ml & Eml & Hml).
    { rewrite not_elem_of_app. split; [|done]. by intros [=]%list_elem_of_singleton. }
    apply NUMBER_PREFIX_nonempty in En as Hne. rewrite length_app in Hml. simpl in Hml.
    apply (Hstep (fun fuel acc => collapse_loop fuel acc e)
             (grp mo 1 ++ replace (grp ml 1) "'" []) (grp ml 2)); [lia|].
    intros f acc. cbn [collapse_loop]. by rewrite E, Eq, En, Eml.
  - destruct (Z.leb_spec 0 (find (grp mo 3) "'")) as [Hf|Hf].
    + apply (Hstep (fun fuel acc => collapse_loop fuel acc e) (grp mo 1 ++ of_string "''") _
               (Hsl (of_string "'") Hf)).
      intros f acc. cbn [collapse_loop]. rewrite E, Eq, En.
      by destruct (Z.leb_spec 0 (find (grp mo 3) "'")); [|lia].
    + apply (Hend (fun fuel acc => collapse_loop fuel acc e)). intros f acc.
      cbn [collapse_loop]. rewrite E, Eq, En.
      by destruct (Z.leb_spec 0 (find (grp mo 3) "'")); [lia|].
Qed.

Lemma CollapseStrings_ok line : exists out, _CollapseStrings line = Ok out.
Proof.
  unfold _CollapseStrings. destruct (matches _RE_PATTERN_INCLUDE line); [by eexists|].
  set (e := re_sub _ _ _). destruct (collapse_loop_ok (length e) e) as [out H]; [lia|].
  exists out. by rewrite H by lia.
Qed.

(** The text [_CollapseStrings] makes of a line without escapes. *)
Definition collapse (e : str) : str :=
  match collapse_loop (S (length e)) [] e with Ok out => out | Raise _ => [] end.

Lemma collapse_eq e fuel acc :
  (length e < fuel)%nat -> collapse_loop fuel acc e = Ok (acc ++ collapse e).
Proof.
  intros Hf. destruct (collapse_loop_ok (length e) e) as [out H]; [lia|].
  unfold collapse. by rewrite !H by lia.
Qed.

Definition is_quote (c : N) : bool := (c =? 39)%N || (c =? 34)%N.

Lemma FIRST_QUOTE_split hd q tl :
  forallb (fun c => negb (is_quote c)) hd = true -> is_quote q = true ->
  newline ∉ tl ->
  exists mo, Match _FIRST_QUOTE (hd ++ [q] ++ tl) = Some mo
    /\ grp mo 1 = hd /\ grp mo 2 = [q] /\ grp mo 3 = tl.
Proof.
  intros Hhd Hq Hnl. set (e := hd ++ [q] ++ tl).
  assert (forall k, (k < length hd)%nat -> exists c, e !! k = Some c /\ is_quote c = false) as Hbefore.
  { intros k Hk. destruct (lookup_lt_is_Some_2 hd k Hk) as [c Hc]. exists c.
    split; [by apply lookup_app_l_Some|]. rewrite forallb_forall in Hhd.
    apply negb_true_iff, Hhd, list_elem_of_In. by eapply list_elem_of_lookup_2. }
  assert (e !! length hd = Some q) as Hat.
  { unfold e. rewrite lookup_app_r by lia. by rewrite Nat.sub_diag. }
  assert (length e = length hd + S (length tl))%nat as Hlen.
  { unfold e. by rewrite !length_app. }
  destruct (Match_is_some _FIRST_QUOTE e (length e)) as [mo Hmo].
  { eexists. unfold _FIRST_QUOTE. cbn [p_regex p_icase].
    exists 0%nat, (caps0 _FIRST_QUOTE). split; [done|].
    exists (length hd). eexists. split.
    { eexists. split; [|reflexivity]. apply Mt_star_set. split_and!; [lia|reflexivity|].
      intros k Hk. destruct (Hbefore k) as (c & Hc & Hnq); [lia|]. exists c. split; [done|].
      unfold set_char. unfold is_quote in Hnq. simpl. by rewrite !orb_false_r, Hnq. }
    exists (S (length hd)). eexists. split.
    { eexists. split; [|reflexivity]. exists q. split_and!; [done| |done|reflexivity].
      unfold is_quote in Hq. simpl. by rewrite !orb_false_r. }
    exists (length e). eexists. split.
    { eexists. split; [|reflexivity]. apply Mt_star_any. split_and!; [lia|reflexivity|].
      intros k Hk. destruct (lookup_lt_is_Some_2 e k) as [ch Hch]; [lia|].
      exists ch. split; [done|]. intros ->. apply Hnl. unfold e in Hch.
      rewrite app_assoc, lookup_app_r in Hch by (rewrite length_app; simpl; lia).
      by eapply list_elem_of_lookup_2. }
    split_and!; [|done|done]. unfold at_eol. by rewrite Nat.eqb_refl. }
  exists mo. split; [exact Hmo|]. match_inv Hmo _FIRST_QUOTE.
  match goal with H : mo_caps mo = _ |- _ => simpl in H; rename H into Hc end.
  match goal with H : run_of e (set_char false true _) 0 ?x |- _ => rename H into Hrun, x into p end.
  match goal with H : e !! p = Some ?c |- _ => rename H into Hp, c into qc end.
  match goal with H : set_match _ _ _ qc = true |- _ => rename H into Hqc end.
  match goal with H : at_eol _ _ = true |- _ => rename H into Heol end.
  assert (p = length hd) as ->.
  { destruct (lt_eq_lt_dec p (length hd)) as [[Hlt|Heq]|Hgt]; [|done|].
    - destruct (Hbefore p Hlt) as (c & Hc' & Hnq). simplify_eq.
      unfold is_quote in Hnq. simpl in Hqc. by rewrite !orb_false_r, Hnq in Hqc.
    - destruct (Hrun (length hd)) as (c & Hc' & Hs); [lia|]. simplify_eq.
      unfold set_char in Hs. unfold is_quote in Hq. simpl in Hs.
      by rewrite !orb_false_r, Hq in Hs. }
  assert (mo_end mo = length e) as Hend.
  { unfold at_eol in Heol. apply orb_true_iff in Heol as [He|He]; bool_hyps; [done|].
    destruct (e !! mo_end mo) as [c|] eqn:Ec; [|done]. bool_hyps. subst c.
    exfalso. apply Hnl. unfold e in Ec.
    rewrite app_assoc, lookup_app_r in Ec by (rewrite length_app; simpl; lia).
    by eapply list_elem_of_lookup_2. }
  rewrite Hend in Hc. unfold grp, group, captured. rewrite Hc.
  match goal with H : mo_string mo = e |- _ => rewrite H end. simpl.
  rewrite Hlen. unfold e. split_and!.
  - by rewrite Nat.sub_0_r, drop_0, take_app_length.
  - rewrite Nat.sub_succ_l, Nat.sub_diag by lia. rewrite drop_app_length. done.
  - replace (length hd + S (length tl) - S (length hd))%nat with (length tl) by lia.
    rewrite app_assoc, drop_app_ge by (rewrite length_app; simpl; lia).
    rewrite length_app. simpl. replace (S (length hd) - (length hd + 1))%nat with 0%nat by lia.
    by rewrite drop_0, firstn_all.
Qed.

Lemma find_char (body tl : str) (q : N) :
  q ∉ body -> find (body ++ [q] ++ tl) [q] = Z.of_nat (length body).
Proof.
  intros Hq. unfold find.
  assert (find_nat [q] (body ++ [q] ++ tl) = Some (length body)) as ->; [|done].
  induction body as [|c body IH]; simpl.
  - by rewrite N.eqb_refl.
  - apply not_elem_of_cons in Hq as [Hne Hq]. rewrite andb_true_r.
    destruct (N.eqb_spec q c); [congruence|]. simpl in IH. by rewrite IH.
Qed.

Lemma ESCAPES_no_backslash s rep :
  Ascii.N_of_ascii "\" ∉ s -> re_sub _RE_PATTERN_CLEANSE_LINE_ESCAPES rep s = s.
Proof.
  intros Hb. apply re_sub_no_match, re_search_None. intros i j _ [c' Hm].
  unfold _RE_PATTERN_CLEANSE_LINE_ESCAPES in Hm. cbn [p_regex p_icase] in Hm. mt_inv.
  apply Hb. match goal with H : s !! i = Some ?c |- _ => rename c into ch, H into Hi end.
  match goal with H : set_match _ _ _ ch = true |- _ => simpl in H;
    rewrite orb_false_r in H; apply orb_true_iff in H as [H%N.eqb_eq|?]; [|done]; subst end.
  by eapply list_elem_of_lookup_2.
Qed.

(** C25: on a line without escapes, the first double-quoted literal is replaced
    by the empty literal, whatever it contains, and the rest of the line is
    collapsed in the same way: checks on elided lines cannot see the contents. *)
Theorem CollapseStrings_literal hd body tl :
  let line := hd ++ dquote ++ body ++ dquote ++ tl in
  matches _RE_PATTERN_INCLUDE line = false ->
  forallb (fun c => negb (is_quote c)) hd = true ->
  34%N ∉ body ->
  Ascii.N_of_ascii "\" ∉ line -> newline ∉ line ->
  _CollapseStrings line = Ok (hd ++ empty_literal ++ collapse tl).
Proof.
  intros line Hinc Hhd Hbody Hesc Hnl. unfold _CollapseStrings. rewrite Hinc.
  rewrite ESCAPES_no_backslash by done. unfold line. unfold line in Hnl.
  rewrite !not_elem_of_app in Hnl.
  destruct (FIRST_QUOTE_split hd 34 (body ++ dquote ++ tl) Hhd eq_refl) as (mo & E & E1 & E2 & E3);
    [rewrite !not_elem_of_app; naive_solver|].
  assert (length (hd ++ dquote ++ body ++ dquote ++ tl)
          = length hd + length body + length tl + 2)%nat as Hlen
    by (rewrite !length_app; simpl; lia).
  rewrite Hlen. cbn [collapse_loop]. change (dquote ++ body ++ dquote ++ tl) with ([34%N] ++ body ++ dquote ++ tl).
  rewrite E, E1, E2, E3. cbn [str_eqb]. change (str_eqb [34%N] dquote) with true. cbv iota.
  change dquote with [34%N]. rewrite find_char by done.
  destruct (Z.leb_spec 0 (Z.of_nat (length body))) as [_|?]; [|lia].
  rewrite slice_from_pos by lia.
  replace (Z.to_nat (Z.of_nat (length body) + 1)) with (length body + 1)%nat by lia.
  replace (drop (length body + 1) (body ++ [34%N] ++ tl)) with tl.
  2:{ rewrite app_assoc. rewrite drop_app_ge by (rewrite length_app; simpl; lia).
      rewrite length_app. simpl. by rewrite Nat.sub_diag, drop_0. }
  rewrite collapse_eq by lia. by rewrite app_nil_l, <- app_assoc.
Qed.

Lemma CollapseStrings_literal_witness :
  _CollapseStrings (of_string "f(" ++ dquote ++ of_string "a{ //b" ++ dquote ++ of_string ", 'x');")
  = Ok (of_string "f(" ++ empty_literal ++ of_string ", '');").
Proof.
  rewrite (CollapseStrings_literal "f(" "a{ //b" ", 'x');").
  - reflexivity.
  - reflexivity.
  - reflexivity.
  - apply (bool_decide_unpack _). reflexivity.
  - apply (bool_decide_unpack _). reflexivity.
  - apply (bool_decide_unpack _). reflexivity.
Defined.

(** * [CleansedLines] *)

Lemma elide_lines_ok ls : exists es, elide_lines ls = Ok es /\ length es = length ls.
Proof.
  induction ls as [|l ls (es & IH & Hl)]; [by exists []|]. cbn [elide_lines].
  unfold elide_line. destruct (CollapseStrings_ok l) as [e ->]. cbn [mbind res_bind].
  rewrite IH. cbn [mbind res_bind]. eexists. split; [done|]. simpl. by rewrite Hl.
Qed.

Lemma CleansedLines_ok raw :
  exists cl, CleansedLines_init raw = Ok cl
    /\ raw_lines cl = raw /\ length (elided cl) = length raw
    /\ length (lines cl) = length raw
    /\ length (lines_without_raw_strings cl) = length raw.
Proof.
  unfold CleansedLines_init.
  destruct (CleanseRawStrings_ok raw) as (w & -> & Hw). cbn [mbind res_bind].
  destruct (elide_lines_ok w) as (es & -> & He). cbn [mbind res_bind].
  eexists. split; [done|]. simpl. rewrite length_fmap. by rewrite He, Hw.
Qed.

(** C10: building a [CleansedLines] always succeeds, whatever the lines, and its
    four copies of the file have the length of the input, as its documentation
    promises: a line number valid for one is valid for all. *)
Theorem CleansedLines_same_length raw :
  exists cl, CleansedLines_init raw = Ok cl
    /\ raw_lines cl = raw /\ length (elided cl) = length raw
    /\ length (lines cl) = length raw
    /\ length (lines_without_raw_strings cl) = length raw
    /\ NumLines cl = len raw.
Proof.
  destruct (CleansedLines_ok raw) as (cl & E & H1 & H2 & H3 & H4).
  exists cl. unfold NumLines. by rewrite H1.
Qed.
