(* ===== verification/Expr.v ===== *)
(** Matching of parentheses, braces, brackets and template angle brackets, within
    a line and across lines: [FindEndOfExpressionInLine], [CloseExpression] and
    their reverse counterparts, and the helpers built on them.  A nesting stack is
    a list with its top first; [None] stands for the [None] the code returns when
    the search is over. *)

From S2P Require Import Prelude PyStr Regex State Cleanse.

Open Scope Z_scope.
Open Scope py_scope.

(** * Characters *)

Definition is_opener (c : N) : bool := mem_chars "([{" c.
Definition is_closer (c : N) : bool := mem_chars ")]}" c.

(** The pairs the code accepts. *)
Definition brackets_match (o c : N) : bool :=
  ceq o "(" && ceq c ")" || ceq o "[" && ceq c "]" || ceq o "{" && ceq c "}".

(** The character before position [i]. *)
Definition prev_is (line : str) (i : nat) (c : N) : bool :=
  match i with
  | O => false
  | S j => match line !! j with Some d => (d =? c)%N | None => false end
  end.

Definition _OPERATOR_END : pattern := rx "\boperator\s*$".
Definition _GE_SPACED : pattern := rx "\s>=\s".
Definition _SHIFT_OR_LE : pattern := rx "<[<=]".

(** Pending angle brackets turned out to be operators. *)
Definition drop_angles (angle : N) (stack : list N) : list N :=
  drop_while (N.eqb angle) stack.

(** * Forwards *)

(** [i] is the position of the first character of [rest] in [line]. *)
Fixpoint end_loop (line : str) (i : nat) (rest : str) (stack : list N)
    : Z * option (list N) :=
  match rest with
  | [] => (-1, Some stack)
  | char :: rest' =>
      if is_opener char then end_loop line (S i) rest' (char :: stack)
      else if ceq char "<" then
        if prev_is line i "<"%char then
          match stack with
          | top :: stack' =>
              if ceq top "<" then
                match stack' with
                | [] => (-1, None)
                | _ => end_loop line (S i) rest' stack'
                end
              else end_loop line (S i) rest' stack
          | [] => end_loop line (S i) rest' stack
          end
        else if (0 <? i)%nat && searches _OPERATOR_END (take i line)
        then end_loop line (S i) rest' stack
        else end_loop line (S i) rest' (char :: stack)
      else if is_closer char then
        match drop_angles "<"%char stack with
        | [] => (-1, None)
        | top :: stack' =>
            if brackets_match top char then
              match stack' with
              | [] => (Z.of_nat i + 1, None)
              | _ => end_loop line (S i) rest' stack'
              end
            else (-1, None)
        end
      else if ceq char ">" then
        if (0 <? i)%nat
           && (prev_is line i "-"%char || searches _OPERATOR_END (take (i - 1) line))
        then end_loop line (S i) rest' stack
        else
          match stack with
          | top :: stack' =>
              if ceq top "<" then
                match stack' with
                | [] => (Z.of_nat i + 1, None)
                | _ => end_loop line (S i) rest' stack'
                end
              else end_loop line (S i) rest' stack
          | [] => end_loop line (S i) rest' stack
          end
      else if ceq char ";" then
        match drop_angles "<"%char stack with
        | [] => (-1, None)
        | stack' => end_loop line (S i) rest' stack'
        end
      else end_loop line (S i) rest' stack
  end.

Definition FindEndOfExpressionInLine (line : str) (startpos : nat) (stack : list N)
    : Z * option (list N) :=
  end_loop line startpos (drop startpos line) stack.

(** The lines after the first one; [line] is the last line read. *)
Fixpoint close_loop (num_lines : Z) (rest : list str) (linenum : Z) (line : str)
    (stack : option (list N)) : str * Z * Z :=
  match stack with
  | Some (top :: stack') =>
      match rest with
      | [] => (line, num_lines, -1)
      | next :: rest' =>
          let '(end_pos, stack) := FindEndOfExpressionInLine next 0 (top :: stack') in
          if -1 <? end_pos then (next, linenum + 1, end_pos)
          else close_loop num_lines rest' (linenum + 1) next stack
      end
  | _ => (line, num_lines, -1)
  end.

Definition CloseExpression (clean_lines : CleansedLines) (linenum pos : Z)
    : res (str * Z * Z) :=
  line ← idx (elided clean_lines) linenum;
  char ← idx line pos;
  if negb (mem_chars "({[<" char) || matches _SHIFT_OR_LE (slice_from line pos)
  then Ok (line, NumLines clean_lines, -1)
  else
    let '(end_pos, stack) := FindEndOfExpressionInLine line (Z.to_nat pos) [] in
    if -1 <? end_pos then Ok (line, linenum, end_pos)
    else Ok (close_loop (NumLines clean_lines)
               (drop (Z.to_nat (linenum + 1)) (elided clean_lines)) linenum line stack).

(** * Backwards *)

(** [n] characters of [line] are left to read; the current one is the last of
    them. *)
Fixpoint start_loop (line : str) (n : nat) (stack : list N) {struct n} : Z * option (list N) :=
  match n with
  | O => (-1, Some stack)
  | S i =>
      let char := default 0%N (line !! i) in
      if is_closer char then start_loop line i (char :: stack)
      else if ceq char ">" then
        if (0 <? i)%nat
           && (prev_is line i "-"%char
               || matches _GE_SPACED (drop (i - 1) line)
               || searches _OPERATOR_END (take i line))
        then start_loop line (Nat.pred i) stack
        else start_loop line i (char :: stack)
      else if ceq char "<" then
        if prev_is line i "<"%char then start_loop line (Nat.pred i) stack
        else
          match stack with
          | top :: stack' =>
              if ceq top ">" then
                match stack' with
                | [] => (Z.of_nat i, None)
                | _ => start_loop line i stack'
                end
              else start_loop line i stack
          | [] => start_loop line i stack
          end
      else if is_opener char then
        match drop_angles ">"%char stack with
        | [] => (-1, None)
        | top :: stack' =>
            if brackets_match char top then
              match stack' with
              | [] => (Z.of_nat i, None)
              | _ => start_loop line i stack'
              end
            else (-1, None)
        end
      else if ceq char ";" then
        match drop_angles ">"%char stack with
        | [] => (-1, None)
        | stack' => start_loop line i stack'
        end
      else start_loop line i stack
  end.

Definition FindStartOfExpressionInLine (line : str) (endpos : Z) (stack : list N)
    : Z * option (list N) :=
  start_loop line (Z.to_nat (endpos + 1)) stack.

(** The lines before the last one, nearest first. *)
Fixpoint reverse_close_loop (rest : list str) (linenum : Z) (line : str)
    (stack : option (list N)) : str * Z * Z :=
  match stack with
  | Some (top :: stack') =>
      match rest with
      | [] => (line, 0, -1)
      | prev :: rest' =>
          let '(start_pos, stack) :=
            FindStartOfExpressionInLine prev (len prev - 1) (top :: stack') in
          if -1 <? start_pos then (prev, linenum - 1, start_pos)
          else reverse_close_loop rest' (linenum - 1) prev stack
      end
  | _ => (line, 0, -1)
  end.

Definition ReverseCloseExpression (clean_lines : CleansedLines) (linenum pos : Z)
    : res (str * Z * Z) :=
  line ← idx (elided clean_lines) linenum;
  char ← idx line pos;
  if negb (mem_chars ")}]>" char) then Ok (line, 0, -1)
  else
    let '(start_pos, stack) := FindStartOfExpressionInLine line pos [] in
    if -1 <? start_pos then Ok (line, linenum, start_pos)
    else Ok (reverse_close_loop (reverse (take (Z.to_nat linenum) (elided clean_lines)))
               linenum line stack).

(** * Helpers built on matching *)

(** The token ending on [(linenum, column)] is [decltype()]. *)
Definition IsDecltype (clean_lines : CleansedLines) (linenum column : Z) : res bool :=
  '(text, _, start_col) ← ReverseCloseExpression clean_lines linenum column;
  if start_col <? 0 then Ok false
  else Ok (searches (rx "\bdecltype\s*$") (slice text 0 start_col)).

(** [_GetTextInside]: the text between the opening punctuation [start_pattern]
    ends with and the one that closes it. *)
Definition matching_punctuation (c : N) : option N :=
  if ceq c "(" then Some (Ascii.N_of_ascii ")")
  else if ceq c "{" then Some (Ascii.N_of_ascii "}")
  else if ceq c "[" then Some (Ascii.N_of_ascii "]")
  else None.

(** The position after the character that empties the stack. *)
Fixpoint text_inside_loop (rest : str) (position : nat) (stack : list N) : option nat :=
  match stack with
  | [] => Some position
  | top :: stack' =>
      match rest with
      | [] => None
      | c :: rest' =>
          if (c =? top)%N then text_inside_loop rest' (S position) stack'
          else if is_closer c then None
          else
            match matching_punctuation c with
            | Some close => text_inside_loop rest' (S position) (close :: stack)
            | None => text_inside_loop rest' (S position) stack
            end
      end
  end.

Definition _GetTextInside (text : str) (start_pattern : pattern) : res (option str) :=
  match re_search start_pattern text with
  | None => Ok None
  | Some mo =>
      let start_position := mo_end mo in
      if (start_position =? 0)%nat then Raise AssertionError
      else
        match match text !! (start_position - 1)%nat with
              | Some c => matching_punctuation c
              | None => None
              end with
        | None => Raise AssertionError
        | Some close =>
            Ok (match text_inside_loop (drop start_position text) start_position [close] with
                | Some position => Some (take (position - 1 - start_position) (drop start_position text))
                | None => None
                end)
        end
  end.
