(* ===== verification/ExprFacts.v ===== *)
(** Properties of expression matching: on text without angle brackets it is the
    usual stack machine, so a balanced expression is closed exactly at its own
    bracket, on one line or over several, forwards and backwards; on any text the
    positions returned are in range and hold a bracket. *)

From S2P Require Import Prelude PyStr Regex RegexFacts State Cleanse Expr.

#[local] Set Warnings "-clear-no-such-hyp".

Open Scope Z_scope.
Open Scope py_scope.

(** * Specification: balanced text *)

Definition is_angle (c : N) : bool := ceq c "<" || ceq c ">".

(** A character that is neither a bracket nor an angle bracket. *)
Definition plain (c : N) : bool := negb (is_opener c || is_closer c || is_angle c).

Inductive balanced : str -> Prop :=
| bal_nil : balanced []
| bal_plain c t : plain c = true -> balanced t -> balanced (c :: t)
| bal_wrap o t c u :
    brackets_match o c = true -> balanced t -> balanced u -> balanced (o :: t ++ c :: u).

(** * Reference: a bracket machine that ignores everything else *)

Inductive scan_result : Type :=
| Closed (n : nat)
| Mismatch
| Pending (stack : list N).

Definition shift_result (k : nat) (r : scan_result) : scan_result :=
  match r with Closed n => Closed (k + n) | _ => r end.

(** [Closed n]: the character that empties the stack is the [n]-th one. *)
Fixpoint scan (stack : list N) (t : str) : scan_result :=
  match t with
  | [] => Pending stack
  | c :: t' =>
      if is_opener c then shift_result 1 (scan (c :: stack) t')
      else if is_closer c then
        match stack with
        | [] => Mismatch
        | top :: stack' =>
            if brackets_match top c
            then match stack' with [] => Closed 1 | _ => shift_result 1 (scan stack' t') end
            else Mismatch
        end
      else if ceq c ";" then
        match stack with [] => Mismatch | _ => shift_result 1 (scan stack t') end
      else shift_result 1 (scan stack t')
  end.

Definition to_end (i : nat) (r : scan_result) : Z * option (list N) :=
  match r with
  | Closed n => (Z.of_nat (i + n), None)
  | Mismatch => (-1, None)
  | Pending stack => (-1, Some stack)
  end.

Definition no_angles (t : str) : Prop := forall c, c ∈ t -> is_angle c = false.

(** * Characters *)

Lemma brackets_match_cases o c :
  brackets_match o c = true ->
  (o = Ascii.N_of_ascii "(" /\ c = Ascii.N_of_ascii ")")
  \/ (o = Ascii.N_of_ascii "[" /\ c = Ascii.N_of_ascii "]")
  \/ (o = Ascii.N_of_ascii "{" /\ c = Ascii.N_of_ascii "}").
Proof.
  unfold brackets_match, ceq. rewrite !orb_true_iff, !andb_true_iff, !N.eqb_eq. tauto.
Qed.

Lemma is_opener_cases c : is_opener c = true ->
  c = Ascii.N_of_ascii "(" \/ c = Ascii.N_of_ascii "[" \/ c = Ascii.N_of_ascii "{".
Proof.
  unfold is_opener, mem_chars. simpl. rewrite !orb_true_iff, !N.eqb_eq. intuition congruence.
Qed.

Lemma is_closer_cases c : is_closer c = true ->
  c = Ascii.N_of_ascii ")" \/ c = Ascii.N_of_ascii "]" \/ c = Ascii.N_of_ascii "}".
Proof.
  unfold is_closer, mem_chars. simpl. rewrite !orb_true_iff, !N.eqb_eq. intuition congruence.
Qed.

Lemma drop_angles_other a top stack :
  top <> a -> drop_angles a (top :: stack) = top :: stack.
Proof. intros H. unfold drop_angles. simpl. by destruct (N.eqb_spec a top); [congruence|]. Qed.

(** No element of the stack is an angle bracket. *)
Definition stack_ok (stack : list N) : Prop := no_angles stack.

Lemma drop_angles_ok a stack :
  is_angle a = true -> stack_ok stack -> drop_angles a stack = stack.
Proof.
  intros Ha Hs. destruct stack as [|top stack]; [done|]. apply drop_angles_other.
  intros ->. specialize (Hs a ltac:(left)). congruence.
Qed.

Lemma no_angles_cons c t : no_angles (c :: t) -> is_angle c = false /\ no_angles t.
Proof. intros H. split; [apply H; left|intros d Hd; apply H; by right]. Qed.

Lemma opener_not_angle c : is_opener c = true -> is_angle c = false.
Proof. by intros [-> | [-> | ->]]%is_opener_cases. Qed.

Lemma closer_not_angle c : is_closer c = true -> is_angle c = false.
Proof. by intros [-> | [-> | ->]]%is_closer_cases. Qed.

Lemma stack_ok_cons c stack : is_angle c = false -> stack_ok stack -> stack_ok (c :: stack).
Proof. intros Hc Hs d [-> | Hd]%elem_of_cons; [done|by apply Hs]. Qed.

Lemma to_end_shift i r : to_end i (shift_result 1 r) = to_end (S i) r.
Proof. destruct r; simpl; [|done..]. do 2 f_equal. lia. Qed.

(** * Forwards *)

Lemma end_loop_scan line i t stack :
  no_angles t -> stack_ok stack -> end_loop line i t stack = to_end i (scan stack t).
Proof.
  revert i stack. induction t as [|c t IH]; intros i stack Ht Hs; [done|].
  apply no_angles_cons in Ht as [Hc Ht]. cbn [end_loop scan].
  unfold is_angle in Hc. apply orb_false_elim in Hc as [Hlt Hgt]. rewrite Hlt, Hgt.
  destruct (is_opener c) eqn:Eo.
  { rewrite to_end_shift. apply IH; [done|]. apply stack_ok_cons; [by apply opener_not_angle|done]. }
  rewrite drop_angles_ok by done.
  destruct (is_closer c) eqn:Ec.
  { destruct stack as [|top stack]; [done|]. apply no_angles_cons in Hs as [_ Hs].
    destruct (brackets_match top c); [|done].
    destruct stack as [|top' stack]; [simpl; do 2 f_equal; lia|].
    rewrite to_end_shift. by apply IH. }
  destruct (ceq c ";").
  { destruct stack as [|top stack]; [done|]. rewrite to_end_shift. by apply IH. }
  rewrite to_end_shift. by apply IH.
Qed.

Lemma scan_app stack t u stack' :
  scan stack t = Pending stack' ->
  scan stack (t ++ u) = shift_result (length t) (scan stack' u).
Proof.
  revert stack. induction t as [|c t IH]; intros stack; simpl.
  { intros [= ->]. by destruct (scan stack' u). }
  assert (forall st, shift_result 1 (scan st t) = Pending stack' ->
    shift_result 1 (scan st (t ++ u)) = shift_result (S (length t)) (scan stack' u)) as Hnext.
  { intros st Hst. rewrite IH; [by destruct (scan stack' u)|]. by destruct (scan st t). }
  destruct (is_opener c); [apply Hnext|]. destruct (is_closer c).
  - destruct stack as [|top stack]; [done|]. destruct (brackets_match top c); [|done].
    destruct stack; [done|apply Hnext].
  - destruct (ceq c ";"); [destruct stack; [done|]|]; apply Hnext.
Qed.

Lemma scan_plain c stack t :
  plain c = true -> stack <> [] -> scan stack (c :: t) = shift_result 1 (scan stack t).
Proof.
  intros Hp Hs. unfold plain in Hp. bool_hyps. simpl. rewrite H, H1.
  destruct stack; [done|]. by destruct (ceq c ";").
Qed.

(** Balanced text leaves the stack as it found it. *)
Lemma scan_balanced t stack : balanced t -> stack <> [] -> scan stack t = Pending stack.
Proof.
  intros Hb. revert stack. induction Hb as [|c t Hp Hb IH|o t c u Hm Hbt IHt Hbu IHu];
    intros stack Hs; [done| |].
  - rewrite scan_plain by done. by rewrite IH.
  - assert (is_opener o = true /\ is_opener c = false /\ is_closer c = true) as (Ho & Hc1 & Hc2).
    { by destruct (brackets_match_cases _ _ Hm) as [[-> ->]|[[-> ->]|[-> ->]]]. }
    cbn [scan]. rewrite Ho. rewrite (scan_app _ t (c :: u) (o :: stack)) by by apply IHt.
    cbn [scan]. rewrite Hc1, Hc2, Hm. destruct stack as [|top stack]; [done|].
    by rewrite IHu.
Qed.

Lemma balanced_no_angles t : balanced t -> no_angles t.
Proof.
  induction 1 as [|c t Hp _ IH|o t c u Hm _ IHt _ IHu]; intros d Hd.
  - by apply not_elem_of_nil in Hd.
  - apply elem_of_cons in Hd as [-> | Hd]; [|by apply IH].
    unfold plain in Hp. by bool_hyps.
  - apply elem_of_cons in Hd as [-> | [Hd|[-> | Hd]%elem_of_cons]%elem_of_app];
      [|by apply IHt| |by apply IHu];
      by destruct (brackets_match_cases _ _ Hm) as [[-> ->]|[[-> ->]|[-> ->]]].
Qed.

Lemma scan_stack_ok stack t stack' :
  no_angles t -> stack_ok stack -> scan stack t = Pending stack' -> stack_ok stack'.
Proof.
  revert stack. induction t as [|c t IH]; intros stack Ht Hs; simpl; [by intros [= <-]|].
  apply no_angles_cons in Ht as [Hc Ht].
  assert (forall st, stack_ok st -> shift_result 1 (scan st t) = Pending stack' -> stack_ok stack')
    as Hnext.
  { intros st Hst H. apply (IH st); [done..|]. by destruct (scan st t). }
  destruct (is_opener c).
  { apply Hnext, stack_ok_cons; done. }
  destruct (is_closer c).
  - destruct stack as [|top stack]; [done|]. apply no_angles_cons in Hs as [_ Hs].
    destruct (brackets_match top c); [|done]. destruct stack; [done|by apply Hnext].
  - destruct (ceq c ";"); [destruct stack; [done|]|]; by apply Hnext.
Qed.

(** Text that leaves the search pending can be read ahead of anything. *)
Lemma end_loop_pending line i t u stack stack' :
  no_angles t -> stack_ok stack -> scan stack t = Pending stack' ->
  end_loop line i (t ++ u) stack = end_loop line (i + length t) u stack'.
Proof.
  revert i stack. induction t as [|c t IH]; intros i stack Ht Hs.
  { intros [= <-]. simpl. by rewrite Nat.add_0_r. }
  apply no_angles_cons in Ht as [Hc Ht]. cbn [end_loop scan app length].
  assert (forall st, stack_ok st -> shift_result 1 (scan st t) = Pending stack' ->
    end_loop line (S i) (t ++ u) st = end_loop line (i + S (length t)) u stack') as Hnext.
  { intros st Hst H. rewrite (IH (S i) st); [f_equal; lia|done..|]. by destruct (scan st t). }
  unfold is_angle in Hc. apply orb_false_elim in Hc as [Hlt Hgt]. rewrite Hlt, Hgt.
  destruct (is_opener c) eqn:Eo.
  { apply Hnext, stack_ok_cons; [by apply opener_not_angle|done]. }
  rewrite drop_angles_ok by done. destruct (is_closer c) eqn:Ec.
  { destruct stack as [|top stack]; [done|]. apply no_angles_cons in Hs as [_ Hs].
    destruct (brackets_match top c); [|done].
    destruct stack as [|top' stack]; [done|by apply Hnext]. }
  destruct (ceq c ";"); [destruct stack; [done|]|]; by apply Hnext.
Qed.

Lemma end_loop_opener line i o u stack :
  is_opener o = true -> end_loop line i (o :: u) stack = end_loop line (S i) u (o :: stack).
Proof. intros Ho. cbn [end_loop]. by rewrite Ho. Qed.

Lemma end_loop_close line i o c u :
  brackets_match o c = true -> end_loop line i (c :: u) [o] = (Z.of_nat i + 1, None).
Proof. by intros [[-> ->]|[[-> ->]|[-> ->]]]%brackets_match_cases. Qed.

Lemma pair_facts o c : brackets_match o c = true ->
  is_opener o = true /\ is_closer c = true /\ is_angle o = false /\ is_angle c = false.
Proof. by intros [[-> ->]|[[-> ->]|[-> ->]]]%brackets_match_cases. Qed.

Lemma SHIFT_OR_LE_first o t : is_opener o = true -> matches _SHIFT_OR_LE (o :: t) = false.
Proof. by intros [-> | [-> | ->]]%is_opener_cases. Qed.

Lemma idx_Ok {A} (l : list A) i x : l !! i = Some x -> idx l (Z.of_nat i) = Ok x.
Proof. intros H. unfold idx. rewrite py_index_pos by lia. by rewrite Nat2Z.id, H. Qed.

Lemma lookup_middle_nat {A} (pre post : list A) x : (pre ++ x :: post) !! length pre = Some x.
Proof. rewrite lookup_app_r by lia. by rewrite Nat.sub_diag. Qed.

(** The first step of [CloseExpression] at an opening bracket. *)
Lemma CloseExpression_start cl n pre o rest :
  elided cl !! n = Some (pre ++ o :: rest) -> is_opener o = true ->
  CloseExpression cl (Z.of_nat n) (len pre)
  = let line := pre ++ o :: rest in
    let '(end_pos, stack) := end_loop line (S (length pre)) rest [o] in
    if -1 <? end_pos then Ok (line, Z.of_nat n, end_pos)
    else Ok (close_loop (NumLines cl) (drop (S n) (elided cl)) (Z.of_nat n) line stack).
Proof.
  intros Hl Ho. unfold CloseExpression. rewrite (idx_Ok _ _ _ Hl). cbn [mbind res_bind].
  unfold len. rewrite (idx_Ok _ _ _ (lookup_middle_nat pre rest o)). cbn [mbind res_bind].
  assert (mem_chars "({[<" o = true) as ->.
  { by destruct (is_opener_cases _ Ho) as [-> | [-> | ->]]. }
  rewrite slice_from_pos, Nat2Z.id, drop_app_length, SHIFT_OR_LE_first by (lia || done).
  cbn [negb orb]. unfold FindEndOfExpressionInLine.
  rewrite ?Nat2Z.id, drop_app_length, end_loop_opener by done.
  by replace (Z.to_nat (Z.of_nat n + 1)) with (S n) by lia.
Qed.

(** On one line, [CloseExpression] at the opening bracket of a balanced
    parenthesised, braced or bracketed text without angle brackets returns the
    position just past the bracket that closes it, whatever follows. *)
Lemma CloseExpression_balanced cl n pre o body c post :
  elided cl !! n = Some (pre ++ o :: body ++ c :: post) ->
  brackets_match o c = true -> balanced body ->
  CloseExpression cl (Z.of_nat n) (len pre)
  = Ok (pre ++ o :: body ++ c :: post, Z.of_nat n, len pre + len body + 2).
Proof.
  intros Hl Hm Hb. destruct (pair_facts _ _ Hm) as (Ho & _ & Hao & _).
  rewrite (CloseExpression_start _ _ _ _ _ Hl Ho). cbv zeta.
  rewrite (end_loop_pending _ _ body _ [o] [o]).
  - rewrite end_loop_close by done. unfold len.
    destruct (Z.ltb_spec (-1) (Z.of_nat (S (length pre) + length body) + 1)); [|lia].
    do 2 f_equal. lia.
  - by apply balanced_no_angles.
  - by intros d ->%list_elem_of_singleton.
  - by apply scan_balanced.
Qed.

Definition sample_lines : CleansedLines :=
  mkCleansedLines (of_string <$> ["if (a[i] < f(b"; "        {c}) ) {"; "}"]%string) []
    (of_string <$> ["if (a[i] < f(b"; "        {c}) ) {"; "}"]%string) [].

Lemma CloseExpression_balanced_witness :
  CloseExpression sample_lines 1 8
  = Ok (of_string "        {c}) ) {", 1, 11).
Proof.
  refine (CloseExpression_balanced sample_lines 1 "        " "{"%char "c" "}"%char ") ) {" _ _ _).
  - reflexivity.
  - reflexivity.
  - apply bal_plain; [reflexivity|]. apply bal_nil.
Defined.

(** * Over several lines *)

Lemma scan_pending_ne stack t stack' :
  stack <> [] -> scan stack t = Pending stack' -> stack' <> [].
Proof.
  revert stack. induction t as [|c t IH]; intros stack Hs; simpl; [by intros [= <-]|].
  assert (forall st, st <> [] -> shift_result 1 (scan st t) = Pending stack' -> stack' <> [])
    as Hnext.
  { intros st Hst H. apply (IH st); [done|]. by destruct (scan st t). }
  destruct (is_opener c); [by apply Hnext|]. destruct (is_closer c).
  - destruct stack as [|top stack]; [done|]. destruct (brackets_match top c); [|done].
    destruct stack; [done|by apply Hnext].
  - destruct (ceq c ";"); [destruct stack; [done|]|]; by apply Hnext.
Qed.

Lemma shift_result_Pending k r st : shift_result k r = Pending st -> r = Pending st.
Proof. by destruct r. Qed.

Lemma scan_app_inv stack t u stack' :
  scan stack (t ++ u) = Pending stack' ->
  exists mid, scan stack t = Pending mid /\ scan mid u = Pending stack'.
Proof.
  revert stack. induction t as [|c t IH]; intros stack; simpl; [by exists stack|].
  assert (forall st, shift_result 1 (scan st (t ++ u)) = Pending stack' ->
    exists mid, shift_result 1 (scan st t) = Pending mid /\ scan mid u = Pending stack') as Hnext.
  { intros st H%shift_result_Pending%IH. destruct H as (mid & -> & H). by exists mid. }
  destruct (is_opener c); [apply Hnext|]. destruct (is_closer c).
  - destruct stack as [|top stack]; [done|]. destruct (brackets_match top c); [|done].
    destruct stack; [done|apply Hnext].
  - destruct (ceq c ";"); [destruct stack; [done|]|]; apply Hnext.
Qed.

Lemma no_angles_app t u : no_angles (t ++ u) <-> no_angles t /\ no_angles u.
Proof. unfold no_angles. setoid_rewrite elem_of_app. naive_solver. Qed.

Lemma no_angles_concat l : no_angles (concat l) <-> Forall no_angles l.
Proof.
  induction l as [|t l IH]; simpl.
  - split; [done|]. by intros _ c ?%not_elem_of_nil.
  - by rewrite no_angles_app, Forall_cons, IH.
Qed.

(** The loop of [CloseExpression] over the lines that leave the search pending. *)
Lemma close_loop_lines nl mids t o c post rest l line stack :
  stack <> [] -> stack_ok stack -> Forall no_angles mids -> no_angles t ->
  scan stack (concat mids ++ t) = Pending [o] -> brackets_match o c = true ->
  close_loop nl (mids ++ (t ++ c :: post) :: rest) l line (Some stack)
  = (t ++ c :: post, l + Z.of_nat (length mids) + 1, len t + 1).
Proof.
  intros Hne Hok Hm Ht Hscan Hoc. revert l line stack Hne Hok Hscan.
  induction Hm as [|x mids Hx Hm IH]; intros l line stack Hne Hok Hscan;
    (destruct stack as [|top stack]; [done|]); cbn [app close_loop length];
    unfold FindEndOfExpressionInLine; rewrite drop_0.
  - rewrite (end_loop_pending _ 0 t _ _ [o]) by done. rewrite end_loop_close by done.
    rewrite (proj2 (Z.ltb_lt _ _)) by lia. unfold len. do 2 f_equal; lia.
  - cbn [concat] in Hscan. rewrite <- app_assoc in Hscan.
    apply scan_app_inv in Hscan as (mid & H1 & H2).
    rewrite (end_loop_scan _ 0 x) by done. rewrite H1. cbn [to_end].
    rewrite (proj2 (Z.ltb_ge _ _)) by lia.
    rewrite IH; [do 2 f_equal; lia| | |done].
    + by eapply scan_pending_ne; [|exact H1].
    + by eapply scan_stack_ok; [| |exact H1].
Qed.

Lemma drop_lines (l : list str) n mids last :
  (forall k x, mids !! k = Some x -> l !! (n + k)%nat = Some x) ->
  l !! (n + length mids)%nat = Some last ->
  exists rest, drop n l = mids ++ last :: rest.
Proof.
  revert n. induction mids as [|x mids IH]; intros n Hm Hl; simpl in *.
  - rewrite Nat.add_0_r in Hl. exists (drop (S n) l). by apply drop_S.
  - specialize (IH (S n)) as [rest Hr].
    + intros k y Hy. rewrite <- (Hm (S k) y Hy). f_equal. lia.
    + rewrite <- Hl. f_equal. lia.
    + exists rest. rewrite (drop_S _ x); [by rewrite Hr|].
      rewrite <- (Hm O x eq_refl). f_equal. lia.
Qed.

(** C7: over several lines, [CloseExpression] at an opening bracket whose balanced
    content starts on its line, runs over any number of whole lines and ends on a
    later line returns that later line and the position just past the bracket. *)
Theorem CloseExpression_lines cl n pre o h mids t c post :
  elided cl !! n = Some (pre ++ o :: h) ->
  (forall k x, mids !! k = Some x -> elided cl !! (n + 1 + k)%nat = Some x) ->
  elided cl !! (n + 1 + length mids)%nat = Some (t ++ c :: post) ->
  brackets_match o c = true -> balanced (h ++ concat mids ++ t) ->
  CloseExpression cl (Z.of_nat n) (len pre)
  = Ok (t ++ c :: post, Z.of_nat n + Z.of_nat (length mids) + 1, len t + 1).
Proof.
  intros Hl Hmids Hlast Hm Hb. destruct (pair_facts _ _ Hm) as (Ho & _ & Hao & _).
  rewrite (CloseExpression_start _ _ _ _ _ Hl Ho). cbv zeta.
  pose proof (balanced_no_angles _ Hb) as [Hnh [Hnm%no_angles_concat Hnt]%no_angles_app]%no_angles_app.
  pose proof (scan_balanced _ [o] Hb ltac:(done)) as (mid & H1 & H2)%scan_app_inv.
  assert (stack_ok [o]) as Hok by by intros d ->%list_elem_of_singleton.
  rewrite end_loop_scan, H1 by done. cbn [to_end].
  rewrite (proj2 (Z.ltb_ge _ _)) by lia.
  destruct (drop_lines (elided cl) (n + 1) mids _ Hmids Hlast) as [rest Hrest].
  rewrite Nat.add_1_r in Hrest. rewrite Hrest.
  by rewrite (close_loop_lines _ mids t o c post rest _ _ mid);
    [|eapply scan_pending_ne; [|exact H1]|eapply scan_stack_ok; [| |exact H1]|..].
Qed.

Lemma CloseExpression_lines_witness :
  CloseExpression sample_lines 0 12 = Ok (of_string "        {c}) ) {", 1, 12).
Proof.
  refine (CloseExpression_lines sample_lines 0 "if (a[i] < f" "("%char "b" []
            "        {c}" ")"%char " ) {" _ _ _ _ _).
  - reflexivity.
  - intros k x H. discriminate H.
  - reflexivity.
  - reflexivity.
  - repeat (apply bal_plain; [reflexivity|]).
    apply (bal_wrap "{"%char "c" "}"%char []); [reflexivity| |apply bal_nil].
    apply bal_plain; [reflexivity|apply bal_nil].
Defined.

(** * Backwards *)

Lemma start_loop_balanced line body pre suf stack :
  line = pre ++ body ++ suf -> balanced body -> stack <> [] -> stack_ok stack ->
  start_loop line (length pre + length body) stack = start_loop line (length pre) stack.
Proof.
  intros Hline Hb. revert pre suf stack Hline.
  induction Hb as [|c t Hp Hb IH|o t c u Hm Hbt IHt Hbu IHu];
    intros pre suf stack Hline Hne Hok.
  - by rewrite Nat.add_0_r.
  - specialize (IH (pre ++ [c]) suf stack).
    rewrite length_app, <- app_assoc in IH. simpl in IH. cbn [length].
    replace (length pre + S (length t))%nat with (length pre + 1 + length t)%nat by lia.
    rewrite IH by done. rewrite Nat.add_1_r. cbn [start_loop].
    rewrite Hline, <- app_comm_cons, lookup_middle_nat. cbn [default from_option id].
    unfold plain, is_angle in Hp. bool_hyps.
    repeat match goal with H : ?b = false |- _ => rewrite H; clear H end.
    destruct stack as [|top stack]; [done|]. rewrite drop_angles_ok by done.
    by destruct (ceq c ";").
  - destruct (pair_facts _ _ Hm) as (Ho & Hc & Hao & Hac).
    assert (is_closer o = false) as Hoc.
    { by destruct (brackets_match_cases _ _ Hm) as [[-> ->]|[[-> ->]|[-> ->]]]. }
    assert (length pre + length (o :: t ++ c :: u)
            = length (pre ++ o :: t ++ [c]) + length u)%nat as ->.
    { rewrite !length_app. simpl. rewrite !length_app. simpl. lia. }
    assert (line = (pre ++ o :: t ++ [c]) ++ u ++ suf) as Hl2.
    { rewrite Hline. simpl. by rewrite <- !app_assoc; simpl; rewrite <- !app_assoc. }
    rewrite (IHu _ suf stack Hl2 Hne Hok).
    assert (length (pre ++ o :: t ++ [c]) = S (length (pre ++ [o]) + length t)) as ->.
    { rewrite !length_app. simpl. rewrite !length_app. simpl. lia. }
    assert (line = (pre ++ [o] ++ t) ++ c :: u ++ suf) as Hl3.
    { rewrite Hl2. simpl. by rewrite <- !app_assoc; simpl; rewrite <- !app_assoc. }
    cbn [start_loop].
    assert (line !! (length (pre ++ [o]) + length t)%nat = Some c) as ->.
    { rewrite Hl3, <- (lookup_middle_nat (pre ++ [o] ++ t) (u ++ suf) c). f_equal.
      rewrite !length_app. simpl. lia. }
    cbn [default from_option id]. rewrite Hc.
    rewrite (IHt (pre ++ [o]) (c :: u ++ suf)); [| |done|by apply stack_ok_cons].
    2: { rewrite Hl3. by rewrite <- !app_assoc. }
    rewrite length_app. simpl length. rewrite Nat.add_1_r. cbn [start_loop].
    assert (line !! length pre = Some o) as ->.
    { rewrite Hline. simpl. apply lookup_middle_nat. }
    cbn [default from_option id]. rewrite Hoc, Ho.
    unfold is_angle in Hao. apply orb_false_elim in Hao as [-> ->].
    rewrite drop_angles_other, Hm by (intros ->; by vm_compute in Hac).
    by destruct stack.
Qed.

(** [ReverseCloseExpression] at the closing bracket of a balanced text. *)
Lemma ReverseCloseExpression_balanced cl n pre o body c post :
  elided cl !! n = Some (pre ++ o :: body ++ c :: post) ->
  brackets_match o c = true -> balanced body ->
  ReverseCloseExpression cl (Z.of_nat n) (len pre + len body + 1)
  = Ok (pre ++ o :: body ++ c :: post, Z.of_nat n, len pre).
Proof.
  intros Hl Hm Hb. destruct (pair_facts _ _ Hm) as (Ho & Hc & Hao & Hac).
  assert (is_closer o = false) as Hoc.
  { by destruct (brackets_match_cases _ _ Hm) as [[-> ->]|[[-> ->]|[-> ->]]]. }
  unfold ReverseCloseExpression. rewrite (idx_Ok _ _ _ Hl). cbn [mbind res_bind].
  assert (len pre + len body + 1 = Z.of_nat (length (pre ++ o :: body))) as ->.
  { unfold len. rewrite length_app. simpl. lia. }
  assert (pre ++ o :: body ++ c :: post = (pre ++ o :: body) ++ c :: post) as Hline.
  { by rewrite <- app_assoc. }
  rewrite Hline at 1. rewrite (idx_Ok _ _ _ (lookup_middle_nat _ _ _)). cbn [mbind res_bind].
  assert (mem_chars ")}]>" c = true) as ->.
  { by destruct (is_closer_cases _ Hc) as [-> | [-> | ->]]. }
  cbn [negb]. unfold FindStartOfExpressionInLine.
  replace (Z.to_nat (Z.of_nat (length (pre ++ o :: body)) + 1))
    with (S (length (pre ++ o :: body))) by lia.
  cbn [start_loop].
  assert ((pre ++ o :: body ++ c :: post) !! length (pre ++ o :: body) = Some c) as ->.
  { rewrite Hline. apply lookup_middle_nat. }
  cbn [default from_option id]. rewrite Hc.
  replace (length (pre ++ o :: body)) with (length (pre ++ [o]) + length body)%nat
    by (rewrite !length_app; simpl; lia).
  rewrite (start_loop_balanced _ body (pre ++ [o]) (c :: post));
    [|by rewrite <- app_assoc|done..|by intros d ->%list_elem_of_singleton].
  rewrite length_app. simpl length. rewrite Nat.add_1_r. cbn [start_loop].
  rewrite lookup_middle_nat. cbn [default from_option id]. rewrite Hoc, Ho.
  unfold is_angle in Hao. apply orb_false_elim in Hao as [-> ->].
  rewrite drop_angles_other, Hm by (intros ->; by vm_compute in Hac).
  rewrite (proj2 (Z.ltb_lt _ _)) by lia. done.
Qed.

(** C15: on a balanced expression without angle brackets, [CloseExpression] from the
    opening bracket and [ReverseCloseExpression] from the bracket it finds are
    inverse to each other. *)
Theorem Close_Reverse_roundtrip cl n pre o body c post :
  elided cl !! n = Some (pre ++ o :: body ++ c :: post) ->
  brackets_match o c = true -> balanced body ->
  exists line stop,
    CloseExpression cl (Z.of_nat n) (len pre) = Ok (line, Z.of_nat n, stop)
    /\ line !! Z.to_nat (stop - 1) = Some c
    /\ ReverseCloseExpression cl (Z.of_nat n) (stop - 1) = Ok (line, Z.of_nat n, len pre).
Proof.
  intros Hl Hm Hb. exists (pre ++ o :: body ++ c :: post), (len pre + len body + 2).
  destruct (pair_facts _ _ Hm) as (Ho & _ & _ & _). split; [|split].
  - rewrite (CloseExpression_start _ _ _ _ _ Hl Ho). cbv zeta.
    rewrite (end_loop_pending _ _ body _ [o] [o]); [|by apply balanced_no_angles| |by apply scan_balanced].
    + rewrite end_loop_close by done. rewrite (proj2 (Z.ltb_lt _ _)) by lia.
      unfold len. do 2 f_equal. lia.
    + destruct (pair_facts _ _ Hm) as (_ & _ & Hao & _). by intros d ->%list_elem_of_singleton.
  - rewrite <- (lookup_middle_nat (pre ++ o :: body) post c), <- app_assoc. f_equal.
    rewrite length_app. unfold len. simpl. lia.
  - rewrite <- (ReverseCloseExpression_balanced _ _ _ _ _ _ _ Hl Hm Hb). f_equal. lia.
Qed.

Lemma Close_Reverse_roundtrip_witness :
  exists line stop, CloseExpression sample_lines 0 5 = Ok (line, 0, stop)
    /\ line !! Z.to_nat (stop - 1) = Some (Ascii.N_of_ascii "]")
    /\ ReverseCloseExpression sample_lines 0 (stop - 1) = Ok (line, 0, 5).
Proof.
  refine (Close_Reverse_roundtrip sample_lines 0 "if (a" "["%char "i" "]"%char " < f(b" _ _ _).
  - reflexivity.
  - reflexivity.
  - apply bal_plain; [reflexivity|apply bal_nil].
Defined.

(** * Positions *)

(** A closing bracket or a closing angle bracket. *)
Definition closes (c : N) : bool := is_closer c || ceq c ">".

Lemma end_loop_position line i t stack :
  drop i line = t ->
  (end_loop line i t stack).1 = -1
  \/ exists n c, (end_loop line i t stack).1 = Z.of_nat n + 1
       /\ (i <= n)%nat /\ line !! n = Some c /\ closes c = true.
Proof.
  revert i stack. induction t as [|c t IH]; intros i stack Hd; [by left|].
  assert (drop (S i) line = t) as Hd'.
  { by rewrite <- Nat.add_1_r, <- drop_drop, Hd. }
  assert (forall st, (end_loop line (S i) t st).1 = -1
    \/ exists n c, (end_loop line (S i) t st).1 = Z.of_nat n + 1
         /\ (i <= n)%nat /\ line !! n = Some c /\ closes c = true) as IH'.
  { intros st. destruct (IH (S i) st Hd') as [H|(n & d & ? & ? & ?)]; [by left|].
    right. exists n, d. split; [done|]. split; [lia|done]. }
  clear IH. rename IH' into IH.
  assert (line !! i = Some c) as Hc.
  { rewrite <- (Nat.add_0_r i), <- lookup_drop, Hd. done. }
  cbn [end_loop].
  destruct (is_opener c); [apply IH|].
  destruct (ceq c "<").
  { destruct (prev_is line i "<"%char); [|by case_match].
    destruct stack as [|top [|top2 stack]]; [apply IH|case_match; [by left|apply IH]|].
    case_match; apply IH. }
  destruct (is_closer c) eqn:Ec.
  { destruct (drop_angles _ _) as [|top st]; [by left|].
    destruct (brackets_match top c); [|by left].
    destruct st; [|apply IH]. right. exists i, c. unfold closes. by rewrite Ec. }
  destruct (ceq c ">") eqn:Eg.
  { case_match; [apply IH|].
    destruct stack as [|top [|top2 stack]]; [apply IH|case_match; [|apply IH]|].
    - right. exists i, c. unfold closes. by rewrite Eg, orb_true_r.
    - case_match; apply IH. }
  destruct (ceq c ";"); [|apply IH].
  destruct (drop_angles _ _); [by left|apply IH].
Qed.

Lemma close_loop_position nl lines l line stack :
  let '(line', l', p) := close_loop nl lines l line stack in
  (l' = nl /\ p = -1)
  \/ exists k n c, l' = l + 1 + Z.of_nat k /\ lines !! k = Some line'
       /\ p = Z.of_nat n + 1 /\ line' !! n = Some c /\ closes c = true.
Proof.
  revert l line stack. induction lines as [|next lines IH]; intros l line stack; simpl.
  { destruct stack as [[|top stack]|]; by left. }
  destruct stack as [[|top stack]|]; [by left| |by left].
  unfold FindEndOfExpressionInLine. rewrite drop_0.
  pose proof (end_loop_position next 0 next (top :: stack) (drop_0 _)) as Hpos.
  destruct (end_loop next 0 next (top :: stack)) as [e st]. simpl in Hpos.
  destruct (Z.ltb_spec (-1) e).
  - destruct Hpos as [-> | (n & c & -> & _ & Hn & Hc)]; [lia|].
    right. exists O, n, c. split; [lia|done].
  - specialize (IH (l + 1) next st).
    destruct (close_loop nl lines (l + 1) next st) as [[line' l'] p].
    destruct IH as [IH|(k & n & c & -> & Hk & Hrest)]; [by left|].
    right. exists (S k), n, c. split; [lia|done].
Qed.

Lemma CloseExpression_result cl n start line pos :
  elided cl !! n = Some line -> start = Z.of_nat pos -> (pos < length line)%nat ->
  exists line' l' p, CloseExpression cl (Z.of_nat n) start = Ok (line', l', p)
    /\ ((l' = NumLines cl /\ p = -1)
        \/ exists k q c, l' = Z.of_nat k /\ (n <= k)%nat /\ (k = n -> (pos <= q)%nat)
             /\ elided cl !! k = Some line'
             /\ p = Z.of_nat q + 1 /\ line' !! q = Some c /\ closes c = true).
Proof.
  intros Hl -> Hp. destruct (lookup_lt_is_Some_2 line pos Hp) as [ch Hch].
  unfold CloseExpression. rewrite (idx_Ok _ _ _ Hl). cbn [mbind res_bind].
  rewrite (idx_Ok _ _ _ Hch). cbn [mbind res_bind].
  destruct (negb _ || _); [by eexists _, _, _; split; [done|left]|].
  unfold FindEndOfExpressionInLine. rewrite Nat2Z.id.
  pose proof (end_loop_position line pos _ [] eq_refl) as Hpos.
  destruct (end_loop line pos (drop pos line) []) as [e st]. simpl in Hpos.
  destruct (Z.ltb_spec (-1) e).
  - destruct Hpos as [-> | (q & c & -> & Hpq & Hq & Hc)]; [lia|].
    eexists _, _, _; split; [done|]. right. exists n, q, c.
    split; [done|]. split; [lia|]. by split.
  - pose proof (close_loop_position (NumLines cl)
      (drop (Z.to_nat (Z.of_nat n + 1)) (elided cl)) (Z.of_nat n) line st) as Hc.
    destruct (close_loop _ _ _ _ _) as [[line' l'] p].
    exists line', l', p. split; [done|].
    destruct Hc as [Hc|(k & q & c & -> & Hk & Hrest)]; [by left|].
    rewrite lookup_drop in Hk. right. eexists _, q, c.
    split; [|split; [|split; [|split; [exact Hk|exact Hrest]]]]; lia.
Qed.

(** C32: from a position inside a line of the file, [CloseExpression] never raises,
    and either fails with (number of lines, -1) or returns a line of the file at
    or after the starting one together with a position of that line, after the
    starting one, that directly follows a closing bracket. *)
Theorem CloseExpression_in_range cl n start line pos :
  elided cl !! n = Some line -> start = Z.of_nat pos -> (pos < length line)%nat ->
  exists line' l' p, CloseExpression cl (Z.of_nat n) start = Ok (line', l', p)
    /\ ((l' = NumLines cl /\ p = -1)
        \/ exists k q c, l' = Z.of_nat k /\ (n <= k)%nat /\ (k = n -> (pos <= q)%nat)
             /\ elided cl !! k = Some line'
             /\ p = Z.of_nat q + 1 /\ line' !! q = Some c /\ closes c = true).
Proof. apply CloseExpression_result. Qed.

Lemma CloseExpression_in_range_witness :
  exists line' l' p, CloseExpression sample_lines 0 12 = Ok (line', l', p)
    /\ ((l' = NumLines sample_lines /\ p = -1)
        \/ exists k q c, l' = Z.of_nat k /\ (0 <= k)%nat /\ (k = 0%nat -> (12 <= q)%nat)
             /\ elided sample_lines !! k = Some line'
             /\ p = Z.of_nat q + 1 /\ line' !! q = Some c /\ closes c = true).
Proof.
  refine (CloseExpression_in_range sample_lines 0 12 "if (a[i] < f(b" 12 _ _ _);
    [reflexivity|reflexivity|].
  apply Nat.ltb_lt. reflexivity.
Defined.

(** * [_GetTextInside] *)

Lemma matching_punctuation_match o close :
  matching_punctuation o = Some close <-> brackets_match o close = true.
Proof.
  unfold matching_punctuation, brackets_match, ceq. split.
  - intros H. repeat case_match; simplify_eq; bool_hyps; by subst.
  - by intros [[-> ->]|[[-> ->]|[-> ->]]]%brackets_match_cases.
Qed.

Lemma text_inside_balanced t rest position stack :
  balanced t -> stack <> [] ->
  Forall (fun c => is_closer c = true) stack ->
  text_inside_loop (t ++ rest) position stack
  = text_inside_loop rest (position + length t) stack.
Proof.
  intros Hb. revert rest position stack.
  induction Hb as [|c t Hp Hb IH|o t c u Hm Hbt IHt Hbu IHu];
    intros rest position stack Hne Hst; (destruct stack as [|top stack]; [done|]).
  - simpl. by rewrite Nat.add_0_r.
  - assert (is_closer c = false /\ is_opener c = false) as [Hc Ho].
    { unfold plain in Hp. by bool_hyps. }
    cbn [app text_inside_loop]. rewrite Hc.
    destruct (N.eqb_spec c top) as [<- | _].
    { apply Forall_cons in Hst as [Htop _]. congruence. }
    destruct (matching_punctuation c) as [d|] eqn:E.
    { apply matching_punctuation_match, pair_facts in E as [? _]. congruence. }
    rewrite IH by done. f_equal. simpl. lia.
  - destruct (pair_facts _ _ Hm) as (Ho & Hc & _).
    assert (is_closer o = false) as Hoc.
    { by destruct (brackets_match_cases _ _ Hm) as [[-> ->]|[[-> ->]|[-> ->]]]. }
    cbn [app text_inside_loop]. rewrite Hoc.
    destruct (N.eqb_spec o top) as [<- | _].
    { apply Forall_cons in Hst as [Htop _]. congruence. }
    rewrite (proj2 (matching_punctuation_match o c) Hm), <- app_assoc.
    rewrite IHt by (done || by constructor).
    cbn [app text_inside_loop]. rewrite N.eqb_refl, IHu by done. f_equal.
    simpl. rewrite length_app. simpl. lia.
Qed.

Lemma drop_middle {A} (pre post : list A) x : drop (S (length pre)) (pre ++ x :: post) = post.
Proof. induction pre as [|y pre IH]; [apply drop_0|exact IH]. Qed.

(** C33: when the pattern's first match ends with an opening parenthesis, brace or
    bracket, [_GetTextInside] returns the balanced text up to the matching closing
    punctuation. *)
Theorem GetTextInside_balanced pat pre o body c post mo :
  brackets_match o c = true -> balanced body ->
  re_search pat (pre ++ o :: body ++ c :: post) = Some mo -> mo_end mo = S (length pre) ->
  _GetTextInside (pre ++ o :: body ++ c :: post) pat = Ok (Some body).
Proof.
  intros Hm Hb Hs He. unfold _GetTextInside. rewrite Hs, He. cbn [Nat.eqb].
  replace (S (length pre) - 1)%nat with (length pre) by lia.
  rewrite lookup_middle_nat, (proj2 (matching_punctuation_match o c) Hm).
  assert (drop (S (length pre)) (pre ++ o :: body ++ c :: post) = body ++ c :: post) as -> by apply drop_middle.
  destruct (pair_facts _ _ Hm) as (_ & Hc & _).
  rewrite text_inside_balanced by (done || by repeat constructor).
  cbn [text_inside_loop]. rewrite N.eqb_refl.
  assert (text_inside_loop post (S (S (length pre) + length body)) []
          = Some (S (S (length pre) + length body))) as -> by by destruct post.
  do 2 f_equal.
  replace (S (S (length pre) + length body) - 1 - S (length pre))%nat with (length body) by lia.
  by rewrite take_app_length.
Qed.

Lemma GetTextInside_balanced_witness :
  _GetTextInside "printf(a(b), c) + d" (rx "printf\s*\(") = Ok (Some (of_string "a(b), c")).
Proof.
  refine (GetTextInside_balanced (rx "printf\s*\(") "printf" "("%char "a(b), c" ")"%char " + d" _ _ _ _ _).
  - reflexivity.
  - apply bal_plain; [reflexivity|].
    refine (bal_wrap "("%char "b" ")"%char ", c" _ _ _); [reflexivity| |];
      repeat (apply bal_plain; [reflexivity|]); apply bal_nil.
  - vm_compute. reflexivity.
  - reflexivity.
Defined.
