(* ===== verification/Lines.v ===== *)
(** Helpers on one line of the file and the checks that look at one line, or at
    the lines of the file as they were read, without any other state. *)

From S2P Require Import Prelude PyStr Regex State Cleanse.

Open Scope Z_scope.
Open Scope py_scope.

(** * Helpers *)

Definition _LEADING_SPACES : pattern := rx "^( *)\S".

Definition GetIndentLevel (line : str) : Z :=
  match Match _LEADING_SPACES line with
  | Some indent => len (grp indent 1)
  | None => 0
  end.

Definition IsBlankLine (line : str) : bool := negb (nonempty line) || isspace line.

(** The lines before [linenum], nearest first. *)
Fixpoint previous_loop (before : list str) (prevlinenum : Z) : str * Z :=
  match before with
  | [] => ([], -1)
  | prevline :: before' =>
      if negb (IsBlankLine prevline) then (prevline, prevlinenum)
      else previous_loop before' (prevlinenum - 1)
  end.

Definition GetPreviousNonBlankLine (clean_lines : CleansedLines) (linenum : Z) : str * Z :=
  previous_loop (reverse (take (Z.to_nat linenum) (elided clean_lines))) (linenum - 1).

(** What the width of a line takes from [unicodedata]: the NFC form, the wide and
    fullwidth characters, the combining characters. *)
Record UnicodeData : Type := mkUnicodeData {
  normalize_NFC : str -> str;
  east_asian_wide : N -> bool;
  combining : N -> bool
}.

Fixpoint width_loop (u : UnicodeData) (line : str) (width : Z) : Z :=
  match line with
  | [] => width
  | uc :: line' =>
      width_loop u line'
        (if east_asian_wide u uc then width + 2
         else if negb (combining u uc) then width + 1 else width)
  end.

Definition GetLineWidth (u : UnicodeData) (line : str) : Z :=
  width_loop u (normalize_NFC u line) 0.

Definition IsMacroDefinition (clean_lines : list str) (linenum : Z) : res bool :=
  line ← idx clean_lines linenum;
  if searches (rx "^#define") line then Ok true
  else if 0 <? linenum then
    prev ← idx clean_lines (linenum - 1);
    Ok (searches (rx "\\$") prev)
  else Ok false.

Definition IsForwardClassDeclaration (clean_lines : list str) (linenum : Z) : res bool :=
  line ← idx clean_lines linenum;
  Ok (matches (rx "^\s*(\btemplate\b)*.*class\s+\w+;\s*$") line).

(** * Checks of the whole file *)

Definition _COPYRIGHT : pattern := with_icase (rx "Copyright").

Definition CheckForCopyright (filename : str) (lines : list str) (error : error_fn) : M unit :=
  when (negb (existsb (searches _COPYRIGHT) (take 10 (drop 1 lines))))
    (error filename 0 "legal/copyright" 5
       ("No copyright message found.  " +s
        "You should have a line: `Copyright [year] <Copyright Owner>`")).

Fixpoint bad_characters_loop (filename : str) (linenum : Z) (lines : list str)
    (error : error_fn) : M unit :=
  match lines with
  | [] => skip
  | line :: lines' =>
      when (contains line [65533%N])
        (error filename linenum "readability/utf8" 5
           "Line contains invalid UTF-8 (or Unicode replacement character).") ;;
      when (contains line [0%N])
        (error filename linenum "readability/nul" 5 "Line contains NUL byte.") ;;
      bad_characters_loop filename (linenum + 1) lines' error
  end.

Definition CheckForBadCharacters (filename : str) (lines : list str) (error : error_fn)
    : M unit :=
  bad_characters_loop filename 0 lines error.

Definition CheckForNewlineAtEOF (filename : str) (lines : list str) (error : error_fn)
    : M unit :=
  bad ← (if len lines <? 3 then mret true
         else last ← line_at lines (-2); mret (nonempty last));
  when bad
    (error filename (len lines - 2) "whitespace/ending_newline" 5
       "Could not find a newline character at the end of the file.").

(** * Checks of one line *)

Definition CheckForMultilineCommentsAndStrings (filename : str) (clean_lines : CleansedLines)
    (linenum : Z) (error : error_fn) : M unit :=
  line ← line_at (elided clean_lines) linenum;
  let line := replace line "\\" [] in
  when (count line "*/" <? count line "/*")
    (error filename linenum "readability/multiline_comment" 5
       ("Complex multi-line /*...*/-style comment found. " +s
        "Lint may give bogus warnings.  " +s
        "Consider replacing these with //-style comments, " +s
        "with #if 0...#endif, " +s
        "or with more clearly structured multi-line comments.")) ;;
  when (negb ((count line "`" - count line "\`") mod 2 =? 0))
    (error filename linenum "readability/multiline_string" 5
       ("Multi-line string (`...`) found.  This lint script doesn't " +s
        "do well with such strings, and may give bogus warnings.  " +s
        "Use C++11 raw strings or concatenation instead.")).

Definition _UNSAFE_FUNC_PREFIX : string := "(?:[-+*/=%^&|(<]\s*|>\s+)".

Definition _THREADING_LIST : list (str * str * pattern) :=
  [ (of_string "asctime(", of_string "asctime_r(", rx (_UNSAFE_FUNC_PREFIX ++ "asctime\([^)]+\)"));
    (of_string "ctime(", of_string "ctime_r(", rx (_UNSAFE_FUNC_PREFIX ++ "ctime\([^)]+\)"));
    (of_string "getgrgid(", of_string "getgrgid_r(", rx (_UNSAFE_FUNC_PREFIX ++ "getgrgid\([^)]+\)"));
    (of_string "getgrnam(", of_string "getgrnam_r(", rx (_UNSAFE_FUNC_PREFIX ++ "getgrnam\([^)]+\)"));
    (of_string "getlogin(", of_string "getlogin_r(", rx (_UNSAFE_FUNC_PREFIX ++ "getlogin\(\)"));
    (of_string "getpwnam(", of_string "getpwnam_r(", rx (_UNSAFE_FUNC_PREFIX ++ "getpwnam\([^)]+\)"));
    (of_string "getpwuid(", of_string "getpwuid_r(", rx (_UNSAFE_FUNC_PREFIX ++ "getpwuid\([^)]+\)"));
    (of_string "gmtime(", of_string "gmtime_r(", rx (_UNSAFE_FUNC_PREFIX ++ "gmtime\([^)]+\)"));
    (of_string "localtime(", of_string "localtime_r(", rx (_UNSAFE_FUNC_PREFIX ++ "localtime\([^)]+\)"));
    (of_string "rand(", of_string "rand_r(", rx (_UNSAFE_FUNC_PREFIX ++ "rand\(\)"));
    (of_string "strtok(", of_string "strtok_r(", rx (_UNSAFE_FUNC_PREFIX ++ "strtok\([^)]+\)"));
    (of_string "ttyname(", of_string "ttyname_r(", rx (_UNSAFE_FUNC_PREFIX ++ "ttyname\([^)]+\)")) ].

Definition CheckPosixThreading (filename : str) (clean_lines : CleansedLines)
    (linenum : Z) (error : error_fn) : M unit :=
  line ← line_at (elided clean_lines) linenum;
  for_each _THREADING_LIST (fun '(single_thread_func, multithread_safe_func, pattern) =>
    when (searches pattern line)
      (error filename linenum "runtime/threadsafe_fn" 2
         ("Consider using " +s multithread_safe_func +s "...) instead of "
          +s single_thread_func +s "...) for improved thread safety."))).

Definition CheckVlogArguments (filename : str) (clean_lines : CleansedLines)
    (linenum : Z) (error : error_fn) : M unit :=
  line ← line_at (elided clean_lines) linenum;
  when (searches (rx "\bVLOG\((INFO|ERROR|WARNING|DFATAL|FATAL)\)") line)
    (error filename linenum "runtime/vlog" 5
       ("VLOG() should be used with numeric verbosity level.  " +s
        "Use LOG() if you want symbolic severity levels.")).

Definition _RE_PATTERN_INVALID_INCREMENT : pattern := rx "^\s*\*\w+(\+\+|--);".

Definition CheckInvalidIncrement (filename : str) (clean_lines : CleansedLines)
    (linenum : Z) (error : error_fn) : M unit :=
  line ← line_at (elided clean_lines) linenum;
  when (matches _RE_PATTERN_INVALID_INCREMENT line)
    (error filename linenum "runtime/invalid_increment" 5
       "Changing pointer instead of value (or unused value of operator*).").
