(* ===== verification/Nesting.v ===== *)
(** The nesting state: the blocks that enclose a line ([_BlockInfo] and its
    subclasses) and [NestingState], which follows braces, namespaces, classes,
    preprocessor conditionals and inline assembly through the file.

    The source shares block objects between the stack, the saved preprocessor
    stacks and [previous_stack_top], and mutates them.  The model keeps them in a
    heap, a list that only grows; a reference is a position in it, and a stack is a
    list of references with its top first. *)

From S2P Require Import Prelude PyStr Regex State Cleanse Expr Lines.

Open Scope Z_scope.
Open Scope py_scope.

(** * Blocks *)

Inductive asm_state : Type := _NO_ASM | _INSIDE_ASM | _END_ASM | _BLOCK_ASM.

#[export] Instance asm_state_eq_dec : EqDecision asm_state.
Proof. solve_decision. Defined.

Record ClassData : Type := mkClassData {
  class_name : str;
  is_derived : bool;
  access : str;
  is_struct : bool;
  class_indent : Z;
  last_line : Z
}.

Inductive block_kind : Type :=
| BlockInfo
| ExternCInfo
| ClassInfo (c : ClassData)
| NamespaceInfo (name : str).

Record Block : Type := mkBlock {
  starting_linenum : Z;
  seen_open_brace : bool;
  open_parentheses : Z;
  inline_asm : asm_state;
  check_namespace_indentation : bool;
  kind : block_kind
}.

Definition _BlockInfo (linenum : Z) (seen_open_brace : bool) : Block :=
  mkBlock linenum seen_open_brace 0 _NO_ASM false BlockInfo.

Definition _ExternCInfo (linenum : Z) : Block :=
  mkBlock linenum true 0 _NO_ASM false ExternCInfo.

Definition _NamespaceInfo (name : option str) (linenum : Z) : Block :=
  mkBlock linenum false 0 _NO_ASM true (NamespaceInfo (default [] name)).

(** The line on which the braces opened from the class head on are closed, 0 if
    there is none. *)
Fixpoint class_last_line (rest : list str) (i depth : Z) : Z :=
  match rest with
  | [] => 0
  | line :: rest' =>
      let depth := depth + (count line "{" - count line "}") in
      if depth =? 0 then i else class_last_line rest' (i + 1) depth
  end.

Definition _ClassInfo (name class_or_struct : str) (clean_lines : CleansedLines) (linenum : Z)
    : res Block :=
  raw ← idx (raw_lines clean_lines) linenum;
  let is_struct := class_or_struct =s "struct" in
  Ok (mkBlock linenum false 0 _NO_ASM true
        (ClassInfo (mkClassData name false
           (if is_struct then of_string "public" else of_string "private") is_struct
           (GetIndentLevel raw)
           (class_last_line (drop (Z.to_nat linenum) (elided clean_lines)) linenum 0)))).

Definition is_class (b : Block) : bool := match kind b with ClassInfo _ => true | _ => false end.
Definition is_namespace (b : Block) : bool :=
  match kind b with NamespaceInfo _ => true | _ => false end.
Definition is_extern_c (b : Block) : bool :=
  match kind b with ExternCInfo => true | _ => false end.

(** Assignments to attributes of a block. *)
Definition set_seen_open_brace (b : Block) : Block :=
  mkBlock (starting_linenum b) true (open_parentheses b) (inline_asm b)
    (check_namespace_indentation b) (kind b).
Definition set_asm (a : asm_state) (b : Block) : Block :=
  mkBlock (starting_linenum b) (seen_open_brace b) (open_parentheses b) a
    (check_namespace_indentation b) (kind b).
Definition set_parentheses (n : Z) (b : Block) : Block :=
  mkBlock (starting_linenum b) (seen_open_brace b) n (inline_asm b)
    (check_namespace_indentation b) (kind b).
Definition set_kind (k : block_kind) (b : Block) : Block :=
  mkBlock (starting_linenum b) (seen_open_brace b) (open_parentheses b) (inline_asm b)
    (check_namespace_indentation b) k.
Definition set_is_derived (c : ClassData) : ClassData :=
  mkClassData (class_name c) true (access c) (is_struct c) (class_indent c) (last_line c).
Definition set_access (a : str) (c : ClassData) : ClassData :=
  mkClassData (class_name c) (is_derived c) a (is_struct c) (class_indent c) (last_line c).

(** ['struct ' + name] or ['class ' + name] *)
Definition class_parent (c : ClassData) : str :=
  if is_struct c then "struct " +s class_name c else "class " +s class_name c.

(** ** Checks at the beginning and the end of a block *)

(** [CheckBegin]: only a class head does anything, it looks for a bare colon. *)
Definition CheckBegin (clean_lines : CleansedLines) (linenum : Z) (b : Block) : res Block :=
  match kind b with
  | ClassInfo c =>
      line ← idx (elided clean_lines) linenum;
      Ok (if searches (rx "(^|[^:]):($|[^:])") line
          then set_kind (ClassInfo (set_is_derived c)) b else b)
  | _ => Ok b
  end.

Definition _DISALLOW (name : str) : res pattern :=
  some_or ReError (re_compile ("\b(DISALLOW_COPY_AND_ASSIGN|DISALLOW_IMPLICIT_CONSTRUCTORS)\("
                               +s name +s "\)")).

Fixpoint disallow_loop (filename : str) (clean_lines : CleansedLines) (name : str)
    (linenums : list Z) (seen_last_thing_in_class : bool) (error : error_fn) : M unit :=
  match linenums with
  | [] => skip
  | i :: rest =>
      line ← line_at (elided clean_lines) i;
      p ← lift (_DISALLOW name);
      match Search p line with
      | Some mo =>
          when seen_last_thing_in_class
            (error filename i "readability/constructors" 3
               (grp mo 1 +s " should be the last thing in the class"))
      | None =>
          disallow_loop filename clean_lines name rest
            (if negb (matches (rx "^\s*$") line) then true else seen_last_thing_in_class) error
      end
  end.

Definition ClassInfo_CheckEnd (filename : str) (clean_lines : CleansedLines) (linenum : Z)
    (error : error_fn) (starting : Z) (c : ClassData) : M unit :=
  disallow_loop filename clean_lines (class_name c)
    (zrange_down (linenum - 1) starting) false error ;;
  line ← line_at (elided clean_lines) linenum;
  match Match (rx "^( *)\}") line with
  | Some indent =>
      when (negb (len (grp indent 1) =? class_indent c))
        (error filename linenum "whitespace/indent" 3
           ("Closing brace should be aligned with beginning of " +s class_parent c))
  | None => skip
  end.

Definition _END_NAMESPACE : pattern := rx "^\s*};*\s*(//|/\*).*\bnamespace\b".
Definition _END_ANONYMOUS : pattern := rx "^\s*};*\s*(//|/\*).*\bnamespace[\*/\.\\\s]*$".
Definition _ANONYMOUS_ALT : pattern :=
  rx "^\s*}.*\b(namespace anonymous|anonymous namespace)\b".

(** The pattern of the comment that ends the namespace [name]. *)
Definition _END_NAMED (name : str) : res pattern :=
  some_or ReError (re_compile ("^\s*};*\s*(//|/\*).*\bnamespace\s+" +s escape name
                               +s "[\*/\.\\\s]*$")).

Definition NamespaceInfo_CheckEnd (filename : str) (clean_lines : CleansedLines) (linenum : Z)
    (error : error_fn) (starting : Z) (name : str) : M unit :=
  line ← line_at (raw_lines clean_lines) linenum;
  if (linenum - starting <? 10) && negb (matches _END_NAMESPACE line) then skip
  else if nonempty name then
    p ← lift (_END_NAMED name);
    when (negb (matches p line))
      (error filename linenum "readability/namespace" 5
         ("Namespace should be terminated with `// namespace " +s name +s "`"))
  else
    when (negb (matches _END_ANONYMOUS line))
      (if matches _ANONYMOUS_ALT line then
         error filename linenum "readability/namespace" 5
           ("Anonymous namespace should be terminated with `// namespace`"
            +s " or `// anonymous namespace`")
       else
         error filename linenum "readability/namespace" 5
           "Anonymous namespace should be terminated with `// namespace`").

Definition CheckEnd (filename : str) (clean_lines : CleansedLines) (linenum : Z)
    (error : error_fn) (b : Block) : M unit :=
  match kind b with
  | ClassInfo c => ClassInfo_CheckEnd filename clean_lines linenum error (starting_linenum b) c
  | NamespaceInfo n =>
      NamespaceInfo_CheckEnd filename clean_lines linenum error (starting_linenum b) n
  | _ => skip
  end.

(** * The nesting state *)

Record PreprocessorInfo : Type := mkPreprocessorInfo {
  stack_before_if : list nat;
  stack_before_else : list nat;
  seen_else : bool
}.

Definition _PreprocessorInfo (stack_before_if : list nat) : PreprocessorInfo :=
  mkPreprocessorInfo stack_before_if [] false.

Record NestingState : Type := mkNestingState {
  heap : list Block;
  stack : list nat;
  previous_stack_top : option nat;
  pp_stack : list PreprocessorInfo
}.

Definition NestingState_init : NestingState := mkNestingState [] [] None [].

Definition with_stack (st : list nat) (ns : NestingState) : NestingState :=
  mkNestingState (heap ns) st (previous_stack_top ns) (pp_stack ns).
Definition with_pp (pp : list PreprocessorInfo) (ns : NestingState) : NestingState :=
  mkNestingState (heap ns) (stack ns) (previous_stack_top ns) pp.

(** The objects on the stack, its top first. *)
Definition deref (ns : NestingState) (r : nat) : option Block := heap ns !! r.
Definition blocks (ns : NestingState) : list Block := omap (deref ns) (stack ns).

(** [self.stack[-1]] *)
Definition top_block (ns : NestingState) : option Block := head (stack ns) ≫= deref ns.

(** Assignment to an attribute of [self.stack[-1]]. *)
Definition update_top (f : Block -> Block) (ns : NestingState) : NestingState :=
  match stack ns with
  | [] => ns
  | r :: _ => mkNestingState (alter f r (heap ns)) (stack ns) (previous_stack_top ns) (pp_stack ns)
  end.

(** [self.stack.append(block)] with a new object, and [self.stack.pop()] *)
Definition push (b : Block) (ns : NestingState) : NestingState :=
  mkNestingState (heap ns ++ [b]) (length (heap ns) :: stack ns) (previous_stack_top ns) (pp_stack ns).
Definition pop (ns : NestingState) : NestingState := with_stack (tail (stack ns)) ns.

(** [copy.deepcopy(refs)]: new objects with the same contents, in the same order. *)
Definition deepcopy (refs : list nat) (h : list Block) : list Block * list nat :=
  let objs := omap (fun r => h !! r) refs in
  (h ++ objs, seq (length h) (length objs)).

(** ** Where we are *)

Definition on_top (p : Block -> bool) (ns : NestingState) : bool :=
  match top_block ns with Some b => p b | None => false end.

Definition SeenOpenBrace (ns : NestingState) : bool :=
  match top_block ns with Some b => seen_open_brace b | None => true end.
Definition InNamespaceBody (ns : NestingState) : bool := on_top is_namespace ns.
Definition InExternC (ns : NestingState) : bool := on_top is_extern_c ns.
Definition InClassDeclaration (ns : NestingState) : bool := on_top is_class ns.
Definition InAsmBlock (ns : NestingState) : bool :=
  on_top (fun b => negb (bool_decide (inline_asm b = _NO_ASM))) ns.

Definition _TEMPLATE_TOKEN : pattern := rx "^[^{};=\[\]\.<>]*(.)".

Fixpoint template_loop (fuel : nat) (clean_lines : CleansedLines) (linenum pos : Z)
    : res bool :=
  match fuel with
  | O => Raise OutOfFuel
  | S f =>
      if linenum <? NumLines clean_lines then
        line ← idx (elided clean_lines) linenum;
        match Match _TEMPLATE_TOKEN (slice_from line pos) with
        | None => template_loop f clean_lines (linenum + 1) 0
        | Some mo =>
            let token := grp mo 1 in
            let pos := pos + len (group0 mo) in
            if str_in token (of_string <$> ["{"; "}"; ";"]%string) then Ok false
            else if str_in token (of_string <$> [">"; "="; "["; "]"; "."]%string) then Ok true
            else if token <>s "<" then
              let pos := pos + 1 in
              if len line <=? pos then template_loop f clean_lines (linenum + 1) 0
              else template_loop f clean_lines linenum pos
            else
              '(_, end_line, end_pos) ← CloseExpression clean_lines linenum (pos - 1);
              if end_pos <? 0 then Ok false
              else template_loop f clean_lines end_line end_pos
        end
      else Ok false
  end.

(** Every step of the loop moves to a later position of the file, so its
    characters and lines bound the number of steps. *)
Definition template_fuel (clean_lines : CleansedLines) : nat :=
  S (sum_list_with (fun l => S (length l)) (elided clean_lines)).

Definition InTemplateArgumentList (clean_lines : CleansedLines) (linenum pos : Z) : res bool :=
  template_loop (template_fuel clean_lines) clean_lines linenum pos.

(** ** Preprocessor conditionals *)

Definition _PP_IF : pattern := rx "^\s*#\s*(if|ifdef|ifndef)\b".
Definition _PP_ELSE : pattern := rx "^\s*#\s*(else|elif)\b".
Definition _PP_ENDIF : pattern := rx "^\s*#\s*endif\b".

Definition UpdatePreprocessor (line : str) (ns : NestingState) : NestingState :=
  if matches _PP_IF line then
    let '(h, copy) := deepcopy (stack ns) (heap ns) in
    mkNestingState h (stack ns) (previous_stack_top ns)
      (_PreprocessorInfo copy :: pp_stack ns)
  else if matches _PP_ELSE line then
    match pp_stack ns with
    | [] => ns
    | pp :: pps =>
        let '(h, pp) :=
          if negb (seen_else pp) then
            let '(h, copy) := deepcopy (stack ns) (heap ns) in
            (h, mkPreprocessorInfo (stack_before_if pp) copy true)
          else (heap ns, pp) in
        let '(h, restored) := deepcopy (stack_before_if pp) h in
        mkNestingState h restored (previous_stack_top ns) (pp :: pps)
    end
  else if matches _PP_ENDIF line then
    match pp_stack ns with
    | [] => ns
    | pp :: pps =>
        with_pp pps (if seen_else pp then with_stack (stack_before_else pp) ns else ns)
    end
  else ns.

(** ** [Update] *)

Definition _MATCH_ASM : pattern :=
  rx "^\s*(?:asm|_asm|__asm|__asm__)(?:\s+(volatile|__volatile__))?\s*[{(]".

(** Parentheses of the line and inline assembly, on the innermost block. *)
Definition count_parentheses (line : str) (b : Block) : Block :=
  let depth_change := count line "(" - count line ")" in
  let b := set_parentheses (open_parentheses b + depth_change) b in
  match inline_asm b with
  | _NO_ASM | _END_ASM =>
      if negb (depth_change =? 0) && (open_parentheses b =? 1) && matches _MATCH_ASM line
      then set_asm _INSIDE_ASM b else set_asm _NO_ASM b
  | _INSIDE_ASM => if open_parentheses b =? 0 then set_asm _END_ASM b else b
  | _BLOCK_ASM => b
  end.

Definition _NAMESPACE_DECL : pattern := rx "^\s*namespace\b\s*([:\w]+)?(.*)$".

Fixpoint namespace_loop (fuel : nat) (linenum : Z) (line : str) (ns : NestingState)
    : res (str * NestingState) :=
  match fuel with
  | O => Raise OutOfFuel
  | S f =>
      match Match _NAMESPACE_DECL line with
      | None => Ok (line, ns)
      | Some mo =>
          let ns := push (_NamespaceInfo (group mo 1) linenum) ns in
          let line := grp mo 2 in
          if negb (find line "{" =? -1)
          then namespace_loop f linenum (slice_from line (find line "{" + 1))
                 (update_top set_seen_open_brace ns)
          else namespace_loop f linenum line ns
      end
  end.

Definition _CLASS_DECL : pattern :=
  rx "^(\s*(?:template\s*<[\w\s<>,:]*>\s*)?(class|struct)\s+(?:[A-Z_]+\s+)*(\w+(?:::\w+)*))(.*)$".

(** A class head that is not a template argument. *)
Definition class_declaration (clean_lines : CleansedLines) (linenum : Z) (line : str)
    (ns : NestingState) : res (str * NestingState) :=
  match Match _CLASS_DECL line with
  | Some mo =>
      if match top_block ns with Some b => open_parentheses b =? 0 | None => true end then
        in_template ← InTemplateArgumentList clean_lines linenum (len (grp mo 1));
        if negb in_template then
          info ← _ClassInfo (grp mo 3) (grp mo 2) clean_lines linenum;
          Ok (grp mo 4, push info ns)
        else Ok (line, ns)
      else Ok (line, ns)
  | None => Ok (line, ns)
  end.

(** The begin checks of a block whose brace has not been seen. *)
Definition check_begin (clean_lines : CleansedLines) (linenum : Z) (ns : NestingState)
    : res NestingState :=
  match top_block ns with
  | Some b =>
      if negb (seen_open_brace b) then
        b' ← CheckBegin clean_lines linenum b; Ok (update_top (fun _ => b') ns)
      else Ok ns
  | None => Ok ns
  end.

Definition _ACCESS : pattern :=
  rx "^(.*)\b(public|private|protected|signals)(\s+(?:slots\s*)?)?:(?:[^:]|$)".

Definition access_control (filename : str) (linenum : Z) (error : error_fn) (line : str)
    (ns : NestingState) : M NestingState :=
  match top_block ns with
  | Some b =>
      match kind b, Match _ACCESS line with
      | ClassInfo classinfo, Some access_match =>
          let indent := grp access_match 1 in
          when (negb (len indent =? class_indent classinfo + 1)
                && matches (rx "^\s*$") indent)
            (error filename linenum "whitespace/indent" 3
               (grp access_match 2 +s grp access_match 3
                +s ": should be indented +1 space inside " +s class_parent classinfo)) ;;
          mret (update_top (set_kind (ClassInfo (set_access (grp access_match 2) classinfo))) ns)
      | _, _ => mret ns
      end
  | None => mret ns
  end.

Definition _BRACE_TOKEN : pattern := rx "^[^{;)}]*([{;)}])(.*)$".
Definition _EXTERN_C : pattern := rx "^extern\s*`[^`]*`\s*\{".

(** One brace, semicolon or closing parenthesis; [line] starts before it. *)
Definition brace_step (filename : str) (clean_lines : CleansedLines) (linenum : Z)
    (error : error_fn) (token line : str) (ns : NestingState) : M NestingState :=
  if token =s "{" then
    if negb (SeenOpenBrace ns) then mret (update_top set_seen_open_brace ns)
    else if matches _EXTERN_C line then mret (push (_ExternCInfo linenum) ns)
    else
      let ns := push (_BlockInfo linenum true) ns in
      mret (if matches _MATCH_ASM line then update_top (set_asm _BLOCK_ASM) ns else ns)
  else if (token =s ";") || (token =s ")") then
    mret (if negb (SeenOpenBrace ns) then pop ns else ns)
  else
    match top_block ns with
    | Some b => CheckEnd filename clean_lines linenum error b ;; mret (pop ns)
    | None => mret ns
    end.

Fixpoint brace_loop (fuel : nat) (filename : str) (clean_lines : CleansedLines) (linenum : Z)
    (error : error_fn) (line : str) (ns : NestingState) : M NestingState :=
  match fuel with
  | O => raise OutOfFuel
  | S f =>
      match Match _BRACE_TOKEN line with
      | None => mret ns
      | Some matched =>
          ns ← brace_step filename clean_lines linenum error (grp matched 1) line ns;
          brace_loop f filename clean_lines linenum error (grp matched 2) ns
      end
  end.

Definition Update (filename : str) (clean_lines : CleansedLines) (linenum : Z)
    (error : error_fn) (ns : NestingState) : M NestingState :=
  line ← line_at (elided clean_lines) linenum;
  let ns := mkNestingState (heap ns) (stack ns) (head (stack ns)) (pp_stack ns) in
  let ns := UpdatePreprocessor line ns in
  let ns := update_top (count_parentheses line) ns in
  '(line, ns) ← lift (namespace_loop (S (length line)) linenum line ns);
  '(line, ns) ← lift (class_declaration clean_lines linenum line ns);
  ns ← lift (check_begin clean_lines linenum ns);
  ns ← access_control filename linenum error line ns;
  brace_loop (S (length line)) filename clean_lines linenum error line ns.

(** ** Queries *)

Definition class_of (b : Block) : option (Block * ClassData) :=
  match kind b with ClassInfo c => Some (b, c) | _ => None end.

Definition InnermostClass (ns : NestingState) : option (Block * ClassData) :=
  head (omap class_of (blocks ns)).

Definition CheckCompletedBlocks (filename : str) (error : error_fn) (ns : NestingState)
    : M unit :=
  for_each (reverse (blocks ns)) (fun obj =>
    match kind obj with
    | ClassInfo c =>
        error filename (starting_linenum obj) "build/class" 5
          ("Failed to find complete declaration of class " +s class_name c)
    | NamespaceInfo name =>
        error filename (starting_linenum obj) "build/namespaces" 5
          ("Failed to find complete declaration of namespace " +s name)
    | _ => skip
    end).

(** * Indentation inside a namespace *)

(** [stack[-2]] *)
Definition second_ref (ns : NestingState) : option nat := stack ns !! 1%nat.

Definition is_namespace_ref (ns : NestingState) (r : option nat) : bool :=
  match r ≫= deref ns with Some b => is_namespace b | None => false end.

Definition IsBlockInNameSpace (ns : NestingState) (is_forward_declaration : bool) : bool :=
  if is_forward_declaration then InNamespaceBody ns
  else on_top check_namespace_indentation ns && is_namespace_ref ns (second_ref ns).

Definition ShouldCheckNamespaceIndentation (ns : NestingState) (is_namespace_indent_item : bool)
    (raw_lines_no_comments : list str) (linenum : Z) : res bool :=
  is_forward_declaration ← IsForwardClassDeclaration raw_lines_no_comments linenum;
  if negb (is_namespace_indent_item || is_forward_declaration) then Ok false
  else
    is_macro ← IsMacroDefinition raw_lines_no_comments linenum;
    if (is_macro : bool) then Ok false
    else Ok (IsBlockInNameSpace ns is_forward_declaration).

Definition CheckItemIndentationInNamespace (filename : str) (raw_lines_no_comments : list str)
    (linenum : Z) (error : error_fn) : M unit :=
  line ← line_at raw_lines_no_comments linenum;
  when (matches (rx "^\s+") line)
    (error filename linenum "runtime/indentation_namespace" 4
       "Do not indent within a namespace").

Definition CheckForNamespaceIndentation (filename : str) (ns : NestingState)
    (clean_lines : CleansedLines) (line : Z) (error : error_fn) : M unit :=
  let is_namespace_indent_item :=
    bool_decide (1 < length (stack ns))%nat
    && on_top check_namespace_indentation ns
    && is_namespace_ref ns (previous_stack_top ns)
    && bool_decide (previous_stack_top ns = second_ref ns) in
  should ← lift (ShouldCheckNamespaceIndentation ns is_namespace_indent_item
                   (elided clean_lines) line);
  when should (CheckItemIndentationInNamespace filename (elided clean_lines) line error).
