(* ===== verification/NestingFacts.v ===== *)
(** Properties of the nesting state: the heap invariant (every live reference is
    valid and unshared) and that every operation keeps it, totality of [Update]
    and what it does to the stack, the effect of preprocessor conditionals, brace counting, and the checks of
    complete blocks. *)

From S2P Require Import Prelude PyStr Regex RegexFacts State StateFacts Cleanse.
From S2P Require Import CleanseFacts Expr ExprFacts Lines Nesting.

Open Scope Z_scope.
Open Scope py_scope.

(** * The patterns made from names compile *)

Definition toks (s : string) : list tok := default [] (tokenize (of_string s)).

(** The alternatives of the pattern of [_DISALLOW]. *)
Lemma DISALLOW_body : exists body e,
  tokenize (of_string "\b(DISALLOW_COPY_AND_ASSIGN|DISALLOW_IMPLICIT_CONSTRUCTORS)\(")
  = Some (TE "b"%char :: TC "("%char :: body ++ [TC ")"%char; TE "("%char])
  /\ match body with TC q :: TC _ :: _ => negb (ceq q "?") | _ => false end = true
  /\ forall rest, parse_alt 60 (body ++ TC ")"%char :: rest) 1 [] = Some (e, TC ")"%char :: rest, 1%nat).
Proof.
  exists (toks "DISALLOW_COPY_AND_ASSIGN|DISALLOW_IMPLICIT_CONSTRUCTORS"). eexists.
  split; [vm_compute; reflexivity|]. split; [vm_compute; reflexivity|].
  intros rest. vm_compute. reflexivity.
Qed.

Lemma DISALLOW_compiles name : name_ok name -> exists p, _DISALLOW name = Ok p.
Proof.
  intros Hn. unfold _DISALLOW.
  match goal with |- context [re_compile ?s] =>
    enough (exists p, re_compile s = Some p) as [p ->] by by exists p end.
  destruct DISALLOW_body as (body & e & HP & Hb & He).
  destruct (parse_alt_literals (TC <$> name) 60 [TE ")"%char] 1
              [(true, RSet false [CIChar "("%char]); (true, RGroup 1 e); (false, RWordB false)])
    as [es Hes]; [by apply name_literals|].
  eapply (re_compile_parts _ _ (S (S (S (length (TC <$> name) + 60))))).
  - reflexivity.
  - rewrite (tokenize_app _ _ _ HP), tokenize_name by done. reflexivity.
  - rewrite !length_app, length_fmap. simpl length. lia.
  - cbn [app]. rewrite (step_esc _ _ _ _ _ (false, RWordB false)) by reflexivity.
    rewrite <- app_assoc. cbn [app].
    rewrite (step_group _ 60 body (TE "("%char :: (TC <$> name) ++ [TE ")"%char]) 0 1 e);
      [|done|apply He|lia].
    rewrite (step_esc _ _ _ _ _ (true, RSet false [CIChar "("%char])) by reflexivity.
    eexists _, _. etransitivity; [exact Hes|reflexivity].
Qed.

Lemma END_NAMED_compiles name :
  name_ok name -> name <> [] -> exists p, _END_NAMED name = Ok p.
Proof.
  intros Hn Hne. unfold _END_NAMED.
  match goal with |- context [re_compile ?s] =>
    enough (exists p, re_compile s = Some p) as [p ->] by by exists p end.
  set (tail := [TC "["%char; TE "*"%char; TC "/"%char; TE "."%char; TE "\"%char; TE "s"%char;
                TC "]"%char; TC "*"%char; TC "$"%char]).
  assert (forall acc, exists r, parse_alt 20 tail 1 acc = Some (r, [], 1%nat)) as Htail.
  { intros acc. eexists. reflexivity. }
  eapply (re_compile_parts _ _ (23 + (length (escape_tok <$> name) + 20))).
  - reflexivity.
  - erewrite tokenize_app by (vm_compute; reflexivity).
    rewrite tokenize_escape by done. change (tokenize _) with (Some tail). reflexivity.
  - rewrite !length_app, length_fmap. pose proof (length_escape name Hn). simpl length. lia.
  - cbn [Nat.add].
    assert (not_lazy ((escape_tok <$> name) ++ tail) = true) as Hl.
    { destruct name as [|c name]; [done|]. apply Forall_cons in Hn as [Hc%name_char_plain _].
      simpl. unfold escape_tok. destruct (is_alnum c); [|done]. simpl.
      destruct (ceq c "?") eqn:E; [|done]. apply N.eqb_eq in E as ->. by vm_compute in Hc. }
    assert (exists e, forall rest,
      parse_alt 10 ([TC 47; TC 47; TC 124; TC 47; TE 42] ++ TC 41 :: rest) 1 []
      = Some (e, TC 41 :: rest, 1%nat)) as [e He].
    { eexists. intros rest. reflexivity. }
    cbn [app]. repeat pattern_step Hl.
    match goal with |- context [parse_alt (S ?m) (_ :: _ :: _ :: _ :: _ :: _ :: _ :: ?rest) 0 ?acc] =>
      pose proof (step_group m 10 [TC 47; TC 47; TC 124; TC 47; TE 42] rest 0 1 e acc ltac:(done) (He rest) ltac:(lia)) as Hg end.
    change (TC "("%char) with (TC 40) in Hg. change (TC ")"%char) with (TC 41) in Hg.
    cbn [app] in Hg. rewrite Hg; clear Hg.
    repeat pattern_step Hl.
    match goal with |- context [parse_alt _ _ 1 ?acc] =>
      destruct (parse_alt_literals (escape_tok <$> name) 20 tail 1 acc) as [es ->];
        [by apply escape_literals|]; destruct (Htail (es ++ acc)) as [r Hr] end.
    eexists _, _. exact Hr.
Qed.

(** * The invariant

    [live] lists the references the state will dereference; the invariant says they
    are valid and that no object is reachable twice, so that a change to the top of
    the stack changes nothing that was saved. *)

Definition pp_refs (pp : PreprocessorInfo) : list nat := stack_before_if pp ++ stack_before_else pp.
Definition saved (ns : NestingState) : list nat := concat (pp_refs <$> pp_stack ns).
Definition live (ns : NestingState) : list nat := stack ns ++ saved ns.

Definition block_ok (b : Block) : Prop :=
  0 <= starting_linenum b
  /\ match kind b with
     | ClassInfo c => name_ok (class_name c)
     | NamespaceInfo n => name_ok n
     | _ => True
     end.

Record ns_ok (ns : NestingState) : Prop := mkNsOk {
  live_nodup : NoDup (live ns);
  live_valid : Forall (fun r => r < length (heap ns))%nat (live ns);
  top_valid : forall r, previous_stack_top ns = Some r -> (r < length (heap ns))%nat;
  heap_ok : Forall block_ok (heap ns)
}.

(** The files [CleansedLines] makes: the three views have the same lines. *)
Definition clean_ok (cl : CleansedLines) : Prop :=
  length (elided cl) = length (raw_lines cl) /\ length (lines cl) = length (raw_lines cl).

Lemma ns_ok_init : ns_ok NestingState_init.
Proof. split; [constructor|constructor|done|constructor]. Qed.

Lemma Forall_of_sublist {A} (P : A -> Prop) l k : sublist l k -> Forall P k -> Forall P l.
Proof.
  induction 1 as [|x l k Hs IH|x l k Hs IH]; [done| |]; intros [Hx Hk]%Forall_cons; auto.
Qed.

(** A smaller set of live references over a larger heap. *)
Lemma ns_ok_sub ns ns' :
  ns_ok ns -> sublist (live ns') (live ns) -> heap ns' = heap ns ->
  (forall r, previous_stack_top ns' = Some r -> (r < length (heap ns))%nat) -> ns_ok ns'.
Proof.
  intros [Hn Hv _ Hh] Hs He Ht. split.
  - by eapply sublist_NoDup.
  - rewrite He. by eapply Forall_of_sublist.
  - by rewrite He.
  - by rewrite He.
Qed.

Lemma ns_ok_update_top f ns :
  (forall b, top_block ns = Some b -> block_ok b -> block_ok (f b)) -> ns_ok ns ->
  ns_ok (update_top f ns).
Proof.
  intros Hf [Hn Hv Ht Hh]. unfold update_top, top_block in *.
  destruct (stack ns) as [|r st] eqn:E; [by split|].
  assert (live ns = live (mkNestingState (alter f r (heap ns)) (r :: st)
                            (previous_stack_top ns) (pp_stack ns))) as Hl.
  { unfold live, saved. simpl. by rewrite E. }
  split; simpl; rewrite <- ?Hl, ?length_alter; [done..|].
  apply Forall_alter; [done|]. intros b Hb Hbok. by apply Hf.
Qed.

Lemma ns_ok_push b ns : block_ok b -> ns_ok ns -> ns_ok (push b ns).
Proof.
  intros Hb [Hn Hv Ht Hh]. split; simpl; rewrite ?length_app; simpl.
  - change (NoDup (length (heap ns) :: live ns)). apply NoDup_cons. split; [|done].
    intros Hin. rewrite Forall_forall in Hv. specialize (Hv _ Hin). lia.
  - change (Forall (fun r => r < length (heap ns) + 1)%nat (length (heap ns) :: live ns)).
    constructor; [lia|]. eapply Forall_impl; [exact Hv|]. simpl. lia.
  - intros r Hr. specialize (Ht r Hr). lia.
  - apply Forall_app. split; [done|]. constructor; [done|constructor].
Qed.

Lemma ns_ok_pop ns : ns_ok ns -> ns_ok (pop ns).
Proof.
  intros H. apply (ns_ok_sub ns); [done| |done|by apply H].
  unfold live, saved, pop. simpl. apply sublist_app; [|done].
  destruct (stack ns); simpl; by repeat constructor.
Qed.

(** [copy.deepcopy] of valid references: fresh objects with the same contents. *)
Lemma length_objs (refs : list nat) (h : list Block) :
  Forall (fun r => r < length h)%nat refs ->
  length (omap (fun r => h !! r) refs) = length refs.
Proof.
  induction 1 as [|r refs Hr Hrefs IH]; [done|]. cbn.
  destruct (lookup_lt_is_Some_2 h r Hr) as [b ->]. simpl. f_equal. exact IH.
Qed.

Lemma omap_seq_app {A} (h objs t : list A) :
  omap (fun r => (h ++ objs ++ t) !! r) (seq (length h) (length objs)) = objs.
Proof.
  revert h. induction objs as [|b objs IH]; intros h; [done|]. cbn.
  rewrite lookup_app_r, Nat.sub_diag by lia. cbn. f_equal.
  specialize (IH (h ++ [b])). rewrite length_app, Nat.add_1_r, <- app_assoc in IH. exact IH.
Qed.

Lemma seq_fresh (n k : nat) l :
  Forall (fun r => r < n)%nat l -> forall x, x ∈ l -> x ∉ seq n k.
Proof. intros H x Hx Hs%elem_of_seq. rewrite Forall_forall in H. specialize (H x Hx). lia. Qed.

Lemma omap_ok (refs : list nat) (h : list Block) :
  Forall block_ok h -> Forall block_ok (omap (fun r => h !! r) refs).
Proof.
  intros Hh. apply Forall_forall. intros b (r & _ & Hr)%list_elem_of_omap.
  by eapply Forall_lookup_1.
Qed.

Lemma Forall_lt_mono (n k : nat) l :
  (n <= k)%nat -> Forall (fun r => r < n)%nat l -> Forall (fun r => r < k)%nat l.
Proof. intros Hn H. eapply Forall_impl; [exact H|]. simpl. lia. Qed.

Lemma Forall_seq_lt n k m : (n + k <= m)%nat -> Forall (fun r => r < m)%nat (seq n k).
Proof. intros H. apply Forall_forall. intros x Hx%elem_of_seq. lia. Qed.

(** The [#if] case, and the [#else] case for each of its two copies: the live
    references are extended with the fresh ones. *)
Lemma fresh_live n k l :
  NoDup l -> Forall (fun r => r < n)%nat l -> NoDup (seq n k ++ l).
Proof.
  intros Hn Hv. apply NoDup_app. split; [apply NoDup_seq|]. split; [|done].
  intros x Hx Hl. by apply (seq_fresh n k l Hv x Hl).
Qed.

Lemma ns_ok_fresh ns ns' objs k l :
  ns_ok ns -> heap ns' = heap ns ++ objs -> length objs = k -> Forall block_ok objs ->
  live ns' ≡ₚ seq (length (heap ns)) k ++ l -> sublist l (live ns) ->
  previous_stack_top ns' = previous_stack_top ns -> ns_ok ns'.
Proof.
  intros [Hn Hv Ht Hh] He Hk Hobj Hl Hs Hp.
  assert (Forall (fun r => r < length (heap ns))%nat l) as Hvl by by eapply Forall_of_sublist.
  split.
  - rewrite Hl. apply fresh_live; [by eapply sublist_NoDup|done].
  - rewrite Hl, He, length_app. apply Forall_app. split; [apply Forall_seq_lt; lia|].
    eapply Forall_lt_mono; [|done]. lia.
  - rewrite Hp, He, length_app. intros r Hr. specialize (Ht r Hr). lia.
  - rewrite He. by apply Forall_app.
Qed.

Lemma UpdatePreprocessor_ok line ns : ns_ok ns -> ns_ok (UpdatePreprocessor line ns).
Proof.
  intros Hok. pose proof Hok as [Hn Hv Ht Hh].
  assert (Forall (fun r => r < length (heap ns))%nat (stack ns)) as Hvs.
  { by apply Forall_app in Hv as [Hv _]. }
  unfold UpdatePreprocessor. destruct (matches _PP_IF line).
  { unfold deepcopy. rewrite length_objs by done.
    eapply (ns_ok_fresh ns _ _ _ (live ns)); [done|done|by apply length_objs|by apply omap_ok| |done|done].
    unfold live, saved, pp_refs. simpl. rewrite app_nil_r. solve_Permutation. }
  destruct (matches _PP_ELSE line).
  { destruct (pp_stack ns) as [|pp pps] eqn:Epp; [done|].
    assert (Forall (fun r => r < length (heap ns))%nat (stack_before_if pp)) as Hvi.
    { unfold live, saved in Hv. rewrite Epp in Hv. simpl in Hv. unfold pp_refs in Hv.
      by rewrite !Forall_app in Hv; destruct Hv as (_ & (? & _) & _). }
    destruct (negb (seen_else pp)); unfold deepcopy.
    - rewrite length_objs by done. simpl.
      rewrite length_objs.
      2: { eapply Forall_lt_mono; [|exact Hvi]. rewrite length_app. lia. }
      eapply (ns_ok_fresh ns _ _ _ (stack_before_if pp ++ concat (pp_refs <$> pps)));
        [done|simpl; by rewrite <- app_assoc| | | | |done].
      + rewrite length_app, !length_objs; [reflexivity| |done].
        eapply Forall_lt_mono; [|exact Hvi]. rewrite length_app. lia.
      + apply Forall_app. split; apply omap_ok; [done|]. apply Forall_app. split; [done|by apply omap_ok].
      + unfold live, saved. simpl. rewrite seq_app, length_app, length_objs by done.
        unfold pp_refs. simpl. solve_Permutation.
      + unfold live, saved. rewrite Epp. simpl. unfold pp_refs. rewrite <- app_assoc.
        apply sublist_inserts_l, sublist_app; [done|]. by apply sublist_inserts_l.
    - simpl. rewrite length_objs by done.
      eapply (ns_ok_fresh ns _ _ _ (saved ns)); [done|done|by apply length_objs|by apply omap_ok| | |done].
      + unfold live, saved. simpl. by rewrite Epp.
      + unfold live. by apply sublist_inserts_l. }
  destruct (matches _PP_ENDIF line); [|done].
  destruct (pp_stack ns) as [|pp pps] eqn:Epp; [done|].
  apply (ns_ok_sub ns); [done| |by destruct (seen_else pp)|by destruct (seen_else pp)].
  unfold live, saved. rewrite Epp. destruct (seen_else pp); simpl; unfold pp_refs.
  - rewrite <- app_assoc. apply sublist_inserts_l, sublist_inserts_l. done.
  - apply sublist_app; [done|]. by apply sublist_inserts_l.
Qed.

(** * Termination and totality of the parts of [Update] *)

Lemma name_set ch : set_match false false [CIChar 58; CIWord] ch = true -> name_char ch.
Proof.
  unfold set_match, name_char. simpl. rewrite !orb_false_r, orb_true_iff, N.eqb_eq. tauto.
Qed.

Lemma NAMESPACE_DECL_shape line mo :
  Match _NAMESPACE_DECL line = Some mo ->
  (length (grp mo 2) < length line)%nat /\ name_ok (default [] (group mo 1)).
Proof.
  intros Hm. match_inv Hm _NAMESPACE_DECL.
  match goal with H : mo_caps mo = _ |- _ => rename H into Hc end.
  match goal with H : Mt _ _ (RRep _ 0 (Some 1%nat) _) _ _ _ _ |- _ =>
    pose proof (Mt_bounds _ _ _ _ _ _ _ H); apply Mt_opt in H as [[-> ->]|H] end; mt_inv.
  - pose proof (grp_bound mo 2 _ _ ltac:(rewrite Hc; reflexivity)).
    split; [lia|]. unfold group, captured. rewrite Hc. constructor.
  - match goal with H : Mt _ _ (RRep _ 1 _ _) _ _ _ _ |- _ =>
      apply Mt_no_groups in H as Hn; [|reflexivity]; subst;
      apply (Mt_set_run _ _ _ _ _ _ _ name_char) in H end.
    + pose proof (grp_bound mo 2 _ _ ltac:(rewrite Hc; reflexivity)). split; [lia|].
      unfold group, captured. rewrite Hc. done.
    + exact name_set.
Qed.

(** What a step that is not a preprocessor directive may change: objects on the
    stack and new ones; nothing that was saved. *)
Record frame (ns ns' : NestingState) : Prop := mkFrame {
  frame_heap : forall r b, r ∉ stack ns -> heap ns !! r = Some b -> heap ns' !! r = Some b;
  frame_length : (length (heap ns) <= length (heap ns'))%nat;
  frame_stack : forall r, r ∈ stack ns' -> r ∈ stack ns \/ (length (heap ns) <= r)%nat;
  frame_pp : pp_stack ns' = pp_stack ns
}.

#[export] Instance frame_preorder : PreOrder frame.
Proof.
  split.
  - intros ns. split; auto.
  - intros ns1 ns2 ns3 [Hh Hl Hs Hp] [Hh' Hl' Hs' Hp']. split; [|lia| |congruence].
    + intros r b Hr Hb. apply Hh'; [|by apply Hh]. intros Hin.
      apply lookup_lt_Some in Hb. destruct (Hs r Hin); [done|lia].
    + intros r Hr. destruct (Hs' r Hr) as [H|H]; [by apply Hs|right; lia].
Qed.

Lemma frame_update_top f ns : frame ns (update_top f ns).
Proof.
  unfold update_top. destruct (stack ns) as [|r st] eqn:E; [reflexivity|]. split; simpl.
  - rewrite E. intros k b Hk Hb. rewrite list_lookup_alter_ne; [done|]. intros ->. apply Hk. left.
  - by rewrite length_alter.
  - rewrite E. auto.
  - done.
Qed.

Lemma frame_push b ns : frame ns (push b ns).
Proof.
  split; simpl; [| | |done..].
  - intros r b' _ H. by apply lookup_app_l_Some.
  - rewrite length_app. lia.
  - intros r [-> | H]%elem_of_cons; [by right|by left].
Qed.

Lemma frame_pop ns : frame ns (pop ns).
Proof.
  split; simpl; try done. intros r H. left. destruct (stack ns); [done|]. by right.
Qed.

(** A step that keeps the invariant within its frame. *)
Definition moves (ns ns' : NestingState) : Prop := ns_ok ns' /\ frame ns ns'.

Lemma moves_refl ns : ns_ok ns -> moves ns ns.
Proof. by split. Qed.

Lemma moves_trans ns1 ns2 ns3 : moves ns1 ns2 -> moves ns2 ns3 -> moves ns1 ns3.
Proof. intros [_ H1] [? H2]. split; [done|]. by transitivity ns2. Qed.

Lemma moves_update_top f ns :
  ns_ok ns -> (forall b, top_block ns = Some b -> block_ok b -> block_ok (f b)) ->
  moves ns (update_top f ns).
Proof. intros. split; [by apply ns_ok_update_top|apply frame_update_top]. Qed.

Lemma moves_push b ns : ns_ok ns -> block_ok b -> moves ns (push b ns).
Proof. intros. split; [by apply ns_ok_push|apply frame_push]. Qed.

Lemma moves_pop ns : ns_ok ns -> moves ns (pop ns).
Proof. intros. split; [by apply ns_ok_pop|apply frame_pop]. Qed.

Lemma top_block_ok ns b : ns_ok ns -> top_block ns = Some b -> block_ok b.
Proof.
  intros [_ _ _ Hh] H. unfold top_block, deref in H. destruct (stack ns) as [|r st]; [done|].
  simpl in H. by eapply Forall_lookup_1.
Qed.

#[export] Hint Resolve moves_refl moves_push moves_pop moves_update_top : py.

Lemma namespace_loop_moves fuel linenum line ns :
  0 <= linenum -> ns_ok ns -> (length line < fuel)%nat ->
  exists line' ns', namespace_loop fuel linenum line ns = Ok (line', ns')
    /\ moves ns ns' /\ (length line' <= length line)%nat.
Proof.
  intros Hl. revert line ns. induction fuel as [|f IH]; intros line ns Hok Hf; [lia|].
  cbn [namespace_loop]. destruct (Match _NAMESPACE_DECL line) as [mo|] eqn:Em.
  2: { exists line, ns. auto using moves_refl. }
  apply NAMESPACE_DECL_shape in Em as [Hlen Hname].
  set (ns1 := push (_NamespaceInfo (group mo 1) linenum) ns).
  assert (moves ns ns1) as H1 by (apply moves_push; [done|]; by split).
  destruct (negb _).
  - destruct (IH (slice_from (grp mo 2) (find (grp mo 2) "{" + 1))
                (update_top set_seen_open_brace ns1)) as (line' & ns' & -> & H & Hlen').
    + apply moves_update_top; [apply H1|done].
    + pose proof (length_slice_from (grp mo 2) (find (grp mo 2) "{" + 1)). lia.
    + exists line', ns'. split; [done|]. split.
      * eapply moves_trans; [exact H1|]. eapply moves_trans; [|exact H].
        apply moves_update_top; [apply H1|done].
      * pose proof (length_slice_from (grp mo 2) (find (grp mo 2) "{" + 1)). lia.
  - destruct (IH (grp mo 2) ns1) as (line' & ns' & -> & H & Hlen'); [apply H1|lia|].
    exists line', ns'. split; [done|]. split; [by eapply moves_trans|lia].
Qed.

(** ** Template arguments *)

(** The place of a position in the text of the file. *)
Definition offset (cl : CleansedLines) (linenum : nat) : nat :=
  sum_list_with (fun l => S (length l)) (take linenum (elided cl)).

Lemma offset_S cl n line :
  elided cl !! n = Some line -> offset cl (S n) = (offset cl n + S (length line))%nat.
Proof.
  intros H. unfold offset. rewrite (take_S_r _ _ _ H), sum_list_with_app. simpl. lia.
Qed.

Lemma offset_mono cl n k : (n <= k)%nat -> (offset cl n <= offset cl k)%nat.
Proof.
  intros H. unfold offset. replace k with (n + (k - n))%nat by lia.
  rewrite <- take_take_drop, sum_list_with_app. lia.
Qed.

Lemma offset_end cl n : (offset cl n < template_fuel cl)%nat.
Proof.
  unfold offset, template_fuel. rewrite <- (take_drop n (elided cl)) at 2.
  rewrite sum_list_with_app. lia.
Qed.

Lemma TEMPLATE_TOKEN_shape line mo :
  Match _TEMPLATE_TOKEN line = Some mo ->
  (1 <= length (group0 mo) <= length line)%nat /\ length (grp mo 1) = 1%nat
  /\ line !! (length (group0 mo) - 1)%nat = head (grp mo 1).
Proof.
  intros Hm. match_inv Hm _TEMPLATE_TOKEN.
  match goal with H : mo_caps mo = _ |- _ => rename H into Hc end.
  match goal with H : mo_string mo !! _ = Some ?x |- _ => rename H into Hx, x into ch end.
  assert (length (group0 mo) = mo_end mo) as Hg.
  { unfold group0. rewrite length_take, length_drop. lia. }
  rewrite Hg. split; [lia|].
  unfold grp, group, captured. rewrite Hc. cbn [lookup list_lookup insert list_insert caps0 replicate p_groups].
  match goal with H : mo_end mo = S _ |- _ => rewrite H end.
  replace (S x1 - x1)%nat with 1%nat by lia. replace (S x1 - 1)%nat with x1 by lia.
  rewrite (drop_S _ _ _ Hx). by split.
Qed.

Lemma template_loop_total fuel cl n pos :
  clean_ok cl ->
  (pos <= match elided cl !! n with Some line => length line | None => 0 end)%nat ->
  (template_fuel cl <= offset cl n + pos + fuel)%nat ->
  exists b, template_loop fuel cl (Z.of_nat n) (Z.of_nat pos) = Ok b.
Proof.
  intros [Hclean _]. revert n pos. induction fuel as [|f IH]; intros n pos Hpos Hfuel.
  { exfalso. destruct (elided cl !! n) as [line|] eqn:El.
    - pose proof (offset_end cl (S n)). rewrite (offset_S _ _ _ El) in H. lia.
    - pose proof (offset_end cl n). lia. }
  cbn [template_loop]. destruct (Z.ltb_spec (Z.of_nat n) (NumLines cl)) as [Hn|]; [|by eexists].
  destruct (lookup_lt_is_Some_2 (elided cl) n) as [line El].
  { unfold NumLines, len in Hn. lia. }
  rewrite El in Hpos. rewrite (idx_Ok _ _ _ El). cbn [mbind res_bind].
  pose proof (offset_S _ _ _ El) as Hoff.
  assert (exists b, template_loop f cl (Z.of_nat n + 1) 0 = Ok b) as Hnext.
  { replace (Z.of_nat n + 1) with (Z.of_nat (S n)) by lia. apply (IH (S n) 0%nat); [|lia].
    destruct (elided cl !! S n); lia. }
  rewrite slice_from_pos, Nat2Z.id by lia.
  destruct (Match _TEMPLATE_TOKEN (drop pos line)) as [mo|] eqn:Em; [|done].
  apply TEMPLATE_TOKEN_shape in Em as (Hg & _). rewrite length_drop in Hg.
  destruct (str_in _ _); [by eexists|]. destruct (str_in _ _); [by eexists|].
  unfold len. rewrite <- Nat2Z.inj_add.
  destruct (negb (str_eqb _ _)).
  { destruct (Z.leb_spec (Z.of_nat (length line)) (Z.of_nat (pos + length (group0 mo)) + 1)); [done|].
    replace (Z.of_nat (pos + length (group0 mo)) + 1)
      with (Z.of_nat (S (pos + length (group0 mo)))) by lia.
    apply IH; [rewrite El; lia|lia]. }
  destruct (CloseExpression_result cl n (Z.of_nat (pos + length (group0 mo)) - 1) line
              (pos + length (group0 mo) - 1)) as (line' & l' & p & -> & Hres); [done|lia|lia|].
  cbn [mbind res_bind].
  destruct Hres as [[-> ->] | (k & q & c & -> & Hk & Hkn & El' & -> & Hq & _)]; [by eexists|].
  destruct (Z.ltb_spec (Z.of_nat q + 1) 0); [lia|].
  apply lookup_lt_Some in Hq as Hq'.
  replace (Z.of_nat q + 1) with (Z.of_nat (S q)) by lia. apply IH; [rewrite El'; lia|].
  destruct (decide (k = n)) as [-> | Hne]; [specialize (Hkn eq_refl); lia|].
  pose proof (offset_mono cl (S n) k ltac:(lia)). lia.
Qed.

Lemma InTemplateArgumentList_total cl n pos line :
  clean_ok cl -> elided cl !! n = Some line -> (pos <= length line)%nat ->
  exists b, InTemplateArgumentList cl (Z.of_nat n) (Z.of_nat pos) = Ok b.
Proof.
  intros Hc Hl Hp. apply template_loop_total; [done|by rewrite Hl|lia].
Qed.

(** ** Classes *)

Lemma CLASS_DECL_shape line mo :
  Match _CLASS_DECL line = Some mo ->
  name_ok (grp mo 3) /\ (length (grp mo 1) <= length line)%nat
  /\ (length (grp mo 4) <= length line)%nat.
Proof.
  intros Hm. pose proof (match_at_Some _ _ _ _ Hm) as (Hs & _).
  split; [|rewrite <- Hs; split; apply group_length].
  eapply group_Forall; [exact Hm|]. cbn.
  assert (forall ch, set_match false false [CIWord] ch = true -> name_char ch) as Hw.
  { intros ch H. left. unfold set_match in H. simpl in H. by rewrite !orb_false_r in H. }
  assert (forall ch, set_match false false [CIChar 58] ch = true -> name_char ch) as Hcol.
  { intros ch H. right. unfold set_match in H. simpl in H. rewrite !orb_false_r in H.
    by apply N.eqb_eq in H. }
  by repeat split.
Qed.

Lemma class_declaration_moves cl n line0 line ns :
  clean_ok cl -> ns_ok ns -> elided cl !! n = Some line0 -> (length line <= length line0)%nat ->
  exists line' ns', class_declaration cl (Z.of_nat n) line ns = Ok (line', ns')
    /\ moves ns ns' /\ (length line' <= length line)%nat.
Proof.
  intros Hc Hok Hl Hlen. unfold class_declaration.
  destruct (Match _CLASS_DECL line) as [mo|] eqn:Em; [|exists line, ns; auto using moves_refl].
  apply CLASS_DECL_shape in Em as (Hname & H1 & H4).
  destruct (match top_block ns with Some _ => _ | None => _ end);
    [|exists line, ns; auto using moves_refl].
  destruct (InTemplateArgumentList_total cl n (length (grp mo 1)) line0) as [b Hb];
    [done..|lia|]. unfold len. rewrite Hb. cbn [mbind res_bind].
  destruct b; cbn [negb]; [exists line, ns; auto using moves_refl|].
  unfold _ClassInfo. apply lookup_lt_Some in Hl as Hn.
  destruct (lookup_lt_is_Some_2 (raw_lines cl) n) as [raw Hraw]; [destruct Hc; lia|].
  rewrite (idx_Ok _ _ _ Hraw). cbn [mbind res_bind].
  eexists _, _. split; [done|]. split; [|done]. apply moves_push; [done|]. split; [simpl; lia|done].
Qed.

Lemma check_begin_moves cl n line ns :
  ns_ok ns -> elided cl !! n = Some line ->
  exists ns', check_begin cl (Z.of_nat n) ns = Ok ns' /\ moves ns ns'.
Proof.
  intros Hok Hl. unfold check_begin.
  destruct (top_block ns) as [b|] eqn:Eb; [|exists ns; auto using moves_refl].
  destruct (negb (seen_open_brace b)); [|exists ns; auto using moves_refl].
  assert (exists b', CheckBegin cl (Z.of_nat n) b = Ok b' /\ block_ok b') as (b' & -> & Hb').
  { apply top_block_ok in Eb as Hb; [|done]. unfold CheckBegin.
    destruct (kind b) as [| |c|nm] eqn:Ek; try by exists b.
    rewrite (idx_Ok _ _ _ Hl). cbn [mbind res_bind]. destruct (searches _ _); [|by exists b].
    eexists. split; [done|]. destruct Hb as [Hb1 Hb2]. rewrite Ek in Hb2. by split. }
  cbn [mbind res_bind]. eexists. split; [done|]. apply moves_update_top; auto.
Qed.

Section Handled.
Context (I : globals -> Prop) (error : error_fn) `{!Handler I error}.

Lemma access_control_moves filename linenum line ns :
  ns_ok ns -> total I (access_control filename linenum error line ns) (moves ns).
Proof.
  intros Hok. unfold access_control.
  destruct (top_block ns) as [b|] eqn:Eb; [|apply total_ret; auto using moves_refl].
  destruct (kind b) as [| |c|nm] eqn:Ek; try (apply total_ret; auto using moves_refl).
  destruct (Match _ACCESS line) as [mo|]; [|apply total_ret; auto using moves_refl].
  total_step; [repeat total_step|]. apply total_ret, moves_update_top; [done|].
  intros b' Hb' [H1 H2]. rewrite Eb in Hb'. injection Hb' as <-. rewrite Ek in H2. by split.
Qed.

Lemma disallow_loop_total filename cl name l seen :
  name_ok name -> Forall (fun i => 0 <= i < len (elided cl)) l ->
  total I (disallow_loop filename cl name l seen error) (fun _ => True).
Proof.
  intros Hn Hl. revert seen. induction Hl as [|i l Hi Hl IH]; intros seen; cbn [disallow_loop];
    [repeat total_step|].
  total_step; [done|]. destruct (DISALLOW_compiles name Hn) as [p Hp].
  eapply total_bind; [by apply (total_lift _ _ (fun q => q = p) p)|]. intros q ->.
  destruct (Search p _) as [mo|]; [|apply IH]. repeat total_step.
Qed.

Lemma CheckEnd_total filename cl n b :
  clean_ok cl -> (n < length (elided cl))%nat -> block_ok b ->
  total I (CheckEnd filename cl (Z.of_nat n) error b) (fun _ => True).
Proof.
  intros [Hc _] Hn [Hs Hb]. unfold CheckEnd. destruct (kind b) as [| |c|name] eqn:Ek;
    [repeat total_step|repeat total_step| |].
  - unfold ClassInfo_CheckEnd. total_step.
    + apply disallow_loop_total; [done|]. apply Forall_forall. intros i Hi.
      unfold zrange_down in Hi. apply list_elem_of_fmap in Hi as (k & -> & Hk%elem_of_seq).
      unfold len. lia.
    + repeat total_step; [unfold len; lia|]. destruct (Match _ _); repeat total_step.
  - unfold NamespaceInfo_CheckEnd. total_step; [unfold len; lia|]. total_step; [total_step|].
    destruct (nonempty name) eqn:En; [|repeat total_step].
    destruct (END_NAMED_compiles name Hb) as [p Hp]; [by intros ->|].
    eapply total_bind; [by apply (total_lift _ _ (fun q => q = p) p)|]. intros q _.
    repeat total_step.
Qed.

Lemma brace_step_moves filename cl n token line ns :
  clean_ok cl -> (n < length (elided cl))%nat -> ns_ok ns ->
  total I (brace_step filename cl (Z.of_nat n) error token line ns) (moves ns).
Proof.
  intros Hc Hn Hok. unfold brace_step. destruct (token =s "{").
  { destruct (negb (SeenOpenBrace ns)).
    { apply total_ret, moves_update_top; [done|]. by intros b _ [? ?]. }
    destruct (matches _EXTERN_C line); apply total_ret.
    { apply moves_push; [done|]. split; [simpl; lia|done]. }
    assert (moves ns (push (_BlockInfo (Z.of_nat n) true) ns)) as Hm.
    { apply moves_push; [done|]. split; [simpl; lia|done]. }
    destruct (matches _MATCH_ASM line); [|done].
    eapply moves_trans; [exact Hm|]. apply moves_update_top; [apply Hm|]. by intros b _ [? ?]. }
  destruct (_ || _).
  { apply total_ret. destruct (negb _); auto using moves_refl, moves_pop. }
  destruct (top_block ns) as [b|] eqn:Eb; [|apply total_ret; auto using moves_refl].
  total_step; [apply CheckEnd_total; [done..|]; by eapply top_block_ok|].
  apply total_ret. auto using moves_pop.
Qed.

Lemma BRACE_TOKEN_shorter line mo :
  Match _BRACE_TOKEN line = Some mo -> (length (grp mo 2) < length line)%nat.
Proof.
  intros Hm. match_inv Hm _BRACE_TOKEN.
  match goal with H : mo_caps mo = _ |- _ => rename H into Hc end.
  pose proof (grp_bound mo 2 _ _ ltac:(rewrite Hc; reflexivity)). lia.
Qed.

Lemma brace_loop_moves filename cl n fuel line ns :
  clean_ok cl -> (n < length (elided cl))%nat -> ns_ok ns -> (length line < fuel)%nat ->
  total I (brace_loop fuel filename cl (Z.of_nat n) error line ns) (moves ns).
Proof.
  intros Hc Hn. revert line ns. induction fuel as [|f IH]; intros line ns Hok Hf; [lia|].
  cbn [brace_loop]. destruct (Match _BRACE_TOKEN line) as [mo|] eqn:Em;
    [|apply total_ret; auto using moves_refl].
  apply BRACE_TOKEN_shorter in Em.
  eapply total_bind; [by apply brace_step_moves|]. intros ns1 H1.
  eapply total_weaken; [apply IH; [apply H1|lia]|]. intros ns2 H2. by eapply moves_trans.
Qed.

Lemma count_parentheses_same line b :
  starting_linenum (count_parentheses line b) = starting_linenum b
  /\ kind (count_parentheses line b) = kind b.
Proof.
  unfold count_parentheses. cbv zeta. cbn [inline_asm set_parentheses]. destruct (inline_asm b).
  - destruct (negb _ && _ && _); by split.
  - destruct (_ =? 0); by split.
  - destruct (negb _ && _ && _); by split.
  - by split.
Qed.

(** The part of [Update] after the preprocessor stack. *)
Definition update_line (filename : str) (cl : CleansedLines) (linenum : Z) (line : str)
    (ns : NestingState) : M NestingState :=
  let ns := update_top (count_parentheses line) ns in
  '(line, ns) ← lift (namespace_loop (S (length line)) linenum line ns);
  '(line, ns) ← lift (class_declaration cl linenum line ns);
  ns ← lift (check_begin cl linenum ns);
  ns ← access_control filename linenum error line ns;
  brace_loop (S (length line)) filename cl linenum error line ns.

Lemma update_line_moves filename cl n line ns :
  clean_ok cl -> elided cl !! n = Some line -> ns_ok ns ->
  total I (update_line filename cl (Z.of_nat n) line ns) (moves ns).
Proof.
  intros Hc Hl Hok. unfold update_line. apply lookup_lt_Some in Hl as Hn.
  set (ns1 := update_top (count_parentheses line) ns).
  assert (moves ns ns1) as H1.
  { apply moves_update_top; [done|]. intros b _. unfold block_ok.
    by destruct (count_parentheses_same line b) as [-> ->]. }
  destruct (namespace_loop_moves (S (length line)) (Z.of_nat n) line ns1)
    as (line2 & ns2 & E2 & H2 & Hlen2); [lia|apply H1|lia|].
  eapply total_bind; [by apply (total_lift _ _ (fun x => x = (line2, ns2)) _ E2)|]. intros ? ->.
  destruct (class_declaration_moves cl n line line2 ns2) as (line3 & ns3 & E3 & H3 & Hlen3);
    [done|apply H2|done|done|].
  eapply total_bind; [by apply (total_lift _ _ (fun x => x = (line3, ns3)) _ E3)|]. intros ? ->.
  destruct (check_begin_moves cl n line ns3) as (ns4 & E4 & H4); [apply H3|done|].
  eapply total_bind; [by apply (total_lift _ _ (fun x => x = ns4) _ E4)|]. intros ? ->.
  eapply total_bind; [apply access_control_moves; apply H4|]. intros ns5 H5.
  eapply total_weaken; [apply brace_loop_moves; [done|done|apply H5|lia]|]. intros ns6 H6.
  do 5 (eapply moves_trans; [eassumption|]). done.
Qed.
(** [self.previous_stack_top = ...] *)
Definition remember_top (ns : NestingState) : NestingState :=
  mkNestingState (heap ns) (stack ns) (head (stack ns)) (pp_stack ns).

Lemma remember_top_moves ns : ns_ok ns -> moves ns (remember_top ns).
Proof.
  intros Hok. pose proof Hok as [Hn Hv Ht Hh]. split; [|split; simpl; auto]. split; simpl; [done..| |done].
  intros r Hr. rewrite Forall_forall in Hv. apply Hv. unfold live.
  destruct (stack ns) as [|r' st]; [done|]. simplify_eq/=. left.
Qed.

Lemma Update_total_aux filename cl n ns :
  clean_ok cl -> (n < length (elided cl))%nat -> ns_ok ns ->
  total I (Update filename cl (Z.of_nat n) error ns)
    (fun ns' => exists line, elided cl !! n = Some line
                  /\ moves (UpdatePreprocessor line (remember_top ns)) ns').
Proof.
  intros Hc Hn Hok. unfold Update. total_step; [unfold len; lia|].
  rewrite Nat2Z.id in *. rename a into line.
  eapply total_weaken.
  - apply (update_line_moves filename cl n line (UpdatePreprocessor line (remember_top ns)));
      [done..|]. by apply UpdatePreprocessor_ok, remember_top_moves.
  - intros ns' Hm. by exists line.
Qed.

(** ** Lines in sequence *)

Fixpoint update_lines (filename : str) (cl : CleansedLines) (ls : list nat) (ns : NestingState)
    : M NestingState :=
  match ls with
  | [] => mret ns
  | n :: ls' => ns ← Update filename cl (Z.of_nat n) error ns; update_lines filename cl ls' ns
  end.

Definition directive (line : str) : bool :=
  matches _PP_IF line || matches _PP_ELSE line || matches _PP_ENDIF line.

Definition no_directives (cl : CleansedLines) (ls : list nat) : Prop :=
  Forall (fun n => exists line, elided cl !! n = Some line /\ directive line = false) ls.

Lemma UpdatePreprocessor_none line ns : directive line = false -> UpdatePreprocessor line ns = ns.
Proof.
  unfold directive, UpdatePreprocessor. intros H. do 2 apply orb_false_elim in H as [H ?].
  by repeat match goal with H : _ = false |- _ => rewrite H; clear H end.
Qed.

Lemma update_lines_moves filename cl ls ns :
  clean_ok cl -> no_directives cl ls -> ns_ok ns ->
  total I (update_lines filename cl ls ns) (moves ns).
Proof.
  intros Hc Hls. revert ns. induction Hls as [|n ls (line & Hl & Hd) Hls IH]; intros ns Hok;
    cbn [update_lines]; [apply total_ret; auto using moves_refl|].
  eapply total_bind; [apply Update_total_aux; [done| |done]; by eapply lookup_lt_Some|].
  intros ns1 (line' & Hl' & Hm). simplify_eq. rewrite UpdatePreprocessor_none in Hm by done.
  pose proof (moves_trans _ _ _ (remember_top_moves ns Hok) Hm) as H1.
  eapply total_weaken; [apply IH, H1|]. intros ns2 H2. by eapply moves_trans.
Qed.
End Handled.

(** ** What a line does to the stack *)

(** The tokens that may close a block. *)
Definition closer (c : N) : bool := mem_chars ";)}" c.
Definition closers (s : str) : nat := length (List.filter closer s).

(** On line [l] at most [k] blocks are closed, the innermost first, and the blocks below
    stay; the blocks that are opened are new objects and start at [l].  Every object keeps
    the line it starts at, and the stacks saved for preprocessor conditionals are kept. *)
Record turns (l : Z) (k : nat) (ns ns' : NestingState) : Prop := mkTurns {
  turns_heap : exists m, starting_linenum <$> heap ns' = (starting_linenum <$> heap ns) ++ replicate m l;
  turns_stack : exists opened j, (j <= k)%nat /\ stack ns' = opened ++ drop j (stack ns)
                  /\ Forall (fun r => length (heap ns) <= r)%nat opened;
  turns_top : previous_stack_top ns' = previous_stack_top ns;
  turns_pp : pp_stack ns' = pp_stack ns
}.

Lemma turns_refl l ns : turns l 0 ns ns.
Proof. split; [exists 0%nat; by rewrite app_nil_r|by exists [], 0%nat|done..]. Qed.

Lemma turns_trans l k1 k2 ns1 ns2 ns3 :
  turns l k1 ns1 ns2 -> turns l k2 ns2 ns3 -> turns l (k1 + k2) ns1 ns3.
Proof.
  intros [(m1 & H1) (o1 & j1 & Hj1 & Hs1 & Hf1) Ht1 Hp1] [(m2 & H2) (o2 & j2 & Hj2 & Hs2 & Hf2) Ht2 Hp2].
  split; [| |congruence..].
  - exists (m1 + m2)%nat. by rewrite H2, H1, replicate_add, app_assoc.
  - exists (o2 ++ drop j2 o1), (j1 + (j2 - length o1))%nat. split_and!; [lia| |].
    + by rewrite Hs2, Hs1, drop_app, drop_drop, app_assoc.
    + apply (f_equal length) in H1. rewrite length_app, !length_fmap in H1.
      apply Forall_app. split; [eapply Forall_impl; [exact Hf2|]; simpl; lia|by apply Forall_drop].
Qed.

Lemma turns_weaken l k k' ns ns' : (k <= k')%nat -> turns l k ns ns' -> turns l k' ns ns'.
Proof.
  intros Hk [Hh (o & j & Hj & H) Ht Hp]. split; [done| |done..]. exists o, j. split; [lia|done].
Qed.

Lemma turns_update_top l f ns :
  (forall b, starting_linenum (f b) = starting_linenum b) -> turns l 0 ns (update_top f ns).
Proof.
  intros Hf. unfold update_top. destruct (stack ns) as [|r st] eqn:E; [apply turns_refl|].
  split; simpl; [|by exists [], 0%nat; rewrite E|done..].
  exists 0%nat. rewrite app_nil_r. apply list_eq. intros i. rewrite !list_lookup_fmap.
  destruct (decide (i = r)) as [->|Hne].
  - rewrite list_lookup_alter_eq. destruct (heap ns !! r); simpl; [by rewrite Hf|done].
  - by rewrite list_lookup_alter_ne.
Qed.

Lemma turns_push l b ns : starting_linenum b = l -> turns l 0 ns (push b ns).
Proof.
  intros Hb. split; simpl; [|by exists [length (heap ns)], 0%nat; repeat constructor|done..].
  exists 1%nat. by rewrite fmap_app; simpl; rewrite Hb.
Qed.

Lemma turns_pop l ns : turns l 1 ns (pop ns).
Proof. split; simpl; [exists 0%nat; by rewrite app_nil_r|by exists [], 1%nat|done..]. Qed.

#[local] Hint Resolve turns_refl turns_push turns_update_top turns_pop : core.

Lemma closers_app s t : closers (s ++ t) = (closers s + closers t)%nat.
Proof. unfold closers. by rewrite List.filter_app, length_app. Qed.

Lemma closers_drop i s : (closers (drop i s) <= closers s)%nat.
Proof. rewrite <- (take_drop i s) at 2. rewrite closers_app. lia. Qed.

Lemma closers_take i s : (closers (take i s) <= closers s)%nat.
Proof. rewrite <- (take_drop i s) at 2. rewrite closers_app. lia. Qed.

Lemma closers_group mo i : (closers (grp mo i) <= closers (mo_string mo))%nat.
Proof.
  unfold grp, group, captured.
  destruct (mo_caps mo !! i) as [[[a b]|]|]; cbn [default]; [|unfold closers; simpl; lia..].
  etransitivity; [apply closers_take|apply closers_drop].
Qed.

Lemma namespace_loop_turns fuel l line ns line' ns' :
  namespace_loop fuel l line ns = Ok (line', ns') ->
  turns l 0 ns ns' /\ (closers line' <= closers line)%nat.
Proof.
  revert line ns. induction fuel as [|f IH]; intros line ns; [done|]. cbn [namespace_loop].
  destruct (Match _ line) as [mo|] eqn:Em; [|by intros [= <- <-]].
  apply match_at_Some in Em as (Hs & _). pose proof (closers_group mo 2) as Hc. rewrite Hs in Hc.
  assert (turns l 0 ns (push (_NamespaceInfo (group mo 1) l) ns)) as Hp by (by apply turns_push).
  destruct (negb _); intros [Ht Hl]%IH.
  - split; [eapply (turns_trans l 0 0); [exact Hp|]; eapply (turns_trans l 0 0); [|exact Ht]|].
    { by apply turns_update_top. }
    unfold slice_from in Hl.
    match type of Hl with (_ <= closers (drop ?i ?s))%nat => pose proof (closers_drop i s); lia end.
  - split; [by apply (turns_trans l 0 0 _ _ _ Hp)|lia].
Qed.

Lemma class_declaration_turns cl l line ns line' ns' :
  class_declaration cl l line ns = Ok (line', ns') ->
  turns l 0 ns ns' /\ (closers line' <= closers line)%nat.
Proof.
  unfold class_declaration. destruct (Match _ line) as [mo|] eqn:Em; [|by intros [= <- <-]].
  apply match_at_Some in Em as (Hs & _). pose proof (closers_group mo 4) as Hc. rewrite Hs in Hc.
  destruct (match top_block ns with Some _ => _ | None => _ end); [|by intros [= <- <-]].
  destruct (InTemplateArgumentList _ _ _) as [b|]; [|done]. cbn [mbind res_bind].
  destruct (negb b); [|by intros [= <- <-]]. unfold _ClassInfo.
  destruct (idx _ l) as [raw|]; [|done]. cbn [mbind res_bind]. intros [= <- <-].
  split; [by apply turns_push|done].
Qed.

Lemma CheckBegin_starting cl l b b' : CheckBegin cl l b = Ok b' -> starting_linenum b' = starting_linenum b.
Proof.
  unfold CheckBegin. destruct (kind b); try by intros [= <-].
  destruct (idx _ _) as [x|]; [|done]. cbn [mbind res_bind]. by destruct (searches _ x); intros [= <-].
Qed.

Lemma check_begin_turns cl l ns ns' : check_begin cl l ns = Ok ns' -> turns l 0 ns ns'.
Proof.
  unfold check_begin. destruct (top_block ns) as [b|] eqn:Eb; [|by intros [= <-]].
  destruct (negb _); [|by intros [= <-]].
  destruct (CheckBegin cl l b) as [b'|] eqn:E; [|done]. cbn [mbind res_bind]. intros [= <-].
  apply CheckBegin_starting in E.
  assert (update_top (fun _ => b') ns
          = update_top (fun x => if decide (starting_linenum x = starting_linenum b) then b' else x) ns) as ->.
  { unfold update_top, top_block, deref in *. destruct (stack ns) as [|r st]; [done|]. simpl in Eb. f_equal.
    apply list_eq. intros i. destruct (decide (i = r)) as [->|Hne].
    - rewrite !list_lookup_alter_eq, Eb. simpl. by rewrite decide_True.
    - by rewrite !list_lookup_alter_ne. }
  apply turns_update_top. intros x. case_decide; congruence.
Qed.

Lemma access_control_turns filename l error line ns :
  gives (access_control filename l error line ns) (turns l 0 ns).
Proof.
  unfold access_control. repeat case_match; try by apply gives_ret.
  eapply gives_bind; [apply gives_any|]. intros _ _. by apply gives_ret, turns_update_top.
Qed.

Lemma brace_step_turns filename cl l error token line ns :
  gives (brace_step filename cl l error token line ns) (turns l (if token =s "{" then 0 else 1) ns).
Proof.
  unfold brace_step. destruct (token =s "{").
  { destruct (negb _); [by apply gives_ret, turns_update_top|].
    destruct (matches _EXTERN_C line); apply gives_ret; [by apply turns_push|].
    destruct (matches _MATCH_ASM line); [|by apply turns_push].
    eapply (turns_trans l 0 0); [|by apply turns_update_top]. by apply turns_push. }
  assert (turns l 1 ns ns) as Hn by (apply (turns_weaken l 0); [lia|apply turns_refl]).
  destruct (_ || _); [apply gives_ret; destruct (negb _); [apply turns_pop|done]|].
  destruct (top_block ns); [|by apply gives_ret].
  eapply gives_bind; [apply gives_any|]. intros _ _. apply gives_ret, turns_pop.
Qed.

(** The token and the rest of the line after it. *)
Lemma BRACE_TOKEN_closers line mo :
  Match _BRACE_TOKEN line = Some mo ->
  ((if grp mo 1 =s "{" then 0 else 1) + closers (grp mo 2) <= closers line)%nat.
Proof.
  intros Hm. match_inv Hm _BRACE_TOKEN.
  match goal with H : mo_caps mo = _ |- _ => rename H into Hc end.
  match goal with H : mo_string mo !! ?i = Some ?c, E : set_match false false _ ?c = true |- _ =>
    rename H into Hi, E into Hset; set (i0 := i) in *; set (ch := c) in * end.
  rewrite <- (take_drop_middle _ _ _ Hi), closers_app. change (ch :: ?t) with ([ch] ++ t).
  rewrite closers_app.
  match type of Hc with mo_caps mo = <[2%nat := Some (_, ?e)]> _ => set (e0 := e) in * end.
  rewrite (grp_text mo 1 i0 (S i0)), (grp_text mo 2 (S i0) e0) by (rewrite Hc; reflexivity).
  pose proof (closers_take (e0 - S i0) (drop (S i0) (mo_string mo))).
  assert (take (S i0 - i0) (drop i0 (mo_string mo)) = [ch]) as ->.
  { rewrite (drop_S _ _ _ Hi). by replace (S i0 - i0)%nat with 1%nat by lia. }
  assert ((if [ch] =s "{" then 0 else 1) <= closers [ch])%nat; [|lia].
  clear -Hset. unfold set_match in Hset. simpl in Hset.
  rewrite !orb_false_r, !orb_true_iff, !N.eqb_eq in Hset.
  destruct Hset as [->|[->|[->| ->]]]; vm_compute; lia.
Qed.

Lemma brace_loop_turns fuel filename cl l error line ns :
  gives (brace_loop fuel filename cl l error line ns) (turns l (closers line) ns).
Proof.
  revert line ns. induction fuel as [|f IH]; intros line ns; [done|]. cbn [brace_loop].
  destruct (Match _ line) as [mo|] eqn:Em.
  2: { apply gives_ret, (turns_weaken l 0); [lia|apply turns_refl]. }
  apply BRACE_TOKEN_closers in Em.
  eapply gives_bind; [apply brace_step_turns|]. intros ns1 H1 g g' ns2 E.
  apply (turns_weaken l _ _ _ _ Em). eapply turns_trans; [exact H1|]. by eapply IH.
Qed.

(** [Update] after the preprocessor stack. *)
Lemma Update_turns filename cl l error ns :
  gives (Update filename cl l error ns)
    (fun ns' => exists line, idx (elided cl) l = Ok line
                  /\ turns l (closers line) (UpdatePreprocessor line (remember_top ns)) ns').
Proof.
  unfold Update. eapply gives_bind; [by apply (gives_lift _ (fun line => idx (elided cl) l = Ok line))|].
  intros line Hline. fold (remember_top ns). set (ns0 := UpdatePreprocessor line (remember_top ns)).
  set (ns1 := update_top _ _). assert (turns l 0 ns0 ns1) as H1.
  { apply turns_update_top. intros b. apply count_parentheses_same. }
  eapply gives_bind.
  { apply (gives_lift _ (fun r => turns l 0 ns1 r.2 /\ closers r.1 <= closers line)%nat).
    intros [l2 ns2] E. by eapply namespace_loop_turns. }
  intros [line2 ns2] [H2 Hc2]. simpl in H2, Hc2. eapply gives_bind.
  { apply (gives_lift _ (fun r => turns l 0 ns2 r.2 /\ closers r.1 <= closers line2)%nat).
    intros [l3 ns3] E. by eapply class_declaration_turns. }
  intros [line3 ns3] [H3 Hc3]. simpl in H3, Hc3. eapply gives_bind.
  { apply (gives_lift _ (turns l 0 ns3)). intros ns4 E. by eapply check_begin_turns. }
  intros ns4 H4. eapply gives_bind; [apply access_control_turns|]. intros ns5 H5.
  intros g g' ns6 H6%brace_loop_turns. exists line. split; [done|].
  apply (turns_weaken l (0 + (0 + (0 + (0 + (0 + closers line3))))))%nat; [lia|].
  by repeat (eapply turns_trans; [eassumption|]).
Qed.

(** ** Saved stacks *)

(** Objects that are not on the stack look the same after any number of moves. *)
Lemma frame_contents ns ns' refs :
  frame ns ns' -> Forall (fun r => r < length (heap ns))%nat refs ->
  (forall r, r ∈ refs -> r ∉ stack ns) ->
  omap (fun r => heap ns' !! r) refs = omap (fun r => heap ns !! r) refs.
Proof.
  intros [Hh _ _ _] Hv Hd. induction Hv as [|r refs Hr Hv IH]; [done|]. cbn.
  destruct (lookup_lt_is_Some_2 (heap ns) r Hr) as [b Hb].
  rewrite (Hh r b), Hb; [|by apply Hd; left|done]. f_equal. apply IH.
  intros x Hx. apply Hd. by right.
Qed.

Lemma saved_disjoint ns pp pps refs :
  ns_ok ns -> pp_stack ns = pp :: pps -> sublist refs (pp_refs pp) ->
  Forall (fun r => r < length (heap ns))%nat refs /\ forall r, r ∈ refs -> r ∉ stack ns.
Proof.
  intros [Hn Hv _ _] Hpp Hs. unfold live, saved in *. rewrite Hpp in *. simpl in *.
  apply NoDup_app in Hn as (_ & Hn & _). apply Forall_app in Hv as [_ [Hv _]%Forall_app].
  split; [by eapply Forall_of_sublist|]. intros r Hr Hst. apply (Hn r Hst).
  apply elem_of_app. left. exact (elem_of_sublist _ _ _ Hr Hs).
Qed.

(** The contents of the stack, its top first. *)
Lemma deepcopy_blocks (refs : list nat) (h t : list Block) :
  Forall (fun r => r < length h)%nat refs ->
  omap (fun r => (h ++ omap (fun r => h !! r) refs ++ t) !! r) (seq (length h) (length refs))
  = omap (fun r => h !! r) refs.
Proof.
  intros Hv. rewrite <- (length_objs refs h) at 1 by done. apply omap_seq_app.
Qed.

Lemma omap_app_valid (refs : list nat) (h t : list Block) :
  Forall (fun r => r < length h)%nat refs ->
  omap (fun r => (h ++ t) !! r) refs = omap (fun r => h !! r) refs.
Proof.
  induction 1 as [|r refs Hr Hv IH]; [done|]. cbn. rewrite lookup_app_l by done.
  destruct (h !! r); [f_equal|]; exact IH.
Qed.

(** After the first [#else] of a conditional: the stack is a copy of the one at
    [#if], and the one reached so far is saved. *)
Lemma UpdatePreprocessor_else line ns pp pps :
  ns_ok ns -> matches _PP_IF line = false -> matches _PP_ELSE line = true ->
  pp_stack ns = pp :: pps -> seen_else pp = false ->
  let ns' := UpdatePreprocessor line ns in
  blocks ns' = omap (fun r => heap ns !! r) (stack_before_if pp)
  /\ exists copy, pp_stack ns' = mkPreprocessorInfo (stack_before_if pp) copy true :: pps
     /\ omap (fun r => heap ns' !! r) copy = blocks ns.
Proof.
  intros Hok Hif Helse Hpp Hseen. unfold UpdatePreprocessor. rewrite Hif, Helse, Hpp, Hseen.
  destruct (saved_disjoint ns pp pps (stack_before_if pp) Hok Hpp) as [Hvi _].
  { unfold pp_refs. by apply sublist_inserts_r. }
  assert (Forall (fun r => r < length (heap ns))%nat (stack ns)) as Hvs.
  { destruct Hok as [_ Hv _ _]. by apply Forall_app in Hv as [Hv _]. }
  cbn [negb]. unfold deepcopy. cbn [stack_before_if]. cbv zeta.
  set (h1 := heap ns ++ omap (fun r => heap ns !! r) (stack ns)).
  assert (Forall (fun r => r < length h1)%nat (stack_before_if pp)) as Hvi1.
  { eapply Forall_lt_mono; [|exact Hvi]. unfold h1. rewrite length_app. lia. }
  rewrite (length_objs (stack ns)), (length_objs (stack_before_if pp)) by done. split.
  - unfold blocks, deref. simpl.
    rewrite <- (app_nil_r (omap (fun r => h1 !! r) (stack_before_if pp))).
    rewrite deepcopy_blocks by done. by apply omap_app_valid.
  - eexists. split; [done|]. simpl. unfold h1. rewrite <- app_assoc. by apply deepcopy_blocks.
Qed.

(** C11: the lines from the first [#else] or [#elif] of a conditional to its [#endif],
    with no directive of a conditional between them, do not affect the nesting: when the
    [#endif] is reached, the blocks around it have the contents they had before the
    [#else], whatever the lines in between do.  Of two branches the first is kept. *)
Theorem else_branch_transparent I error `{!Handler I error} filename cl n ls ns pp pps line endif :
  clean_ok cl -> ns_ok ns ->
  elided cl !! n = Some line -> matches _PP_IF line = false -> matches _PP_ELSE line = true ->
  pp_stack ns = pp :: pps -> seen_else pp = false -> no_directives cl ls ->
  matches _PP_IF endif = false -> matches _PP_ELSE endif = false -> matches _PP_ENDIF endif = true ->
  total I (ns1 ← Update filename cl (Z.of_nat n) error ns; update_lines error filename cl ls ns1)
    (fun ns2 => let ns3 := UpdatePreprocessor endif ns2 in
                blocks ns3 = blocks ns /\ pp_stack ns3 = pps).
Proof.
  intros Hc Hok Hl Hif Helse Hpp Hseen Hls He1 He2 He3.
  apply lookup_lt_Some in Hl as Hn.
  eapply total_bind; [by apply Update_total_aux|]. intros ns1 (line' & Hl' & Hm1). simplify_eq.
  eapply total_weaken; [apply (update_lines_moves I error); [done|done|apply Hm1]|]. intros ns2 Hm2 ns3.
  destruct (UpdatePreprocessor_else line (remember_top ns) pp pps) as (_ & copy & Hpp' & Hcopy);
    [by apply remember_top_moves|done..|].
  set (nse := UpdatePreprocessor line (remember_top ns)) in *.
  assert (moves nse ns2) as [_ Hfr] by by eapply moves_trans.
  assert (ns_ok nse) as Hoke by by apply UpdatePreprocessor_ok, remember_top_moves.
  destruct (saved_disjoint nse _ _ copy Hoke Hpp') as [Hv Hd].
  { unfold pp_refs. by apply sublist_inserts_l. }
  unfold ns3, UpdatePreprocessor. rewrite He1, He2, He3, (frame_pp _ _ Hfr), Hpp'.
  split; [|done]. unfold blocks, deref. simpl.
  rewrite (frame_contents nse ns2 copy Hfr Hv Hd). exact Hcopy.
Qed.

Definition sample_conditional : CleansedLines :=
  let ls := of_string <$> ["#if A"; "struct S {"; "#else"; "} struct T : S { {"; "#endif"]%string in
  mkCleansedLines ls ls ls ls.

(** The state before the [#else] of the sample. *)
Definition sample_before_else : NestingState :=
  mkNestingState
    [mkBlock 1 true 0 _NO_ASM true (ClassInfo (mkClassData "S" false "public" true 0 0))]
    [0%nat] None [mkPreprocessorInfo [] [] false].

Lemma sample_before_else_ok : ns_ok sample_before_else.
Proof.
  split.
  - apply NoDup_singleton.
  - constructor; [apply Nat.ltb_lt; reflexivity|constructor].
  - intros r H. discriminate H.
  - constructor; [|constructor]. split; [done|]. constructor; [by left|constructor].
Defined.

Lemma else_branch_transparent_witness :
  ns_ok sample_before_else
  /\ exists g' ns2,
       (ns1 ← Update "a.h" sample_conditional 2 Error sample_before_else;
        update_lines Error "a.h" sample_conditional [3%nat] ns1) globals_init = (g', Ok ns2)
       /\ sound g'
       /\ (let ns3 := UpdatePreprocessor "#endif" ns2 in
           blocks ns3 = blocks sample_before_else /\ pp_stack ns3 = []).
Proof.
  split; [apply sample_before_else_ok|].
  refine (else_branch_transparent sound Error "a.h" sample_conditional 2 [3%nat] sample_before_else
            _ [] "#else" "#endif" _ sample_before_else_ok _ _ _ _ _ _ _ _ _ globals_init _);
    try reflexivity.
  - by split.
  - constructor; [|constructor]. eexists. split; reflexivity.
  - split; [repeat constructor|]. intros H. discriminate H.
Defined.

(** C5: [Update] never raises on a line of a cleansed file, from any well-formed state, and
    leaves a well-formed state: its loops end and its patterns compile.  From the state
    the preprocessor directive of the line leads to, it closes at most as many blocks as
    the line has semicolons and closing parentheses and braces, the innermost first; the
    blocks below stay on the stack, the blocks it opens are new and start at the line, and
    neither the saved stacks nor the objects they refer to are touched. *)
Theorem Update_total I error `{!Handler I error} filename cl n ns :
  clean_ok cl -> (n < length (elided cl))%nat -> ns_ok ns ->
  total I (Update filename cl (Z.of_nat n) error ns)
    (fun ns' => ns_ok ns' /\ exists line, elided cl !! n = Some line
       /\ let ns0 := UpdatePreprocessor line (remember_top ns) in
          turns (Z.of_nat n) (closers line) ns0 ns' /\ frame ns0 ns').
Proof.
  intros Hc Hn Hok. eapply total_weaken.
  - apply total_gives; [by apply Update_total_aux|apply Update_turns].
  - intros ns' ((line & Hl & Hm & Hf) & line' & Hl' & Ht). split; [done|]. exists line.
    rewrite (idx_Ok _ _ _ Hl) in Hl'. by simplify_eq.
Qed.

Lemma sound_init : sound globals_init.
Proof. split; [repeat constructor|]. intros H. discriminate H. Defined.

Lemma Update_total_witness :
  exists g' ns', Update "a.h" sample_conditional 3 Error sample_before_else globals_init = (g', Ok ns')
    /\ sound g' /\ ns_ok ns' /\ exists line, elided sample_conditional !! 3%nat = Some line
       /\ let ns0 := UpdatePreprocessor line (remember_top sample_before_else) in
          turns 3 (closers line) ns0 ns' /\ frame ns0 ns'.
Proof.
  refine (Update_total sound Error "a.h" sample_conditional 3 sample_before_else _ _
            sample_before_else_ok globals_init sound_init).
  - by split.
  - apply Nat.ltb_lt. reflexivity.
Defined.

(** C40: the second branch of a conditional starts from the blocks of the [#if]: when its
    first [#else] or [#elif] is reached, with no directive of a conditional before it, the
    stack has the blocks with the contents they had before the [#if], whatever the lines of
    the first branch do. *)
Theorem else_restores_if I error `{!Handler I error} filename cl n ls ns line else_line :
  clean_ok cl -> ns_ok ns ->
  elided cl !! n = Some line -> matches _PP_IF line = true -> no_directives cl ls ->
  matches _PP_IF else_line = false -> matches _PP_ELSE else_line = true ->
  total I (ns1 ← Update filename cl (Z.of_nat n) error ns; update_lines error filename cl ls ns1)
    (fun ns2 => blocks (UpdatePreprocessor else_line ns2) = blocks ns).
Proof.
  intros Hc Hok Hl Hif Hls He1 He2. apply lookup_lt_Some in Hl as Hn.
  eapply total_bind; [by apply Update_total_aux|]. intros ns1 (line' & Hl' & Hm1). simplify_eq.
  eapply total_weaken; [apply (update_lines_moves I error); [done|done|apply Hm1]|]. intros ns2 Hm2.
  set (nsi := UpdatePreprocessor line (remember_top ns)) in *.
  assert (ns_ok nsi) as Hoki by by apply UpdatePreprocessor_ok, remember_top_moves.
  assert (moves nsi ns2) as [Hok2 Hfr] by by eapply moves_trans.
  assert (Forall (fun r => r < length (heap ns))%nat (stack ns)) as Hvs.
  { destruct Hok as [_ Hv _ _]. by apply Forall_app in Hv as [Hv _]. }
  set (copy := seq (length (heap ns)) (length (stack ns))).
  assert (pp_stack nsi = _PreprocessorInfo copy :: pp_stack ns
          /\ omap (fun r => heap nsi !! r) copy = blocks ns) as [Hpp Hcopy].
  { unfold nsi, UpdatePreprocessor. rewrite Hif. unfold deepcopy. simpl.
    rewrite length_objs by done. split; [done|].
    rewrite <- (app_nil_r (omap (fun r => heap ns !! r) (stack ns))). by apply deepcopy_blocks. }
  destruct (saved_disjoint nsi _ _ copy Hoki Hpp) as [Hv Hd].
  { unfold pp_refs. by apply sublist_inserts_r. }
  destruct (UpdatePreprocessor_else else_line ns2 (_PreprocessorInfo copy) (pp_stack ns))
    as [-> _]; [done..|by rewrite (frame_pp _ _ Hfr), Hpp|done|].
  rewrite <- Hcopy. by apply frame_contents.
Qed.

Lemma else_restores_if_witness :
  exists g' ns2,
       (ns1 ← Update "a.h" sample_conditional 0 Error NestingState_init;
        update_lines Error "a.h" sample_conditional [1%nat] ns1) globals_init = (g', Ok ns2)
       /\ sound g' /\ blocks (UpdatePreprocessor "#else" ns2) = [].
Proof.
  refine (else_restores_if sound Error "a.h" sample_conditional 0 [1%nat] NestingState_init
            "#if A" "#else" _ ns_ok_init _ _ _ _ _ globals_init sound_init);
    try reflexivity.
  - by split.
  - constructor; [|constructor]. eexists. split; reflexivity.
Defined.

(** * Counting braces *)

(** The depth after the braces of a line; a closing brace too many is ignored. *)
Definition depth_step (d : nat) (c : N) : nat :=
  if ceq c "{" then S d else if ceq c "}" then Nat.pred d else d.
Definition depth_after (line : str) (d : nat) : nat := foldl depth_step d line.

Definition brace_token (c : N) : bool := mem_chars "{;)}" c.

(** Every block of the stack has seen its opening brace. *)
Definition all_seen (ns : NestingState) : Prop :=
  Forall (fun b => seen_open_brace b = true) (blocks ns).

Lemma first_split (P : N -> bool) (l : str) :
  Forall (fun c => P c = false) l
  \/ exists pre c post, l = pre ++ c :: post /\ Forall (fun c => P c = false) pre /\ P c = true.
Proof.
  induction l as [|a l IH]; [by left|]. destruct (P a) eqn:Ea.
  - right. by exists [], a, l.
  - destruct IH as [H|(pre & c & post & -> & Hpre & Hc)]; [left; by constructor|].
    right. exists (a :: pre), c, post. split; [done|]. split; [by constructor|done].
Qed.

Lemma brace_set c :
  set_match false false [CIChar 123; CIChar 59; CIChar 41; CIChar 125] c = brace_token c.
Proof. unfold set_match, brace_token, mem_chars. simpl. by rewrite !orb_false_r. Qed.

Lemma brace_set_neg c :
  set_char false true [CIChar 123; CIChar 59; CIChar 41; CIChar 125] c <-> brace_token c = false.
Proof.
  rewrite <- brace_set. unfold set_char, set_match.
  by destruct (existsb _ _).
Qed.

Lemma at_eol_no_newline (s : str) j : newline ∉ s -> at_eol s j = true -> j = length s.
Proof.
  intros Hnl. unfold at_eol. rewrite orb_true_iff, andb_true_iff, !Nat.eqb_eq.
  intros [?|[_ H]]; [done|]. destruct (s !! j) as [c|] eqn:E; [|done].
  apply N.eqb_eq in H as ->. by apply list_elem_of_lookup_2 in E.
Qed.

Lemma run_all (s : str) (P : N -> Prop) i : Forall P (drop i s) -> run_of s P i (length s).
Proof.
  intros H k Hk. destruct (lookup_lt_is_Some_2 s k) as [c Hc]; [lia|]. exists c. split; [done|].
  eapply Forall_lookup_1; [exact H|]. rewrite lookup_drop.
  by replace (i + (k - i))%nat with k by lia.
Qed.

Lemma run_prefix (pre t : str) (P : N -> Prop) : Forall P pre -> run_of (pre ++ t) P 0 (length pre).
Proof.
  intros H k Hk. destruct (lookup_lt_is_Some_2 pre k) as [c Hc]; [lia|]. exists c.
  rewrite lookup_app_l by lia. split; [done|]. by eapply Forall_lookup_1.
Qed.

(** The pattern of the brace loop finds the first token of a line. *)
Lemma BRACE_TOKEN_none line : Forall (fun c => brace_token c = false) line ->
  Match _BRACE_TOKEN line = None.
Proof.
  intros Hall. destruct (Match _BRACE_TOKEN line) as [mo|] eqn:Em; [|done]. exfalso.
  match_inv Em _BRACE_TOKEN.
  match goal with H : set_match _ false _ _ = true |- _ => rewrite brace_set in H end.
  match goal with H : mo_string mo !! _ = Some _ |- _ =>
    apply (Forall_lookup_1 _ _ _ _ Hall) in H end. congruence.
Qed.

Lemma BRACE_TOKEN_first pre c post :
  newline ∉ pre ++ c :: post -> Forall (fun c => brace_token c = false) pre -> brace_token c = true ->
  exists mo, Match _BRACE_TOKEN (pre ++ c :: post) = Some mo /\ grp mo 1 = [c] /\ grp mo 2 = post.
Proof.
  intros Hnl Hpre Hc. destruct (Match _BRACE_TOKEN (pre ++ c :: post)) as [mo|] eqn:Em.
  - exists mo. split; [done|]. match_inv Em _BRACE_TOKEN.
    match goal with H : mo_string mo = _ |- _ => rename H into Hs end.
    match goal with H : mo_caps mo = _ |- _ => rename H into Hcaps end.
    match goal with H : set_match _ false _ _ = true |- _ => rewrite brace_set in H end.
    match goal with H : at_eol _ _ = true |- _ => apply at_eol_no_newline in H as Hend; [|done] end.
    assert (x1 = length pre) as ->.
    { destruct (lt_eq_lt_dec x1 (length pre)) as [[Hlt| ->]|Hlt]; [|done|]; exfalso.
      - match goal with H : _ !! x1 = Some ?d |- _ =>
          rewrite lookup_app_l in H by done;
          apply (Forall_lookup_1 _ _ _ _ Hpre) in H end. congruence.
      - match goal with H : run_of _ (set_char _ true _) 0 x1 |- _ =>
          destruct (H (length pre)) as (d & Hd & Hd'); [lia|] end.
        rewrite lookup_middle_nat in Hd. simplify_eq. apply brace_set_neg in Hd'. congruence. }
    unfold grp, group, captured. rewrite Hcaps, Hend, Hs. simpl.
    rewrite drop_middle. replace (S (length pre) - length pre)%nat with 1%nat by lia.
    rewrite drop_app_length, length_app. split; [done|]. simpl. apply take_ge. lia.
  - exfalso. unfold Match, re_match in Em. rewrite match_at_None in Em.
    apply (Em (length (pre ++ c :: post))). eexists. unfold _BRACE_TOKEN. cbn [p_regex p_icase].
    exists 0%nat, (caps0 _BRACE_TOKEN). split; [done|].
    exists (length pre), (caps0 _BRACE_TOKEN). split.
    { apply Mt_star_set. split; [lia|]. split; [done|]. apply run_prefix.
      eapply Forall_impl; [exact Hpre|]. intros d. apply brace_set_neg. }
    eexists (S (length pre)), _. split.
    { eexists. split; [|reflexivity]. exists c. rewrite lookup_middle_nat, brace_set. auto. }
    eexists (length (pre ++ c :: post)), _. split.
    { eexists. split; [|reflexivity]. apply Mt_star_any. split; [rewrite length_app; simpl; lia|].
      split; [done|]. apply run_all. rewrite drop_middle. apply Forall_forall. intros d Hd ->.
      apply Hnl. apply elem_of_app. right. by right. }
    split; [|done]. unfold at_eol. by rewrite Nat.eqb_refl.
Qed.

(** The contents of the stack under the elementary operations. *)
Lemma stack_valid ns : ns_ok ns -> Forall (fun r => r < length (heap ns))%nat (stack ns).
Proof. intros [_ Hv _ _]. by apply Forall_app in Hv as [Hv _]. Qed.

Lemma length_blocks ns : ns_ok ns -> length (blocks ns) = length (stack ns).
Proof. intros H. apply length_objs. by apply stack_valid. Qed.

Lemma blocks_push b ns : ns_ok ns -> blocks (push b ns) = b :: blocks ns.
Proof.
  intros H. unfold blocks, deref, push. cbn. rewrite lookup_app_r, Nat.sub_diag by lia. cbn.
  f_equal. apply omap_app_valid. by apply stack_valid.
Qed.

Lemma top_block_head ns : ns_ok ns -> top_block ns = head (blocks ns).
Proof.
  intros H%stack_valid. unfold top_block, blocks, deref. destruct (stack ns) as [|r st]; [done|].
  apply Forall_cons in H as [Hr _]. destruct (lookup_lt_is_Some_2 _ _ Hr) as [b Hb].
  cbn. by rewrite Hb.
Qed.

Lemma blocks_pop ns : ns_ok ns -> blocks (pop ns) = tail (blocks ns).
Proof.
  intros H%stack_valid. unfold blocks, deref, pop. simpl. destruct (stack ns) as [|r st]; [done|].
  apply Forall_cons in H as [Hr _]. destruct (lookup_lt_is_Some_2 _ _ Hr) as [b Hb].
  cbn. by rewrite Hb.
Qed.

Lemma blocks_update_top f ns :
  ns_ok ns ->
  blocks (update_top f ns) = match blocks ns with [] => [] | b :: bs => f b :: bs end.
Proof.
  intros H. pose proof (stack_valid ns H) as Hv. destruct H as [Hn _ _ _].
  unfold live in Hn. apply NoDup_app in Hn as [Hn _].
  unfold blocks, deref, update_top. destruct (stack ns) as [|r st] eqn:E; [by rewrite E|].
  apply Forall_cons in Hv as [Hr Hv]. destruct (lookup_lt_is_Some_2 _ _ Hr) as [b Hb].
  cbn. rewrite list_lookup_alter_eq, Hb. cbn. f_equal.
  apply NoDup_cons in Hn as [Hn _]. clear Hv Hr E.
  induction st as [|k st IH]; [done|]. cbn. rewrite list_lookup_alter_ne by (intros ->; apply Hn; left).
  rewrite IH; [done|]. intros Hin. apply Hn. by right.
Qed.

Lemma SeenOpenBrace_all ns : ns_ok ns -> all_seen ns -> SeenOpenBrace ns = true.
Proof.
  intros Hok Hs. unfold SeenOpenBrace. rewrite (top_block_head ns Hok).
  unfold all_seen in Hs. destruct (blocks ns) as [|b bs]; [done|]. by apply Forall_cons in Hs as [? _].
Qed.

Lemma depth_after_app t u d : depth_after (t ++ u) d = depth_after u (depth_after t d).
Proof. apply foldl_app. Qed.

Lemma depth_after_none t d : Forall (fun c => brace_token c = false) t -> depth_after t d = d.
Proof.
  intros H. revert d. induction H as [|c t Hc _ IH]; intros d; [done|]. unfold depth_after. simpl.
  fold (depth_after t (depth_step d c)). rewrite IH. unfold depth_step.
  unfold brace_token, mem_chars in Hc. simpl in Hc.
  repeat (apply orb_false_elim in Hc as [? Hc]). unfold ceq. simpl.
  by repeat match goal with H : (_ =? _)%N = false |- _ => rewrite H; clear H end.
Qed.

Definition at_depth (ns : NestingState) (d : nat) : Prop :=
  ns_ok ns /\ all_seen ns /\ length (stack ns) = d.

Section Depth.
Context (I : globals -> Prop) (error : error_fn) `{!Handler I error}.
Context (filename : str) (cl : CleansedLines) (n : nat).
Hypothesis Hclean : clean_ok cl.
Hypothesis Hn : (n < length (elided cl))%nat.

Lemma at_depth_push b ns d :
  at_depth ns d -> block_ok b -> seen_open_brace b = true -> at_depth (push b ns) (S d).
Proof.
  intros (Hok & Hs & Hd) Hb Hsb. split; [by apply ns_ok_push|].
  unfold all_seen. rewrite blocks_push by done. split; [by constructor|]. simpl. lia.
Qed.

Lemma brace_step_depth c line ns d :
  brace_token c = true -> at_depth ns d ->
  total I (brace_step filename cl (Z.of_nat n) error [c] line ns)
    (fun ns' => at_depth ns' (depth_step d c)).
Proof.
  intros Hc Hd. pose proof Hd as (Hok & Hs & Hlen). unfold brace_step.
  pose proof (SeenOpenBrace_all ns Hok Hs) as Hseen. rewrite Hseen. cbn [negb].
  unfold brace_token, mem_chars in Hc. simpl in Hc. rewrite orb_false_r in Hc.
  repeat setoid_rewrite orb_true_iff in Hc. rewrite !N.eqb_eq in Hc.
  destruct Hc as [-> | [-> | [-> | ->]]];
    do 2 match goal with |- context [if ?b then _ else _] =>
      let v := eval vm_compute in b in
      lazymatch v with true => change b with true | false => change b with false | _ => idtac end;
      cbv iota end.
  - change (depth_step d _) with (S d).
    destruct (matches _EXTERN_C line); apply total_ret.
    { apply at_depth_push; [done| |done]. split; [simpl; lia|done]. }
    assert (at_depth (push (_BlockInfo (Z.of_nat n) true) ns) (S d)) as H1.
    { apply at_depth_push; [done| |done]. split; [simpl; lia|done]. }
    destruct (matches _MATCH_ASM line); [|done]. destruct H1 as (Hok1 & Hs1 & Hd1).
    split; [by apply ns_ok_update_top|]. unfold all_seen in *.
    rewrite blocks_update_top, blocks_push in * by done. split; [|done].
    apply Forall_cons in Hs1 as [? ?]. by constructor.
  - by apply total_ret.
  - by apply total_ret.
  - change (depth_step d _) with (Nat.pred d).
    destruct (top_block ns) as [b|] eqn:Eb.
    + total_step; [apply (CheckEnd_total I error); [done..|by eapply top_block_ok]|].
      apply total_ret. split; [by apply ns_ok_pop|]. unfold all_seen. rewrite blocks_pop by done.
      split; [by apply Forall_tail|]. unfold pop. simpl. destruct (stack ns); simpl in *; lia.
    + apply total_ret. split; [done|]. split; [done|]. rewrite top_block_head in Eb by done.
      apply length_blocks in Hok as Hl. destruct (blocks ns); [|done]. simpl in Hl. lia.
Qed.

Lemma brace_loop_depth fuel line ns d :
  newline ∉ line -> (length line < fuel)%nat -> at_depth ns d ->
  total I (brace_loop fuel filename cl (Z.of_nat n) error line ns)
    (fun ns' => at_depth ns' (depth_after line d)).
Proof.
  revert line ns d. induction fuel as [|f IH]; intros line ns d Hnl Hf Hd; [lia|].
  cbn [brace_loop]. destruct (first_split brace_token line) as [Hno|(pre & c & post & -> & Hpre & Hc)].
  - rewrite BRACE_TOKEN_none by done. apply total_ret. by rewrite depth_after_none.
  - destruct (BRACE_TOKEN_first pre c post Hnl Hpre Hc) as (mo & -> & -> & ->).
    eapply total_bind; [by apply brace_step_depth|]. intros ns1 H1.
    rewrite depth_after_app, (depth_after_none pre) by done.
    change (depth_after (c :: post) d) with (depth_after post (depth_step d c)).
    apply IH; [|rewrite length_app in Hf; simpl in Hf; lia|done].
    intros Hin. apply Hnl. apply elem_of_app. right. by right.
Qed.
End Depth.

(** C12: on a line that starts with every open block complete, the brace loop of
    [Update] leaves as many blocks open as counting braces does, each opening brace
    opening one and each closing brace closing the innermost one if there is one. *)
Theorem brace_loop_counts I error `{!Handler I error} filename cl n line ns :
  clean_ok cl -> (n < length (elided cl))%nat -> newline ∉ line -> ns_ok ns -> all_seen ns ->
  total I (brace_loop (S (length line)) filename cl (Z.of_nat n) error line ns)
    (fun ns' => ns_ok ns' /\ all_seen ns'
                /\ length (stack ns') = depth_after line (length (stack ns))).
Proof.
  intros Hc Hn Hnl Hok Hs. apply (brace_loop_depth I error); [done|done|done|lia|exact (conj Hok (conj Hs eq_refl))].
Qed.

Lemma brace_loop_counts_witness :
  exists g' ns', brace_loop 19 "a.h" sample_conditional 3 Error "} if (a) { b(); {" sample_before_else
                   globals_init = (g', Ok ns')
    /\ sound g' /\ ns_ok ns' /\ all_seen ns' /\ length (stack ns') = 2%nat.
Proof.
  refine (brace_loop_counts sound Error "a.h" sample_conditional 3 "} if (a) { b(); {"
            sample_before_else _ _ _ sample_before_else_ok _ globals_init sound_init).
  - by split.
  - apply Nat.ltb_lt. reflexivity.
  - apply (bool_decide_unpack _). vm_compute. exact I.
  - constructor; [reflexivity|constructor].
Defined.
