(* ===== verification/FilePath.v ===== *)
(** File names: the functions of [os.path] the linter uses (POSIX), the operating
    system as parameters, [FileInfo], and the header guard variable of a file. *)

From S2P Require Import Prelude PyStr Regex State.

Open Scope Z_scope.
Open Scope py_scope.

(** * The operating system

    What the linter asks of it: the working directory, whether a path exists, and
    the lines of a text file, each with its line end ([None] is an [IOError]). *)

Record OS : Type := mkOS {
  getcwd : str;
  path_exists : str -> bool;
  open_lines : str -> option (list str)
}.

(** * [os.path] *)

Module Path.
Definition is_slash (c : N) : bool := ceq c "/".

Definition split (p : str) : str * str :=
  let i := rfind p "/" + 1 in
  let head := slice_to p i in
  let tail := slice_from p i in
  (if nonempty head && negb (forallb is_slash head) then rstrip_chars head "/" else head, tail).

Definition dirname (p : str) : str := (split p).1.

(** [filenameIndex] runs over the name up to its last period. *)
Definition splitext (p : str) : str * str :=
  let sep_index := rfind p "/" in
  let dot_index := rfind p "." in
  if (sep_index <? dot_index)
     && existsb (fun c => negb (ceq c ".")) (slice p (sep_index + 1) dot_index)
  then (slice_to p dot_index, slice_from p dot_index)
  else (p, []).

Definition join2 (path b : str) : str :=
  if startswith b "/" then b
  else if negb (nonempty path) || endswith path "/" then path +s b
  else path +s "/" +s b.

Definition join (a : str) (p : list str) : str := foldl join2 a p.

Definition isabs (p : str) : bool := startswith p "/".

Fixpoint norm_components (initial_slashes : bool) (comps new_comps : list str) : list str :=
  match comps with
  | [] => reverse new_comps
  | comp :: comps' =>
      norm_components initial_slashes comps'
        (if negb (nonempty comp) || (comp =s ".") then new_comps
         else if (comp <>s "..") || (negb initial_slashes && bool_decide (new_comps = []))
                 || match new_comps with last :: _ => last =s ".." | [] => false end
         then comp :: new_comps
         else tail new_comps)
  end.

Definition normpath (path : str) : str :=
  if negb (nonempty path) then "."
  else
    let initial : str :=
      if startswith path "/" then
        if startswith path "//" && negb (startswith path "///") then "//" else "/"
      else [] in
    let path := initial +s PyStr.join "/" (norm_components (nonempty initial) (PyStr.split path "/") []) in
    if nonempty path then path else ".".

Definition abspath (os : OS) (path : str) : str :=
  normpath (if isabs path then path else join (getcwd os) [path]).

Fixpoint common2 (a b : str) : str :=
  match a, b with
  | c :: a', d :: b' => if (c =? d)%N then c :: common2 a' b' else []
  | _, _ => []
  end.
End Path.

(** * [FileInfo] *)

Section FileInfo.
Context (os : OS).

Definition FullName (filename : str) : str := replace (Path.abspath os filename) "\" "/".

Definition under (dir : str) (name : str) : bool := path_exists os (Path.join dir [name]).

(** Up through the directories of an SVN checkout.  The source has no other exit,
    so a checkout of the root directory itself exhausts every fuel. *)
Fixpoint svn_loop (fuel : nat) (root_dir one_up_dir : str) : res str :=
  if under one_up_dir ".svn" then
    match fuel with
    | O => Raise OutOfFuel
    | S f => svn_loop f (Path.dirname root_dir) (Path.dirname one_up_dir)
    end
  else Ok root_dir.

Definition versioned (dir : str) : bool :=
  under dir ".git" || under dir ".hg" || under dir ".svn".

(** The topmost versioned directory above [current_dir]. *)
Fixpoint root_loop (fuel : nat) (root_dir current_dir : str) : res str :=
  if current_dir <>s Path.dirname current_dir then
    match fuel with
    | O => Raise OutOfFuel
    | S f =>
        root_loop f (if versioned current_dir then current_dir else root_dir)
          (Path.dirname current_dir)
    end
  else Ok root_dir.

Definition RepositoryName (filename : str) : res str :=
  let fullname := FullName filename in
  if path_exists os fullname then
    let project_dir := Path.dirname fullname in
    if under project_dir ".svn" then
      root_dir ← svn_loop (S (length project_dir)) project_dir (Path.dirname project_dir);
      let prefix := Path.common2 root_dir project_dir in
      Ok (slice_from fullname (len prefix + 1))
    else
      root_dir ← root_loop (S (length project_dir)) project_dir project_dir;
      if versioned root_dir then
        let prefix := Path.common2 root_dir project_dir in
        Ok (slice_from fullname (len prefix + 1))
      else Ok fullname
  else Ok fullname.

(** [Split]: directory, base name and extension *)
Definition Split (filename : str) : res (str * str * str) :=
  googlename ← RepositoryName filename;
  let '(project, rest) := Path.split googlename in
  let '(base, ext) := Path.splitext rest in
  Ok (project, base, ext).

Definition BaseName (filename : str) : res str := '(_, base, _) ← Split filename; Ok base.
Definition Extension (filename : str) : res str := '(_, _, ext) ← Split filename; Ok ext.
Definition NoExtension (filename : str) : res str :=
  '(project, base, _) ← Split filename; Ok (PyStr.join "/" [project; base]).
Definition IsSource (filename : str) : res bool :=
  ext ← Extension filename; Ok (_IsSourceExtension (slice_from ext 1)).

(** * Header guards *)

Fixpoint path_list_loop (fuel : nat) (path : str) (lst : list str) : res (list str) :=
  match fuel with
  | O => Raise OutOfFuel
  | S f =>
      let '(head, tail) := Path.split path in
      if head =s path then Ok (head :: lst)
      else if tail =s path then Ok (tail :: lst)
      else path_list_loop f head (tail :: lst)
  end.

Definition PathSplitToList (path : str) : res (list str) :=
  path_list_loop (S (length path)) path [].

Definition StripListPrefix (lst prefix : list str) : option (list str) :=
  if bool_decide (take (length prefix) lst = prefix) then Some (drop (length prefix) lst) else None.

(** The components joined again, if there are any. *)
Definition joined (maybe_path : option (list str)) : option str :=
  match maybe_path with
  | Some (a :: p) => Some (Path.join a p)
  | _ => None
  end.

Definition FixupPathFromRoot (root : option str) (filename file_path_from_root : str) : res str :=
  match root with
  | None | Some [] => Ok file_path_from_root
  | Some root =>
      parts ← PathSplitToList file_path_from_root;
      root_parts ← PathSplitToList root;
      match joined (StripListPrefix parts root_parts) with
      | Some p => Ok p
      | None =>
          full_parts ← PathSplitToList (FullName filename);
          abs_parts ← PathSplitToList (Path.abspath os root);
          Ok (default file_path_from_root (joined (StripListPrefix full_parts abs_parts)))
      end
  end.

(** The name of a file that Emacs's flymake renamed. *)
Definition unflymake (filename : str) : str :=
  re_sub_fn (rx "/\.flymake/([^/]*)$") (fun mo => "/" +s grp mo 1)
    (re_sub (rx "_flymake\.h$") ".h" filename).

(** A path as an identifier. *)
Definition guard_of_path (path : str) : str :=
  upper (re_sub (rx "[^a-zA-Z0-9]") "_" path) +s "_".

Definition GetHeaderGuardCPPVariable (root : option str) (filename : str) : res str :=
  let filename := replace (replace (unflymake filename) "C++" "cpp") "c++" "cpp" in
  file_path_from_root ← RepositoryName filename;
  file_path_from_root ← FixupPathFromRoot root filename file_path_from_root;
  Ok (guard_of_path file_path_from_root).
End FileInfo.
