(* ===== verification/FilePathFacts.v ===== *)
(** Properties of file names: the search for the repository ends unless every directory
    from the file's up to the root is an SVN checkout, which [no_root_svn] excludes, and
    header guard variables are identifiers. *)

From S2P Require Import Prelude PyStr Regex RegexFacts State FilePath.

Open Scope Z_scope.
Open Scope py_scope.

(** * [os.path.split] *)

Lemma rfind_bounds s sub : -1 <= rfind s sub <= len s.
Proof.
  unfold rfind, len. induction s as [|c s IH]; simpl.
  - destruct (prefixb sub []); simpl; lia.
  - destruct (rfind_nat sub s) as [i|] eqn:E; simpl in *; [lia|].
    destruct (prefixb sub (c :: s)); simpl; lia.
Qed.

Lemma reverse_drop_while_le p (s : str) :
  (length (reverse (drop_while p (reverse s))) <= length s)%nat.
Proof.
  rewrite length_reverse. pose proof (length_drop_while p (reverse s)).
  rewrite length_reverse in *. lia.
Qed.

Lemma rstrip_chars_le s chars : (length (rstrip_chars s chars) <= length s)%nat.
Proof. apply reverse_drop_while_le. Qed.

(** A string that ends with one of the characters loses something. *)
Lemma rstrip_chars_lt s chars c :
  mem_chars chars c = true -> (length (rstrip_chars (s ++ [c]) chars) < length (s ++ [c]))%nat.
Proof.
  intros Hc. unfold rstrip_chars. rewrite reverse_snoc. simpl. rewrite Hc, length_reverse.
  pose proof (length_drop_while (mem_chars chars) (reverse s)). rewrite length_reverse in *.
  rewrite length_app. simpl. lia.
Qed.

Lemma rfind_char_at s c : 0 <= rfind s [c] -> s !! Z.to_nat (rfind s [c]) = Some c.
Proof.
  unfold rfind. induction s as [|d s IH]; simpl; [lia|].
  destruct (rfind_nat [c] s) as [i|] eqn:E; simpl in *.
  - intros _. rewrite Nat2Z.id in *. apply IH. lia.
  - destruct (N.eqb_spec c d) as [-> | _]; simpl; [done|]. lia.
Qed.

(** [dirname] is shorter, or the path is its own directory. *)
Lemma dirname_shorter p : Path.dirname p = p \/ (length (Path.dirname p) < length p)%nat.
Proof.
  unfold Path.dirname, Path.split. simpl.
  pose proof (rfind_bounds p "/") as Hb.
  rewrite slice_to_pos by lia.
  set (n := Z.to_nat (rfind p "/" + 1)).
  destruct (decide (length p <= n)%nat) as [Hn|Hn].
  2: { right. destruct (_ && _).
       - pose proof (rstrip_chars_le (take n p) "/"). rewrite length_take in *. lia.
       - rewrite length_take. lia. }
  rewrite take_ge by done. destruct (nonempty p && negb (forallb Path.is_slash p)) eqn:E; [|by left].
  right. destruct (decide (rfind p "/" = -1)) as [H1|H1].
  { unfold n in Hn. rewrite H1 in Hn. destruct p; [done|]. simpl in Hn. lia. }
  pose proof (rfind_char_at p (Ascii.N_of_ascii "/") ltac:(change (rfind p _) with (rfind p "/"); lia)) as Hc.
  change (rfind p [_]) with (rfind p "/") in Hc.
  apply lookup_lt_Some in Hc as Hlt.
  assert (p = take (Z.to_nat (rfind p "/")) p ++ [Ascii.N_of_ascii "/"]) as Hp.
  { rewrite <- (take_drop_middle _ _ _ Hc) at 1. f_equal. f_equal. apply drop_ge. lia. }
  rewrite Hp. by apply rstrip_chars_lt.
Qed.

(** ** Absolute paths *)

Lemma isabs_cons c s : Path.isabs (c :: s) = Path.is_slash c.
Proof.
  unfold Path.isabs, startswith, Path.is_slash, ceq. change (prefixb "/" (c :: s)) with ((47 =? c)%N && true).
  by rewrite andb_true_r, N.eqb_sym.
Qed.

Lemma isabs_app s t : Path.isabs s = true -> Path.isabs (s ++ t) = true.
Proof. destruct s as [|c s]; [done|]. rewrite <- app_comm_cons. by rewrite !isabs_cons. Qed.

Lemma isabs_rfind s : Path.isabs s = true -> 0 <= rfind s "/".
Proof.
  destruct s as [|c s]; [done|]. rewrite isabs_cons. intros ->%N.eqb_eq. unfold rfind.
  change (rfind_nat "/" (_ :: s)) with
    (match rfind_nat "/" s with Some i => Some (S i) | None => Some 0%nat end).
  destruct (rfind_nat "/" s); simpl; lia.
Qed.

(** What is left of an absolute path that is not only slashes is absolute. *)
Lemma isabs_rstrip s :
  Path.isabs s = true -> forallb Path.is_slash s = false -> Path.isabs (rstrip_chars s "/") = true.
Proof.
  intros Ha Hs. unfold rstrip_chars.
  destruct (drop_while_suffix (mem_chars "/") (reverse s)) as (t & E & Ht).
  destruct (drop_while (mem_chars "/") (reverse s)) as [|c u] eqn:Ed.
  - exfalso. apply drop_while_nil in Ed. rewrite forallb_forall in Ed.
    apply not_true_iff_false in Hs. apply Hs, forallb_forall. intros x Hx.
    specialize (Ed x). rewrite <- list_elem_of_In, elem_of_reverse, list_elem_of_In in Ed.
    specialize (Ed Hx). unfold mem_chars in Ed. simpl in Ed. by rewrite orb_false_r in Ed.
  - apply (f_equal reverse) in E. rewrite reverse_involutive, reverse_app in E.
    rewrite E in Ha. destruct (reverse (c :: u)) as [|d v] eqn:Er.
    + by apply (f_equal length) in Er; rewrite length_reverse in Er.
    + rewrite <- app_comm_cons, isabs_cons in Ha. by rewrite isabs_cons.
Qed.

Lemma isabs_dirname p : Path.isabs p = true -> Path.isabs (Path.dirname p) = true.
Proof.
  intros Ha. apply isabs_rfind in Ha as Hr. unfold Path.dirname, Path.split. cbn [fst].
  rewrite slice_to_pos by lia.
  assert (Path.isabs (take (Z.to_nat (rfind p "/" + 1)) p) = true) as Hh.
  { destruct p as [|c p]; [done|]. replace (Z.to_nat (rfind (c :: p) "/" + 1)) with
      (S (Z.to_nat (rfind (c :: p) "/"))) by lia. cbn [take]. by rewrite isabs_cons in *. }
  destruct (nonempty _); cbn [andb]; [|done].
  destruct (forallb _ _) eqn:E; cbn [negb]; [done|]. by apply isabs_rstrip.
Qed.

Lemma isabs_normpath p : Path.isabs p = true -> Path.isabs (Path.normpath p) = true.
Proof.
  intros Ha. unfold Path.normpath. destruct p as [|c p]; [done|]. cbn [nonempty negb].
  change (startswith (c :: p) "/") with (Path.isabs (c :: p)). rewrite Ha.
  set (l := Path.norm_components _ _ _).
  destruct (_ && negb _); by change (nonempty (_ +s join "/" l)) with true.
Qed.

Lemma isabs_abspath os p :
  Path.isabs (getcwd os) = true -> Path.isabs (Path.abspath os p) = true.
Proof.
  intros Hc. unfold Path.abspath. apply isabs_normpath. destruct (Path.isabs p) eqn:E; [done|].
  change (Path.join (getcwd os) [p]) with (Path.join2 (getcwd os) p). unfold Path.join2.
  change (startswith p "/") with (Path.isabs p). rewrite E. destruct (_ || _); by apply isabs_app.
Qed.

Lemma isabs_FullName os filename :
  Path.isabs (getcwd os) = true -> Path.isabs (FullName os filename) = true.
Proof.
  intros H. apply (isabs_abspath os filename) in H. unfold FullName.
  destruct (Path.abspath os filename) as [|c s]; [done|]. rewrite isabs_cons in H.
  apply N.eqb_eq in H as ->. unfold replace.
  change (replace_aux "\" "/" (_ :: s) 0) with (of_string "/" ++ replace_aux "\" "/" s 0).
  by apply isabs_app.
Qed.

(** * The repository name *)

Section Repository.
Context (os : OS).

Lemma root_loop_total fuel root_dir current_dir :
  (length current_dir < fuel)%nat -> exists d, root_loop os fuel root_dir current_dir = Ok d.
Proof.
  revert root_dir current_dir. induction fuel as [|f IH]; intros root_dir current_dir Hf; [lia|].
  cbn [root_loop]. destruct (current_dir <>s Path.dirname current_dir) eqn:E; [|by eexists].
  apply IH. destruct (dirname_shorter current_dir) as [H|H]; [|lia].
  rewrite H, str_eqb_refl in E. done.
Qed.

(** The working directory is an absolute path, as [os.getcwd] returns it, and no root
    directory, with however many slashes it is written, is an SVN checkout. *)
Definition no_root_svn : Prop :=
  Path.isabs (getcwd os) = true
  /\ forall d, Path.isabs d = true -> Path.dirname d = d -> under os d ".svn" = false.

(** [d] and every directory above it, up to the root directory and including it, are
    under SVN; the root directory is its own parent. *)
Definition all_svn (d : str) : Prop := forall n, under os (Nat.iter n Path.dirname d) ".svn" = true.

Lemma all_svn_step d : all_svn d <-> under os d ".svn" = true /\ all_svn (Path.dirname d).
Proof.
  split.
  - intros H. split; [exact (H 0%nat)|]. intros n. rewrite <- Nat.iter_succ_r. apply (H (S n)).
  - intros [Hd H] n. destruct n as [|n]; [done|]. rewrite Nat.iter_succ_r. apply H.
Qed.

Lemma iter_root n d : Path.dirname d = d -> Nat.iter n Path.dirname d = d.
Proof. intros H. induction n as [|n IH]; [done|]. simpl. by rewrite IH. Qed.

Lemma svn_loop_all fuel root_dir d : all_svn d -> svn_loop os fuel root_dir d = Raise OutOfFuel.
Proof.
  revert root_dir d. induction fuel as [|f IH]; intros root_dir d [Hd H]%all_svn_step;
    cbn [svn_loop]; rewrite Hd; [done|]. by apply IH.
Qed.

(** With the length of the directory as fuel, the loop stops if a directory is not under SVN. *)
Lemma svn_loop_cases fuel root_dir d :
  (length d < fuel)%nat ->
  all_svn d \/ exists dir n, svn_loop os fuel root_dir d = Ok dir
                /\ under os (Nat.iter n Path.dirname d) ".svn" = false.
Proof.
  revert root_dir d. induction fuel as [|f IH]; intros root_dir d Hf; [lia|]. cbn [svn_loop].
  destruct (under os d ".svn") eqn:E; [|right; by exists root_dir, 0%nat].
  destruct (dirname_shorter d) as [H|H].
  - left. intros n. by rewrite iter_root.
  - destruct (IH (Path.dirname root_dir) (Path.dirname d)) as [Ha|(dir & n & Hl & Hn)]; [lia| |].
    + left. apply all_svn_step. by split.
    + right. exists dir, (S n). by rewrite Nat.iter_succ_r.
Qed.

Lemma iter_isabs n d : Path.isabs d = true -> Path.isabs (Nat.iter n Path.dirname d) = true.
Proof. intros H. induction n as [|n IH]; [done|]. simpl. by apply isabs_dirname. Qed.

(** Going up ends at a directory that is its own parent. *)
Lemma iter_reaches_root d : exists n, Path.dirname (Nat.iter n Path.dirname d) = Nat.iter n Path.dirname d.
Proof.
  remember (length d) as k eqn:Hk. revert d Hk. induction (lt_wf k) as [k _ IH]. intros d ->.
  destruct (dirname_shorter d) as [H|H]; [by exists 0%nat|].
  destruct (IH _ H _ eq_refl) as [n Hn]. exists (S n). by rewrite Nat.iter_succ_r.
Qed.

Lemma not_all_svn d : no_root_svn -> Path.isabs d = true -> ~ all_svn d.
Proof.
  intros [_ Hno] Ha H. destruct (iter_reaches_root d) as [n Hn].
  specialize (H n). rewrite Hno in H; [done|by apply iter_isabs|done].
Qed.

Lemma RepositoryName_cases filename :
  (path_exists os (FullName os filename) = true /\ all_svn (Path.dirname (FullName os filename)))
  \/ exists name, RepositoryName os filename = Ok name
       /\ ~ (path_exists os (FullName os filename) = true /\ all_svn (Path.dirname (FullName os filename))).
Proof.
  unfold RepositoryName. set (full := FullName os filename).
  destruct (path_exists os full) eqn:Ex; [|right; eexists; split; [done|by intros [? _]]].
  destruct (under os (Path.dirname full) ".svn") eqn:Eu.
  - destruct (svn_loop_cases (S (length (Path.dirname full))) (Path.dirname full)
                (Path.dirname (Path.dirname full))) as [Ha|(dir & n & -> & Hn)].
    + destruct (dirname_shorter (Path.dirname full)) as [H|H]; [rewrite H|]; lia.
    + left. split; [done|]. apply all_svn_step. by split.
    + right. eexists. split; [done|]. intros [_ [_ H]%all_svn_step]. by rewrite H in Hn.
  - right. destruct (root_loop_total (S (length (Path.dirname full))) (Path.dirname full)
      (Path.dirname full)) as [d ->]; [lia|]. cbn [mbind res_bind].
    destruct (versioned _ _); (eexists; split; [done|]); intros [_ [H _]%all_svn_step]; congruence.
Qed.

Lemma RepositoryName_ok filename :
  no_root_svn -> exists name, RepositoryName os filename = Ok name.
Proof.
  intros Hno. destruct (RepositoryName_cases filename) as [[_ H]|(name & H & _)]; [|by exists name].
  exfalso. apply (not_all_svn _ Hno) in H; [done|]. apply isabs_dirname, isabs_FullName, Hno.
Qed.

Lemma Split_ok filename : no_root_svn -> exists s, Split os filename = Ok s.
Proof.
  intros Hno. destruct (RepositoryName_ok filename Hno) as [name H]. unfold Split.
  rewrite H. cbn [mbind res_bind]. destruct (Path.split name). destruct (Path.splitext _). by eexists.
Qed.

Lemma BaseName_ok filename : no_root_svn -> exists s, BaseName os filename = Ok s.
Proof.
  intros Hno. destruct (Split_ok filename Hno) as [[[a b] c] H]. unfold BaseName. rewrite H. by eexists.
Qed.

Lemma Extension_ok filename : no_root_svn -> exists s, Extension os filename = Ok s.
Proof.
  intros Hno. destruct (Split_ok filename Hno) as [[[a b] c] H]. unfold Extension. rewrite H. by eexists.
Qed.
End Repository.

Definition git_os : OS :=
  mkOS "/home/u/p"
    (fun p => str_in p (of_string <$> ["/home/u/p/.git"; "/home/u/p/src/a-b.h"]%string))
    (fun _ => None).

Lemma git_os_no_svn : no_root_svn git_os.
Proof.
  split; [reflexivity|]. intros d _ _. unfold under. destruct (path_exists _ _) eqn:E; [|done]. exfalso.
  assert (last (Path.join d [of_string ".svn"]) = Some (Ascii.N_of_ascii "n")) as Hl.
  { unfold Path.join, Path.join2. simpl. destruct (_ || _); by rewrite ?last_app. }
  apply str_in_elem in E. simpl in E, Hl.
  apply elem_of_cons in E as [E|[E|E]%elem_of_cons]; [| |by apply not_elem_of_nil in E];
    rewrite E in Hl; discriminate Hl.
Defined.

(** C35: when [RepositoryName] does not return.  Its search for the top of an SVN checkout
    runs on forever exactly when the file exists and its directory and every directory
    above it, the root directory included, contain [.svn]; no number of rounds is then
    enough for the loop. *)
Theorem RepositoryName_diverges os filename :
  let project_dir := Path.dirname (FullName os filename) in
  (RepositoryName os filename = Raise OutOfFuel
   <-> path_exists os (FullName os filename) = true /\ all_svn os project_dir)
  /\ (all_svn os (Path.dirname project_dir)
      <-> forall fuel, svn_loop os fuel project_dir (Path.dirname project_dir) = Raise OutOfFuel).
Proof.
  set (full := FullName os filename). cbv zeta. split; split.
  - intros H. destruct (RepositoryName_cases os filename) as [?|(name & E & _)]; [done|congruence].
  - intros [Hx Ha]. unfold RepositoryName. fold full. rewrite Hx.
    apply all_svn_step in Ha as [-> Ha]. by rewrite svn_loop_all.
  - intros Ha fuel. by apply svn_loop_all.
  - intros H. destruct (svn_loop_cases os (S (length (Path.dirname (Path.dirname full))))
      (Path.dirname full) (Path.dirname (Path.dirname full))) as [?|(dir & n & E & _)]; [lia|done|].
    by rewrite H in E.
Qed.

(** A machine whose root directory is a checkout, with a file below it. *)
Definition svn_os : OS :=
  mkOS "/w" (fun p => str_in p (of_string <$> ["/.svn"; "/w/.svn"; "/w/a.cc"]%string)) (fun _ => None).

Lemma RepositoryName_diverges_witness : RepositoryName svn_os "a.cc" = Raise OutOfFuel.
Proof.
  apply (proj1 (RepositoryName_diverges svn_os "a.cc")). split; [reflexivity|].
  intros [|n]; [reflexivity|]. rewrite Nat.iter_succ_r. rewrite iter_root; reflexivity.
Defined.

(** * Header guard variables *)

Definition guard_char (c : N) : Prop := is_upper c = true \/ is_digit c = true \/ c = Ascii.N_of_ascii "_".

Lemma upper_alnum c : is_alnum c = true -> guard_char (upper_char c).
Proof.
  intros H%alnum_range. unfold guard_char, upper_char, is_lower, is_upper, is_digit.
  destruct (N.leb_spec 97 c), (N.leb_spec c 122); simpl;
    rewrite !andb_true_iff, !N.leb_le; lia.
Qed.

Lemma guard_of_path_chars path : Forall guard_char (guard_of_path path).
Proof.
  unfold guard_of_path. apply Forall_app. split; [|constructor; [right; by right|constructor]].
  unfold upper. apply Forall_fmap.
  change (rx "[^a-zA-Z0-9]") with
    (mkPattern (RSet true [CIRange 97 122; CIRange 65 90; CIRange 48 57]) 0 false).
  rewrite re_sub_set. apply Forall_concat, Forall_fmap, Forall_forall. intros c _. unfold compose. cbv beta.
  match goal with |- context [if ?b then _ else _] => destruct b eqn:E end; (constructor; [|constructor]).
  - right. by right.
  - apply upper_alnum. unfold set_match in E. simpl in E. rewrite !orb_false_r in E.
    apply negb_false_iff in E. unfold is_alnum, is_digit, is_upper, is_lower.
    rewrite !orb_true_iff in *. tauto.
Qed.

(** C22: the header guard variable of a file consists of capital letters, digits and
    underscores and ends with an underscore, whatever the file name, the root flag
    and the file system. *)
Theorem GetHeaderGuardCPPVariable_identifier os root filename cppvar :
  GetHeaderGuardCPPVariable os root filename = Ok cppvar ->
  Forall guard_char cppvar /\ last cppvar = Some (Ascii.N_of_ascii "_").
Proof.
  unfold GetHeaderGuardCPPVariable. intros H.
  apply res_bind_Ok in H as (path & _ & H). apply res_bind_Ok in H as (path' & _ & H).
  injection H as <-. split; [apply guard_of_path_chars|]. apply last_snoc.
Qed.

Lemma GetHeaderGuardCPPVariable_identifier_witness :
  GetHeaderGuardCPPVariable git_os None "src/a-b.h" = Ok (of_string "SRC_A_B_H_")
  /\ Forall guard_char (of_string "SRC_A_B_H_")
     /\ last (of_string "SRC_A_B_H_") = Some (Ascii.N_of_ascii "_").
Proof.
  assert (GetHeaderGuardCPPVariable git_os None "src/a-b.h" = Ok (of_string "SRC_A_B_H_")) as H
    by (vm_compute; reflexivity).
  split; [exact H|]. exact (GetHeaderGuardCPPVariable_identifier git_os None "src/a-b.h" _ H).
Defined.

(** The split of a path ends: its directory is shorter, or the path is a root or has
    no separator. *)
Lemma path_list_loop_total fuel path lst :
  (length path < fuel)%nat -> exists l, path_list_loop fuel path lst = Ok l.
Proof.
  revert path lst. induction fuel as [|f IH]; intros path lst Hf; [lia|]. cbn [path_list_loop].
  destruct (Path.split path) as [head tail] eqn:E. destruct (head =s path) eqn:Eh; [by eexists|].
  destruct (tail =s path); [by eexists|]. apply IH. bool_hyps.
  destruct (dirname_shorter path) as [H|H]; unfold Path.dirname in H; rewrite E in H; simpl in H;
    [done|lia].
Qed.

Lemma GetHeaderGuardCPPVariable_ok os root filename :
  no_root_svn os -> exists v, GetHeaderGuardCPPVariable os root filename = Ok v.
Proof.
  intros Hno. unfold GetHeaderGuardCPPVariable.
  set (f := replace _ _ _). destruct (RepositoryName_ok os f Hno) as [name ->].
  cbn [mbind res_bind].
  assert (exists p, FixupPathFromRoot os root f name = Ok p) as [p ->]; [|by eexists].
  assert (forall p, exists l, PathSplitToList p = Ok l) as Hl.
  { intros p. apply path_list_loop_total. lia. }
  unfold FixupPathFromRoot. destruct root as [[|c root]|]; [by eexists| |by eexists].
  destruct (Hl name) as [l1 ->]. destruct (Hl (c :: root)) as [l2 ->]. cbn [mbind res_bind].
  destruct (joined _); [by eexists|].
  destruct (Hl (FullName os f)) as [l3 ->]. destruct (Hl (Path.abspath os (c :: root))) as [l4 ->].
  by eexists.
Qed.
