(* ===== verification/Hooks.v ===== *)
(** The scripts around the checker: [utils.py], with the working directory and the walk
    of a directory, and [install_hooks.py], which copies the git hooks.  They work on a
    file system of directories and regular files without links, threaded with the
    working directory and the printed lines by a monad that keeps them when an exception
    is raised. *)

From S2P Require Import Prelude PyStr FilePath.

Open Scope Z_scope.
Open Scope py_scope.

(** * The file system *)

(** The names from the root down to a node, the last one first. *)
Abbreviation path := (list str).

Inductive node : Type :=
| Dir
| File (contents : list Byte.byte) (mode : Z).

Abbreviation tree := (gmap path node).

Record shell : Type := mkShell {
  nodes : tree;
  cwd : path;
  printed : list str
}.

Definition with_nodes (t : tree) (s : shell) : shell := mkShell t (cwd s) (printed s).
Definition with_cwd (p : path) (s : shell) : shell := mkShell (nodes s) p (printed s).

(** The root is always a directory. *)
Definition node_at (t : tree) (p : path) : option node :=
  match p with [] => Some Dir | _ => t !! p end.

Definition is_dir (t : tree) (p : path) : bool :=
  match node_at t p with Some Dir => true | _ => false end.

(** The names in a directory. *)
Definition child (p q : path) : option str :=
  match q with
  | n :: p' => if decide (p' = p) then Some n else None
  | [] => None
  end.

Definition names (t : tree) (p : path) : gset str :=
  list_to_set (omap (child p) (elements (dom t))).

(** The way from a directory along the components of a path: each component is looked up
    in a directory, the last one may be missing. *)
Fixpoint walk (t : tree) (p : path) (comps : list str) : option path :=
  match comps with
  | [] => Some p
  | c :: comps' =>
      if is_dir t p then
        walk t (if negb (nonempty c) || (c =s ".") then p else if c =s ".." then tail p else c :: p)
          comps'
      else None
  end.

Definition resolve (name : str) (s : shell) : option path :=
  if nonempty name then
    walk (nodes s) (if Path.isabs name then [] else cwd s) (split name "/")
  else None.

Definition find_node (name : str) (s : shell) : option (path * node) :=
  p ← resolve name s; n ← node_at (nodes s) p; Some (p, n).

Definition string_of (p : path) : str := "/" +s join "/" (reverse p).

(** * The monad *)

Definition Sh (A : Type) : Type := shell -> shell * res A.

#[export] Instance Sh_ret : MRet Sh := fun A a s => (s, Ok a).
#[export] Instance Sh_bind : MBind Sh := fun A B f m s =>
  match m s with
  | (s', Ok a) => f a s'
  | (s', Raise e) => (s', Raise e)
  end.

Definition fail {A} (e : exn) : Sh A := fun s => (s, Raise e).
Definition get : Sh shell := fun s => (s, Ok s).
Definition modify (f : shell -> shell) : Sh unit := fun s => (f s, Ok tt).

(** [for item in l: f(item)] *)
Fixpoint each {A} (l : list A) (f : A -> Sh unit) : Sh unit :=
  match l with
  | [] => mret tt
  | x :: l' => f x ;; each l' f
  end.

(** [try: m finally: f] *)
Definition finally {A} (m : Sh A) (f : Sh unit) : Sh A := fun s =>
  let '(s1, r) := m s in
  match f s1 with
  | (s2, Ok _) => (s2, r)
  | (s2, Raise e) => (s2, Raise e)
  end.

(** * The standard library: [os], [glob] and [shutil] *)

Definition print (line : str) : Sh unit :=
  modify (fun s => mkShell (nodes s) (cwd s) (printed s ++ [line])).

Definition os_getcwd : Sh str :=
  s ← get; if is_dir (nodes s) (cwd s) then mret (string_of (cwd s)) else fail OSError.

Definition os_chdir (name : str) : Sh unit :=
  s ← get;
  match find_node name s with
  | Some (p, Dir) => modify (with_cwd p)
  | _ => fail OSError
  end.

Definition os_isdir (name : str) : Sh bool :=
  s ← get; mret (match find_node name s with Some (_, Dir) => true | _ => false end).

Definition os_abspath (name : str) : Sh str :=
  if Path.isabs name then mret (Path.normpath name)
  else dir ← os_getcwd; mret (Path.normpath (Path.join dir [name])).

Definition os_remove (name : str) : Sh unit :=
  s ← get;
  match find_node name s with
  | Some (p, File _ _) => modify (with_nodes (delete p (nodes s)))
  | _ => fail OSError
  end.

(** Opening the destination for writing: a regular file is replaced, a missing one is
    made in a directory that exists. *)
Definition writable (t : tree) (p : path) : bool :=
  match p with
  | [] => false
  | _ :: dir => is_dir t dir && negb (is_dir t p)
  end.

Definition shutil_copy (src dst : str) : Sh unit :=
  isdir ← os_isdir dst;
  let dst := if (isdir : bool) then Path.join dst [(Path.split src).2] else dst in
  s ← get;
  match find_node src s, resolve dst s with
  | Some (p, File contents mode), Some q =>
      if decide (p = q) then fail ShutilError
      else if writable (nodes s) q then modify (with_nodes (<[q := File contents mode]> (nodes s)))
      else fail IOError
  | _, _ => fail IOError
  end.

(** ** What the machine decides *)

Section Machine.

(** The order in which a directory is listed, the directories that match a name with
    magic characters, and a command given to the system shell. *)
Context (dir_order : gset str -> list str) (magic_dirs : str -> shell -> list str)
        (system : str -> shell -> shell * Z).

Definition os_listdir (name : str) : Sh (list str) :=
  s ← get;
  match find_node name s with
  | Some (p, Dir) => mret (dir_order (names (nodes s) p))
  | _ => fail OSError
  end.

Definition has_magic (name : str) : bool := existsb (fun c => mem_chars "*?[" c) name.

(** [glob.glob1]: the names of a directory that match; an error of the listing is caught. *)
Definition glob1 (dirname prefix : str) (s : shell) : list str :=
  match os_listdir dirname s with
  | (_, Ok l) => List.filter (fun name => startswith name prefix) l
  | _ => []
  end.

(** [glob.glob(os.path.join(directory, prefix + '*'))], for a prefix without slashes and
    magic characters. *)
Definition glob_prefix (directory prefix : str) : Sh (list str) :=
  let dirname := (Path.split (Path.join directory [prefix])).1 in
  s ← get;
  mret
    (if negb (nonempty dirname) then glob1 "." prefix s
     else
       dir ← (if has_magic dirname then magic_dirs dirname s else [dirname]);
       (fun name => Path.join dir [name]) <$> glob1 dir prefix s).

(** * [utils.py] *)

(** The script [file] is [__file__] of the module; without links [os.path.realpath] is
    [os.path.abspath]. *)
Definition setup_working_dir (file : str) : Sh unit :=
  real ← os_abspath file;
  os_chdir (Path.join (Path.dirname real) [of_string ".."]).

Definition run_cmd (cmd_line : str) : Sh Z :=
  fun s => let '(s', code) := system cmd_line s in (s', Ok code).

Fixpoint walk_dir (fuel : nat) (directory : str) (action : str -> Sh unit) (recursive : bool)
    : Sh unit :=
  match fuel with
  | O => fail OutOfFuel
  | S f =>
      directory ← os_abspath directory;
      items ← os_listdir directory;
      each (List.filter (fun item => negb (str_in item [of_string "."; of_string ".."])) items)
        (fun item =>
           let file_path := Path.join directory [item] in
           action file_path ;;
           isdir ← (if recursive then os_isdir file_path else mret false);
           if (isdir : bool) then walk_dir f file_path action true else mret tt)
  end.

(** The body of the [with] statement is the argument. *)
Definition working_directory {A} (name : str) (body : Sh A) : Sh A :=
  prev_cwd ← os_getcwd;
  os_chdir name ;;
  finally body (os_chdir prev_cwd).

(** * [install_hooks.py] *)

Definition uninstall_hooks (hooks_dir : str) : Sh unit :=
  print ("Deleting existing pre-commit hooks from " +s hooks_dir) ;;
  files ← glob_prefix hooks_dir "pre-commit";
  each files os_remove.

Definition install_hooks (src_dir dst_dir : str) : Sh unit :=
  print "Installing pre-commit hooks" ;;
  src_files ← glob_prefix src_dir "pre-commit";
  each src_files (fun item => shutil_copy item dst_dir).

Definition main (file : str) : Sh unit :=
  setup_working_dir file ;;
  dir ← os_getcwd;
  print ("Current working dir is " +s dir) ;;
  let hooks_src_dir := Path.join dir [of_string "tools"; of_string "git-hooks"] in
  let hooks_dst_dir := Path.join dir [of_string ".git"; of_string "hooks"] in
  uninstall_hooks hooks_dst_dir ;;
  install_hooks hooks_src_dir hooks_dst_dir.

End Machine.
