(* ===== verification/HooksFacts.v ===== *)
(** Properties of the scripts: the names of a path and its string, what the operations of
    the file system do on the paths of a tree, and that the hooks of the repository
    replace the installed ones. *)

From S2P Require Import Prelude PyStr FilePath FilePathFacts Hooks.

Open Scope Z_scope.
Open Scope py_scope.

(** * Paths and their strings *)

(** The code of the character. *)
Abbreviation slash := 47%N.

Definition name_ok (n : str) : Prop :=
  nonempty n = true /\ n <> of_string "." /\ n <> of_string ".." /\ slash ∉ n.

Lemma prefixb_slash c (s : str) : prefixb "/" (c :: s) = (slash =? c)%N.
Proof. change (prefixb "/" (c :: s)) with ((slash =? c)%N && true). by rewrite andb_true_r. Qed.

Lemma split_aux_other c w acc :
  slash <> c -> split_aux "/" (c :: w) 0 acc = split_aux "/" w 0 (c :: acc).
Proof.
  intros H. change (split_aux "/" (c :: w) 0 acc) with
    (if prefixb "/" (c :: w) then reverse acc :: split_aux "/" w 0 [] else split_aux "/" w 0 (c :: acc)).
  rewrite prefixb_slash. by destruct (N.eqb_spec slash c).
Qed.

Lemma split_aux_word w rest acc :
  slash ∉ w -> split_aux "/" (w ++ slash :: rest) 0 acc = (reverse acc ++ w) :: split_aux "/" rest 0 [].
Proof.
  revert acc. induction w as [|c w IH]; intros acc Hw.
  - by rewrite app_nil_r.
  - apply not_elem_of_cons in Hw as [Hc Hw]. rewrite <-app_comm_cons, split_aux_other, IH by done.
    by rewrite reverse_cons, <-app_assoc.
Qed.

Lemma split_aux_last w acc : slash ∉ w -> split_aux "/" w 0 acc = [reverse acc ++ w].
Proof.
  revert acc. induction w as [|c w IH]; intros acc Hw.
  - by rewrite app_nil_r.
  - apply not_elem_of_cons in Hw as [Hc Hw]. rewrite split_aux_other, IH by done.
    by rewrite reverse_cons, <-app_assoc.
Qed.

Lemma split_join l : l <> [] -> Forall (fun n => slash ∉ n) l -> split (join "/" l) "/" = l.
Proof.
  intros Hl H. unfold split. induction H as [|n l Hn H IH]; [done|].
  destruct l as [|m l].
  - simpl. by rewrite split_aux_last.
  - change (join "/" (n :: m :: l)) with (n ++ slash :: join "/" (m :: l)).
    rewrite split_aux_word by done. by rewrite IH.
Qed.

Lemma split_slashed p :
  Forall (fun n => slash ∉ n) p ->
  split (string_of p) "/" = [] :: match p with [] => [[]] | _ => reverse p end.
Proof.
  intros H. change (split (string_of p) "/") with ([] :: split (join "/" (reverse p)) "/"). f_equal.
  destruct p as [|n p]; [done|]. apply split_join.
  - by rewrite reverse_cons; destruct (reverse p).
  - by apply Forall_reverse.
Qed.

Lemma names_slash p : Forall name_ok p -> Forall (fun n => slash ∉ n) p.
Proof. intros H. eapply Forall_impl; [exact H|]. by intros m (_ & _ & _ & ?). Qed.

Lemma split_string_of p :
  Forall name_ok p -> split (string_of p) "/" = [] :: match p with [] => [[]] | _ => reverse p end.
Proof. intros H. by apply split_slashed, names_slash. Qed.

Lemma join_snoc (sep x : str) l :
  join sep (l ++ [x]) = match l with [] => x | _ => join sep l ++ sep ++ x end.
Proof.
  induction l as [|y l IH]; [done|].
  change (join sep ((y :: l) ++ [x])) with (match l ++ [x] with [] => y | _ => y ++ sep ++ join sep (l ++ [x]) end).
  destruct l as [|z l]; [done|].
  change ((z :: l) ++ [x]) with (z :: (l ++ [x])) in *. cbv iota. rewrite IH.
  change (join sep (y :: z :: l)) with (y ++ sep ++ join sep (z :: l)). by rewrite <-!app_assoc.
Qed.

(** The string of a directory up to the next name. *)
Definition slashed (p : path) : str := match p with [] => "/" | _ => string_of p +s "/" end.

Lemma string_of_cons n p : string_of (n :: p) = slashed p ++ n.
Proof.
  unfold slashed, string_of. rewrite reverse_cons, join_snoc.
  destruct p as [|m p]; [done|].
  destruct (reverse (m :: p)) as [|x l] eqn:E; [by rewrite reverse_cons in E; destruct (reverse p)|].
  by rewrite <-!app_assoc.
Qed.

Lemma string_of_last n p : name_ok n -> exists s c, string_of (n :: p) = s ++ [c] /\ c <> slash.
Proof.
  intros (Hne & _ & _ & Hs). rewrite string_of_cons.
  destruct n as [|c n _] using rev_ind; [done|].
  exists (slashed p ++ n), c. rewrite app_assoc. split; [done|].
  intros ->. apply Hs. apply elem_of_app. right. apply list_elem_of_singleton. done.
Qed.

Lemma join2_slashed p n :
  Forall name_ok p -> slash ∉ n -> Path.join2 (string_of p) n = string_of (n :: p).
Proof.
  intros Hp Hs. unfold Path.join2.
  assert (startswith n "/" = false) as ->.
  { destruct n as [|c n]; [done|]. unfold startswith. rewrite prefixb_slash.
    destruct (N.eqb_spec slash c) as [<-|]; [|done]. by apply not_elem_of_cons in Hs as [? _]. }
  rewrite string_of_cons. destruct p as [|m p]; [done|].
  assert (endswith (string_of (m :: p)) "/" = false) as ->.
  { apply Forall_cons in Hp as [Hm _]. destruct (string_of_last m p Hm) as (s & c & -> & Hc).
    unfold endswith. rewrite reverse_snoc. change (reverse "/") with (of_string "/").
    rewrite prefixb_slash. by destruct (N.eqb_spec slash c). }
  unfold slashed. simpl. by rewrite <-!app_assoc.
Qed.

Lemma join2_string p n : Forall name_ok p -> name_ok n -> Path.join2 (string_of p) n = string_of (n :: p).
Proof. intros Hp (_ & _ & _ & Hs). by apply join2_slashed. Qed.

Lemma rfind_nat_last (a n : str) : slash ∉ n -> rfind_nat "/" (a ++ slash :: n) = Some (length a).
Proof.
  intros Hn. induction a as [|c a IH].
  - change ([] ++ slash :: n) with (slash :: n). assert (forall m : str, slash ∉ m -> rfind_nat "/" m = None) as Hm.
    { induction m as [|c m IHm]; intros Hm; [done|]. apply not_elem_of_cons in Hm as [Hc Hm].
      change (rfind_nat "/" (c :: m)) with
        (match rfind_nat "/" m with Some i => Some (S i)
         | None => if prefixb "/" (c :: m) then Some 0%nat else None end).
      rewrite IHm, prefixb_slash by done. by destruct (N.eqb_spec slash c) as [<-|]. }
    change (rfind_nat "/" (slash :: n)) with
      (match rfind_nat "/" n with Some i => Some (S i) | None => Some 0%nat end).
    by rewrite Hm.
  - change (rfind_nat "/" ((c :: a) ++ slash :: n)) with
      (match rfind_nat "/" (a ++ slash :: n) with Some i => Some (S i)
       | None => if prefixb "/" (c :: a ++ slash :: n) then Some 0%nat else None end).
    by rewrite IH.
Qed.

(** The last name is cut off with its slash. *)
Lemma split_cons p n :
  Forall name_ok p -> name_ok n -> Path.split (string_of (n :: p)) = (string_of p, n).
Proof.
  intros Hp (Hne & _ & _ & Hs).
  assert (exists a, slashed p = a ++ [slash]) as [a Ha].
  { destruct p as [|m p]; [by exists []|by exists (string_of (m :: p))]. }
  assert (rfind (string_of (n :: p)) "/" + 1 = Z.of_nat (length (slashed p))) as E.
  { rewrite string_of_cons, Ha, <-app_assoc. unfold rfind. change ([slash] ++ n) with (slash :: n).
    rewrite rfind_nat_last, length_app by done. simpl. lia. }
  unfold Path.split. rewrite E, slice_to_pos, slice_from_pos, Nat2Z.id, string_of_cons, take_app_length,
    drop_app_length by lia.
  f_equal. destruct p as [|m p]; [done|]. unfold slashed in *.
  apply Forall_cons in Hp as [Hm _]. destruct (string_of_last m p Hm) as (s & c & -> & Hc).
  assert (Path.is_slash c = false) as Hc' by (by apply N.eqb_neq).
  unfold rstrip_chars. rewrite <-app_assoc, reverse_app.
  change (reverse ([c] ++ "/")) with [slash; c].
  change (drop_while (mem_chars "/") ([slash; c] ++ reverse s)) with
    (if Path.is_slash c || false then drop_while (mem_chars "/") (reverse s) else c :: reverse s).
  rewrite forallb_app. change (forallb Path.is_slash ([c] ++ "/")) with (Path.is_slash c && true).
  rewrite Hc', andb_false_r. cbv [orb andb negb]. rewrite reverse_cons, reverse_involutive. by destruct s.
Qed.

Lemma dirname_cons p n : Forall name_ok p -> name_ok n -> Path.dirname (string_of (n :: p)) = string_of p.
Proof. intros. unfold Path.dirname. by rewrite split_cons. Qed.

Lemma norm_names b l acc :
  Forall name_ok l -> Path.norm_components b l acc = reverse acc ++ l.
Proof.
  intros H. revert acc. induction H as [|n l (Hne & H1 & H2 & _) _ IH]; intros acc; simpl.
  - by rewrite app_nil_r.
  - rewrite Hne. unfold str_eqb. rewrite !bool_decide_eq_false_2 by done. simpl.
    by rewrite IH, reverse_cons, <-app_assoc.
Qed.

(** The string of a path starts with a single slash. *)
Lemma join_no_slash l : Forall name_ok l -> prefixb "/" (join "/" l) = false.
Proof.
  intros H. destruct H as [|n l (Hne & _ & _ & Hn) _]; [done|].
  destruct n as [|c n]; [done|]. apply not_elem_of_cons in Hn as [Hn _].
  assert (exists s, join "/" ((c :: n) :: l) = c :: s) as [s ->] by (destruct l; by eexists).
  rewrite prefixb_slash. by apply N.eqb_neq.
Qed.

Lemma normpath_string p : Forall name_ok p -> Path.normpath (string_of p) = string_of p.
Proof.
  intros Hp. unfold Path.normpath.
  change (startswith (string_of p) "//") with (prefixb "/" (join "/" (reverse p))).
  rewrite join_no_slash, split_string_of by (done || by apply Forall_reverse).
  change (nonempty (string_of p)) with true. change (startswith (string_of p) "/") with true.
  cbv [negb andb]. change (nonempty "/") with true.
  assert (Path.norm_components true ([] :: match p with [] => [[]] | _ => reverse p end) [] = reverse p) as ->.
  { destruct p as [|n p]; [done|]. by apply (norm_names true (reverse (n :: p)) []), Forall_reverse. }
  change (of_string "/" +s join "/" (reverse p)) with (string_of p).
  by change (nonempty (string_of p)) with true.
Qed.

(** * Trees *)

(** Every node has a proper name and is in a directory. *)
Definition wf (t : tree) : Prop :=
  forall n p, is_Some (t !! (n :: p)) -> name_ok n /\ is_dir t p = true.

Lemma is_dir_Some t p : is_dir t p = true <-> node_at t p = Some Dir.
Proof. unfold is_dir. destruct (node_at t p) as [[]|]; naive_solver. Qed.

Lemma wf_names t p : wf t -> is_Some (node_at t p) -> Forall name_ok p.
Proof.
  intros Hwf. induction p as [|n p IH]; [done|]. intros H. destruct (Hwf n p H) as [Hn Hp].
  constructor; [done|]. apply IH. apply is_dir_Some in Hp. by eexists.
Qed.

Lemma wf_above t l p : wf t -> is_dir t (l ++ p) = true -> is_dir t p = true.
Proof.
  intros Hwf. induction l as [|n l IH]; [done|]. intros H. apply IH, (Hwf n).
  apply is_dir_Some in H. by exists Dir.
Qed.

Lemma walk_names t l p :
  wf t -> Forall name_ok l -> is_dir t (tail (reverse l ++ p)) = true -> walk t p l = Some (reverse l ++ p).
Proof.
  intros Hwf Hl. revert p. induction Hl as [|n l (Hne & H1 & H2 & _) _ IH]; intros p Hd; [done|].
  rewrite reverse_cons, <-app_assoc in *. simpl.
  assert (is_dir t p = true) as ->.
  { destruct (reverse l) as [|m r]; [done|]. simpl in Hd.
    by apply (wf_above t (r ++ [n])); rewrite <-?app_assoc. }
  rewrite Hne. unfold str_eqb. rewrite !bool_decide_eq_false_2 by done. by apply IH.
Qed.

Lemma walk_app t l1 l2 p : walk t p (l1 ++ l2) = walk t p l1 ≫= fun q => walk t q l2.
Proof. revert p. induction l1 as [|c l1 IH]; intros p; simpl; [done|]. by destruct (is_dir t p). Qed.

(** The string of a path leads to it if it is in a directory. *)
Lemma resolve_string s p :
  wf (nodes s) -> Forall name_ok p -> is_dir (nodes s) (tail p) = true ->
  resolve (string_of p) s = Some p.
Proof.
  intros Hwf Hp Hd. unfold resolve. rewrite split_string_of by done.
  change (nonempty (string_of p)) with true. change (Path.isabs (string_of p)) with true. cbv iota.
  change (walk (nodes s) [] ([] :: ?l)) with (walk (nodes s) [] l).
  destruct p as [|n p]; [done|].
  rewrite walk_names; rewrite ?app_nil_r, ?reverse_involutive; [done..|by apply Forall_reverse|done].
Qed.

Lemma find_string s p n :
  wf (nodes s) -> node_at (nodes s) p = Some n -> find_node (string_of p) s = Some (p, n).
Proof.
  intros Hwf H. unfold find_node. rewrite resolve_string; [simpl; by rewrite H|done|..].
  - by apply (wf_names (nodes s)).
  - destruct p as [|m p]; [done|]. by apply (Hwf m p); exists n.
Qed.

Lemma names_spec t p n : n ∈ names t p <-> is_Some (t !! (n :: p)).
Proof.
  unfold names. rewrite elem_of_list_to_set, list_elem_of_omap. split.
  - intros (q & Hq & Hc). apply elem_of_elements, elem_of_dom in Hq. destruct q as [|m q]; [done|].
    simpl in Hc. case_decide; [|done]. by simplify_eq.
  - intros H. exists (n :: p). split; [by apply elem_of_elements, elem_of_dom|].
    simpl. by rewrite decide_True.
Qed.

Lemma Sh_bind_eq {A B} (m : Sh A) (f : A -> Sh B) s :
  (m ≫= f) s = match m s with (s', Ok a) => f a s' | (s', Raise e) => (s', Raise e) end.
Proof. done. Qed.

Lemma os_abspath_string s p : Forall name_ok p -> os_abspath (string_of p) s = (s, Ok (string_of p)).
Proof.
  intros Hp. unfold os_abspath. change (Path.isabs (string_of p)) with true. cbv iota.
  by rewrite normpath_string.
Qed.

Lemma os_listdir_string order s p :
  wf (nodes s) -> node_at (nodes s) p = Some Dir ->
  os_listdir order (string_of p) s = (s, Ok (order (names (nodes s) p))).
Proof. intros Hwf Hp. unfold os_listdir. rewrite Sh_bind_eq. simpl. by rewrite (find_string s p Dir). Qed.

(** A regular file is not above any node. *)
Lemma is_dir_same t t' p : (forall q, is_dir t q = true -> t' !! q = t !! q) -> is_dir t p = true -> is_dir t' p = true.
Proof.
  intros H Hd. pose proof (H p Hd) as E. unfold is_dir, node_at in *. destruct p; [done|]. by rewrite E.
Qed.

Lemma wf_delete t p : wf t -> is_dir t p = false -> wf (delete p t).
Proof.
  intros Hwf Hd n q H. assert (is_Some (t !! (n :: q))) as H'.
  { destruct (decide (p = n :: q)) as [->|]; [by rewrite lookup_delete_eq in H; destruct H|].
    by rewrite lookup_delete_ne in H. }
  destruct (Hwf n q H') as [Hn Hq]. split; [done|]. apply (is_dir_same t); [|done].
  intros r Hr. apply lookup_delete_ne. by intros ->; rewrite Hr in Hd.
Qed.

Lemma wf_insert t n p x : wf t -> name_ok n -> is_dir t p = true -> is_dir t (n :: p) = false ->
  wf (<[n :: p := x]> t).
Proof.
  intros Hwf Hn Hp Hd m q H.
  assert (forall r, is_dir t r = true -> is_dir (<[n :: p := x]> t) r = true) as Hs.
  { intros r. apply is_dir_same. intros r' Hr'. apply lookup_insert_ne. by intros <-; rewrite Hr' in Hd. }
  destruct (decide (n :: p = m :: q)) as [E|Hne].
  - simplify_eq. by split; [|apply Hs].
  - rewrite lookup_insert_ne in H by done. destruct (Hwf m q H). by split; [|apply Hs].
Qed.

(** * The hooks *)

Section Scripts.
Context (dir_order : gset str -> list str) (magic_dirs : str -> shell -> list str).
Hypothesis order_perm : forall X, dir_order X ≡ₚ elements X.

(** The names in a directory that start with [prefix], as they are listed. *)
Definition matching (t : tree) (p : path) (prefix : str) : list str :=
  List.filter (fun n => startswith n prefix) (dir_order (names t p)).

Lemma matching_spec t p prefix n :
  n ∈ matching t p prefix <-> is_Some (t !! (n :: p)) /\ startswith n prefix = true.
Proof.
  unfold matching. rewrite list_elem_of_In, filter_In, <-list_elem_of_In, order_perm, elem_of_elements.
  by rewrite names_spec.
Qed.

Lemma matching_NoDup t p prefix : NoDup (matching t p prefix).
Proof.
  apply NoDup_ListNoDup, List.NoDup_filter, NoDup_ListNoDup. rewrite order_perm. apply NoDup_elements.
Qed.

Lemma glob_string s p prefix :
  wf (nodes s) -> is_dir (nodes s) p = true -> name_ok prefix -> has_magic (string_of p) = false ->
  glob_prefix dir_order magic_dirs (string_of p) prefix s
  = (s, Ok ((fun n => string_of (n :: p)) <$> matching (nodes s) p prefix)).
Proof.
  intros Hwf Hd Hpre Hm. apply is_dir_Some in Hd as Hp.
  assert (Forall name_ok p) as Hn by (apply (wf_names (nodes s)); [done|by eexists]).
  unfold glob_prefix. change (Path.join ?d [?n]) with (Path.join2 d n). rewrite join2_string, split_cons by done.
  change ((string_of p, prefix).1) with (string_of p).
  change (negb (nonempty (string_of p))) with false. rewrite Hm.
  change ((s, @Ok (list str) (((fun n => Path.join2 (string_of p) n)
            <$> glob1 dir_order (string_of p) prefix s) ++ []))
    = (s, Ok ((fun n => string_of (n :: p)) <$> matching (nodes s) p prefix))).
  do 2 f_equal. rewrite app_nil_r. unfold glob1. rewrite os_listdir_string by done. apply list_fmap_ext. intros i n Hi.
  apply join2_string; [done|].
  apply list_elem_of_lookup_2, matching_spec in Hi as [Hi _]. by apply (Hwf n p).
Qed.

End Scripts.

Definition is_file (t : tree) (p : path) : Prop := exists c m, t !! p = Some (File c m).

Lemma is_file_not_dir t n p : is_file t (n :: p) -> is_dir t (n :: p) = false.
Proof. intros (c & m & H). unfold is_dir, node_at. by rewrite H. Qed.

(** The nodes of one directory with the given names. *)
Definition entries (p : path) (ns : list str) (q : path) : bool :=
  match q with n :: d => bool_decide (d = p) && str_in n ns | [] => false end.

Lemma entries_eq p ns n : entries p ns (n :: p) = str_in n ns.
Proof. simpl. by rewrite bool_decide_eq_true_2. Qed.

Lemma entries_cons p n ns q : entries p (n :: ns) q = bool_decide (q = n :: p) || entries p ns q.
Proof.
  destruct q as [|m d]; [done|]. unfold entries. simpl. unfold str_eqb.
  repeat case_bool_decide; simplify_eq/=; try done; by rewrite ?andb_false_r.
Qed.

Lemma os_remove_string s p n :
  wf (nodes s) -> is_file (nodes s) (n :: p) ->
  os_remove (string_of (n :: p)) s = (with_nodes (delete (n :: p) (nodes s)) s, Ok tt).
Proof.
  intros Hwf (c & m & H). unfold os_remove, get, mbind, Sh_bind.
  by rewrite (find_string s (n :: p) (File c m)).
Qed.

Lemma each_remove s p ns :
  wf (nodes s) -> NoDup ns -> (forall n, n ∈ ns -> is_file (nodes s) (n :: p)) ->
  exists t, each ((fun n => string_of (n :: p)) <$> ns) os_remove s = (with_nodes t s, Ok tt)
    /\ wf t /\ forall q, t !! q = if entries p ns q then None else nodes s !! q.
Proof.
  revert s. induction ns as [|n ns IH]; intros s Hwf Hnd Hf.
  - exists (nodes s). split_and!; [by destruct s|done|]. intros [|m d]; [done|].
    simpl. by rewrite andb_false_r.
  - apply NoDup_cons in Hnd as [Hn Hnd].
    assert (is_file (nodes s) (n :: p)) as Hnf by (apply Hf; constructor).
    destruct (IH (with_nodes (delete (n :: p) (nodes s)) s)) as (t & E & Ht & Hq).
    + by apply wf_delete, is_file_not_dir.
    + done.
    + intros m Hm. unfold is_file. simpl. rewrite lookup_delete_ne by (by intros [= ->]).
      apply Hf. by constructor.
    + exists t. rewrite fmap_cons. simpl. unfold mbind, Sh_bind. rewrite os_remove_string, E by done.
      split_and!; [done..|]. intros q. rewrite Hq, entries_cons. simpl.
      destruct (decide (q = n :: p)) as [->|Hne].
      * rewrite bool_decide_eq_true_2, lookup_delete_eq by done. by case_match.
      * by rewrite bool_decide_eq_false_2, lookup_delete_ne by done.
Qed.

Lemma shutil_copy_string s src dst n c m :
  wf (nodes s) -> nodes s !! (n :: src) = Some (File c m) -> is_dir (nodes s) dst = true ->
  src <> dst -> is_dir (nodes s) (n :: dst) = false ->
  shutil_copy (string_of (n :: src)) (string_of dst) s
  = (with_nodes (<[n :: dst := File c m]> (nodes s)) s, Ok tt).
Proof.
  intros Hwf Hs Hd Hne Hnd. destruct (Hwf n src) as [Hn Hsrc]; [by eexists|].
  apply is_dir_Some in Hd as Hd'. apply is_dir_Some in Hsrc as Hsrc'.
  assert (Forall name_ok src) by (apply (wf_names (nodes s)); [done|by eexists]).
  assert (Forall name_ok dst) by (apply (wf_names (nodes s)); [done|by eexists]).
  unfold shutil_copy, os_isdir, get, mret, Sh_ret, mbind, Sh_bind.
  rewrite (find_string s dst Dir) by done. rewrite split_cons by done.
  change (Path.join (string_of dst) [(string_of src, n).2]) with (Path.join2 (string_of dst) n).
  rewrite (find_string s (n :: src) (File c m)), join2_string by done.
  rewrite resolve_string by (done || by constructor).
  rewrite decide_False by (by intros [= ->]). simpl. by rewrite Hd, Hnd.
Qed.

Lemma each_copy s src dst ns :
  wf (nodes s) -> NoDup ns -> is_dir (nodes s) dst = true -> src <> dst ->
  (forall n, n ∈ ns -> is_file (nodes s) (n :: src) /\ is_dir (nodes s) (n :: dst) = false) ->
  exists t, each ((fun n => string_of (n :: src)) <$> ns) (fun item => shutil_copy item (string_of dst)) s
      = (with_nodes t s, Ok tt)
    /\ wf t /\ forall q, t !! q = if entries dst ns q then
                                match q with n :: _ => nodes s !! (n :: src) | [] => None end
                              else nodes s !! q.
Proof.
  revert s. induction ns as [|n ns IH]; intros s Hwf Hnd Hd Hne Hf.
  - exists (nodes s). split_and!; [by destruct s|done|]. intros [|m d]; [done|].
    simpl. by rewrite andb_false_r.
  - apply NoDup_cons in Hnd as [Hn Hnd].
    destruct (Hf n) as [(c & m & Hc) Hdn]; [constructor|]. destruct (Hwf n src) as [Hok _]; [by eexists|].
    assert (forall k, k <> n -> <[n :: dst := File c m]> (nodes s) !! (k :: dst) = nodes s !! (k :: dst)) as Hk.
    { intros k Hk. by rewrite lookup_insert_ne by (by intros [= ->]). }
    assert (forall k, <[n :: dst := File c m]> (nodes s) !! (k :: src) = nodes s !! (k :: src)) as Hk'.
    { intros k. by rewrite lookup_insert_ne by (by intros [= _ ->]). }
    destruct (IH (with_nodes (<[n :: dst := File c m]> (nodes s)) s)) as (t & E & Ht & Hq); try done.
    + by apply wf_insert.
    + simpl. apply (is_dir_same (nodes s)); [|done]. intros r Hr. apply lookup_insert_ne.
      intros <-. by rewrite Hr in Hdn.
    + intros k Hin. destruct (Hf k) as [Hfk Hdk]; [by constructor|].
      assert (k <> n) by (by intros ->). unfold is_file, is_dir, node_at in *. simpl.
      by rewrite Hk, Hk'.
    + exists t. rewrite fmap_cons. simpl. unfold mbind, Sh_bind.
      rewrite (shutil_copy_string s src dst n c m), E by done.
      split_and!; [done..|]. intros q. rewrite Hq, entries_cons. simpl.
      destruct (decide (q = n :: dst)) as [->|Hqn].
      * rewrite (bool_decide_eq_true_2 (n :: dst = n :: dst)), lookup_insert_eq, Hk', Hc by done.
        by case_match.
      * rewrite (bool_decide_eq_false_2 (q = n :: dst)), lookup_insert_ne by done.
        destruct q; [done|]. by rewrite Hk'.
Qed.

(** The parent of a directory, by way of [os.pardir]. *)
Lemma chdir_pardir s n r :
  wf (nodes s) -> is_dir (nodes s) (n :: r) = true ->
  os_chdir (Path.join (string_of (n :: r)) [of_string ".."]) s = (with_cwd r s, Ok tt).
Proof.
  intros Hwf Hd. apply is_dir_Some in Hd as Hd'.
  assert (Forall name_ok (n :: r)) as Hn by (apply (wf_names (nodes s)); [done|by eexists]).
  assert (slash ∉ of_string "..") as Hs by (by apply (bool_decide_unpack _); vm_compute).
  change (Path.join ?d [?x]) with (Path.join2 d x). rewrite join2_slashed by done.
  assert (resolve (string_of (of_string ".." :: n :: r)) s = Some r) as Hr.
  { unfold resolve. rewrite split_slashed by (constructor; [done|by apply names_slash]).
    change (nonempty (string_of ?p)) with true. change (Path.isabs (string_of ?p)) with true. cbv iota.
    rewrite reverse_cons. change (walk (nodes s) [] ([] :: ?l)) with (walk (nodes s) [] l).
    rewrite walk_app, walk_names;
      rewrite ?app_nil_r, ?reverse_involutive; [|done|by apply Forall_reverse|by apply (wf_above _ [n])].
    simpl. by rewrite Hd. }
  apply (wf_above _ [n]), is_dir_Some in Hd as Hr'; [|done].
  unfold os_chdir, get, mbind, Sh_bind, find_node. rewrite Hr. simpl. by rewrite Hr'.
Qed.

Lemma has_magic_cons n p : has_magic (string_of (n :: p)) = has_magic (string_of p) || has_magic n.
Proof.
  rewrite string_of_cons. unfold has_magic. rewrite existsb_app. f_equal.
  destruct p as [|m p]; [done|]. unfold slashed. rewrite existsb_app. by rewrite orb_false_r.
Qed.

(** The directories of the hooks in the repository and in its git directory. *)
Definition hooks_src (r : path) : path := of_string "git-hooks" :: of_string "tools" :: r.
Definition hooks_dst (r : path) : path := of_string "hooks" :: of_string ".git" :: r.

(** The hooks of one directory in the place of those of another, and nothing else changed. *)
Definition installed (t : tree) (src dst q : path) : option node :=
  match q with
  | n :: d => if bool_decide (d = dst) && startswith n "pre-commit" then t !! (n :: src) else t !! q
  | [] => t !! []
  end.

Section Install.
Context (dir_order : gset str -> list str) (magic_dirs : str -> shell -> list str).
Hypothesis order_perm : forall X, dir_order X ≡ₚ elements X.

(** In a directory, what starts like a hook is a regular file. *)
Definition only_files (t : tree) (p : path) : Prop :=
  forall n, startswith n "pre-commit" = true -> is_dir t (n :: p) = false.

Lemma hook_name : name_ok "pre-commit".
Proof. split_and!; [done..|]. by apply (bool_decide_unpack _); vm_compute. Qed.

Lemma hook_is_file t p n :
  only_files t p -> n ∈ matching dir_order t p "pre-commit" -> is_file t (n :: p).
Proof.
  intros H [[x Hx] Hn]%matching_spec; [|done]. apply H in Hn.
  unfold is_dir, node_at in Hn. rewrite Hx in Hn. destruct x as [|c m]; [done|]. by exists c, m.
Qed.

Lemma uninstall_hooks_ok s p :
  wf (nodes s) -> is_dir (nodes s) p = true -> has_magic (string_of p) = false ->
  only_files (nodes s) p ->
  exists t, uninstall_hooks dir_order magic_dirs (string_of p) s
      = (mkShell t (cwd s) (printed s ++ ["Deleting existing pre-commit hooks from " +s string_of p]), Ok tt)
    /\ wf t /\ forall q, t !! q = if entries p (matching dir_order (nodes s) p "pre-commit") q then None
                              else nodes s !! q.
Proof.
  intros Hwf Hd Hm Hf.
  set (s' := mkShell (nodes s) (cwd s) (printed s ++ ["Deleting existing pre-commit hooks from " +s string_of p])).
  destruct (each_remove s' p (matching dir_order (nodes s) p "pre-commit")) as (t & E & Ht & Hq).
  - done.
  - by apply matching_NoDup.
  - intros n. by apply hook_is_file.
  - exists t. split_and!; [|done..]. unfold uninstall_hooks, print, modify, mbind, Sh_bind.
    fold s'. rewrite glob_string; [exact E|done..|apply hook_name|done].
Qed.

Lemma install_hooks_ok s src dst :
  wf (nodes s) -> is_dir (nodes s) src = true -> is_dir (nodes s) dst = true -> src <> dst ->
  has_magic (string_of src) = false -> only_files (nodes s) src -> only_files (nodes s) dst ->
  exists t, install_hooks dir_order magic_dirs (string_of src) (string_of dst) s
      = (mkShell t (cwd s) (printed s ++ [of_string "Installing pre-commit hooks"]), Ok tt)
    /\ wf t /\ forall q, t !! q = if entries dst (matching dir_order (nodes s) src "pre-commit") q then
                                match q with n :: _ => nodes s !! (n :: src) | [] => None end
                              else nodes s !! q.
Proof.
  intros Hwf Hs Hd Hne Hm Hfs Hfd.
  set (s' := mkShell (nodes s) (cwd s) (printed s ++ [of_string "Installing pre-commit hooks"])).
  destruct (each_copy s' src dst (matching dir_order (nodes s) src "pre-commit")) as (t & E & Ht & Hq); try done.
  - by apply matching_NoDup.
  - intros n Hn. split; [by apply hook_is_file|]. apply Hfd. by apply matching_spec in Hn as [_ ?].
  - exists t. split_and!; [|done..]. unfold install_hooks, print, modify, mbind, Sh_bind.
    fold s'. rewrite glob_string; [exact E|done..|apply hook_name|done].
Qed.

(** Without the entries of a directory that are files, the directories are the same. *)
Lemma is_dir_without (t t1 : tree) p ns q :
  (forall n, n ∈ ns -> is_dir t (n :: p) = false) ->
  (forall q, t1 !! q = if entries p ns q then None else t !! q) -> is_dir t1 q = is_dir t q.
Proof.
  intros Hf Ht. destruct q as [|n d]; [done|].
  pose proof (Ht (n :: d)) as E. destruct (entries p ns (n :: d)) eqn:He.
  - simpl in He. apply andb_prop in He as [->%bool_decide_eq_true_1 Hn%str_in_elem].
    rewrite Hf by done. unfold is_dir, node_at. by rewrite E.
  - unfold is_dir, node_at. by rewrite E.
Qed.

Lemma installed_spec (t t1 t2 : tree) src dst q :
  src <> dst ->
  (forall q, t1 !! q = if entries dst (matching dir_order t dst "pre-commit") q then None else t !! q) ->
  (forall q, t2 !! q = if entries dst (matching dir_order t1 src "pre-commit") q then
                   match q with n :: _ => t1 !! (n :: src) | [] => None end else t1 !! q) ->
  t2 !! q = installed t src dst q.
Proof.
  intros Hne H1 H2. rewrite H2. destruct q as [|n d]; [apply H1|].
  assert (forall k, t1 !! (k :: src) = t !! (k :: src)) as Hsrc.
  { intros k. rewrite H1. simpl. by rewrite bool_decide_eq_false_2. }
  unfold installed. destruct (bool_decide_reflect (d = dst)) as [->|Hd]; cbv [andb].
  2: { assert (forall ns, entries dst ns (n :: d) = false) as He.
       { intros ns. unfold entries. by rewrite bool_decide_eq_false_2. }
       by rewrite He, H1, He. }
  rewrite Hsrc, H1, !entries_eq.
  destruct (str_in n (matching dir_order t1 src "pre-commit")) eqn:E1;
    [apply str_in_elem, matching_spec in E1 as [_ ->]; done|].
  destruct (startswith n "pre-commit") eqn:E.
  - assert (t !! (n :: src) = None) as ->.
    { apply eq_None_not_Some. intros Hs. rewrite <-Hsrc in Hs.
      apply not_true_iff_false in E1. apply E1, str_in_elem. by apply matching_spec. }
    destruct (str_in n (matching dir_order t dst "pre-commit")) eqn:E2; [done|].
    apply eq_None_not_Some. intros Hs. apply not_true_iff_false in E2.
    apply E2, str_in_elem. by apply matching_spec.
  - destruct (str_in n (matching dir_order t dst "pre-commit")) eqn:E2; [|done].
    apply str_in_elem, matching_spec in E2 as [_ ?]; [congruence|done].
Qed.

(** C18: [install_hooks.py] run in a working tree whose directories of hooks hold regular files
    leaves in the git directory exactly the hooks of the repository, with their contents
    and modes, changes no other file, and ends in the root of the project. *)
Theorem main_installs s r :
  wf (nodes s) -> is_dir (nodes s) (hooks_src r) = true -> is_dir (nodes s) (hooks_dst r) = true ->
  has_magic (string_of r) = false ->
  only_files (nodes s) (hooks_src r) -> only_files (nodes s) (hooks_dst r) ->
  exists s', main dir_order magic_dirs (string_of (of_string "utils.py" :: of_string "tools" :: r)) s = (s', Ok tt)
    /\ cwd s' = r
    /\ forall q, nodes s' !! q = installed (nodes s) (hooks_src r) (hooks_dst r) q.
Proof.
  intros Hwf Hs Hd Hm Hfs Hfd.
  assert (is_dir (nodes s) (of_string "tools" :: r) = true) as Ht by (by apply (wf_above _ [of_string "git-hooks"])).
  assert (is_dir (nodes s) r = true) as Hr by (by apply (wf_above _ [of_string "tools"])).
  assert (forall p, is_dir (nodes s) p = true -> Forall name_ok p) as Hn.
  { intros p Hp%is_dir_Some. apply (wf_names (nodes s)); [done|by eexists]. }
  assert (name_ok "utils.py") as Hu.
  { split_and!; [done..|]. by apply (bool_decide_unpack _); vm_compute. }
  assert (has_magic (string_of (hooks_src r)) = false) as Hms by (unfold hooks_src; by rewrite !has_magic_cons, Hm).
  assert (has_magic (string_of (hooks_dst r)) = false) as Hmd by (unfold hooks_dst; by rewrite !has_magic_cons, Hm).
  assert (hooks_src r <> hooks_dst r) as Hne by done.
  set (l1 := "Current working dir is " +s string_of r).
  destruct (uninstall_hooks_ok (mkShell (nodes s) r (printed s ++ [l1])) (hooks_dst r))
    as (t1 & E1 & Hwf1 & H1); [done..|].
  assert (forall q, is_dir t1 q = is_dir (nodes s) q) as Hdir.
  { intros q. apply (is_dir_without _ _ (hooks_dst r) (matching dir_order (nodes s) (hooks_dst r) "pre-commit"));
      [|exact H1]. intros n [_ Hp]%matching_spec; [by apply Hfd|done]. }
  match type of E1 with _ = (?x, _) => destruct (install_hooks_ok x (hooks_src r) (hooks_dst r))
    as (t2 & E2 & Hwf2 & H2) end; simpl; rewrite ?Hdir; try done.
  { intros n Hp. rewrite Hdir. by apply Hfs. }
  { intros n Hp. rewrite Hdir. by apply Hfd. }
  match type of E2 with _ = (?x, _) => exists x end.
  split_and!; [|done|intros q; by apply (installed_spec _ t1)].
  unfold main, setup_working_dir. rewrite !Sh_bind_eq, os_abspath_string by (constructor; auto).
  unfold mbind, Sh_bind. rewrite dirname_cons, chdir_pardir by auto.
  assert (os_getcwd (with_cwd r s) = (with_cwd r s, Ok (string_of r))) as ->.
  { unfold os_getcwd, get, mbind, Sh_bind. simpl. by rewrite Hr. }
  change (Path.join ?d [?a; ?b]) with (Path.join2 (Path.join2 d a) b).
  pose proof (Hn _ Hs) as [Hs1 [Hs2 Hr1]%Forall_cons]%Forall_cons.
  pose proof (Hn _ Hd) as [Hd1 [Hd2 _]%Forall_cons]%Forall_cons.
  rewrite !join2_string by auto. fold (hooks_src r) (hooks_dst r).
  unfold print, modify, get. cbn [with_cwd nodes cwd printed] in *. fold l1.
  by rewrite E1, E2.
Qed.
End Install.

(** * [walk_dir] *)

Section Walk.
Context (dir_order : gset str -> list str).
Hypothesis order_perm : forall X, dir_order X ≡ₚ elements X.

(** The nodes below a directory in the order of the walk. *)
Fixpoint visits (fuel : nat) (t : tree) (p : path) : list path :=
  match fuel with
  | O => []
  | S f => n ← dir_order (names t p);
           (n :: p) :: if is_dir t (n :: p) then visits f t (n :: p) else []
  end.

Definition below (t : tree) (p : path) : gset path :=
  filter (fun q => p `suffix_of` q /\ p <> q) (dom t).

Lemma below_child t n p : is_Some (t !! (n :: p)) -> below t (n :: p) ⊂ below t p.
Proof.
  intros H. unfold below. split.
  - intros q. rewrite !elem_of_filter. intros [[[l ->] Hne] Hd]. split; [|done].
    split; [by exists (l ++ [n]); rewrite <-app_assoc|]. intros E.
    apply (f_equal length) in E. rewrite length_app in E. simpl in E. lia.
  - intros Hsub. specialize (Hsub (n :: p)). rewrite !elem_of_filter in Hsub.
    destruct Hsub as [[_ ?] _]; [|done]. split; [|by apply elem_of_dom]. split; [by exists [n]|].
    intros E. apply (f_equal length) in E. simpl in E. lia.
Qed.

Lemma visits_spec fuel t p q :
  wf t -> (size (below t p) < fuel)%nat ->
  q ∈ visits fuel t p <-> exists l n, q = l ++ n :: p /\ is_Some (t !! q).
Proof.
  intros Hwf. revert p q. induction fuel as [|f IH]; intros p q Hf; [lia|]. simpl.
  rewrite list_elem_of_bind. split.
  - intros (n & Hq & Hn). rewrite order_perm, elem_of_elements, names_spec in Hn.
    apply elem_of_cons in Hq as [->|Hq]; [by exists [], n|].
    destruct (is_dir t (n :: p)); [|by apply not_elem_of_nil in Hq].
    apply IH in Hq as (l & m & -> & H).
    + exists (l ++ [m]), n. by rewrite <-app_assoc.
    + pose proof (subset_size _ _ (below_child t n p Hn)). lia.
  - intros (l & n & -> & H).
    assert (is_Some (t !! (n :: p)) /\ (l = [] \/ is_dir t (n :: p) = true)) as [Hn Hl].
    { destruct l as [|m l]; [by split; [|left]|]. apply Hwf in H as [_ Hd].
      apply wf_above, is_dir_Some in Hd as Hn; [|done]. split; [by eexists|right].
      by apply is_dir_Some. }
    exists n. split; [|by rewrite order_perm, elem_of_elements, names_spec].
    destruct l as [|m l _] using rev_ind; [by left|]. right.
    destruct Hl as [Hl| ->]; [by destruct l|].
    apply IH; [|by exists l, m; rewrite <-app_assoc in *].
    pose proof (subset_size _ _ (below_child t n p Hn)). lia.
Qed.

Lemma visits_NoDup fuel t p :
  wf t -> (size (below t p) < fuel)%nat -> NoDup (visits fuel t p).
Proof.
  intros Hwf. revert p. induction fuel as [|f IH]; intros p Hf; [lia|]. simpl.
  assert (forall n, n ∈ dir_order (names t p) -> (size (below t (n :: p)) < f)%nat) as Hs.
  { intros n Hn. rewrite order_perm, elem_of_elements, names_spec in Hn.
    pose proof (subset_size _ _ (below_child t n p Hn)). lia. }
  assert (forall n q, n ∈ dir_order (names t p) ->
            q ∈ (n :: p) :: (if is_dir t (n :: p) then visits f t (n :: p) else []) ->
            (n :: p) `suffix_of` q) as Hq.
  { intros n q Hn [->|Hq]%elem_of_cons; [done|]. destruct (is_dir t _); [|by apply not_elem_of_nil in Hq].
    apply visits_spec in Hq as (l & m & -> & _); [|done|by apply Hs].
    exists (l ++ [m]). by rewrite <-app_assoc. }
  apply NoDup_bind.
  - intros n m q Hn Hm H1 H2. destruct (Hq n q Hn H1) as [l1 ->], (Hq m _ Hm H2) as [l2 E].
    apply app_inj_2 in E as [_ E]; [by simplify_eq|done].
  - intros n Hn. apply NoDup_cons. split.
    + destruct (is_dir t (n :: p)); [|by intros ?%not_elem_of_nil].
      intros (l & m & E & _)%visits_spec; [|done|by apply Hs].
      apply (f_equal length) in E. rewrite length_app in E. simpl in E. lia.
    + destruct (is_dir t (n :: p)); [by apply IH, Hs|constructor].
  - rewrite order_perm. apply NoDup_elements.
Qed.

(** An action that leaves the file system alone. *)
Definition reads (action : str -> Sh unit) : Prop := forall x s, nodes (action x s).1 = nodes s.

Lemma each_app {A} (l1 l2 : list A) f s : each (l1 ++ l2) f s = (each l1 f ;; each l2 f) s.
Proof.
  unfold mbind, Sh_bind. revert s. induction l1 as [|x l1 IH]; intros s; [done|]. simpl.
  unfold mbind, Sh_bind. destruct (f x s) as [s1 [[]|e]]; [apply IH|done].
Qed.

Lemma each_nodes l f s : reads f -> nodes (each l f s).1 = nodes s.
Proof.
  intros Hf. revert s. induction l as [|x l IH]; intros s; [done|]. simpl. unfold mbind, Sh_bind.
  specialize (Hf x s). destruct (f x s) as [s1 [[]|e]]; simpl in *; [by rewrite IH|done].
Qed.

(** In a tree there are no entries for the directory and its parent to leave out. *)
Lemma no_dots t p l :
  wf t -> Forall (fun n => is_Some (t !! (n :: p))) l ->
  List.filter (fun n => negb (str_in n [of_string "."; of_string ".."])) l = l.
Proof.
  intros Hwf. induction 1 as [|n l Hn _ IH]; [done|].
  change (List.filter ?f (n :: l)) with (if f n then n :: List.filter f l else List.filter f l). cbv beta.
  destruct (Hwf n p Hn) as [(_ & H1 & H2 & _) _].
  assert (str_in n [of_string "."; of_string ".."] = false) as ->; [|by rewrite IH].
  apply not_true_iff_false. rewrite str_in_elem.
  intros [?|[?|?%not_elem_of_nil]%elem_of_cons]%elem_of_cons; done.
Qed.

Lemma walk_loop t p l action (W : str -> Sh unit) (V : path -> list path) s :
  wf t -> Forall name_ok p -> Forall (fun n => is_Some (t !! (n :: p))) l -> reads action -> nodes s = t ->
  (forall n s, n ∈ l -> is_dir t (n :: p) = true -> nodes s = t ->
     W (string_of (n :: p)) s = each (string_of <$> V (n :: p)) action s) ->
  each l (fun item =>
    let file_path := Path.join (string_of p) [item] in
    action file_path ;;
    isdir ← os_isdir file_path;
    if (isdir : bool) then W file_path else mret tt) s
  = each (string_of <$> (l ≫= fun n => (n :: p) :: if is_dir t (n :: p) then V (n :: p) else [])) action s.
Proof.
  intros Hwf Hp Hl Ha Hs HW. revert s Hs HW. induction Hl as [|n l Hn Hl IH]; intros s Hs HW; [done|].
  destruct (Hwf n p Hn) as [Hok _]. rewrite bind_cons, fmap_app, each_app.
  simpl each. change (Path.join ?d [?x]) with (Path.join2 d x). rewrite join2_string by done.
  unfold mbind, Sh_bind. pose proof (Ha (string_of (n :: p)) s) as Hs1.
  destruct (action (string_of (n :: p)) s) as [s1 [[]|e]] eqn:E1; [|done]. simpl in Hs1.
  rewrite Hs in Hs1. destruct Hn as [x Hx].
  unfold os_isdir, get, mbind, Sh_bind, mret, Sh_ret.
  rewrite (find_string s1 (n :: p) x) by (by rewrite Hs1).
  assert (is_dir t (n :: p) = match x with Dir => true | _ => false end) as ->.
  { unfold is_dir, node_at. by rewrite Hx. }
  assert (forall m s, m ∈ l -> is_dir t (m :: p) = true -> nodes s = t ->
     W (string_of (m :: p)) s = each (string_of <$> V (m :: p)) action s) as HW'.
  { intros m s' Hm. apply HW. by constructor. }
  destruct x as [|c m].
  - rewrite HW; [|constructor|by unfold is_dir, node_at; rewrite Hx|done].
    pose proof (each_nodes (string_of <$> V (n :: p)) action s1 Ha) as Hs2.
    destruct (each _ action s1) as [s2 [[]|e]]; [|done]. apply IH; [|done]. simpl in Hs2. congruence.
  - simpl. by apply IH.
Qed.

Lemma walk_dir_each fuel t p action s :
  wf t -> is_dir t p = true -> (size (below t p) < fuel)%nat -> reads action -> nodes s = t ->
  walk_dir dir_order fuel (string_of p) action true s = each (string_of <$> visits fuel t p) action s.
Proof.
  intros Hwf Hd Hf Ha. revert p s Hd Hf. induction fuel as [|f IH]; intros p s Hd Hf Hs; [lia|].
  apply is_dir_Some in Hd as Hp.
  assert (Forall name_ok p) as Hn by (apply (wf_names t); [done|by eexists]).
  assert (Forall (fun n => is_Some (t !! (n :: p))) (dir_order (names t p))) as Hall.
  { apply Forall_forall. intros n. by rewrite order_perm, elem_of_elements, names_spec. }
  simpl walk_dir. rewrite Sh_bind_eq, os_abspath_string, Sh_bind_eq, os_listdir_string by (by rewrite ?Hs).
  rewrite Hs, (no_dots t p) by done.
  apply (walk_loop t p (dir_order (names t p)) action
           (fun d => walk_dir dir_order f d action true) (visits f t)); try done.
  intros n s' Hin Hdn Hs'. apply IH; [done| |done].
  rewrite Forall_forall in Hall. pose proof (subset_size _ _ (below_child t n p (Hall n Hin))). lia.
Qed.

Lemma string_of_inj p q : Forall name_ok p -> Forall name_ok q -> string_of p = string_of q -> p = q.
Proof.
  intros Hp Hq E. apply (f_equal (fun s => split s "/")) in E. rewrite !split_string_of in E by done.
  apply (f_equal tail) in E. simpl in E.
  destruct p as [|n p], q as [|m q]; [done|..].
  - apply (f_equal reverse) in E. rewrite reverse_involutive in E. injection E as <- <-.
    by apply Forall_cons in Hq as [[? _] _].
  - apply (f_equal reverse) in E. rewrite reverse_involutive in E. injection E as -> ->.
    by apply Forall_cons in Hp as [[? _] _].
  - by apply (inj reverse) in E.
Qed.

(** C19: [walk_dir] runs the action on every file and directory below the given one, each
    once, and ends: for an action that leaves the file system alone it is the loop over a
    list of their names without duplicates. *)
Theorem walk_dir_visits t p :
  wf t -> is_dir t p = true ->
  exists l, NoDup l
    /\ (forall x, x ∈ l <-> exists q n, x = string_of (q ++ n :: p) /\ is_Some (t !! (q ++ n :: p)))
    /\ forall action s, reads action -> nodes s = t ->
         walk_dir dir_order (S (size t)) (string_of p) action true s = each l action s.
Proof.
  intros Hwf Hd.
  assert (size (below t p) < S (size t))%nat as Hf.
  { rewrite <-size_dom. pose proof (subseteq_size (below t p) (dom t)) as Hs.
    assert (below t p ⊆ dom t) by (intros q; unfold below; by rewrite elem_of_filter; intros [_ ?]).
    specialize (Hs ltac:(done)). lia. }
  assert (forall q, q ∈ visits (S (size t)) t p -> Forall name_ok q) as Hok.
  { intros q (l & n & -> & H)%visits_spec; [|done..]. apply (wf_names t); [done|]. by destruct l. }
  exists (string_of <$> visits (S (size t)) t p). split_and!.
  - apply NoDup_fmap_2_strong; [|by apply visits_NoDup].
    intros q1 q2 H1%Hok H2%Hok. by apply string_of_inj.
  - intros x. rewrite list_elem_of_fmap. split.
    + intros (q & -> & (l & n & -> & H)%visits_spec); [|done..]. by exists l, n.
    + intros (l & n & -> & H). exists (l ++ n :: p). split; [done|].
      apply visits_spec; [done..|]. by exists l, n.
  - intros action s Ha Hs. by apply walk_dir_each.
Qed.
End Walk.

(** * [working_directory] *)

(** C37: [working_directory] comes back to the directory it was called in, whether the body
    returns or raises, and passes its result on; a path that is not a directory is an
    [OSError] and the body does not run. *)
Theorem working_directory_restores {A} name (body : Sh A) s :
  wf (nodes s) -> is_dir (nodes s) (cwd s) = true ->
  match find_node name s with
  | Some (p, Dir) =>
      let '(s1, r) := body (with_cwd p s) in
      wf (nodes s1) -> is_dir (nodes s1) (cwd s) = true ->
      working_directory name body s = (with_cwd (cwd s) s1, r)
  | _ => working_directory name body s = (s, Raise OSError)
  end.
Proof.
  intros Hwf Hd. unfold working_directory, os_getcwd, os_chdir, get, modify, mret, Sh_ret, mbind, Sh_bind.
  rewrite Hd. destruct (find_node name s) as [[p [|c m]]|]; [|done..].
  destruct (body (with_cwd p s)) as [s1 r] eqn:E. intros Hwf1 Hd1. unfold finally. rewrite E.
  apply is_dir_Some in Hd1. by rewrite (find_string s1 (cwd s) Dir).
Qed.

(** * Examples *)

Definition sample_file (s : string) : node := File (String.list_byte_of_string s) 493.

Definition sample_path (l : list string) : path := reverse (of_string <$> l).

(** A working tree with one hook, an old one installed, and another hook beside it. *)
Definition sample_tree : tree := list_to_map
  [(sample_path ["repo"], Dir); (sample_path ["repo"; "tools"], Dir);
   (sample_path ["repo"; "tools"; "utils.py"], sample_file "import os");
   (sample_path ["repo"; "tools"; "git-hooks"], Dir);
   (sample_path ["repo"; "tools"; "git-hooks"; "pre-commit"], sample_file "checkstyle");
   (sample_path ["repo"; ".git"], Dir); (sample_path ["repo"; ".git"; "hooks"], Dir);
   (sample_path ["repo"; ".git"; "hooks"; "pre-commit-old"], sample_file "old");
   (sample_path ["repo"; ".git"; "hooks"; "post-merge"], sample_file "merge")]%string.

Definition sample_shell : shell := mkShell sample_tree [] [].

#[export] Instance name_ok_dec n : Decision (name_ok n).
Proof. unfold name_ok. apply _. Defined.

Lemma forallb_nodes (f : path * node -> bool) (t : tree) q x :
  forallb f (map_to_list t) = true -> t !! q = Some x -> f (q, x) = true.
Proof.
  rewrite forallb_forall. intros H Hx. apply H, list_elem_of_In. by apply elem_of_map_to_list.
Qed.

Lemma wf_check t :
  forallb (fun qx => match qx.1 with n :: p => bool_decide (name_ok n) && is_dir t p | [] => true end)
    (map_to_list t) = true -> wf t.
Proof.
  intros H n p [x Hx]. apply (forallb_nodes _ t _ _ H) in Hx. simpl in Hx.
  by apply andb_prop in Hx as [?%bool_decide_eq_true_1 ?].
Qed.

Lemma only_files_check t p :
  forallb (fun qx => match qx with
                     | (n :: d, Dir) => negb (bool_decide (d = p) && startswith n "pre-commit")
                     | _ => true end) (map_to_list t) = true -> only_files t p.
Proof.
  intros H n Hn. apply not_true_iff_false. intros Hd. apply is_dir_Some in Hd.
  apply (forallb_nodes _ t _ _ H) in Hd. cbv beta iota in Hd. by rewrite bool_decide_eq_true_2, Hn in Hd.
Qed.

Lemma sample_wf : wf sample_tree.
Proof. by apply wf_check; vm_compute. Qed.

Lemma main_installs_witness :
  exists s', main elements (fun _ _ => []) "/repo/tools/utils.py" sample_shell = (s', Ok tt)
    /\ cwd s' = sample_path ["repo"]
    /\ forall q, nodes s' !! q = installed sample_tree (hooks_src (sample_path ["repo"]))
                               (hooks_dst (sample_path ["repo"])) q.
Proof.
  refine (main_installs elements (fun _ _ => []) (fun X => reflexivity _) sample_shell (sample_path ["repo"])
    sample_wf _ _ _ _ _).
  - by vm_compute.
  - by vm_compute.
  - by vm_compute.
  - by apply only_files_check; vm_compute.
  - by apply only_files_check; vm_compute.
Defined.

Lemma walk_dir_visits_witness :
  exists l, NoDup l
    /\ (forall x, x ∈ l <-> exists q n, x = string_of (q ++ n :: sample_path ["repo"])
                               /\ is_Some (sample_tree !! (q ++ n :: sample_path ["repo"])))
    /\ forall action s, reads action -> nodes s = sample_tree ->
         walk_dir elements 10 "/repo" action true s = each l action s.
Proof.
  refine (walk_dir_visits elements (fun X => reflexivity _) sample_tree (sample_path ["repo"]) sample_wf _).
  by vm_compute.
Defined.

Lemma working_directory_restores_witness :
  working_directory "/repo/.git" (os_remove "hooks/post-merge") sample_shell
  = (with_nodes (delete (sample_path ["repo"; ".git"; "hooks"; "post-merge"]) sample_tree) sample_shell, Ok tt).
Proof.
  pose proof (working_directory_restores "/repo/.git" (os_remove "hooks/post-merge") sample_shell
                sample_wf eq_refl) as H.
  assert (find_node "/repo/.git" sample_shell = Some (sample_path ["repo"; ".git"]%string, Dir)) as E
    by (vm_compute; reflexivity).
  rewrite E in H. clear E.
  assert (os_remove "hooks/post-merge" (with_cwd (sample_path ["repo"; ".git"]%string) sample_shell)
    = (mkShell (delete (sample_path ["repo"; ".git"; "hooks"; "post-merge"]%string) sample_tree)
         (sample_path ["repo"; ".git"]%string) [], Ok tt)) as E by (vm_compute; reflexivity).
  rewrite E in H. apply H; [by apply wf_check; vm_compute|by vm_compute].
Defined.

(** Without a directory of hooks to copy to, the copy of a hook takes its name. *)
Definition bare_tree : tree :=
  delete (sample_path ["repo"; ".git"; "hooks"; "post-merge"])
    (delete (sample_path ["repo"; ".git"; "hooks"; "pre-commit-old"])
      (delete (sample_path ["repo"; ".git"; "hooks"]) sample_tree)).

Lemma main_without_hooks_dir :
  let '(s', r) := main elements (fun _ _ => []) "/repo/tools/utils.py" (mkShell bare_tree [] []) in
  r = Ok tt /\ nodes s' !! hooks_dst (sample_path ["repo"]) = Some (sample_file "checkstyle").
Proof. vm_compute. by split. Qed.
