(* ===== verification/Includes.v ===== *)
(** Include directives: the order of headers ([_IncludeState]), the classification
    and the checks of one directive, the header guard, the header a source file
    should include, and the standard headers the code needs. *)

From S2P Require Import Prelude PyStr Regex State Cleanse FilePath.

Open Scope Z_scope.
Open Scope py_scope.

(** * Constants *)

Definition _CPP_HEADERS : list str := of_string <$> [
  "algobase.h"; "algo.h"; "alloc.h"; "builtinbuf.h"; "bvector.h"; "complex.h";
  "defalloc.h"; "deque.h"; "editbuf.h"; "fstream.h"; "function.h"; "hash_map";
  "hash_map.h"; "hash_set"; "hash_set.h"; "hashtable.h"; "heap.h"; "indstream.h";
  "iomanip.h"; "iostream.h"; "istream.h"; "iterator.h"; "list.h"; "map.h";
  "multimap.h"; "multiset.h"; "ostream.h"; "pair.h"; "parsestream.h"; "pfstream.h";
  "procbuf.h"; "pthread_alloc"; "pthread_alloc.h"; "rope"; "rope.h"; "ropeimpl.h";
  "set.h"; "slist"; "slist.h"; "stack.h"; "stdiostream.h"; "stl_alloc.h";
  "stl_relops.h"; "streambuf.h"; "stream.h"; "strfile.h"; "strstream.h"; "tempbuf.h";
  "tree.h"; "type_traits.h"; "vector.h"; "algorithm"; "array"; "atomic"; "bitset";
  "chrono"; "codecvt"; "complex"; "condition_variable"; "deque"; "exception";
  "forward_list"; "fstream"; "functional"; "future"; "initializer_list"; "iomanip";
  "ios"; "iosfwd"; "iostream"; "istream"; "iterator"; "limits"; "list"; "locale";
  "map"; "memory"; "mutex"; "new"; "numeric"; "ostream"; "queue"; "random"; "ratio";
  "regex"; "scoped_allocator"; "set"; "sstream"; "stack"; "stdexcept"; "streambuf";
  "string"; "strstream"; "system_error"; "thread"; "tuple"; "typeindex"; "typeinfo";
  "type_traits"; "unordered_map"; "unordered_set"; "utility"; "valarray"; "vector";
  "cassert"; "ccomplex"; "cctype"; "cerrno"; "cfenv"; "cfloat"; "cinttypes"; "ciso646";
  "climits"; "clocale"; "cmath"; "csetjmp"; "csignal"; "cstdalign"; "cstdarg";
  "cstdbool"; "cstddef"; "cstdint"; "cstdio"; "cstdlib"; "cstring"; "ctgmath"; "ctime";
  "cuchar"; "cwchar"; "cwctype"]%string.

Definition _C_SYS_HEADER : Z := 1.
Definition _CPP_SYS_HEADER : Z := 2.
Definition _LIKELY_MY_HEADER : Z := 3.
Definition _POSSIBLE_MY_HEADER : Z := 4.
Definition _OTHER_HEADER : Z := 5.

Definition _THIRD_PARTY_HEADERS_PATTERN : pattern :=
  rx "^(?:[^/]*[A-Z][^/]*\.h|lua\.h|lauxlib\.h|lualib\.h)$".
Definition _TEST_FILE_SUFFIX : pattern := rx "(_test|_unittest|_regtest)$".
Definition _RE_FIRST_COMPONENT : pattern := rx "^[^-_.]+".
Definition _RE_PATTERN_STRING : pattern := rx "\bstring\b".

Definition _HEADERS_CONTAINING_TEMPLATES : list (string * list string) := [
  ("<deque>", ["deque"]);
  ("<functional>", ["unary_function"; "binary_function"; "plus"; "minus";
    "multiplies"; "divides"; "modulus"; "negate"; "equal_to"; "not_equal_to";
    "greater"; "less"; "greater_equal"; "less_equal"; "logical_and"; "logical_or";
    "logical_not"; "unary_negate"; "not1"; "binary_negate"; "not2"; "bind1st";
    "bind2nd"; "pointer_to_unary_function"; "pointer_to_binary_function"; "ptr_fun";
    "mem_fun_t"; "mem_fun"; "mem_fun1_t"; "mem_fun1_ref_t"; "mem_fun_ref_t";
    "const_mem_fun_t"; "const_mem_fun1_t"; "const_mem_fun_ref_t";
    "const_mem_fun1_ref_t"; "mem_fun_ref"]);
  ("<limits>", ["numeric_limits"]);
  ("<list>", ["list"]);
  ("<map>", ["map"; "multimap"]);
  ("<memory>", ["allocator"; "make_shared"; "make_unique"; "shared_ptr";
    "unique_ptr"; "weak_ptr"]);
  ("<queue>", ["queue"; "priority_queue"]);
  ("<set>", ["set"; "multiset"]);
  ("<stack>", ["stack"]);
  ("<string>", ["char_traits"; "basic_string"]);
  ("<tuple>", ["tuple"]);
  ("<unordered_map>", ["unordered_map"; "unordered_multimap"]);
  ("<unordered_set>", ["unordered_set"; "unordered_multiset"]);
  ("<utility>", ["pair"]);
  ("<vector>", ["vector"]);
  ("<hash_map>", ["hash_map"; "hash_multimap"]);
  ("<hash_set>", ["hash_set"; "hash_multiset"]);
  ("<slist>", ["slist"]) ]%string.

Definition _HEADERS_MAYBE_TEMPLATES : list (string * list string) := [
  ("<algorithm>", ["copy"; "max"; "min"; "min_element"; "sort"; "transform"]);
  ("<utility>", ["forward"; "make_pair"; "move"; "swap"]) ]%string.

(** A pattern, the name it stands for and its header, for every template. *)
Definition template_table (pre post suffix : string)
    (headers : list (string * list string)) : list (pattern * str * str) :=
  '(header, templates) ← headers;
  templates ≫= fun template : string => match re_compile (pre +s template +s post) return list (pattern * str * str) with
  | Some p => [(p, template +s suffix, of_string header)]
  | None => []
  end.

Definition _re_pattern_headers_maybe_templates : list (pattern * str * str) :=
  Eval vm_compute in
  template_table "[^>.]\b" "(<.*?>)?\([^\)]" EmptyString _HEADERS_MAYBE_TEMPLATES.

Definition _re_pattern_templates : list (pattern * str * str) :=
  Eval vm_compute in template_table "(\<|\b)" "\s*\<" "<>" _HEADERS_CONTAINING_TEMPLATES.

(** * [_IncludeState] *)

Definition _INITIAL_SECTION : Z := 0.
Definition _MY_H_SECTION : Z := 1.
Definition _C_SECTION : Z := 2.
Definition _CPP_SECTION : Z := 3.
Definition _OTHER_H_SECTION : Z := 4.

Definition _TYPE_NAMES (header_type : Z) : option str :=
  if header_type =? _C_SYS_HEADER then Some (of_string "C system header")
  else if header_type =? _CPP_SYS_HEADER then Some (of_string "C++ system header")
  else if header_type =? _LIKELY_MY_HEADER then Some (of_string "header this file implements")
  else if header_type =? _POSSIBLE_MY_HEADER
  then Some (of_string "header this file may implement")
  else if header_type =? _OTHER_HEADER then Some (of_string "other header")
  else None.

Definition _SECTION_NAMES (section : Z) : option str :=
  if section =? _INITIAL_SECTION then Some (of_string "... nothing. (This can't be an error.)")
  else if section =? _MY_H_SECTION then Some (of_string "a header this file implements")
  else if section =? _C_SECTION then Some (of_string "C system header")
  else if section =? _CPP_SECTION then Some (of_string "C++ system header")
  else if section =? _OTHER_H_SECTION then Some (of_string "other header")
  else None.

Record IncludeState : Type := mkIncludeState {
  include_list : list (list (str * Z));
  section : Z;
  last_header : str
}.

(** [l[-1] = f(l[-1])] *)
Definition update_last {A} (f : A -> A) (l : list A) : list A :=
  match reverse l with [] => [] | x :: r => reverse r ++ [f x] end.

Definition ResetSection (directive : str) (st : IncludeState) : IncludeState :=
  mkIncludeState
    (if str_in directive (of_string <$> ["if"; "ifdef"; "ifndef"]%string)
     then include_list st ++ [[]]
     else if str_in directive (of_string <$> ["else"; "elif"]%string)
     then update_last (fun _ => []) (include_list st)
     else include_list st)
    _INITIAL_SECTION [].

Definition IncludeState_init : IncludeState := ResetSection [] (mkIncludeState [[]] 0 []).

Fixpoint find_in (header : str) (l : list (str * Z)) : option Z :=
  match l with
  | [] => None
  | f :: l' => if f.1 =s header then Some f.2 else find_in header l'
  end.

Definition FindHeader (header : str) (st : IncludeState) : Z :=
  default (-1) (find_in header (concat (include_list st))).

Definition SetLastHeader (header_path : str) (st : IncludeState) : IncludeState :=
  mkIncludeState (include_list st) (section st) header_path.

Definition CanonicalizeAlphabeticalOrder (header_path : str) : str :=
  lower (replace (replace header_path "-inl.h" ".h") "-" "_").

Definition IsInAlphabeticalOrder (st : IncludeState) (clean_lines : CleansedLines) (linenum : Z)
    (header_path : str) : res bool :=
  if str_ltb header_path (last_header st) then
    prev ← idx (elided clean_lines) (linenum - 1);
    Ok (negb (matches (rx "^\s*#\s*include\b") prev))
  else Ok true.

(** The next section, or [None] for a header out of order. *)
Definition next_section (header_type section : Z) : res (option Z) :=
  if header_type =? _C_SYS_HEADER then
    Ok (if section <=? _C_SECTION then Some _C_SECTION else None)
  else if header_type =? _CPP_SYS_HEADER then
    Ok (if section <=? _CPP_SECTION then Some _CPP_SECTION else None)
  else if header_type =? _LIKELY_MY_HEADER then
    Ok (Some (if section <=? _MY_H_SECTION then _MY_H_SECTION else _OTHER_H_SECTION))
  else if header_type =? _POSSIBLE_MY_HEADER then
    Ok (Some (if section <=? _MY_H_SECTION then _MY_H_SECTION else _OTHER_H_SECTION))
  else if header_type =? _OTHER_HEADER then Ok (Some _OTHER_H_SECTION)
  else Raise AssertionError.

Definition CheckNextIncludeOrder (header_type : Z) (st : IncludeState)
    : res (str * IncludeState) :=
  type_name ← some_or KeyError (_TYPE_NAMES header_type);
  section_name ← some_or KeyError (_SECTION_NAMES (section st));
  let error_message := "Found " +s type_name +s " after " +s section_name in
  next ← next_section header_type (section st);
  match next with
  | None => Ok (error_message, mkIncludeState (include_list st) (section st) [])
  | Some s =>
      Ok ([], mkIncludeState (include_list st) s
                (if negb (section st =? s) then [] else last_header st))
  end.

(** * Classification *)

Definition _SUFFIXES : list str := of_string <$> [
  "test.cc"; "regtest.cc"; "unittest.cc"; "inl.h"; "impl.h"; "internal.h"]%string.

(** The suffix is preceded by a dash or an underscore. *)
Definition has_suffix (filename suffix : str) : bool :=
  endswith filename suffix && (len suffix <? len filename)
  && match py_index filename (- len suffix - 1) with
     | Some c => ceq c "-" || ceq c "_"
     | None => false
     end.

Definition _DropCommonSuffixes (filename : str) : str :=
  match List.find (has_suffix filename) _SUFFIXES with
  | Some suffix => slice_to filename (- len suffix - 1)
  | None => (Path.splitext filename).1
  end.

Definition _ClassifyInclude (os : OS) (filename include : str) (is_system : bool) : res Z :=
  let is_cpp_h := str_in include _CPP_HEADERS in
  if is_system then Ok (if is_cpp_h then _CPP_SYS_HEADER else _C_SYS_HEADER)
  else
    repository_name ← RepositoryName os filename;
    let '(target_dir, target_base) := Path.split (_DropCommonSuffixes repository_name) in
    let '(include_dir, include_base) := Path.split (_DropCommonSuffixes include) in
    if (target_base =s include_base)
       && ((include_dir =s target_dir)
           || (include_dir =s Path.normpath (target_dir +s "/../public")))
    then Ok _LIKELY_MY_HEADER
    else
      match Match _RE_FIRST_COMPONENT target_base, Match _RE_FIRST_COMPONENT include_base with
      | Some t, Some i => if group0 t =s group0 i then Ok _POSSIBLE_MY_HEADER else Ok _OTHER_HEADER
      | _, _ => Ok _OTHER_HEADER
      end.

(** * One include directive *)

Definition CheckIncludeLine (os : OS) (filename : str) (clean_lines : CleansedLines)
    (linenum : Z) (st : IncludeState) (error : error_fn) : M IncludeState :=
  line ← line_at (lines clean_lines) linenum;
  match Match (rx "#include\s*`([^/]+\.h)`") line with
  | Some mo =>
      when (negb (matches _THIRD_PARTY_HEADERS_PATTERN (grp mo 1)))
        (error filename linenum "build/include" 4
           "Include the directory when naming .h files")
  | None => skip
  end ;;
  match Search _RE_PATTERN_INCLUDE line with
  | None => mret st
  | Some mo =>
      let include := grp mo 2 in
      let is_system := grp mo 1 =s "<" in
      let duplicate_line := FindHeader include st in
      if 0 <=? duplicate_line then
        error filename linenum "build/include" 4
          ("`" +s include +s "` already included at " +s filename +s ":" +s str_of_Z duplicate_line) ;;
        mret st
      else
        other_package ←
          (if endswith include ".cc" then
             repository_name ← lift (RepositoryName os filename);
             mret (Path.dirname repository_name <>s Path.dirname include)
           else mret false);
        if (other_package : bool) then
          error filename linenum "build/include" 4
            "Do not include .cc files from other packages" ;;
          mret st
        else if negb (matches _THIRD_PARTY_HEADERS_PATTERN include) then
          let st := mkIncludeState (update_last (fun l => l ++ [(include, linenum)]) (include_list st))
                      (section st) (last_header st) in
          header_type ← lift (_ClassifyInclude os filename include is_system);
          '(error_message, st) ← lift (CheckNextIncludeOrder header_type st);
          (if nonempty error_message then
             base ← lift (BaseName os filename);
             error filename linenum "build/include_order" 4
               (error_message +s ". Should be: " +s base +s ".h, c system, c++ system, other.")
           else skip) ;;
          let canonical_include := CanonicalizeAlphabeticalOrder include in
          in_order ← lift (IsInAlphabeticalOrder st clean_lines linenum canonical_include);
          when (negb in_order)
            (error filename linenum "build/include_alpha" 4
               ("Include `" +s include +s "` not in alphabetical order")) ;;
          mret (SetLastHeader canonical_include st)
        else mret st
  end.

(** * The header of a source file *)

(** The first header that is or contains [headername], or is contained in it, ends
    the search; otherwise the line of the first include. *)
Fixpoint header_search (headername : str) (l : list (str * Z)) (first_include : Z) : option Z :=
  match l with
  | [] => Some first_include
  | f :: l' =>
      if contains f.1 headername || contains headername f.1 then None
      else header_search headername l' (if first_include =? 0 then f.2 else first_include)
  end.

Definition CheckHeaderFileIncluded (os : OS) (filename : str) (st : IncludeState)
    (error : error_fn) : M unit :=
  base ← lift (BaseName os filename);
  if searches _TEST_FILE_SUFFIX base then skip
  else
    ext ← lift (Extension os filename);
    let headerfile := slice filename 0 (len filename - len ext) +s ".h" in
    if negb (path_exists os headerfile) then skip
    else
      headername ← lift (RepositoryName os headerfile);
      match header_search headername (concat (include_list st)) 0 with
      | None => skip
      | Some first_include =>
          repository_name ← lift (RepositoryName os filename);
          error filename first_include "build/include" 5
            (repository_name +s " should include its header file " +s headername)
      end.

(** * Header guards *)

Record GuardScan : Type := mkGuardScan {
  ifndef : str;
  ifndef_linenum : Z;
  define : str;
  endif : str;
  endif_linenum : Z
}.

(** One line of the search for the first [#ifndef] and [#define] and the last
    [#endif]. *)
Definition guard_step (linenum : Z) (line : str) (s : GuardScan) : GuardScan :=
  let s :=
    match words line with
    | directive :: arg :: _ =>
        let s :=
          if negb (nonempty (ifndef s)) && (directive =s "#ifndef")
          then mkGuardScan arg linenum (define s) (endif s) (endif_linenum s) else s in
        if negb (nonempty (define s)) && (directive =s "#define")
        then mkGuardScan (ifndef s) (ifndef_linenum s) arg (endif s) (endif_linenum s) else s
    | _ => s
    end in
  if startswith line "#endif"
  then mkGuardScan (ifndef s) (ifndef_linenum s) (define s) line linenum else s.

Fixpoint guard_loop (linenum : Z) (raw : list str) (s : GuardScan) : GuardScan :=
  match raw with
  | [] => s
  | line :: raw' => guard_loop (linenum + 1) raw' (guard_step linenum line s)
  end.

Definition _NOLINT_GUARD : pattern := rx "//\s*NOLINT\(build/header_guard\)".
Definition _ANY_LINE_COMMENT : pattern :=
  rx "^(?:(?:'(?:\.|[^'])*')|(?:`(?:\.|[^`])*`)|[^'`])*//".

Definition endif_comment (cppvar : str) : res pattern :=
  some_or ReError (re_compile ("#endif\s*//\s*" +s cppvar +s "(_)?\b")).
Definition endif_c_comment (cppvar : str) : res pattern :=
  some_or ReError (re_compile ("#endif\s*/\*\s*" +s cppvar +s "(_)?\s*\*/")).

(** The comment of the last [#endif]. *)
Definition check_endif (filename : str) (raw : list str) (cppvar endif : str) (endif_linenum : Z)
    (error : error_fn) : M unit :=
  p ← lift (endif_comment cppvar);
  match Match p endif with
  | Some mo =>
      when (match group mo 1 with Some u => u =s "_" | None => false end)
        (error filename endif_linenum "build/header_guard" 0
           ("#endif line should be `#endif  // " +s cppvar +s "`"))
  | None =>
      let no_single_line_comments :=
        negb (existsb (matches _ANY_LINE_COMMENT) (slice raw 1 (-1))) in
      found ←
        (if no_single_line_comments then p ← lift (endif_c_comment cppvar); mret (Match p endif)
         else mret None);
      match found with
      | Some mo =>
          when (match group mo 1 with Some u => u =s "_" | None => false end)
            (error filename endif_linenum "build/header_guard" 0
               ("#endif line should be `#endif  /* " +s cppvar +s " */`"))
      | None =>
          error filename endif_linenum "build/header_guard" 5
            ("#endif line should be `#endif  // " +s cppvar +s "`")
      end
  end.

Definition CheckForHeaderGuard (os : OS) (filename : str) (clean_lines : CleansedLines)
    (error : error_fn) : M unit :=
  let raw := lines_without_raw_strings clean_lines in
  if existsb (searches _NOLINT_GUARD) raw then skip
  else
    g ← get;
    cppvar ← lift (GetHeaderGuardCPPVariable os (root g) filename);
    let s := guard_loop 0 raw (mkGuardScan [] 0 [] [] 0) in
    if negb (nonempty (ifndef s)) || negb (nonempty (define s)) || (ifndef s <>s define s) then
      error filename 0 "build/header_guard" 5
        ("No #ifndef header guard found, suggested CPP variable is: " +s cppvar)
    else
      (if ifndef s <>s cppvar then
         raw_line ← line_at raw (ifndef_linenum s);
         ParseNolintSuppressions filename raw_line (ifndef_linenum s) error ;;
         error filename (ifndef_linenum s) "build/header_guard"
           (if ifndef s <>s (cppvar +s "_") then 5 else 0)
           ("#ifndef header guard has wrong style, please use: " +s cppvar)
       else skip) ;;
      raw_line ← line_at raw (endif_linenum s);
      ParseNolintSuppressions filename raw_line (endif_linenum s) error ;;
      check_endif filename raw cppvar (endif s) (endif_linenum s) error.

(** * Include what you use *)

(** [s[:-len(suffix)]], which is empty when the suffix is. *)
Definition drop_suffix (s suffix : str) : str :=
  if len suffix =? 0 then [] else slice_to s (- len suffix).

Definition public_internal (filename : str) : str :=
  replace (replace filename "/public/" "/") "/internal/" "/".

Definition FilesBelongToSameModule (os : OS) (filename_cc filename_h : str) : res (bool * str) :=
  is_source ← IsSource os filename_cc;
  if negb (is_source : bool) then Ok (false, [])
  else
    ext ← Extension os filename_cc;
    base ← BaseName os filename_cc;
    let filename_cc1 := drop_suffix filename_cc ext in
    let filename_cc2 :=
      match Search _TEST_FILE_SUFFIX base with
      | Some mo => drop_suffix filename_cc1 (grp mo 1)
      | None => filename_cc1
      end in
    let filename_cc3 := public_internal filename_cc2 in
    if negb (endswith filename_h ".h") then Ok (false, [])
    else
      let filename_h1 := drop_suffix filename_h ".h" in
      let filename_h2 :=
        if endswith filename_h1 "-inl" then drop_suffix filename_h1 "-inl" else filename_h1 in
      let filename_h3 := public_internal filename_h2 in
      if endswith filename_cc3 filename_h3
      then Ok (true, drop_suffix filename_cc3 filename_h3)
      else Ok (false, []).

(** [include_dict.setdefault(include, linenum)] for the lines of a header *)
Fixpoint update_include_loop (linenum : Z) (headerfile : list str) (include_dict : gmap str Z)
    : gmap str Z :=
  match headerfile with
  | [] => include_dict
  | line :: rest =>
      update_include_loop (linenum + 1) rest
        (match Search _RE_PATTERN_INCLUDE (CleanseComments line) with
         | Some mo =>
             match include_dict !! grp mo 2 with
             | Some _ => include_dict
             | None => <[grp mo 2 := linenum]> include_dict
             end
         | None => include_dict
         end)
  end.

Definition UpdateIncludeState (os : OS) (filename : str) (include_dict : gmap str Z)
    : bool * gmap str Z :=
  match open_lines os filename with
  | None => (false, include_dict)
  | Some headerfile => (true, update_include_loop 1 headerfile include_dict)
  end.

(** The headers a line needs; a dictionary from header to line and entity. *)
Definition required_dict : Type := gmap str (Z * str).

Definition in_std (line : str) (mo : match_obj) : bool :=
  let prefix := slice_to line (mstart mo) in
  endswith prefix "std::" || negb (endswith prefix "::").

Definition required_string (linenum : Z) (line : str) (required : required_dict) : required_dict :=
  match Search _RE_PATTERN_STRING line with
  | Some mo =>
      if in_std line mo then <[of_string "<string>" := (linenum, of_string "string")]> required
      else required
  | None => required
  end.

Definition required_maybe (linenum : Z) (line : str) (required : required_dict) : required_dict :=
  foldl (fun acc '(pattern, template, header) =>
           if searches pattern line then <[header := (linenum, template)]> acc else acc)
    required _re_pattern_headers_maybe_templates.

Definition required_templates (linenum : Z) (line : str) (required : required_dict)
    : required_dict :=
  foldl (fun acc '(pattern, template, header) =>
           match Search pattern line with
           | Some mo =>
               if in_std line mo then <[header := (linenum, template)]> acc else acc
           | None => acc
           end)
    required _re_pattern_templates.

Definition required_line (linenum : Z) (line : str) (required : required_dict) : required_dict :=
  match line with
  | [] => required
  | c :: _ =>
      if ceq c "#" then required
      else
        let required := required_maybe linenum line (required_string linenum line required) in
        if negb (contains line "<") then required else required_templates linenum line required
  end.

Fixpoint required_loop (linenum : Z) (ls : list str) (required : required_dict) : required_dict :=
  match ls with
  | [] => required
  | line :: ls' => required_loop (linenum + 1) ls' (required_line linenum line required)
  end.

(** The headers of the same module are read; the flag says that one was found. *)
Fixpoint module_loop (os : OS) (abs_filename : str) (header_keys : list str)
    (found : bool) (include_dict : gmap str Z) : res (bool * gmap str Z) :=
  match header_keys with
  | [] => Ok (found, include_dict)
  | header :: keys =>
      '(same_module, common_path) ← FilesBelongToSameModule os abs_filename header;
      if (same_module : bool) then
        let '(added, include_dict) := UpdateIncludeState os (common_path +s header) include_dict in
        module_loop os abs_filename keys (found || added) include_dict
      else module_loop os abs_filename keys found include_dict
  end.

(** Python leaves the iteration order of a dictionary open: [order] lists the items
    of [required], [keys] those of [include_dict]. *)
Definition CheckForIncludeWhatYouUse (os : OS) (keys : gmap str Z -> list str)
    (order : required_dict -> list (str * (Z * str))) (filename : str)
    (clean_lines : CleansedLines) (st : IncludeState) (error : error_fn) : M unit :=
  let required := required_loop 0 (elided clean_lines) ∅ in
  let include_dict : gmap str Z := list_to_map (reverse (concat (include_list st))) in
  let abs_filename := re_sub (rx "_flymake\.cc$") ".cc" (FullName os filename) in
  '(header_found, include_dict) ←
    lift (module_loop os abs_filename (keys include_dict) false include_dict);
  if endswith filename ".cc" && negb header_found then skip
  else
    for_each (order required) (fun '(header, (linenum, template)) =>
      match (include_dict : gmap str Z) !! strip_chars header "<>`" with
      | Some _ => skip
      | None =>
          error filename linenum "build/include_what_you_use" 4
            ("Add #include " +s header +s " for " +s template)
      end).
