(* ===== verification/IncludesFacts.v ===== *)
(** Properties of include directives: the orders of headers the section machine accepts
    are a regular language, the include list holds each header once with its first line,
    a directive adds its header to the innermost section and changes no other, canonical
    names are fixed points, and the checks of a directive and of the header guard return
    when the search for the repository does. *)

From S2P Require Import Prelude PyStr Regex RegexFacts State StateFacts Cleanse.
From S2P Require Import CleanseFacts Expr ExprFacts FilePath FilePathFacts Nesting.
From S2P Require Import NestingFacts Includes.

Open Scope Z_scope.
Open Scope py_scope.

(** * Header order *)

(** The orders of types the code accepts: headers the file may implement, C system
    headers, C++ system headers, then everything but system headers, among which the
    headers the file may implement come again, before or after the others. *)
Definition is_mine (t : Z) : Prop := t = _LIKELY_MY_HEADER \/ t = _POSSIBLE_MY_HEADER.
Definition is_other (t : Z) : Prop := is_mine t \/ t = _OTHER_HEADER.

Definition accepted_order (types : list Z) : Prop :=
  exists mine c cpp other,
    types = mine ++ c ++ cpp ++ other /\ Forall is_mine mine
    /\ Forall (fun t => t = _C_SYS_HEADER) c /\ Forall (fun t => t = _CPP_SYS_HEADER) cpp
    /\ Forall is_other other.

(** The messages [CheckNextIncludeOrder] gives for a sequence of headers. *)
Fixpoint order_messages (types : list Z) (st : IncludeState) : res (list str) :=
  match types with
  | [] => Ok []
  | t :: types' =>
      '(message, st) ← CheckNextIncludeOrder t st;
      messages ← order_messages types' st;
      Ok (message :: messages)
  end.

Definition valid_type (t : Z) : Prop := 1 <= t <= 5.
Definition valid_section (s : Z) : Prop := 0 <= s <= 4.

(** What may follow in each section. *)
Definition accepted_from (s : Z) (types : list Z) : Prop :=
  exists mine c cpp other,
    types = mine ++ c ++ cpp ++ other /\ Forall is_mine mine
    /\ Forall (fun t => t = _C_SYS_HEADER) c /\ Forall (fun t => t = _CPP_SYS_HEADER) cpp
    /\ Forall is_other other
    /\ (_MY_H_SECTION < s -> mine = []) /\ (_C_SECTION < s -> c = []) /\ (_CPP_SECTION < s -> cpp = []).

Lemma valid_type_cases t : valid_type t ->
  t = _C_SYS_HEADER \/ t = _CPP_SYS_HEADER \/ t = _LIKELY_MY_HEADER \/ t = _POSSIBLE_MY_HEADER
  \/ t = _OTHER_HEADER.
Proof.
  unfold valid_type, _C_SYS_HEADER, _CPP_SYS_HEADER, _LIKELY_MY_HEADER, _POSSIBLE_MY_HEADER,
    _OTHER_HEADER. lia.
Qed.

Lemma valid_section_cases s : valid_section s ->
  s = _INITIAL_SECTION \/ s = _MY_H_SECTION \/ s = _C_SECTION \/ s = _CPP_SECTION
  \/ s = _OTHER_H_SECTION.
Proof.
  unfold valid_section, _INITIAL_SECTION, _MY_H_SECTION, _C_SECTION, _CPP_SECTION,
    _OTHER_H_SECTION. lia.
Qed.

(** One step of the order, by cases on the type and the section. *)
Lemma CheckNextIncludeOrder_step t st :
  valid_type t -> valid_section (section st) ->
  exists m st', CheckNextIncludeOrder t st = Ok (m, st')
    /\ include_list st' = include_list st /\ valid_section (section st')
    /\ (nonempty m = false <-> exists s, next_section t (section st) = Ok (Some s))
    /\ (forall s, next_section t (section st) = Ok (Some s) -> section st' = s)
    /\ (section st <= section st').
Proof.
  intros Ht Hs. destruct st as [l s h]. cbn [section include_list] in *.
  destruct (valid_type_cases t Ht) as [->|[->|[->|[->| ->]]]];
    destruct (valid_section_cases s Hs) as [->|[->|[->|[->| ->]]]];
    (eexists _, _; split; [vm_compute; reflexivity|]);
    (split; [done|]); (split; [by vm_compute|]);
    (split; [split; [intros H; first [discriminate H | by eexists]
                    |intros [s H]; first [discriminate H | done]]|]);
    (split; [intros s H; first [discriminate H | by injection H as <-]|by vm_compute]).
Qed.

Ltac unfold_headers :=
  unfold is_other, is_mine, _MY_H_SECTION, _C_SECTION, _CPP_SECTION, _OTHER_H_SECTION,
    _INITIAL_SECTION, _C_SYS_HEADER, _CPP_SYS_HEADER, _LIKELY_MY_HEADER, _POSSIBLE_MY_HEADER,
    _OTHER_HEADER in *.

(** The sections a header leads to. *)
Lemma next_section_spec t s s' :
  valid_type t ->
  next_section t s = Ok (Some s') <->
  (t = _C_SYS_HEADER /\ s <= _C_SECTION /\ s' = _C_SECTION)
  \/ (t = _CPP_SYS_HEADER /\ s <= _CPP_SECTION /\ s' = _CPP_SECTION)
  \/ (is_mine t /\ s <= _MY_H_SECTION /\ s' = _MY_H_SECTION)
  \/ (is_mine t /\ _MY_H_SECTION < s /\ s' = _OTHER_H_SECTION)
  \/ (t = _OTHER_HEADER /\ s' = _OTHER_H_SECTION).
Proof.
  intros Ht. destruct (valid_type_cases t Ht) as [->|[->|[->|[->| ->]]]];
    unfold next_section; unfold_headers; cbn [Z.eqb Pos.eqb];
    repeat match goal with |- context [?a <=? ?b] => destruct (Z.leb_spec a b) end;
    (split; [intros [= <-]; lia|intros H']); try (f_equal; f_equal; lia); exfalso; lia.
Qed.

(** What a header accepted in a section can be followed by. *)
Lemma accepted_cons t ts s :
  valid_type t ->
  accepted_from s (t :: ts) <-> exists s', next_section t s = Ok (Some s') /\ accepted_from s' ts.
Proof.
  intros Ht. setoid_rewrite next_section_spec; [|done]. split.
  - intros (mine & c & cpp & other & Hts & Hm & Hc & Hp & Ho & H1 & H2 & H3).
    destruct mine as [|x mine]; simplify_eq/=.
    2: { apply Forall_cons in Hm as [Hx Hm].
         destruct (Z.le_gt_cases s _MY_H_SECTION); [|exfalso; assert (_ :: _ = @nil Z) by (apply H1; lia); done].
         exists _MY_H_SECTION. split; [tauto|]. exists mine, c, cpp, other.
         unfold_headers. repeat split; (done || lia). }
    destruct c as [|x c]; simplify_eq/=.
    2: { apply Forall_cons in Hc as [-> Hc].
         destruct (Z.le_gt_cases s _C_SECTION); [|exfalso; assert (_ :: _ = @nil Z) by (apply H2; lia); done].
         exists _C_SECTION. split; [tauto|]. exists [], c, cpp, other.
         unfold_headers. repeat split; (done || lia). }
    destruct cpp as [|x cpp]; simplify_eq/=.
    2: { apply Forall_cons in Hp as [-> Hp].
         destruct (Z.le_gt_cases s _CPP_SECTION); [|exfalso; assert (_ :: _ = @nil Z) by (apply H3; lia); done].
         exists _CPP_SECTION. split; [tauto|]. exists [], [], cpp, other.
         unfold_headers. repeat split; (done || lia). }
    apply Forall_cons in Ho as [Hx Ho].
    assert (forall s', accepted_from s' ts) as Hacc.
    { intros s'. exists [], [], [], ts. by repeat split. }
    destruct Hx as [Hx| ->].
    + destruct (Z.le_gt_cases s _MY_H_SECTION); [exists _MY_H_SECTION|exists _OTHER_H_SECTION];
        (split; [tauto|apply Hacc]).
    + exists _OTHER_H_SECTION. split; [tauto|apply Hacc].
  - intros (s' & Hs & mine & c & cpp & other & -> & Hm & Hc & Hp & Ho & H1 & H2 & H3).
    destruct Hs as [(-> & Hs & ->)|[(-> & Hs & ->)|[(Hx & Hs & ->)|[(Hx & Hs & ->)|(-> & ->)]]]].
    + rewrite H1 by (by vm_compute). exists [], (_C_SYS_HEADER :: c), cpp, other.
      repeat split; try done; [by constructor|unfold_headers; lia|unfold_headers; lia].
    + rewrite H1, H2 by (by vm_compute). exists [], [], (_CPP_SYS_HEADER :: cpp), other.
      repeat split; try done; [by constructor|unfold_headers; lia].
    + exists (t :: mine), c, cpp, other.
      repeat split; try done; [by constructor|unfold_headers; lia..].
    + rewrite H1, H2, H3 by (by vm_compute). exists [], [], [], (t :: other).
      repeat split; try done. constructor; [by left|done].
    + rewrite H1, H2, H3 by (by vm_compute). exists [], [], [], (_OTHER_HEADER :: other).
      repeat split; try done. constructor; [by right|done].
Qed.

Lemma order_messages_spec types st :
  Forall valid_type types -> valid_section (section st) ->
  exists messages, order_messages types st = Ok messages
    /\ length messages = length types
    /\ (Forall (fun m => nonempty m = false) messages <-> accepted_from (section st) types).
Proof.
  intros Hv. revert st. induction Hv as [|t types Ht Hv IH]; intros st Hs.
  { exists []. split; [done|]. split; [done|]. split; [|constructor].
    intros _. exists [], [], [], []. by repeat split. }
  cbn [order_messages].
  destruct (CheckNextIncludeOrder_step t st Ht Hs) as (m & st' & -> & _ & Hs' & Hm & Hnext & _).
  cbn [mbind res_bind]. destruct (IH st' Hs') as (ms & -> & Hlen & Hms). cbn [mbind res_bind].
  exists (m :: ms). split; [done|]. split; [simpl; by rewrite Hlen|].
  rewrite Forall_cons, Hms, Hm, accepted_cons by done. split.
  - intros [[s Hns] Hacc]. exists s. split; [done|]. by rewrite <- (Hnext s Hns).
  - intros (s & Hns & Hacc). split; [by exists s|]. by rewrite (Hnext s Hns).
Qed.

(** C8: a sequence of headers draws no order message exactly when it consists of headers
    the file may implement, then C system headers, then C++ system headers, then headers
    that are no system headers, in any order: a header the file may implement is accepted
    there even after other headers.  This is wider than the five ranks of the comment in
    [CheckIncludeLine], which puts such a header before the other headers and says that a
    lower rank after a higher one is complained about. *)
Theorem include_order_language types :
  Forall valid_type types ->
  exists messages, order_messages types IncludeState_init = Ok messages
    /\ (Forall (fun m => nonempty m = false) messages <-> accepted_order types).
Proof.
  intros Hv. destruct (order_messages_spec types IncludeState_init Hv) as (ms & H & _ & Hms);
    [by vm_compute|].
  exists ms. split; [done|]. rewrite Hms. unfold accepted_from, accepted_order. split.
  - intros (mine & c & cpp & other & ? & ? & ? & ? & ? & _). by exists mine, c, cpp, other.
  - intros (mine & c & cpp & other & ? & ? & ? & ? & ?). exists mine, c, cpp, other.
    repeat split; done.
Qed.

Lemma include_order_language_witness :
  Forall valid_type [3; 1; 2; 2; 4; 5]
  /\ exists messages, order_messages [3; 1; 2; 2; 4; 5] IncludeState_init = Ok messages
       /\ (Forall (fun m => nonempty m = false) messages <-> accepted_order [3; 1; 2; 2; 4; 5]).
Proof.
  assert (Forall valid_type [3; 1; 2; 2; 4; 5]) as H by (repeat constructor; by vm_compute).
  split; [exact H|]. exact (include_order_language _ H).
Defined.

(** * The include list *)

Record include_ok (st : IncludeState) : Prop := mkIncludeOk {
  include_nonempty : include_list st <> [];
  include_nodup : NoDup (fst <$> concat (include_list st));
  include_lines : Forall (fun f => 0 <= f.2) (concat (include_list st));
  include_section : valid_section (section st)
}.

Lemma include_ok_init : include_ok IncludeState_init.
Proof. split; simpl; [done|constructor|constructor|by vm_compute]. Qed.

Lemma update_last_snoc {A} (f : A -> A) (l : list A) x : update_last f (l ++ [x]) = l ++ [f x].
Proof. unfold update_last. by rewrite reverse_snoc, reverse_involutive. Qed.

Lemma snoc_of_nonempty {A} (l : list A) : l <> [] -> exists l' x, l = l' ++ [x].
Proof. intros H. destruct l as [|x l _] using rev_ind; [done|]. by exists l, x. Qed.

Lemma find_in_Some header l v :
  find_in header l = Some v -> (header, v) ∈ l.
Proof.
  induction l as [|f l IH]; simpl; [done|]. destruct (f.1 =s header) eqn:E.
  - intros [= <-]. bool_hyps. destruct f. simpl in *. subst. left.
  - intros H. right. by apply IH.
Qed.

Lemma find_in_None header l : find_in header l = None <-> header ∉ l.*1.
Proof.
  induction l as [|f l IH]; simpl; [split; [intros _; apply not_elem_of_nil|done]|].
  destruct (f.1 =s header) eqn:E; bool_hyps.
  - split; [done|]. intros H. exfalso. apply H. subst. left.
  - rewrite IH, not_elem_of_cons. split; [intros H; split; [congruence|done]|tauto].
Qed.

Lemma find_in_app header l1 l2 :
  find_in header (l1 ++ l2)
  = match find_in header l1 with Some v => Some v | None => find_in header l2 end.
Proof. induction l1 as [|f l1 IH]; simpl; [done|]. by destruct (f.1 =s header). Qed.

Lemma FindHeader_absent header st :
  include_ok st -> FindHeader header st < 0 -> header ∉ (concat (include_list st)).*1.
Proof.
  intros [_ _ Hl _] H. unfold FindHeader in H. destruct (find_in _ _) as [v|] eqn:E.
  - apply find_in_Some in E. rewrite Forall_forall in Hl. specialize (Hl _ E). simpl in *. lia.
  - by apply find_in_None.
Qed.

(** [FindHeader] returns the line of the first include of the header, and -1
    exactly when it has not been included. *)
Lemma FindHeader_first header st :
  Forall (fun f => 0 <= f.2) (concat (include_list st)) ->
  (FindHeader header st = -1 <-> header ∉ (concat (include_list st)).*1)
  /\ forall v, FindHeader header st = v -> 0 <= v ->
       exists l1 l2, concat (include_list st) = l1 ++ (header, v) :: l2 /\ header ∉ l1.*1.
Proof.
  intros Hl. unfold FindHeader. rewrite <- find_in_None.
  destruct (find_in header _) as [v|] eqn:E; simpl.
  - split.
    + split; [|done]. intros ->. apply find_in_Some in E. rewrite Forall_forall in Hl.
      specialize (Hl _ E). simpl in Hl. lia.
    + intros ? <- _. clear Hl. revert E. induction (concat (include_list st)) as [|f l IH]; [done|].
      simpl. destruct (f.1 =s header) eqn:Ef; bool_hyps.
      * intros [= <-]. exists [], l. split; [by destruct f; simpl in *; subst|]. apply not_elem_of_nil.
      * intros (l1 & l2 & -> & Hn)%IH. exists (f :: l1), l2. split; [done|]. simpl.
        apply not_elem_of_cons. split; [congruence|done].
  - split; [done|]. intros v <-. lia.
Qed.

Definition sample_includes : IncludeState :=
  mkIncludeState [[(of_string "a.h", 3); (of_string "b.h", 4)]; [(of_string "a.h", 9)]] 4 [].

Lemma FindHeader_first_witness :
  Forall (fun f => 0 <= f.2) (concat (include_list sample_includes))
  /\ exists l1 l2, concat (include_list sample_includes) = l1 ++ (of_string "a.h", 3) :: l2
       /\ of_string "a.h" ∉ l1.*1.
Proof.
  assert (Forall (fun f : str * Z => 0 <= f.2) (concat (include_list sample_includes))) as H.
  { repeat constructor; by vm_compute. }
  split; [exact H|]. apply (proj2 (FindHeader_first "a.h" sample_includes H)); by vm_compute.
Defined.

Lemma include_ok_append include linenum st :
  include_ok st -> 0 <= linenum -> FindHeader include st < 0 ->
  let st' := mkIncludeState (update_last (fun l => l ++ [(include, linenum)]) (include_list st))
               (section st) (last_header st) in
  include_ok st' /\ concat (include_list st') = concat (include_list st) ++ [(include, linenum)].
Proof.
  intros Hok Hl Hf. pose proof (FindHeader_absent _ _ Hok Hf) as Hn.
  destruct Hok as [Hne Hnd Hlines Hsec].
  destruct (snoc_of_nonempty _ Hne) as (l & x & E). cbv zeta. cbn [include_list section].
  assert (concat (update_last (fun l => l ++ [(include, linenum)]) (include_list st))
          = concat (include_list st) ++ [(include, linenum)]) as Hc.
  { by rewrite E, update_last_snoc, !concat_app; simpl; rewrite !app_nil_r, app_assoc. }
  split; [|done]. split; cbn [include_list section].
  - rewrite E, update_last_snoc. by destruct l.
  - rewrite Hc, fmap_app. apply NoDup_app. split; [done|]. split; [|apply NoDup_singleton].
    intros y Hy ->%list_elem_of_singleton. by apply Hn.
  - rewrite Hc. apply Forall_app. by repeat constructor.
  - done.
Qed.

Lemma FindHeader_append h include linenum st st' :
  concat (include_list st') = concat (include_list st) ++ [(include, linenum)] ->
  0 <= FindHeader h st -> FindHeader h st' = FindHeader h st.
Proof.
  intros Hc H. unfold FindHeader in *. rewrite Hc, find_in_app.
  by destruct (find_in h (concat (include_list st))).
Qed.

Lemma ClassifyInclude_ok os filename include is_system :
  no_root_svn os -> exists t, _ClassifyInclude os filename include is_system = Ok t /\ valid_type t.
Proof.
  intros Hno. unfold _ClassifyInclude. destruct is_system.
  { destruct (str_in _ _); eexists; (split; [done|by vm_compute]). }
  destruct (RepositoryName_ok os filename Hno) as [name ->]. cbn [mbind res_bind].
  destruct (Path.split _) as [td tb]. destruct (Path.split _) as [id ib].
  destruct (_ && _); [eexists; split; [done|by vm_compute]|].
  destruct (Match _ tb); [|eexists; split; [done|by vm_compute]].
  destruct (Match _ ib); [|eexists; split; [done|by vm_compute]].
  destruct (_ =s _); eexists; (split; [done|by vm_compute]).
Qed.

(** What a directive may do to the state. *)
Definition extends (st st' : IncludeState) : Prop :=
  include_ok st' /\ (forall h, 0 <= FindHeader h st -> FindHeader h st' = FindHeader h st)
  /\ section st <= section st'.

Lemma extends_refl st : include_ok st -> extends st st.
Proof. intros H. split; [done|]. split; [done|lia]. Qed.

Lemma lift_ok I {A} (r : res A) (P : A -> Prop) :
  (exists a, r = Ok a /\ P a) -> total I (lift r) P.
Proof. intros (a & H & HP). by apply (total_lift _ _ _ a). Qed.

Lemma IsInAlphabeticalOrder_ok st cl n header :
  (n < length (elided cl))%nat -> exists b, IsInAlphabeticalOrder st cl (Z.of_nat n) header = Ok b.
Proof.
  intros Hn. unfold IsInAlphabeticalOrder. destruct (str_ltb _ _); [|by eexists].
  assert (exists x, idx (elided cl) (Z.of_nat n - 1) = Ok x) as [x ->]; [|by eexists].
  unfold idx, py_index. destruct (Z.ltb_spec (Z.of_nat n - 1) 0).
  - destruct (Z.ltb_spec (Z.of_nat (length (elided cl)) + (Z.of_nat n - 1)) 0); [lia|].
    destruct (lookup_lt_is_Some_2 (elided cl)
      (Z.to_nat (Z.of_nat (length (elided cl)) + (Z.of_nat n - 1)))) as [x ->]; [lia|by eexists].
  - destruct (lookup_lt_is_Some_2 (elided cl) (Z.to_nat (Z.of_nat n - 1))) as [x ->]; [lia|by eexists].
Qed.

(** The directive of an include that is entered in the list: the header is new, no source
    file of another package and no third-party header. *)
Definition recorded (os : OS) (filename include : str) (st : IncludeState) : bool :=
  (FindHeader include st <? 0)
  && (negb (endswith include ".cc")
      || match RepositoryName os filename with
         | Ok name => Path.dirname name =s Path.dirname include
         | Raise _ => false
         end)
  && negb (matches _THIRD_PARTY_HEADERS_PATTERN include).

(** The state after the directive [include], of type [t], on line [n]. *)
Definition adds (include : str) (n t : Z) (st st' : IncludeState) : Prop :=
  (exists outer inner, include_list st = outer ++ [inner]
     /\ include_list st' = outer ++ [inner ++ [(include, n)]])
  /\ last_header st' = CanonicalizeAlphabeticalOrder include
  /\ forall s, next_section t (section st) = Ok (Some s) -> section st' = s.

(** What [CheckIncludeLine] does to the state on a line. *)
Definition directive_effect (os : OS) (filename line : str) (n : Z) (st st' : IncludeState) : Prop :=
  match Search _RE_PATTERN_INCLUDE line with
  | None => st' = st
  | Some mo =>
      if recorded os filename (grp mo 2) st
      then exists t, _ClassifyInclude os filename (grp mo 2) (grp mo 1 =s "<") = Ok t
             /\ adds (grp mo 2) n t st st'
      else st' = st
  end.

Lemma recorded_extends os filename include n st :
  no_root_svn os -> include_ok st -> 0 <= n -> FindHeader include st < 0 ->
  let st1 := mkIncludeState (update_last (fun l => l ++ [(include, n)]) (include_list st))
               (section st) (last_header st) in
  forall is_system, exists t m st2,
    _ClassifyInclude os filename include is_system = Ok t
    /\ CheckNextIncludeOrder t st1 = Ok (m, st2)
    /\ let st' := SetLastHeader (CanonicalizeAlphabeticalOrder include) st2 in
       extends st st' /\ adds include n t st st'.
Proof.
  intros Hno Hok Hn Hf st1 is_system.
  destruct (include_ok_append include n st Hok Hn Hf) as [Hok1 Hcat]. fold st1 in Hok1, Hcat.
  destruct (ClassifyInclude_ok os filename include is_system Hno) as (t & Ht & Hvt).
  destruct (CheckNextIncludeOrder_step t st1 Hvt (include_section _ Hok1))
    as (m & st2 & Hst2 & Hl2 & Hs2 & _ & Hnext & Hmono).
  exists t, m, st2. split; [done|]. split; [done|]. cbv zeta. split.
  - split; [|split; [|done]].
    + destruct Hok1 as [? ? ? _]. split; simpl; rewrite ?Hl2; done.
    + intros h Hh. rewrite <- (FindHeader_append h _ _ st st1 Hcat Hh).
      unfold FindHeader. simpl. by rewrite Hl2.
  - split; [|by split]. destruct (snoc_of_nonempty _ (include_nonempty _ Hok)) as (l & x & E).
    exists l, x. split; [done|]. simpl. rewrite Hl2. unfold st1. simpl. by rewrite E, update_last_snoc.
Qed.

(** C31: [CheckIncludeLine] returns, when the working directory is absolute and no root
    directory is a Subversion checkout.  The include list stays free of duplicate headers, a
    header once found keeps its line, and the section never goes back.  A line without an
    include directive, a duplicate, a source file of another package and a third-party
    header leave the state alone; any other directive is entered with its line at the end of
    the innermost section of the list and becomes the last header, and leads to the section
    its type leads to, if it is in order. *)
Theorem CheckIncludeLine_effect I error `{!Handler I error} os filename cl n st :
  no_root_svn os -> clean_ok cl -> (n < length (elided cl))%nat -> include_ok st ->
  total I (CheckIncludeLine os filename cl (Z.of_nat n) st error)
    (fun st' => extends st st' /\ exists line, lines cl !! n = Some line
                  /\ directive_effect os filename line (Z.of_nat n) st st').
Proof.
  intros Hno [Hc1 Hc2] Hn Hok. unfold CheckIncludeLine.
  destruct (lookup_lt_is_Some_2 (lines cl) n ltac:(lia)) as [line Hline].
  eapply total_bind; [apply (total_lift _ _ (fun x => x = line) line); [by apply idx_Ok|done]|]. intros ? ->.
  total_step. { destruct (Match _ _); repeat total_step. }
  unfold directive_effect. destruct (Search _RE_PATTERN_INCLUDE line) as [mo|] eqn:Es.
  2: { apply total_ret. split; [by apply extends_refl|]. exists line. by rewrite Es. }
  assert (recorded os filename (grp mo 2) st = false ->
          extends st st /\ exists line0, lines cl !! n = Some line0 /\ directive_effect os filename line0 (Z.of_nat n) st st)
    as Hsame.
  { intros Hr. split; [by apply extends_refl|]. exists line. split; [done|].
    unfold directive_effect. by rewrite Es, Hr. }
  unfold recorded in Hsame. destruct (Z.leb_spec 0 (FindHeader (grp mo 2) st)) as [|Hf].
  { total_step; [repeat total_step|]. apply total_ret, Hsame.
    by destruct (Z.ltb_spec (FindHeader (grp mo 2) st) 0); [lia|]. }
  destruct (RepositoryName_ok os filename Hno) as [name Hname]. rewrite Hname in Hsame.
  eapply (total_bind _ _ _ (fun b => b = endswith (grp mo 2) ".cc"
                                        && (Path.dirname name <>s Path.dirname (grp mo 2)))).
  { destruct (endswith _ _); [|by apply total_ret].
    eapply total_bind; [by apply (total_lift _ _ (fun x => x = name) _ Hname)|]. intros ? ->.
    by apply total_ret. }
  intros b Hb. destruct b.
  { total_step; [repeat total_step|]. apply total_ret, Hsame.
    symmetry in Hb. apply andb_prop in Hb as [-> Hd]. by apply negb_true_iff in Hd as ->; rewrite andb_false_r. }
  destruct (matches _THIRD_PARTY_HEADERS_PATTERN (grp mo 2)) eqn:E3; cbn [negb].
  { apply total_ret, Hsame. by rewrite andb_false_r. }
  destruct (recorded_extends os filename (grp mo 2) (Z.of_nat n) st Hno Hok ltac:(lia) Hf (grp mo 1 =s "<"))
    as (t & m & st2 & Ht & Hst2 & Hext).
  eapply total_bind; [by apply (total_lift _ _ (fun x => x = t) _ Ht)|]. intros ? ->.
  eapply total_bind; [by apply (total_lift _ _ (fun x => x = (m, st2)) _ Hst2)|]. intros ? ->.
  total_step.
  { destruct (nonempty m); [|repeat total_step].
    destruct (BaseName_ok os filename Hno) as [base Hbase].
    eapply total_bind; [by apply (total_lift _ _ (fun x => x = base) _ Hbase)|]. intros ? ->.
    repeat total_step. }
  destruct (IsInAlphabeticalOrder_ok st2 cl n (CanonicalizeAlphabeticalOrder (grp mo 2)) Hn) as [b Hb'].
  eapply total_bind; [by apply (total_lift _ _ (fun x => x = b) _ Hb')|]. intros ? ->.
  total_step; [repeat total_step|]. apply total_ret.
  split; [apply Hext|]. exists line. split; [done|]. rewrite Es. unfold recorded. rewrite Hname, E3.
  assert (negb (endswith (grp mo 2) ".cc") || (Path.dirname name =s Path.dirname (grp mo 2)) = true) as ->.
  { symmetry in Hb. destruct (endswith _ _); [|done]. by apply negb_false_iff in Hb as ->. }
  destruct (Z.ltb_spec (FindHeader (grp mo 2) st) 0); [|lia]. exists t. by split; [|apply Hext].
Qed.

Definition sample_include_lines : CleansedLines :=
  let ls := of_string <$> ["// Copyright"; "#include `p/a.h`"; "#include <vector>"; "#include <stdio.h>"]%string in
  mkCleansedLines ls ls ls ls.

Lemma CheckIncludeLine_effect_witness :
  exists g' st', CheckIncludeLine git_os "src/a.cc" sample_include_lines 2 IncludeState_init Error
                   globals_init = (g', Ok st')
    /\ include_list st' = [[(of_string "vector", 2)]] /\ section st' = _CPP_SECTION.
Proof.
  destruct (CheckIncludeLine_effect sound Error git_os "src/a.cc" sample_include_lines 2
              IncludeState_init git_os_no_svn) with (g := globals_init)
    as (g' & st' & E & _ & _ & line & Hl & Heff).
  - by split.
  - apply Nat.ltb_lt. reflexivity.
  - apply include_ok_init.
  - apply sound_init.
  - exists g', st'. split; [exact E|]. injection Hl as <-. hnf in Heff.
    destruct Heff as (t & Ht & ([|x outer] & inner & Hi & Hl') & _ & Hs).
    + injection Hi as <-. injection Ht as <-. split; [exact Hl'|]. by apply Hs.
    + by destruct outer.
Defined.

Lemma ResetSection_ok directive st : include_ok st -> include_ok (ResetSection directive st).
Proof.
  intros [Hne Hnd Hl Hs]. unfold ResetSection.
  destruct (str_in _ _).
  { split; cbn [include_list section]; rewrite ?concat_app; simpl; rewrite ?app_nil_r; try done.
    by destruct (include_list st). }
  destruct (str_in _ _); [|by split].
  destruct (snoc_of_nonempty _ Hne) as (l & x & E). rewrite E, update_last_snoc.
  rewrite E, concat_app in Hnd, Hl. simpl in Hnd, Hl. rewrite app_nil_r in Hnd, Hl.
  split; cbn [include_list section]; rewrite ?concat_app; simpl; rewrite ?app_nil_r; try done.
  - by destruct l.
  - rewrite fmap_app in Hnd. by apply NoDup_app in Hnd as [? _].
  - by apply Forall_app in Hl as [? _].
Qed.

(** * Canonical names *)

Lemma lower_not_dash s : contains s "-" = false -> contains (lower s) "-" = false.
Proof.
  intros H. destruct (contains (lower s) "-") eqn:E; [|done]. exfalso.
  apply contains_spec in E as (a & b & E).
  assert (Ascii.N_of_ascii "-" ∈ lower s) as Hin.
  { rewrite E. apply elem_of_app. right. left. }
  unfold lower in Hin. apply list_elem_of_fmap in Hin as (c & Hc & Hin).
  assert (c = Ascii.N_of_ascii "-") as ->.
  { unfold lower_char, is_upper in Hc. destruct (_ && _) eqn:Eu; [|done].
    apply andb_prop in Eu as [?%N.leb_le ?%N.leb_le]. change (Ascii.N_of_ascii "-") with 45%N in Hc. lia. }
  assert (contains s "-" = true) as Ht; [|congruence].
  apply contains_spec. apply list_elem_of_split in Hin as (l1 & l2 & ->). by exists l1, l2.
Qed.

Lemma replace_dash_gone s : contains (replace s "-" "_") "-" = false.
Proof.
  change (replace s "-" "_") with (replace s [Ascii.N_of_ascii "-"] [Ascii.N_of_ascii "_"]).
  rewrite replace_char. destruct (contains _ _) eqn:E; [|done]. exfalso.
  apply contains_spec in E as (a & b & E).
  assert (Ascii.N_of_ascii "-" ∈ (fun c => if (Ascii.N_of_ascii "-" =? c)%N
            then Ascii.N_of_ascii "_" else c) <$> s) as Hin.
  { rewrite E. apply elem_of_app. right. left. }
  apply list_elem_of_fmap in Hin as (c & Hc & _).
  destruct (N.eqb_spec (Ascii.N_of_ascii "-") c); [discriminate Hc|congruence].
Qed.

Lemma contains_app_l s a b : contains s (a ++ b) = true -> contains s a = true.
Proof.
  rewrite !contains_spec. intros (x & y & ->). exists x, (b ++ y). by rewrite !app_assoc.
Qed.

(** The canonical form of a header path is a fixed point of canonicalization. *)
Lemma Canonicalize_idempotent header_path :
  CanonicalizeAlphabeticalOrder (CanonicalizeAlphabeticalOrder header_path)
  = CanonicalizeAlphabeticalOrder header_path.
Proof.
  set (s := CanonicalizeAlphabeticalOrder header_path).
  assert (contains s "-" = false) as Hs by apply lower_not_dash, replace_dash_gone.
  unfold CanonicalizeAlphabeticalOrder at 1.
  rewrite (replace_not_contains s "-inl.h" ".h").
  2: { destruct (contains s "-inl.h") eqn:E; [|done]. change (of_string "-inl.h")
         with (of_string "-" ++ of_string "inl.h") in E. apply contains_app_l in E. congruence. }
  rewrite replace_not_contains by done. unfold s, CanonicalizeAlphabeticalOrder. apply lower_idemp.
Qed.

(** * Header guards *)

Lemma guard_name v : Forall guard_char v -> name_ok v.
Proof.
  intros H. eapply Forall_impl; [exact H|]. intros c Hc. left. unfold re_word, is_alnum.
  destruct Hc as [-> |[-> | ->]]; by rewrite ?orb_true_r.
Qed.

(** A pattern with the variable in the middle compiles. *)
Lemma name_not_lazy w ts : name_ok w -> w <> [] -> not_lazy ((TC <$> w) ++ ts) = true.
Proof.
  intros Hn Hne. destruct w as [|c w]; [done|]. apply Forall_cons in Hn as [Hc%name_char_plain _].
  simpl. destruct (ceq c "?") eqn:E; [|done]. apply N.eqb_eq in E as ->. by vm_compute in Hc.
Qed.

Ltac compile_around v tail n Hn Hne :=
  eapply (re_compile_parts _ _ (12 + (length (TC <$> v) + n)));
  [ reflexivity
  | erewrite tokenize_app by (vm_compute; reflexivity);
    rewrite tokenize_name by done; change (tokenize _) with (Some tail); reflexivity
  | rewrite !length_app, length_fmap; simpl length; lia
  | cbn [Nat.add];
    pose proof (name_not_lazy v tail Hn Hne) as Hl; cbn [app];
    repeat pattern_step Hl ].

Lemma endif_comment_compiles v : name_ok v -> v <> [] -> exists p, endif_comment v = Ok p.
Proof.
  intros Hn Hne. unfold endif_comment.
  match goal with |- context [re_compile ?s] =>
    enough (exists p, re_compile s = Some p) as [p ->] by by exists p end.
  set (tail := [TC 40; TC 95; TC 41; TC 63; TE 98] : list tok).
  assert (forall acc, exists r, parse_alt 10 tail 0 acc = Some (r, [], 1%nat)) as Htail.
  { intros acc. eexists. reflexivity. }
  compile_around v tail 10%nat Hn Hne.
  match goal with |- context [parse_alt _ _ 0 ?acc] =>
    destruct (parse_alt_literals (TC <$> v) 10 tail 0 acc (name_literals v Hn)) as [es ->];
    destruct (Htail (es ++ acc)) as [r Hr] end.
  eexists _, _. exact Hr.
Qed.

Lemma endif_c_comment_compiles v : name_ok v -> v <> [] -> exists p, endif_c_comment v = Ok p.
Proof.
  intros Hn Hne. unfold endif_c_comment.
  match goal with |- context [re_compile ?s] =>
    enough (exists p, re_compile s = Some p) as [p ->] by by exists p end.
  set (tail := [TC 40; TC 95; TC 41; TC 63; TE 115; TC 42; TE 42; TC 47] : list tok).
  assert (forall acc, exists r, parse_alt 15 tail 0 acc = Some (r, [], 1%nat)) as Htail.
  { intros acc. eexists. reflexivity. }
  compile_around v tail 15%nat Hn Hne.
  match goal with |- context [parse_alt _ _ 0 ?acc] =>
    destruct (parse_alt_literals (TC <$> v) 15 tail 0 acc (name_literals v Hn)) as [es ->];
    destruct (Htail (es ++ acc)) as [r Hr] end.
  eexists _, _. exact Hr.
Qed.

(** The line numbers the search finds are lines of the file. *)
Definition scan_in_range (n : Z) (s : GuardScan) : Prop :=
  (0 <= ifndef_linenum s < n \/ ifndef_linenum s = 0)
  /\ (0 <= endif_linenum s < n \/ endif_linenum s = 0).

Lemma guard_step_range n line s :
  0 <= n -> scan_in_range n s -> scan_in_range (n + 1) (guard_step n line s).
Proof.
  intros Hn [H1 H2]. unfold guard_step, scan_in_range.
  repeat case_match; simpl; lia.
Qed.

Lemma guard_loop_range raw n s :
  0 <= n -> scan_in_range n s -> scan_in_range (n + len raw) (guard_loop n raw s).
Proof.
  revert n s. induction raw as [|line raw IH]; intros n s Hn Hs; simpl.
  - unfold len. simpl. by rewrite Z.add_0_r.
  - replace (n + len (line :: raw)) with ((n + 1) + len raw) by (unfold len; simpl; lia).
    apply IH; [lia|]. by apply guard_step_range.
Qed.

Lemma guard_loop_empty n s : ifndef s = [] -> ifndef (guard_loop n [] s) = [].
Proof. done. Qed.

(** C34: [CheckForHeaderGuard] returns on every file, when the working directory is absolute
    and no root directory is a Subversion checkout (otherwise the search for the repository
    need not end): the variable of any file makes patterns that compile, and the lines it
    reports on exist. *)
Theorem CheckForHeaderGuard_total I error `{!Handler I error, !OnLint I} os filename cl :
  no_root_svn os -> total I (CheckForHeaderGuard os filename cl error) (fun _ => True).
Proof.
  intros Hno. unfold CheckForHeaderGuard. destruct (existsb _ _); [repeat total_step|].
  total_step; [by apply total_get|]. rename a into g.
  destruct (GetHeaderGuardCPPVariable_ok os (root g) filename Hno) as [v Hv].
  eapply total_bind; [by apply (total_lift _ _ (fun x => x = v) _ Hv)|]. intros ? ->.
  assert (name_ok v /\ v <> []) as [Hn Hne].
  { unfold GetHeaderGuardCPPVariable in Hv. apply res_bind_Ok in Hv as (p & _ & Hv).
    apply res_bind_Ok in Hv as (p' & _ & Hv). injection Hv as <-.
    split; [apply guard_name, guard_of_path_chars|]. unfold guard_of_path. by destruct (upper _). }
  set (raw := lines_without_raw_strings cl).
  pose proof (guard_loop_range raw 0 (mkGuardScan [] 0 [] [] 0) ltac:(lia)
                ltac:(split; right; reflexivity)) as [H1 H2].
  destruct (negb _ || _ || _) eqn:Eg; [repeat total_step|].
  assert (0 < len raw) as Hraw.
  { destruct raw; [discriminate Eg|]. unfold len. simpl. lia. }
  rewrite Z.add_0_l in H1, H2.
  total_step.
  { destruct (_ <>s v); [|repeat total_step]. total_step; [lia|].
    total_step; [by apply (ParseNolintSuppressions_total I error)|]. repeat total_step. }
  total_step; [lia|]. total_step; [by apply (ParseNolintSuppressions_total I error)|].
  unfold check_endif.
  destruct (endif_comment_compiles v Hn Hne) as [p Hp].
  eapply total_bind; [by apply (total_lift _ _ (fun x => x = p) _ Hp)|]. intros ? ->.
  destruct (Match p _); [repeat total_step|].
  cbv zeta. apply (total_bind _ _ _ (fun _ => True)); [|intros found _].
  { destruct (existsb (matches _ANY_LINE_COMMENT) _); cbn [negb]; [by apply total_ret|].
    destruct (endif_c_comment_compiles v Hn Hne) as [q Hq].
    eapply total_bind; [by apply (total_lift _ _ (fun x => x = q) _ Hq)|]. intros ? ->.
    by apply total_ret. }
  destruct found as [mo|]; repeat total_step.
Qed.

Definition sample_header : CleansedLines :=
  let ls := of_string <$> [""; "#ifndef SRC_A_B_H_"; "#define SRC_A_B_H_"; "#endif  // OTHER_H_"; ""]%string in
  mkCleansedLines ls ls ls ls.

Lemma CheckForHeaderGuard_total_witness :
  no_root_svn git_os
  /\ exists g' u, CheckForHeaderGuard git_os "src/a-b.h" sample_header Error globals_init = (g', Ok u)
       /\ sound g' /\ True.
Proof.
  split; [exact git_os_no_svn|].
  exact (CheckForHeaderGuard_total sound Error git_os "src/a-b.h" sample_header git_os_no_svn
           globals_init sound_init).
Defined.
