(* ===== verification/Functions.v ===== *)
(** Function bodies: [_FunctionState] and the check of their length. *)

From S2P Require Import Prelude PyStr Regex State Cleanse.

Open Scope Z_scope.
Open Scope py_scope.

Record FunctionState : Type := mkFunctionState {
  in_a_function : bool;
  lines_in_function : Z;
  current_function : str
}.

Definition _NORMAL_TRIGGER : Z := 250.
Definition _TEST_TRIGGER : Z := 400.

Definition FunctionState_init : FunctionState := mkFunctionState false 0 [].

Definition Begin (function_name : str) (fs : FunctionState) : FunctionState :=
  mkFunctionState true 0 function_name.

Definition Count (fs : FunctionState) : FunctionState :=
  if in_a_function fs
  then mkFunctionState true (lines_in_function fs + 1) (current_function fs) else fs.

Definition End (fs : FunctionState) : FunctionState :=
  mkFunctionState false (lines_in_function fs) (current_function fs).

(** [base * 2**v], rounded towards zero as [%d] prints it; for a negative [v] the
    source computes in floating point. *)
Definition trigger_of (base v : Z) : Z := if 0 <=? v then base * 2 ^ v else base / 2 ^ (- v).

(** [lines > base * 2**v] *)
Definition exceeds (lines base v : Z) : bool :=
  if 0 <=? v then base * 2 ^ v <? lines else base <? lines * 2 ^ (- v).

(** [int(math.log(q, 2))], at most 5; the logarithm of zero is an error. *)
Definition error_level (q : Z) : res Z :=
  if q <=? 0 then Raise (ValueError "math domain error") else Ok (Z.min 5 (Z.log2 q)).

Definition FunctionState_Check (error : error_fn) (filename : str) (linenum : Z)
    (fs : FunctionState) : M unit :=
  if negb (in_a_function fs) then skip
  else
    let base_trigger :=
      if matches (rx "T(EST|est)") (current_function fs) then _TEST_TRIGGER else _NORMAL_TRIGGER in
    v ← _VerboseLevel;
    if exceeds (lines_in_function fs) base_trigger v then
      level ← lift (error_level (lines_in_function fs / base_trigger));
      error filename linenum "readability/fn_size" level
        ("Small and focused functions are preferred: " +s current_function fs +s " has "
         +s str_of_Z (lines_in_function fs) +s " non-comment lines (error triggered by exceeding "
         +s str_of_Z (trigger_of base_trigger v) +s " lines).")
    else skip.

Definition _FUNCTION_HEAD : pattern := rx "(\w(\w|::|\*|\&|\s)*)\(".
Definition _MACRO_NAME : pattern := rx "[A-Z_]+$".
Definition _FUNCTION_NAME : pattern := rx "((\w|:)*)\(".
Definition _PARAMETERS : pattern := rx "(\(.*\))".

(** A function starts on the line. *)
Definition starts_function (line : str) : res bool :=
  match Match _FUNCTION_HEAD line with
  | None => Ok false
  | Some mo =>
      function_name ← idx (words (grp mo 1)) (-1);
      Ok ((function_name =s "TEST") || (function_name =s "TEST_F")
          || negb (matches _MACRO_NAME function_name))
  end.

(** The search for the body from the head [line] on: the new state, and whether a
    body, or the end of a declaration, was found. *)
Fixpoint body_loop (line : str) (rest : list str) (joined_line : str) (fs : FunctionState)
    : res (FunctionState * bool) :=
  match rest with
  | [] => Ok (fs, false)
  | start_line :: rest' =>
      let joined_line := joined_line +s " " +s lstrip start_line in
      if searches (rx "(;|})") start_line then Ok (fs, true)
      else if searches (rx "{") start_line then
        mo ← some_or AttributeError (Search _FUNCTION_NAME line);
        let function := grp mo 1 in
        let function :=
          if matches (rx "TEST") function then
            match Search _PARAMETERS joined_line with
            | Some parameter_regexp => function +s grp parameter_regexp 1
            | None => function
            end
          else function +s "()" in
        Ok (Begin function fs, true)
      else body_loop line rest' joined_line fs
  end.

Definition CheckForFunctionLengths (filename : str) (clean_lines : CleansedLines) (linenum : Z)
    (fs : FunctionState) (error : error_fn) : M FunctionState :=
  line ← line_at (lines clean_lines) linenum;
  starting_func ← lift (starts_function line);
  if (starting_func : bool) then
    '(fs, body_found) ←
      lift (body_loop line (drop (Z.to_nat linenum) (lines clean_lines)) [] fs);
    when (negb body_found)
      (error filename linenum "readability/fn_size" 5
         "Lint failed to find start of function body.") ;;
    mret fs
  else if matches (rx "^\}\s*$") line then
    FunctionState_Check error filename linenum fs ;;
    mret (End fs)
  else if negb (matches (rx "^\s*$") line) then mret (Count fs)
  else mret fs.
