(* ===== verification/Casts.v ===== *)
(** Casts and references: the checks for deprecated casts, casts whose address is
    taken, and non-const reference parameters, with the scans of the surrounding
    lines they rely on. *)

From S2P Require Import Prelude PyStr Regex State Cleanse Expr Nesting.

Open Scope Z_scope.
Open Scope py_scope.

(** * Patterns *)

Definition _RE_PATTERN_IDENT : string := "[_a-zA-Z]\w*".
Definition _RE_PATTERN_TYPE : string :=
  "(?:const\s+)?(?:typename\s+|class\s+|struct\s+|union\s+|enum\s+)?(?:\w|\s*<(?:<(?:<[^<>]*>|[^<>])*>|[^<>])*>|::)+".

Definition _RE_PATTERN_REF_PARAM : pattern :=
  rx ("(" ++ _RE_PATTERN_TYPE ++ "(?:\s*(?:\bconst\b|[*]))*\s*&\s*" ++ _RE_PATTERN_IDENT
      ++ ")\s*(?:=[^,()]+)?[,)]").
Definition _RE_PATTERN_CONST_REF_PARAM : pattern :=
  rx ("(?:.*\s*\bconst\s*&\s*" ++ _RE_PATTERN_IDENT ++ "|const\s+" ++ _RE_PATTERN_TYPE
      ++ "\s*&\s*" ++ _RE_PATTERN_IDENT ++ ")").
Definition _RE_PATTERN_REF_STREAM_PARAM : pattern :=
  rx ("(?:.*stream\s*&\s*" ++ _RE_PATTERN_IDENT ++ ")").

(** * Casts *)

Definition ExpectingFunctionArgs (clean_lines : CleansedLines) (linenum : Z) : res bool :=
  line ← idx (elided clean_lines) linenum;
  if matches (rx "^\s*MOCK_(CONST_)?METHOD\d+(_T)?\(") line then Ok true
  else if 2 <=? linenum then
    prev ← idx (elided clean_lines) (linenum - 1);
    if matches (rx "^\s*MOCK_(?:CONST_)?METHOD\d+(?:_T)?\((?:\S+,)?\s*$") prev then Ok true
    else
      prev2 ← idx (elided clean_lines) (linenum - 2);
      if matches (rx "^\s*MOCK_(?:CONST_)?METHOD\d+(?:_T)?\(\s*$") prev2 then Ok true
      else Ok (searches (rx "\bstd::m?function\s*\<\s*$") prev)
  else Ok false.

(** The lines [is] in front of [context], nearest first. *)
Fixpoint prepend_lines (clean_lines : CleansedLines) (linenums : list Z) (context : str) : res str :=
  match linenums with
  | [] => Ok context
  | i :: rest => line ← idx (elided clean_lines) i; prepend_lines clean_lines rest (line +s context)
  end.

Definition CheckCStyleCast (filename : str) (clean_lines : CleansedLines) (linenum : Z)
    (cast_type : str) (pat : pattern) (error : error_fn) : M bool :=
  line ← line_at (elided clean_lines) linenum;
  match Search pat line with
  | None => mret false
  | Some mo =>
      let context := slice line 0 (mstart_group mo 1 - 1) in
      if matches (rx ".*\b(?:sizeof|alignof|alignas|[_A-Z][_A-Z0-9]*)\s*$") context then mret false
      else
        context ← lift (if 0 <? linenum
                        then prepend_lines clean_lines (zrange_down (linenum - 1) (Z.max 0 (linenum - 5))) context
                        else Ok context);
        if matches (rx ".*\b[_A-Z][_A-Z0-9]*\s*\((?:\([^()]*\)|[^()])*$") context then mret false
        else if endswith context " operator++" || endswith context " operator--" then mret false
        else
          let remainder := slice_from line (mend mo) in
          if matches (rx "^\s*(?:;|const\b|throw\b|final\b|override\b|[=>{),]|->)") remainder
          then mret false
          else
            error filename linenum "readability/casting" 4
              ("Using C-style cast.  Use " +s cast_type +s "<" +s grp mo 1 +s ">(...) instead") ;;
            mret true
  end.

Definition _CONVERSION_CAST : pattern :=
  rx "(\bnew\s+(?:const\s+)?|\S<\s*(?:const\s+)?)?\b(int|float|double|bool|char|int32|uint32|int64|uint64)(\([^)].*)".

(** [Match(r'\s*using\s+\S+\s*=\s*' + type, line)] and
    [Search(r'new\(\S+\)\s*' + type, line)] *)
Definition is_alias (matched_type line : str) : res bool :=
  p ← some_or ReError (re_compile ("\s*using\s+\S+\s*=\s*" +s matched_type)); Ok (matches p line).
Definition is_placement_new (matched_type line : str) : res bool :=
  p ← some_or ReError (re_compile ("new\(\S+\)\s*" +s matched_type)); Ok (searches p line).

(** The conversion function casts; [false] when the rest of [CheckCasts] is skipped. *)
Definition check_conversion (filename : str) (linenum : Z) (line : str) (mo : match_obj)
    (error : error_fn) : M bool :=
  let matched_type := grp mo 2 in
  let matched_funcptr := grp mo 3 in
  if matches (rx "\([^()]+\)\s*\[") matched_funcptr then mret false
  else
    (match group mo 1 with
     | Some _ => skip
     | None =>
         if nonempty matched_funcptr
            && (matches (rx "\((?:[^() ]+::\s*\*\s*)?[^() ]+\)\s*\(") matched_funcptr
                || startswith matched_funcptr "(*)")
         then skip
         else
           alias ← lift (is_alias matched_type line);
           if (alias : bool) then skip
           else
             placement ← lift (is_placement_new matched_type line);
             when (negb placement)
               (error filename linenum "readability/casting" 4
                  ("Using deprecated casting style.  Use static_cast<" +s matched_type
                   +s ">(...) instead"))
     end) ;;
    mret true.

Definition _ADDRESS_OF_CAST : pattern :=
  rx "(?:[^\w]&\(([^)*][^)]*)\)[\w(])|(?:[^\w]&(static|dynamic|down|reinterpret)_cast\b)".
Definition _CAST_HEAD : pattern := rx "^(.*&(?:static|dynamic|down|reinterpret)_cast\b)<".

(** The [&] applies to something dereferenced by the cast. *)
Definition parenthesis_error (clean_lines : CleansedLines) (linenum : Z) (line : str) : res bool :=
  match Match _CAST_HEAD line with
  | None => Ok false
  | Some mo =>
      '(_, y1, x1) ← CloseExpression clean_lines linenum (len (grp mo 1));
      if 0 <=? x1 then
        l1 ← idx (elided clean_lines) y1;
        c ← idx l1 x1;
        if ceq c "(" then
          '(_, y2, x2) ← CloseExpression clean_lines y1 x1;
          if 0 <=? x2 then
            l2 ← idx (elided clean_lines) y2;
            next ← (if y2 <? NumLines clean_lines - 1 then idx (elided clean_lines) (y2 + 1) else Ok []);
            Ok (matches (rx "\s*(?:->|\[)") (slice_from l2 x2 +s next))
          else Ok false
        else Ok false
      else Ok false
  end.

Definition CheckCasts (filename : str) (clean_lines : CleansedLines) (linenum : Z)
    (error : error_fn) : M unit :=
  line ← line_at (elided clean_lines) linenum;
  let matched := Search _CONVERSION_CAST line in
  expecting_function ← lift (ExpectingFunctionArgs clean_lines linenum);
  go_on ← (match matched with
           | Some mo =>
               if negb expecting_function then check_conversion filename linenum line mo error
               else mret true
           | None => mret true
           end);
  if negb go_on then skip
  else
    (if negb expecting_function then
       CheckCStyleCast filename clean_lines linenum "static_cast"
         (rx "\((int|float|double|bool|char|u?int(16|32|64))\)") error ;; skip
     else skip) ;;
    emitted ← CheckCStyleCast filename clean_lines linenum "const_cast"
                (rx "\((char\s?\*+\s?)\)\s*`") error;
    (if (emitted : bool) then skip
     else CheckCStyleCast filename clean_lines linenum "reinterpret_cast"
            (rx "\((\w+\s?\*+\s?)\)") error ;; skip) ;;
    if searches _ADDRESS_OF_CAST line then
      parenthesis ← lift (parenthesis_error clean_lines linenum line);
      if (parenthesis : bool) then
        error filename linenum "readability/casting" 4
          ("Are you taking an address of something dereferenced " +s
           "from a cast?  Wrapping the dereferenced expression in " +s
           "parentheses will make the binding more obvious")
      else
        error filename linenum "runtime/casting" 4
          ("Are you taking an address of a cast?  " +s
           "This is dangerous: could be a temp var.  " +s
           "Take the address before doing the cast, rather than after")
    else skip.

(** * References *)

Definition _FUNCTION_START : pattern := rx "^([^()]*\w+)\(".

Fixpoint derived_loop (clean_lines : CleansedLines) (linenums : list Z) : res bool :=
  match linenums with
  | [] => Ok false
  | i :: rest =>
      line ← idx (elided clean_lines) i;
      match Match _FUNCTION_START line with
      | Some mo =>
          '(text, _, closing_paren) ← CloseExpression clean_lines i (len (grp mo 1));
          Ok ((0 <=? closing_paren) && searches (rx "\boverride\b") (slice_from text closing_paren))
      | None => derived_loop clean_lines rest
      end
  end.

(** The current line and the nine before it. *)
Definition scan_back (linenum : Z) : list Z := zrange_down linenum (Z.max (-1) (linenum - 10)).

Definition IsDerivedFunction (clean_lines : CleansedLines) (linenum : Z) : res bool :=
  derived_loop clean_lines (scan_back linenum).

Fixpoint out_of_line_loop (clean_lines : CleansedLines) (linenums : list Z) : res bool :=
  match linenums with
  | [] => Ok false
  | i :: rest =>
      line ← idx (elided clean_lines) i;
      if matches _FUNCTION_START line then Ok (matches (rx "^[^()]*\w+::\w+\(") line)
      else out_of_line_loop clean_lines rest
  end.

Definition IsOutOfLineMethodDefinition (clean_lines : CleansedLines) (linenum : Z) : res bool :=
  out_of_line_loop clean_lines (scan_back linenum).

Fixpoint initializer_loop (clean_lines : CleansedLines) (linenum : Z) (linenums : list Z) : res bool :=
  match linenums with
  | [] => Ok false
  | i :: rest =>
      line ← idx (elided clean_lines) i;
      let line :=
        if i =? linenum then
          match Match (rx "^(.*)\{\s*$") line with Some mo => grp mo 1 | None => line end
        else line in
      if searches (rx "\s:\s*\w+[({]") line then Ok true
      else if searches (rx "\}\s*,\s*$") line then Ok true
      else if searches (rx "[{};]\s*$") line then Ok false
      else initializer_loop clean_lines linenum rest
  end.

Definition IsInitializerList (clean_lines : CleansedLines) (linenum : Z) : res bool :=
  initializer_loop clean_lines linenum (zrange_down linenum 1).

(** [line += elided[i].strip()] *)
Fixpoint join_stripped (clean_lines : CleansedLines) (linenums : list Z) (line : str) : res str :=
  match linenums with
  | [] => Ok line
  | i :: rest =>
      l ← idx (elided clean_lines) i; join_stripped clean_lines rest (line +s strip l)
  end.

(** A type that continues from the line before, or a template argument list that
    started earlier, is joined to the line. *)
Definition join_type (clean_lines : CleansedLines) (linenum : Z) (line : str) : res str :=
  if 1 <? linenum then
    prev ← idx (elided clean_lines) (linenum - 1);
    let previous :=
      if matches (rx "\s*::(?:[\w<>]|::)+\s*&\s*\S") line
      then Search (rx "\b((?:const\s*)?(?:[\w<>]|::)+[\w<>])\s*$") prev
      else if matches (rx "\s*[a-zA-Z_]([\w<>]|::)+\s*&\s*\S") line
      then Search (rx "\b((?:const\s*)?(?:[\w<>]|::)+::)\s*$") prev
      else None in
    match previous with
    | Some mo => Ok (grp mo 1 +s lstrip line)
    | None =>
        let endpos := rfind line ">" in
        if -1 <? endpos then
          '(_, startline, startpos) ← ReverseCloseExpression clean_lines linenum endpos;
          if (-1 <? startpos) && (startline <? linenum)
          then join_stripped clean_lines (zrange startline (linenum + 1)) []
          else Ok line
        else Ok line
    end
  else Ok line.

(** A line before the parameter list starts an initializer list. *)
Fixpoint after_colon (clean_lines : CleansedLines) (linenums : list Z) : res bool :=
  match linenums with
  | [] => Ok false
  | i :: rest =>
      previous_line ← idx (elided clean_lines) i;
      if negb (searches (rx "[),]\s*$") previous_line) then Ok false
      else if matches (rx "^\s*:\s+\S") previous_line then Ok true
      else after_colon clean_lines rest
  end.

Definition whitelisted_functions : pattern :=
  rx "(?:[sS]wap(?:<\w:+>)?|operator\s*[<>][<>]|static_assert|COMPILE_ASSERT)\s*\(".

(** [for i in xrange(2): if linenum > i and Search(...)] *)
Fixpoint whitelisted_before (clean_lines : CleansedLines) (linenum : Z) (offsets : list Z) : res bool :=
  match offsets with
  | [] => Ok false
  | i :: rest =>
      if i <? linenum then
        line ← idx (elided clean_lines) (linenum - i - 1);
        if searches whitelisted_functions line then Ok true
        else whitelisted_before clean_lines linenum rest
      else whitelisted_before clean_lines linenum rest
  end.

(** The block a line starts in is neither a class nor a namespace. *)
Definition in_function_body (ns : NestingState) : bool :=
  match previous_stack_top ns ≫= deref ns with
  | Some b => negb (is_class b || is_namespace b)
  | None => false
  end.

(** Every early return of the reference check after the type was joined. *)
Definition reference_allowed (clean_lines : CleansedLines) (linenum : Z) (ns : NestingState)
    (line : str) : res bool :=
  if in_function_body ns then Ok true
  else
    colon ← (if 0 <? linenum
             then after_colon clean_lines (zrange_down (linenum - 1) (Z.max 0 (linenum - 10)))
             else Ok false);
    if (colon : bool) then Ok true
    else if searches (rx "\\\s*$") line then Ok true
    else
      initializer ← IsInitializerList clean_lines linenum;
      if (initializer : bool) then Ok true
      else if searches whitelisted_functions line then Ok true
      else if negb (searches (rx "\S+\([^)]*$") line)
      then whitelisted_before clean_lines linenum (zrange 0 2)
      else Ok false.

Definition non_const_parameter (parameter : str) : bool :=
  negb (matches _RE_PATTERN_CONST_REF_PARAM parameter)
  && negb (matches _RE_PATTERN_REF_STREAM_PARAM parameter).

Definition CheckForNonConstReference (filename : str) (clean_lines : CleansedLines) (linenum : Z)
    (ns : NestingState) (error : error_fn) : M unit :=
  line ← line_at (elided clean_lines) linenum;
  if negb (contains line "&") then skip
  else
    derived ← lift (IsDerivedFunction clean_lines linenum);
    if (derived : bool) then skip
    else
      out_of_line ← lift (IsOutOfLineMethodDefinition clean_lines linenum);
      if (out_of_line : bool) then skip
      else
        line ← lift (join_type clean_lines linenum line);
        allowed ← lift (reference_allowed clean_lines linenum ns line);
        if (allowed : bool) then skip
        else
          for_each (findall _RE_PATTERN_REF_PARAM (ReplaceAll (rx "{[^}]*}") " " line))
            (fun parameter =>
               when (non_const_parameter parameter)
                 (error filename linenum "runtime/references" 2
                    ("Is this a non-const reference? " +s
                     "If so, make const or use a pointer: " +s
                     ReplaceAll (rx " *<") "<" parameter))).
