(* ===== verification/FunctionsFacts.v ===== *)
(** Properties of the function length check: the trigger grows with the verbosity
    and the reported confidence passes it, a negative verbosity makes the check
    raise, the lines of a body are counted, and the check of a line returns. *)

From S2P Require Import Prelude PyStr Regex RegexFacts State StateFacts Cleanse.
From S2P Require Import CleanseFacts Functions.

Open Scope Z_scope.
Open Scope py_scope.

(** * Specifications *)

Definition base_of (fs : FunctionState) : Z :=
  if matches (rx "T(EST|est)") (current_function fs) then _TEST_TRIGGER else _NORMAL_TRIGGER.


Definition size_message (fs : FunctionState) (trigger : Z) : str :=
  "Small and focused functions are preferred: " +s current_function fs +s " has "
  +s str_of_Z (lines_in_function fs) +s " non-comment lines (error triggered by exceeding "
  +s str_of_Z trigger +s " lines).".

Definition blank (line : str) : bool := matches (rx "^\s*$") line.
Definition closes_body (line : str) : bool := matches (rx "^\}\s*$") line.

(** A line in a body: it neither starts a function nor ends one. *)
Definition inner_line (line : str) : Prop := starts_function line = Ok false /\ closes_body line = false.

(** The lines of a body that count. *)
Definition counted (body : list str) : Z := len (List.filter (fun line => negb (blank line)) body).

(** The check on consecutive lines, as the driver runs it. *)
Fixpoint check_lines (filename : str) (cl : CleansedLines) (linenums : list Z) (fs : FunctionState)
    (error : error_fn) : M FunctionState :=
  match linenums with
  | [] => mret fs
  | n :: rest =>
      fs' ← CheckForFunctionLengths filename cl n fs error;
      check_lines filename cl rest fs' error
  end.

(** * The trigger *)


Lemma FunctionState_Check_eq error filename linenum fs g :
  in_a_function fs = true ->
  let v := verbose_level (cpplint_state g) in
  FunctionState_Check error filename linenum fs g
  = if exceeds (lines_in_function fs) (base_of fs) v then
      match error_level (lines_in_function fs / base_of fs) with
      | Ok level => error filename linenum "readability/fn_size" level
                      (size_message fs (trigger_of (base_of fs) v)) g
      | Raise e => (g, Raise e)
      end
    else (g, Ok tt).
Proof.
  intros Hin v. unfold FunctionState_Check. rewrite Hin. fold (base_of fs). cbn [negb].
  rewrite M_bind_eq. unfold _VerboseLevel. rewrite M_bind_eq. unfold get, mret at 1, M_ret.
  cbv beta iota. fold v. destruct (exceeds _ _ _); [|done].
  rewrite M_bind_eq. unfold lift. by destruct (error_level _).
Qed.





(** C36: with a negative verbosity, a function that is longer than the lowered
    trigger but shorter than the base makes the check fail with a domain error of
    the logarithm instead of reporting it. *)
Theorem FunctionState_Check_negative error filename linenum fs g :
  let v := verbose_level (cpplint_state g) in
  v < 0 -> in_a_function fs = true ->
  base_of fs < lines_in_function fs * 2 ^ (- v) -> lines_in_function fs < base_of fs ->
  0 <= lines_in_function fs ->
  FunctionState_Check error filename linenum fs g = (g, Raise (ValueError "math domain error")).
Proof.
  intros v Hv Hin Hlo Hhi H0. rewrite FunctionState_Check_eq by done. fold v.
  unfold exceeds. destruct (Z.leb_spec 0 v); [lia|].
  destruct (Z.ltb_spec (base_of fs) (lines_in_function fs * 2 ^ (- v))); [|lia].
  unfold error_level. by rewrite Z.div_small by lia.
Qed.

Definition low_verbosity : globals :=
  with_lint (with_settings (-1) "total" false "emacs") globals_init.

Lemma FunctionState_Check_negative_witness :
  FunctionState_Check Error "a.cc" 9 (mkFunctionState true 200 "Run()") low_verbosity
  = (low_verbosity, Raise (ValueError "math domain error")).
Proof. apply FunctionState_Check_negative; done. Defined.

(** * The lines of a body *)

Lemma CheckForFunctionLengths_inner filename cl n line fs error g :
  idx (lines cl) n = Ok line -> inner_line line ->
  CheckForFunctionLengths filename cl n fs error g
  = (g, Ok (if blank line then fs else Count fs)).
Proof.
  intros Hl [Hs Hc]. unfold CheckForFunctionLengths, line_at.
  rewrite M_bind_eq, Hl. unfold lift at 1. cbv beta iota.
  rewrite M_bind_eq, Hs. unfold lift. cbv beta iota.
  unfold closes_body in Hc. rewrite Hc. fold (blank line). destruct (blank line); reflexivity.
Qed.

Lemma zrange_cons a b : a < b -> zrange a b = a :: zrange (a + 1) b.
Proof.
  intros H. unfold zrange. replace (Z.to_nat (b - a)) with (S (Z.to_nat (b - (a + 1)))) by lia.
  cbn [seq fmap list_fmap]. f_equal; [lia|]. rewrite <- seq_shift, <- list_fmap_compose.
  apply list_fmap_ext. intros i k _. simpl. lia.
Qed.

Lemma idx_middle (pre : list str) x post : idx (pre ++ x :: post) (len pre) = Ok x.
Proof.
  unfold idx, len. rewrite py_index_pos by lia. by rewrite Nat2Z.id, list_lookup_middle by done.
Qed.

Lemma len_snoc {A} (l : list A) x : len (l ++ [x]) = len l + 1.
Proof. unfold len. rewrite length_app. simpl. lia. Qed.

(** C26: on the lines of a function's body and the line that closes it, none of
    the lines in between starting a function, the check counts the lines that are
    not blank, and decides on the length when the body is closed. *)
Theorem function_body_counted filename cl pre body close post fs error :
  lines cl = pre ++ body ++ close :: post ->
  Forall inner_line body -> starts_function close = Ok false -> closes_body close = true ->
  in_a_function fs = true ->
  let fs' := mkFunctionState true (lines_in_function fs + counted body) (current_function fs) in
  let last := len pre + len body in
  forall g, check_lines filename cl (zrange (len pre) (last + 1)) fs error g
    = (FunctionState_Check error filename last fs' ;; mret (End fs')) g.
Proof.
  intros Hcl Hbody Hs Hc. revert pre fs Hcl. induction Hbody as [|x body Hx _ IH];
    intros pre [inf n f] Hcl Hin; simpl in Hin; subst inf; intros fs' last g.
  - subst last. replace (len pre + len []) with (len pre) by (unfold len; simpl; lia).
    rewrite zrange_cons by lia. cbn [check_lines].
    unfold zrange. replace (Z.to_nat _) with 0%nat by lia. cbn [seq fmap list_fmap check_lines].
    unfold CheckForFunctionLengths, line_at.
    change (lines cl = pre ++ close :: post) in Hcl. rewrite !M_bind_eq, Hcl, idx_middle. unfold lift at 1. cbv beta iota.
    rewrite M_bind_eq, Hs. unfold lift at 1. cbv beta iota.
    unfold closes_body in Hc. rewrite Hc, !M_bind_eq.
    replace fs' with (mkFunctionState true n f) by (subst fs'; unfold counted, len; simpl; f_equal; lia).
    destruct (FunctionState_Check _ _ _ _ g) as [g' [[]|e]]; reflexivity.
  - subst last. rewrite zrange_cons by (unfold len; lia). cbn [check_lines].
    rewrite M_bind_eq, (CheckForFunctionLengths_inner _ _ _ x);
      [|rewrite Hcl; apply idx_middle|done].
    specialize (IH (pre ++ [x]) (if blank x then mkFunctionState true n f
                                 else mkFunctionState true (n + 1) f)).
    rewrite !len_snoc in IH. replace (len pre + 1 + len body) with (len pre + len (x :: body)) in IH
      by (unfold len; simpl; lia).
    unfold Count. cbn [in_a_function lines_in_function current_function].
    rewrite IH; [|by rewrite Hcl, <- app_assoc|by destruct (blank x)].
    subst fs'. unfold counted. cbn [List.filter].
    destruct (blank x); cbn [negb lines_in_function current_function]; [done|].
    by replace (n + 1 + _) with (n + len (x :: List.filter (fun line => negb (blank line)) body))
      by (unfold len; simpl; lia).
Qed.

Definition sample_body : CleansedLines :=
  let ls := of_string <$> ["int f() {"; "  a = b;"; ""; "  c();"; "}"; ""]%string in
  mkCleansedLines ls ls ls ls.

Lemma function_body_counted_witness :
  check_lines "a.cc" sample_body [1; 2; 3; 4] (mkFunctionState true 0 "f()") Error globals_init
  = (globals_init, Ok (mkFunctionState false 2 "f()")).
Proof.
  refine (eq_trans (function_body_counted "a.cc" sample_body [of_string "int f() {"]
    (of_string <$> ["  a = b;"; ""; "  c();"]%string) "}" [[]] (mkFunctionState true 0 "f()") Error
    _ _ _ _ _ globals_init) _); try reflexivity.
  repeat constructor.
Defined.

(** * The check of a line returns *)










Definition verbose_sound (g : globals) : Prop := sound g /\ 0 <= verbose_level (cpplint_state g).

#[export] Instance Error_verbose_handler : Handler verbose_sound Error.
Proof.
  intros f l c n m g [Hs Hv]. destruct (Error_handler f l c n m g Hs) as (g' & a & E & Hs' & _).
  exists g', a. split; [done|]. split; [|done]. split; [done|].
  by rewrite (Error_verbosity _ _ _ _ _ _ _ _ E).
Qed.

