(* ===== verification/Language.v ===== *)
(** The checks of the language rules on one line: non-standard constructs and
    explicit constructors, the C types, format strings, variable-length arrays,
    global strings, the redundant virtual specifiers and the flagged features. *)

From S2P Require Import Prelude PyStr Regex State Cleanse Expr Lines Nesting FilePath.
From S2P Require Import Includes Casts.

Open Scope Z_scope.
Open Scope py_scope.

(** * Non-standard constructs *)

Definition _STORAGE_CLASS : pattern :=
  rx "\b(const|volatile|void|char|short|int|long|float|double|signed|unsigned|schar|u?int8|u?int16|u?int32|u?int64)\s+(register|static|extern|typedef)\b".

(** The checks of [CheckForNonStandardConstructs] that do not need the class. *)
Definition non_standard_line (filename : str) (linenum : Z) (line elided_line : str)
    (error : error_fn) : M unit :=
  when (searches (rx "printf\s*\(.*`.*%[-+ ]?\d*q") line)
    (error filename linenum "runtime/printf_format" 3
       "%q in format strings is deprecated.  Use %ll instead.") ;;
  when (searches (rx "printf\s*\(.*`.*%\d+\$") line)
    (error filename linenum "runtime/printf_format" 2
       "%N$ formats are unconventional.  Try rewriting to avoid them.") ;;
  when (searches (rx "(`|\').*\\(%|\[|\(|{)") (replace line "\\" []))
    (error filename linenum "build/printf_format" 3
       "%, [, (, and { are undefined character escapes.  Unescape them.") ;;
  when (searches _STORAGE_CLASS elided_line)
    (error filename linenum "build/storage_class" 5
       ("Storage-class specifier (static, extern, typedef, etc) should be " +s
        "at the beginning of the declaration.")) ;;
  when (matches (rx "\s*#\s*endif\s*[^/\s]+") elided_line)
    (error filename linenum "build/endif_comment" 5
       "Uncommented text after #endif is non-standard.  Use a comment.") ;;
  when (matches (rx "\s*class\s+(\w+\s*::\s*)+\w+\s*;") elided_line)
    (error filename linenum "build/forward_decl" 5
       "Inner-style forward declarations are invalid.  Remove this line.") ;;
  when (searches (rx "(\w+|[+-]?\d+(\.\d*)?)\s*(<|>)\?=?\s*(\w+|[+-]?\d+)(\.\d*)?") elided_line)
    (error filename linenum "build/deprecated" 3
       ">? and <? (max and min) operators are non-standard and deprecated.") ;;
  when (searches (rx "^\s*const\s*string\s*&\s*\w+\s*;") elided_line)
    (error filename linenum "runtime/member_string_references" 2
       ("const string& members are dangerous. It is much better to use " +s
        "alternatives, such as pointers or simple constants.")).

(** ** Constructors *)

Definition _CONSTRUCTOR (base_classname : str) : res pattern :=
  some_or ReError (re_compile
    ("\s+(?:(?:inline|constexpr)\s+)*(explicit\s+)?(?:(?:inline|constexpr)\s+)*"
     +s escape base_classname +s "\s*\(((?:[^()]|\([^()]*\))*)\)")).

Definition _COPY_CONSTRUCTOR (base_classname : str) : res pattern :=
  some_or ReError (re_compile
    ("(const\s+)?" +s escape base_classname +s "(\s*<[^>]*>)?(\s+const)?\s*(?:<\w+>\s*)?&")).

(** A comma of the argument so far is inside brackets. *)
Definition unbalanced (arg : str) : bool :=
  (count arg ">" <? count arg "<") || (count arg ")" <? count arg "(").

(** The arguments that were split inside brackets are joined again; [pending] is
    the argument being joined. *)
Fixpoint collapse_args (pending : option str) (args : list str) : res (list str) :=
  match args with
  | [] => match pending with None => Ok [] | Some _ => Raise IndexError end
  | a :: rest =>
      let constructor_arg := match pending with None => a | Some p => p +s "," +s a end in
      if unbalanced constructor_arg then collapse_args (Some constructor_arg) rest
      else collapsed ← collapse_args None rest; Ok (constructor_arg :: collapsed)
  end.

Definition constructor_args (text : str) : res (list str) :=
  collapse_args None (if nonempty text then split text "," else []).

Definition defaulted_args (args : list str) : list str :=
  List.filter (fun arg => contains arg "=") args.

Definition noarg_constructor (args : list str) : bool :=
  match args with
  | [] => true
  | [arg] => strip arg =s "void"
  | _ => false
  end.

Definition onearg_constructor (args : list str) : bool :=
  negb (noarg_constructor args)
  && ((len args =? 1) || (len args - 1 <=? len (defaulted_args args))).

(** The first argument is an initializer list, or a reference to the class. *)
Definition initializer_list_constructor (args : list str) : bool :=
  match args with
  | arg :: _ => onearg_constructor args && searches (rx "\bstd\s*::\s*initializer_list\b") arg
  | [] => false
  end.

Definition copy_constructor (base_classname : str) (args : list str) : res bool :=
  match args with
  | arg :: _ =>
      if onearg_constructor args then
        p ← _COPY_CONSTRUCTOR base_classname; Ok (matches p (strip arg))
      else Ok false
  | [] => Ok false
  end.

(** The message for a constructor, if it gets one. *)
Definition explicit_message (is_marked_explicit : bool) (base_classname : str) (args : list str)
    : res (option str) :=
  copy ← copy_constructor base_classname args;
  if negb is_marked_explicit && onearg_constructor args
     && negb (initializer_list_constructor args) && negb copy then
    Ok (Some (match defaulted_args args with
              | [] => of_string "Single-parameter constructors should be marked explicit."
              | _ => "Constructors callable with one argument " +s "should be marked explicit."
              end))
  else if is_marked_explicit && negb (onearg_constructor args) && noarg_constructor args then
    Ok (Some (of_string "Zero-parameter constructors should not be marked explicit."))
  else Ok None.

Definition check_constructor (filename : str) (linenum : Z) (line : str) (c : ClassData)
    (error : error_fn) : M unit :=
  let base_classname := default [] (last (split (class_name c) "::")) in
  p ← lift (_CONSTRUCTOR base_classname);
  match Match p line with
  | None => skip
  | Some mo =>
      args ← lift (constructor_args (grp mo 2));
      message ← lift (explicit_message (nonempty (grp mo 1)) base_classname args);
      match message with
      | Some text => error filename linenum "runtime/explicit" 5 text
      | None => skip
      end
  end.

Definition CheckForNonStandardConstructs (filename : str) (clean_lines : CleansedLines)
    (linenum : Z) (ns : NestingState) (error : error_fn) : M unit :=
  line ← line_at (lines clean_lines) linenum;
  elided_line ← line_at (elided clean_lines) linenum;
  non_standard_line filename linenum line elided_line error ;;
  match InnermostClass ns with
  | Some (b, c) =>
      if seen_open_brace b then check_constructor filename linenum elided_line c error else skip
  | None => skip
  end.

(** * Global strings and self-initialization *)

Definition _GLOBAL_STRING : pattern :=
  rx "((?:|static +)(?:|const +))(?::*std::)?string( +const)? +([a-zA-Z0-9_:]+)\b(.*)".

Definition CheckGlobalStatic (filename : str) (clean_lines : CleansedLines) (linenum : Z)
    (error : error_fn) : M unit :=
  line ← line_at (elided clean_lines) linenum;
  line ← (if (linenum + 1 <? NumLines clean_lines) && negb (searches (rx "[;({]") line)
          then next ← line_at (elided clean_lines) (linenum + 1); mret (line +s strip next)
          else mret line);
  match Match _GLOBAL_STRING line with
  | Some mo =>
      when (negb (searches (rx "\bstring\b(\s+const)?\s*[\*\&]\s*(const\s+)?\w") line)
            && negb (searches (rx "\boperator\W") line)
            && negb (matches (rx "\s*(<.*>)?(::[a-zA-Z0-9_]+)*\s*\(([^`]|$)") (grp mo 4)))
        (if searches (rx "\bconst\b") line then
           error filename linenum "runtime/string" 4
             ("For a static/global string constant, use a C style string " +s
              "instead: `" +s grp mo 1 +s "char" +s grp mo 2 +s " " +s grp mo 3 +s "[]`.")
         else
           error filename linenum "runtime/string" 4
             "Static/global string variables are not permitted.")
  | None => skip
  end ;;
  when (searches (rx "\b([A-Za-z0-9_]*_)\(\1\)") line
        || searches (rx "\b([A-Za-z0-9_]*_)\(CHECK_NOTNULL\(\1\)\)") line)
    (error filename linenum "runtime/init" 4
       "You seem to be initializing a member variable with itself.").

Definition CheckPrintf (filename : str) (clean_lines : CleansedLines) (linenum : Z)
    (error : error_fn) : M unit :=
  line ← line_at (elided clean_lines) linenum;
  match Search (rx "snprintf\s*\(([^,]*),\s*([0-9]*)\s*,") line with
  | Some mo =>
      when (grp mo 2 <>s "0")
        (error filename linenum "runtime/printf" 3
           ("If you can, use sizeof(" +s grp mo 1 +s ") instead of " +s grp mo 2
            +s " as the 2nd arg " +s "to snprintf."))
  | None => skip
  end ;;
  when (searches (rx "\bsprintf\s*\(") line)
    (error filename linenum "runtime/printf" 5 "Never use sprintf. Use snprintf instead.") ;;
  match Search (rx "\b(strcpy|strcat)\s*\(") line with
  | Some mo =>
      error filename linenum "runtime/printf" 4
        ("Almost always, snprintf is better than " +s grp mo 1)
  | None => skip
  end.

(** * The language rules *)

(** Variable-length arrays: whether every token of the size is a constant;
    [skip_next] after a [sizeof] that takes the next token as its argument. *)
Definition constant_token (tok : str) : bool :=
  matches (rx "\d+") tok || matches (rx "0[xX][0-9a-fA-F]+") tok
  || matches (rx "k[A-Z0-9]\w*") tok || matches (rx "(.+::)?k[A-Z0-9]\w*") tok
  || matches (rx "(.+::)?[A-Z][A-Z0-9_]*") tok.

Fixpoint is_const_loop (skip_next : bool) (tokens : list str) : bool :=
  match tokens with
  | [] => true
  | tok :: rest =>
      if skip_next then is_const_loop false rest
      else if searches (rx "sizeof\(.+\)") tok then is_const_loop false rest
      else if searches (rx "arraysize\(\w+\)") tok then is_const_loop false rest
      else
        let tok := rstrip_chars (lstrip_chars tok "(") ")" in
        if negb (nonempty tok) then is_const_loop false rest
        else if constant_token tok then is_const_loop false rest
        else if startswith tok "sizeof" then is_const_loop true rest
        else false
  end.

Definition _ARRAY : pattern := rx "\s*(.+::)?(\w+) [a-z]\w*\[(.+)];".
Definition _SIZE_DELIMITER : pattern := rx "\s|\+|\-|\*|\/|<<|>>]".

Definition variable_length_array (line : str) : bool :=
  match Match _ARRAY line with
  | Some mo =>
      (grp mo 2 <>s "return") && (grp mo 2 <>s "delete") && (find (grp mo 3) "]" =? -1)
      && negb (is_const_loop false (re_split _SIZE_DELIMITER (grp mo 3)))
  | None => false
  end.

Definition check_c_types (filename : str) (linenum : Z) (line : str) (error : error_fn) : M unit :=
  if searches (rx "\bshort port\b") line then
    when (negb (searches (rx "\bunsigned short port\b") line))
      (error filename linenum "runtime/int" 4 "Use `unsigned short` for ports, not `short`")
  else
    match Search (rx "\b(short|long(?! +double)|long long)\b") line with
    | Some mo =>
        error filename linenum "runtime/int" 4
          ("Use int16/int64/etc, rather than the C type " +s grp mo 1)
    | None => skip
    end.

Definition _PRINTF_CALL : pattern := rx "(?i)\b(string)?printf\s*\(".
Definition _PRINTF_NAME : pattern := with_icase (rx "\b((?:string)?printf)\s*\(").

Definition check_format_string (filename : str) (linenum : Z) (line : str) (error : error_fn)
    : M unit :=
  printf_args ← lift (_GetTextInside line _PRINTF_CALL);
  match printf_args with
  | Some args =>
      if nonempty args then
        match Match (rx "([\w.\->()]+)$") args with
        | Some mo =>
            if grp mo 1 <>s "__VA_ARGS__" then
              name ← the_match (re_search _PRINTF_NAME line);
              error filename linenum "runtime/printf" 4
                ("Potential format string bug. Do " +s grp name 1 +s "(`%s`, " +s grp mo 1
                 +s ") instead.")
            else skip
        | None => skip
        end
      else skip
  | None => skip
  end.

Definition check_memset (filename : str) (linenum : Z) (line : str) (error : error_fn) : M unit :=
  match Search (rx "memset\s*\(([^,]*),\s*([^,]*),\s*0\s*\)") line with
  | Some mo =>
      when (negb (matches (rx "^''|-?[0-9]+|0x[0-9A-Fa-f]$") (grp mo 2)))
        (error filename linenum "runtime/memset" 4
           ("Did you mean `memset(" +s grp mo 1 +s ", 0, " +s grp mo 2 +s ")`?"))
  | None => skip
  end.

Definition _PP_CONDITIONAL : pattern := rx "^\s*#\s*(if|ifdef|ifndef|elif|else|endif)\b".

Definition CheckLanguage (os : OS) (filename : str) (clean_lines : CleansedLines) (linenum : Z)
    (file_extension : str) (include_state : IncludeState) (ns : NestingState) (error : error_fn)
    : M IncludeState :=
  line ← line_at (elided clean_lines) linenum;
  if negb (nonempty line) then mret include_state
  else if is_some (re_search _RE_PATTERN_INCLUDE line) then
    CheckIncludeLine os filename clean_lines linenum include_state error
  else
    let include_state :=
      match Match _PP_CONDITIONAL line with
      | Some mo => ResetSection (grp mo 1) include_state
      | None => include_state
      end in
    CheckCasts filename clean_lines linenum error ;;
    CheckGlobalStatic filename clean_lines linenum error ;;
    CheckPrintf filename clean_lines linenum error ;;
    check_c_types filename linenum line error ;;
    when (searches (rx "\boperator\s*&\s*\(\s*\)") line)
      (error filename linenum "runtime/operator" 4
         "Unary operator& is dangerous.  Do not use it.") ;;
    when (searches (rx "\}\s*if\s*\(") line)
      (error filename linenum "readability/braces" 4
         "Did you mean `else if`? If not, start a new line for `if`.") ;;
    check_format_string filename linenum line error ;;
    check_memset filename linenum line error ;;
    when (searches (rx "\busing namespace\b") line)
      (error filename linenum "build/namespaces" 5
         ("Do not use namespace using-directives.  " +s
          "Use using-declarations instead.")) ;;
    when (variable_length_array line)
      (error filename linenum "runtime/arrays" 1
         ("Do not use variable-length arrays.  Use an appropriately named " +s
          "('k' followed by CamelCase) compile-time constant for the size.")) ;;
    g ← get;
    when (IsHeaderExtension file_extension g && searches (rx "\bnamespace\s*{") line
          && negb (endswith line "\"))
      (error filename linenum "build/namespaces" 4
         ("Do not use unnamed namespaces in header files.  See " +s
          "https://google-styleguide.googlecode.com/svn/trunk/cppguide.xml#Namespaces" +s
          " for more information.")) ;;
    mret include_state.

(** * Deduction, virtual, override and final *)

Definition _RE_PATTERN_EXPLICIT_MAKEPAIR : pattern := rx "\bmake_pair\s*<".

Definition CheckMakePairUsesDeduction (filename : str) (clean_lines : CleansedLines)
    (linenum : Z) (error : error_fn) : M unit :=
  line ← line_at (elided clean_lines) linenum;
  when (searches _RE_PATTERN_EXPLICIT_MAKEPAIR line)
    (error filename linenum "build/explicit_make_pair" 4
       ("For C++11-compatibility, omit template arguments from make_pair" +s
        " OR use pair directly OR if appropriate, construct a pair directly")).

Definition _PARAMETER_HEAD : pattern := rx "^([^(]*)\(".

(** The end of the parameter list that starts on one of the lines [linenums]. *)
Fixpoint parameter_list_end (clean_lines : CleansedLines) (linenums : list Z) (start_col : Z)
    : res (Z * Z) :=
  match linenums with
  | [] => Ok (-1, -1)
  | start_line :: rest =>
      l ← idx (elided clean_lines) start_line;
      match Match _PARAMETER_HEAD (slice_from l start_col) with
      | Some mo =>
          '(_, end_line, end_col) ←
            CloseExpression clean_lines start_line (start_col + len (grp mo 1));
          Ok (end_line, end_col)
      | None => parameter_list_end clean_lines rest 0
      end
  end.

Fixpoint virt_specifier_loop (filename : str) (clean_lines : CleansedLines) (linenum : Z)
    (linenums : list Z) (end_col : Z) (error : error_fn) : M unit :=
  match linenums with
  | [] => skip
  | i :: rest =>
      l ← line_at (elided clean_lines) i;
      let line := slice_from l end_col in
      match Search (rx "\b(override|final)\b") line with
      | Some mo =>
          error filename linenum "readability/inheritance" 4
            ("`virtual` is redundant since function is " +s "already declared as `"
             +s grp mo 1 +s "`")
      | None => skip
      end ;;
      if searches (rx "[^\w]\s*$") line then skip
      else virt_specifier_loop filename clean_lines linenum rest 0 error
  end.

Definition CheckRedundantVirtual (filename : str) (clean_lines : CleansedLines) (linenum : Z)
    (error : error_fn) : M unit :=
  line ← line_at (elided clean_lines) linenum;
  match Match (rx "^(.*)(\bvirtual\b)(.*)$") line with
  | None => skip
  | Some virtual =>
      if searches (rx "\b(public|protected|private)\s+$") (grp virtual 1)
         || matches (rx "^\s+(public|protected|private)\b") (grp virtual 3) then skip
      else if matches (rx "^.*[^:]:[^:].*$") line then skip
      else
        '(end_line, end_col) ← lift (parameter_list_end clean_lines
           (zrange linenum (Z.min (linenum + 3) (NumLines clean_lines))) (len (grp virtual 2)));
        if end_col <? 0 then skip
        else
          virt_specifier_loop filename clean_lines linenum
            (zrange end_line (Z.min (end_line + 3) (NumLines clean_lines))) end_col error
  end.

Definition CheckRedundantOverrideOrFinal (filename : str) (clean_lines : CleansedLines)
    (linenum : Z) (error : error_fn) : M unit :=
  line ← line_at (elided clean_lines) linenum;
  let declarator_end := rfind line ")" in
  fragment ← (if 0 <=? declarator_end then mret (Some (slice_from line declarator_end))
              else if 1 <? linenum then
                prev ← line_at (elided clean_lines) (linenum - 1);
                mret (if 0 <=? rfind prev ")" then Some line else None)
              else mret None);
  match fragment with
  | None => skip
  | Some text =>
      when (searches (rx "\boverride\b") text && searches (rx "\bfinal\b") text)
        (error filename linenum "readability/inheritance" 4
           ("`override` is redundant since function is " +s "already declared as `final`"))
  end.

(** * Flagged features *)

Definition _FEATURE_INCLUDE : pattern := rx "\s*#\s*include\s+[<`]([^<`]+)[`>]".

Definition _UNAPPROVED_CXX11 : list str := of_string <$> [
  "cfenv"; "condition_variable"; "fenv.h"; "future"; "mutex"; "thread"; "chrono";
  "ratio"; "regex"; "system_error"]%string.

Definition _CXX11_NAMES : list (str * pattern) := [
  (of_string "alignment_of", rx "\bstd::alignment_of\b");
  (of_string "aligned_union", rx "\bstd::aligned_union\b") ].

Definition FlagCxx11Features (filename : str) (clean_lines : CleansedLines) (linenum : Z)
    (error : error_fn) : M unit :=
  line ← line_at (elided clean_lines) linenum;
  match Match _FEATURE_INCLUDE line with
  | Some mo =>
      when (startswith (grp mo 1) "tr1/")
        (error filename linenum "build/c++tr1" 5
           ("C++ TR1 headers such as <" +s grp mo 1 +s "> are unapproved.")) ;;
      when (str_in (grp mo 1) _UNAPPROVED_CXX11)
        (error filename linenum "build/c++11" 5
           ("<" +s grp mo 1 +s "> is an unapproved C++11 header."))
  | None => skip
  end ;;
  if matches (rx "\s*#") line && negb (matches (rx "\s*#\s*define\b") line) then skip
  else
    for_each _CXX11_NAMES (fun '(top_name, p) =>
      when (searches p line)
        (error filename linenum "build/c++11" 5
           ("std::" +s top_name +s " is an unapproved C++11 class or function.  Send c-style "
            +s "an example of where it would make your code more readable, and "
            +s "they may let you use it."))).

Definition FlagCxx14Features (filename : str) (clean_lines : CleansedLines) (linenum : Z)
    (error : error_fn) : M unit :=
  line ← line_at (elided clean_lines) linenum;
  match Match _FEATURE_INCLUDE line with
  | Some mo =>
      when (str_in (grp mo 1) (of_string <$> ["scoped_allocator"; "shared_mutex"]%string))
        (error filename linenum "build/c++14" 5
           ("<" +s grp mo 1 +s "> is an unapproved C++14 header."))
  | None => skip
  end.
