(* ===== verification/LanguageFacts.v ===== *)
(** Properties of the language rules: the arguments of a constructor are joined to
    the shortest balanced ones, an unbalanced argument list makes the explicit
    constructor check raise, the redundant virtual check returns, and what the
    variable-length array check makes of a shift. *)

From S2P Require Import Prelude PyStr Regex RegexFacts State StateFacts Cleanse.
From S2P Require Import CleanseFacts Expr ExprFacts Nesting NestingFacts Casts Language.

Open Scope Z_scope.
Open Scope py_scope.

(** * Splitting and counting at one character *)

Lemma split_aux_nonempty sep s k acc : split_aux sep s k acc <> [].
Proof.
  revert k acc. induction s as [|c s IH]; intros k acc; [done|]. cbn [split_aux].
  destruct k; [|apply IH]. by destruct (prefixb sep (c :: s)).
Qed.

Lemma join_cons sep x l : l <> [] -> join sep (x :: l) = x ++ sep ++ join sep l.
Proof. by destruct l. Qed.

Lemma join_split_char (c : N) s : join [c] (split s [c]) = s.
Proof.
  unfold split. assert (forall acc, join [c] (split_aux [c] s 0 acc) = reverse acc ++ s) as H.
  { induction s as [|d s IH]; intros acc; [by rewrite app_nil_r|]. cbn [split_aux prefixb].
    rewrite andb_true_r. destruct (N.eqb_spec c d) as [<-|].
    - cbn [length Nat.sub]. rewrite join_cons by apply split_aux_nonempty. by rewrite IH.
    - by rewrite IH, reverse_cons, <- app_assoc. }
  apply (H []).
Qed.

Lemma count_app_char (c : N) (a b : str) : count (a ++ b) [c] = count a [c] + count b [c].
Proof.
  unfold count. induction a as [|d a IH]; [done|]. cbn [app count_aux prefixb length Nat.sub].
  rewrite andb_true_r. destruct (c =? d)%N; lia.
Qed.

Lemma count_join_char (c d : N) l :
  c <> d -> count (join [d] l) [c] = foldr (fun x n => count x [c] + n) 0 l.
Proof.
  intros Hcd. induction l as [|x l IH]; [done|]. destruct l as [|y l].
  - cbn [join foldr]. lia.
  - rewrite join_cons, !count_app_char, IH by done. cbn [foldr].
    assert (count [d] [c] = 0) as ->; [|lia].
    unfold count. cbn [count_aux prefixb]. by apply N.eqb_neq in Hcd as ->.
Qed.

Lemma join_app sep l1 l2 :
  l1 <> [] -> l2 <> [] -> join sep (l1 ++ l2) = join sep l1 ++ sep ++ join sep l2.
Proof.
  intros H1 H2. induction l1 as [|x l1 IH]; [done|]. destruct l1 as [|y l1].
  - cbn [app]. by rewrite (join_cons _ x l2).
  - cbn [app]. rewrite (join_cons _ x (y :: l1 ++ l2)), (join_cons _ x (y :: l1)) by done. change (y :: l1 ++ l2) with ((y :: l1) ++ l2).
    by rewrite IH, <- !app_assoc.
Qed.

(** * The arguments of a constructor *)

(** The pieces [group] make one argument: they are balanced together, and not
    before the last of them. *)
Definition shortest_balanced (group : list str) : Prop :=
  group <> [] /\ unbalanced (join "," group) = false
  /\ forall n, (0 < n < length group)%nat -> unbalanced (join "," (take n group)) = true.

(** No prefix of the pieces is balanced. *)
Definition never_balanced (tail : list str) : Prop :=
  tail <> [] /\ forall n, (0 < n <= length tail)%nat -> unbalanced (join "," (take n tail)) = true.

Definition pending_text (pending : list str) : option str :=
  match pending with [] => None | _ => Some (join "," pending) end.

Lemma never_balanced_snoc pending a :
  (pending = [] \/ never_balanced pending) -> unbalanced (join "," (pending ++ [a])) = true ->
  never_balanced (pending ++ [a]).
Proof.
  intros Hp Ha. split; [by destruct pending|]. intros n Hn. rewrite length_app in Hn. simpl in Hn.
  destruct (decide (n = S (length pending))) as [->|].
  - rewrite take_ge; [done|]. rewrite length_app. simpl. lia.
  - rewrite take_app_le by lia. destruct Hp as [-> |[_ Hp]]; [simpl in *; lia|]. apply Hp. lia.
Qed.

Lemma collapse_args_groups args pending :
  (pending = [] \/ never_balanced pending) ->
  match collapse_args (pending_text pending) args with
  | Ok r => exists gs, pending ++ args = concat gs /\ r = join "," <$> gs
                       /\ Forall shortest_balanced gs
  | Raise e => e = IndexError
      /\ exists gs tail, pending ++ args = concat gs ++ tail /\ Forall shortest_balanced gs
                         /\ never_balanced tail
  end.
Proof.
  revert pending. induction args as [|a args IH]; intros pending Hp.
  - destruct pending as [|p ps]; [by exists []|]. split; [done|].
    destruct Hp as [|Hp]; [done|]. exists [], (p :: ps). by rewrite app_nil_r.
  - assert (match pending_text pending with None => a | Some p => p +s "," +s a end
            = join "," (pending ++ [a])) as Hjoin.
    { destruct pending as [|p ps]; [done|]. cbn [pending_text]. by rewrite join_app. }
    cbn [collapse_args]. rewrite Hjoin. destruct (unbalanced _) eqn:Hu.
    + pose proof (never_balanced_snoc _ _ Hp Hu) as Hn.
      specialize (IH (pending ++ [a]) (or_intror Hn)).
      replace (pending_text (pending ++ [a])) with (Some (join "," (pending ++ [a]))) in IH
        by by destruct pending.
      rewrite <- app_assoc in IH. exact IH.
    + assert (shortest_balanced (pending ++ [a])) as Hs.
      { split; [by destruct pending|]. split; [done|]. intros n Hn. rewrite length_app in Hn.
        simpl in Hn. rewrite take_app_le by lia. destruct Hp as [-> |[_ Hp]]; [simpl in *; lia|].
        apply Hp. lia. }
      specialize (IH [] (or_introl eq_refl)). cbn [pending_text app] in IH.
      destruct (collapse_args None args) as [r|e]; cbn.
      * destruct IH as (gs & -> & -> & Hgs). exists ((pending ++ [a]) :: gs).
        split_and!; [cbn [concat]; by rewrite <- app_assoc|done|by constructor].
      * destruct IH as (-> & gs & tail & -> & Hgs & Ht). split; [done|].
        exists ((pending ++ [a]) :: gs), tail.
        split_and!; [cbn [concat]; by rewrite <- !app_assoc|by constructor|done].
Qed.

(** C28: the arguments of a constructor are the pieces of its parameter text between
    commas, joined again into the shortest groups whose angle brackets and
    parentheses are balanced; when a last group never gets balanced an
    [IndexError] is raised. *)
Theorem constructor_args_groups text :
  let pieces := if nonempty text then split text "," else [] in
  match constructor_args text with
  | Ok args => exists gs, pieces = concat gs /\ args = join "," <$> gs
                          /\ Forall shortest_balanced gs
  | Raise e => e = IndexError
      /\ exists gs tail, pieces = concat gs ++ tail /\ Forall shortest_balanced gs
                         /\ never_balanced tail
  end.
Proof.
  intros pieces. exact (collapse_args_groups pieces [] (or_introl eq_refl)).
Qed.

Lemma foldr_count_balanced (o c : N) l :
  Forall (fun x => count x [o] <= count x [c]) l ->
  foldr (fun x n => count x [o] + n) 0 l <= foldr (fun x n => count x [c] + n) 0 l.
Proof. induction 1; simpl; lia. Qed.

Lemma foldr_join_concat (c : N) gs :
  c <> ","%char -> Forall shortest_balanced gs ->
  foldr (fun x n => count x [c] + n) 0 (join "," <$> gs)
  = foldr (fun x n => count x [c] + n) 0 (concat gs).
Proof.
  change (of_string ",") with [Ascii.N_of_ascii ","].
  intros Hc. induction 1 as [|group gs _ _ IH]; [done|]. cbn [fmap list_fmap foldr concat].
  rewrite count_join_char by done. rewrite IH, foldr_app.
  generalize (foldr (fun x n => count x [c] + n) 0 (concat gs)) as k. intros k.
  induction group as [|x group IHg]; [done|]. cbn [foldr] in *. lia.
Qed.

(** C29: the check for explicit constructors raises an [IndexError] on a parameter
    text with more opening than closing angle brackets, as a shift or a comparison
    in a default argument gives. *)
Theorem constructor_args_unbalanced text :
  count text ">" < count text "<" -> constructor_args text = Raise IndexError.
Proof.
  intros Hc. pose proof (constructor_args_groups text) as H. cbv zeta in H.
  destruct (constructor_args text) as [args|e]; [|by destruct H as [-> _]]. exfalso.
  destruct H as (gs & Hgs & -> & Hbal).
  destruct (nonempty text) eqn:Hne; [|by destruct text].
  assert (forall c : N, c <> ","%char ->
    count text [c] = foldr (fun x n => count x [c] + n) 0 (join "," <$> gs)) as Hcount.
  { intros c Hc'. rewrite foldr_join_concat, <- Hgs by done.
    rewrite <- (count_join_char c ","%char) by done. by rewrite (join_split_char ","%char). }
  change (count text [Ascii.N_of_ascii ">"] < count text [Ascii.N_of_ascii "<"]) in Hc.
  rewrite !Hcount in Hc by done.
  assert (Forall (fun x => count x [Ascii.N_of_ascii "<"] <= count x [Ascii.N_of_ascii ">"])
            (join "," <$> gs)) as Hall.
  { apply Forall_fmap. eapply Forall_impl; [exact Hbal|]. intros g (_ & Hu & _).
    unfold unbalanced in Hu. apply orb_false_elim in Hu as [Hu _]. by apply Z.ltb_ge in Hu. }
  apply foldr_count_balanced in Hall. lia.
Qed.

Lemma constructor_args_unbalanced_witness :
  constructor_args "int x = 1 << 3" = Raise IndexError.
Proof. apply constructor_args_unbalanced. reflexivity. Defined.

(** * The redundant virtual check *)

Lemma PARAMETER_HEAD_shape s mo :
  Match _PARAMETER_HEAD s = Some mo -> (length (grp mo 1) < length s)%nat.
Proof.
  intros Hm. match_inv Hm _PARAMETER_HEAD.
  match goal with H : mo_caps mo = _ |- _ => simpl in H; rename H into Hc end.
  pose proof (grp_bound mo 1 _ _ ltac:(rewrite Hc; reflexivity)). simpl in *. lia.
Qed.

(** The lines [linenums] of the file. *)
Definition lines_of (cl : CleansedLines) (linenums : list Z) : Prop :=
  Forall (fun i => 0 <= i < len (elided cl)) linenums.

Lemma lines_of_zrange cl a b : 0 <= a -> b <= len (elided cl) -> lines_of cl (zrange a b).
Proof. intros Ha Hb. apply Forall_forall. intros i Hi%elem_of_zrange. lia. Qed.

Lemma parameter_list_end_total cl linenums start_col :
  lines_of cl linenums -> 0 <= start_col ->
  exists end_line end_col, parameter_list_end cl linenums start_col = Ok (end_line, end_col)
    /\ (end_col < 0 \/ 0 <= end_line).
Proof.
  intros Hl. revert start_col. induction Hl as [|i rest Hi _ IH]; intros start_col Hs.
  { exists (-1), (-1). split; [done|lia]. }
  cbn [parameter_list_end].
  destruct (lookup_lt_is_Some_2 (elided cl) (Z.to_nat i)) as [l Hl]; [unfold len in *; lia|].
  replace i with (Z.of_nat (Z.to_nat i)) by lia. rewrite (idx_Ok _ _ _ Hl). cbn [mbind res_bind].
  destruct (Match _ (slice_from l start_col)) as [mo|] eqn:Em; [|by apply IH].
  apply PARAMETER_HEAD_shape in Em. rewrite length_slice_from_pos in Em by done.
  destruct (CloseExpression_result cl (Z.to_nat i) (start_col + len (grp mo 1)) l
              (Z.to_nat start_col + length (grp mo 1))) as (l' & n' & p & -> & H);
    [done|unfold len; lia|lia|].
  exists n', p. split; [done|]. destruct H as [[_ ->]|(k & q & c & -> & _)]; lia.
Qed.

(** C38: the check for a redundant [virtual] returns on every line of a file: the
    parameter list it finds is closed on a line of the file, if at all. *)
Theorem CheckRedundantVirtual_total I error `{!Handler I error} filename cl n :
  clean_ok cl -> (n < length (elided cl))%nat ->
  total I (CheckRedundantVirtual filename cl (Z.of_nat n) error) (fun _ => True).
Proof.
  intros [Hc _] Hn. assert (NumLines cl = len (elided cl)) as HN by (unfold NumLines, len; lia).
  unfold CheckRedundantVirtual. total_step; [unfold len; lia|].
  destruct (Match _ _) as [virtual|]; [|by repeat total_step].
  do 2 (total_step; [by total_step|]).
  destruct (parameter_list_end_total cl (zrange (Z.of_nat n) (Z.min (Z.of_nat n + 3) (NumLines cl)))
              (len (grp virtual 2))) as (el & ec & E & Hend);
    [apply lines_of_zrange; lia|unfold len; lia|].
  eapply total_bind; [by apply (total_lift _ _ (fun x => x = (el, ec)) (el, ec))|].
  intros [el' ec'] [= -> ->]. destruct (Z.ltb_spec ec 0); [by total_step|].
  assert (lines_of cl (zrange el (Z.min (el + 3) (NumLines cl)))) as Hl
    by (apply lines_of_zrange; lia).
  clear -Handler0 Hl. revert ec.
  induction Hl as [|i rest Hi _ IH]; intros ec; [by apply total_skip|]. cbn [virt_specifier_loop].
  total_step; [done|]. total_step; [destruct (Search _ _); total_step|].
  total_step; [by total_step|]. apply IH.
Qed.

Definition sample_virtual : CleansedLines :=
  let ls := of_string <$> ["  virtual void f("; "      int x)"; "      const override;"; ""]%string in
  mkCleansedLines ls ls ls ls.

Lemma CheckRedundantVirtual_total_witness :
  exists g' a, CheckRedundantVirtual "a.h" sample_virtual 0 Error globals_init = (g', Ok a)
    /\ sound g' /\ True.
Proof.
  refine (CheckRedundantVirtual_total sound Error "a.h" sample_virtual 0 _ _ globals_init sound_init).
  - by split.
  - apply Nat.ltb_lt. reflexivity.
Defined.

(** * Concrete behaviour *)

Definition one_line (line : string) : CleansedLines :=
  mkCleansedLines [of_string line] [of_string line] [of_string line] [of_string line].

Definition in_class_Foo : NestingState :=
  mkNestingState
    [mkBlock 0 true 0 _NO_ASM false (ClassInfo (mkClassData "Foo" false "public" false 0 3))]
    [0%nat] None [].

(** A shift in a default argument makes the check of the line raise. *)
Example explicit_shift_raises :
  CheckForNonStandardConstructs "a.h" (one_line "  explicit Foo(int x = 1 << 3);") 0 in_class_Foo
    Error globals_init = (globals_init, Raise IndexError).
Proof. vm_compute. reflexivity. Qed.

(** A right shift of a constant is reported as a variable-length array, a left
    shift is not. *)
Example right_shift_is_variable_length :
  variable_length_array "int a[kSize >> 1];" = true
  /\ variable_length_array "int a[kSize << 1];" = false.
Proof. vm_compute. done. Qed.

(** C39: when the template argument list of a cast whose address is taken ends its
    line, the check of what the address is taken of raises an [IndexError]: it reads
    the character after the closing bracket, which is past the end of the line. *)
Theorem parenthesis_error_at_line_end cl n line mo l y :
  Match _CAST_HEAD line = Some mo ->
  CloseExpression cl n (len (grp mo 1)) = Ok (l, Z.of_nat y, len l) ->
  elided cl !! y = Some l ->
  parenthesis_error cl n line = Raise IndexError.
Proof.
  intros Hm Hc Hl. unfold parenthesis_error. rewrite Hm, Hc. cbn [mbind res_bind].
  destruct (Z.leb_spec 0 (len l)); [|unfold len in *; lia].
  rewrite (idx_Ok _ _ _ Hl). cbn [mbind res_bind]. unfold idx, len. rewrite py_index_pos by lia.
  by rewrite Nat2Z.id, lookup_ge_None_2.
Qed.

Lemma parenthesis_error_at_line_end_witness :
  parenthesis_error (one_line "foo(&static_cast<Bar*>") 0 "foo(&static_cast<Bar*>" = Raise IndexError.
Proof.
  refine (parenthesis_error_at_line_end (one_line "foo(&static_cast<Bar*>") 0 "foo(&static_cast<Bar*>"
    (mkMatch (of_string "foo(&static_cast<Bar*>") 0 17 [None; Some (0, 16)%nat])
    "foo(&static_cast<Bar*>" 0 _ _ _); vm_compute; reflexivity.
Defined.

(** A cast whose template arguments end the line makes the check raise. *)
Example cast_at_line_end_raises :
  CheckCasts "a.cc" (one_line "foo(&static_cast<Bar*>") 0 Error globals_init
  = (globals_init, Raise IndexError).
Proof. vm_compute. reflexivity. Qed.
