(* ===== verification/Spacing.v ===== *)
(** The spacing checks of one line: comments, blank lines, operators, parentheses,
    commas, braces, class sections and function calls. *)

From S2P Require Import Prelude PyStr Regex State Cleanse Expr Lines Nesting.

Open Scope Z_scope.
Open Scope py_scope.

(** * Comments *)

Definition _RE_PATTERN_TODO : pattern := rx "^//(\s*)TODO(\(.+?\))?:?(\s|$)?".

(** [string.whitespace] *)
Definition string_whitespace (c : N) : bool := re_space c.

(** [s[i] not in string.whitespace] *)
Definition not_whitespace_at (s : str) (i : Z) : res bool :=
  c ← idx s i; Ok (negb (string_whitespace c)).

(** There are fewer than two spaces between the code and the comment. *)
Definition too_close (line : str) (commentpos : Z) : res bool :=
  one ← (if 1 <=? commentpos then not_whitespace_at line (commentpos - 1) else Ok false);
  if (one : bool) then Ok true
  else if 2 <=? commentpos then not_whitespace_at line (commentpos - 2) else Ok false.

Definition check_todo (filename : str) (linenum : Z) (mo : match_obj) (error : error_fn) : M unit :=
  when (1 <? len (grp mo 1))
    (error filename linenum "whitespace/todo" 2 "Too many spaces before TODO") ;;
  when (negb (nonempty (grp mo 2)))
    (error filename linenum "readability/todo" 2
       ("Missing username in TODO; it should look like " +s "`// TODO(my_username): Stuff.`")) ;;
  when (match group mo 3 with
        | Some middle_whitespace => (middle_whitespace <>s " ") && (middle_whitespace <>s "")
        | None => true
        end)
    (error filename linenum "whitespace/todo" 2 "TODO(my_username) should be followed by a space").

Definition CheckComment (line filename : str) (linenum next_line_start : Z) (error : error_fn)
    : M unit :=
  let commentpos := find line "//" in
  if commentpos =? -1 then skip
  else if negb (count (re_sub (rx "\\.") [] (slice line 0 commentpos)) "`" mod 2 =? 0) then skip
  else
    close ← (if negb (matches (rx "^.*{ *//") line && (next_line_start =? commentpos))
             then lift (too_close line commentpos) else mret false);
    when close
      (error filename linenum "whitespace/comments" 2
         "At least two spaces is best between code and comments") ;;
    let comment := slice_from line commentpos in
    match re_match _RE_PATTERN_TODO comment with
    | Some mo => check_todo filename linenum mo error
    | None => skip
    end ;;
    when (matches (rx "//[^ ]*\w") comment && negb (matches (rx "(///|//\!)(\s+|$)") comment))
      (error filename linenum "whitespace/comments" 4
         "Should have a space between // and comment").

(** * Blank lines *)

(** The nearest line at or above the first of [before] that is not indented six spaces. *)
Fixpoint not_indented_six (before : list str) : option str :=
  match before with
  | [] => None
  | l :: before' => if matches (rx " {6}\w") l then not_indented_six before' else Some l
  end.

(** The previous line is the end of a function header, or of an initializer list. *)
Definition blank_exception (clean_lines : CleansedLines) (linenum : Z) (prev_line : str) : bool :=
  if matches (rx " {6}\w") prev_line then
    match not_indented_six (reverse (take (Z.to_nat (linenum - 1)) (elided clean_lines))) with
    | Some l => slice_to l 5 =s "    :"
    | None => false
    end
  else matches (rx " {4}\w[^\(]*\)\s*(const\s*)?(\{\s*$|:)") prev_line || matches (rx " {4}:") prev_line.

Definition check_blank_line (filename : str) (clean_lines : CleansedLines) (linenum : Z)
    (error : error_fn) : M unit :=
  prev_line ← line_at (elided clean_lines) (linenum - 1);
  let prevbrace := rfind prev_line "{" in
  when (negb (prevbrace =? -1) && (find (slice_from prev_line prevbrace) "}" =? -1)
        && negb (blank_exception clean_lines linenum prev_line))
    (error filename linenum "whitespace/blank_line" 2
       ("Redundant blank line at the start of a code block " +s "should be deleted.")) ;;
  (if linenum + 1 <? NumLines clean_lines then
     next_line ← line_at (lines_without_raw_strings clean_lines) (linenum + 1);
     when (nonempty next_line && matches (rx "\s*}") next_line && (find next_line "} else " =? -1))
       (error filename linenum "whitespace/blank_line" 3
          ("Redundant blank line at the end of a code block " +s "should be deleted."))
   else skip) ;;
  match Match (rx "\s*(public|protected|private):") prev_line with
  | Some mo =>
      error filename linenum "whitespace/blank_line" 3
        ("Do not leave a blank line after `" +s grp mo 1 +s ":`")
  | None => skip
  end.

Definition CheckSpacing (filename : str) (clean_lines : CleansedLines) (linenum : Z)
    (ns : NestingState) (error : error_fn) : M unit :=
  let raw := lines_without_raw_strings clean_lines in
  line ← line_at raw linenum;
  (if IsBlankLine line && negb (InNamespaceBody ns) && negb (InExternC ns)
   then check_blank_line filename clean_lines linenum error else skip) ;;
  next_line_start ←
    (if linenum + 1 <? NumLines clean_lines then
       next_line ← line_at raw (linenum + 1); mret (len next_line - len (lstrip next_line))
     else mret 0);
  CheckComment line filename linenum next_line_start error ;;
  line ← line_at (elided clean_lines) linenum;
  when (searches (rx "\w\s+\[") line && negb (searches (rx "(?:delete|return)\s+\[") line))
    (error filename linenum "whitespace/braces" 5 "Extra space before [") ;;
  when (searches (rx "for *\(.*[^:]:[^: ]") line || searches (rx "for *\(.*[^: ]:[^:]") line)
    (error filename linenum "whitespace/forcolon" 2
       "Missing space around colon in range-based for loop").

(** * Operators *)

Definition _OPERATOR_NAME : pattern := rx "^(.*\boperator\b)(\S+)(\s*\(.*)$".

(** The names of operators are replaced by underscores, column by column. *)
Fixpoint mask_operators (fuel : nat) (line : str) : res str :=
  match Match _OPERATOR_NAME line with
  | None => Ok line
  | Some mo =>
      match fuel with
      | O => Raise OutOfFuel
      | S f => mask_operators f (grp mo 1 +s repeat_str "_" (len (grp mo 2)) +s grp mo 3)
      end
  end.

Definition _LESS : pattern := rx "^(.*[^\s<])<[^\s=<,]".
Definition _GREATER : pattern := rx "^(.*[^-\s>])>[^\s=>,]".
Definition _SHIFT : pattern :=
  rx "(operator|[^\s(<])(?:L|UL|LL|ULL|l|ul|ll|ull)?<<([^\s,=<])".

Definition check_comparison (filename : str) (clean_lines : CleansedLines) (linenum : Z)
    (line : str) (error : error_fn) : M unit :=
  match Search (rx "[^<>=!\s](==|!=|<=|>=|\|\|)[^<>=!\s,;\)]") line with
  | Some mo =>
      error filename linenum "whitespace/operators" 3 ("Missing spaces around " +s grp mo 1)
  | None =>
      if matches (rx "#.*include") line then skip
      else
        match Match _LESS line with
        | Some mo =>
            '(_, _, end_pos) ← lift (CloseExpression clean_lines linenum (len (grp mo 1)));
            when (end_pos <=? -1)
              (error filename linenum "whitespace/operators" 3 "Missing spaces around <")
        | None => skip
        end ;;
        match Match _GREATER line with
        | Some mo =>
            '(_, _, start_pos) ← lift (ReverseCloseExpression clean_lines linenum (len (grp mo 1)));
            when (start_pos <=? -1)
              (error filename linenum "whitespace/operators" 3 "Missing spaces around >")
        | None => skip
        end
  end.

Definition CheckOperatorSpacing (filename : str) (clean_lines : CleansedLines) (linenum : Z)
    (error : error_fn) : M unit :=
  line ← line_at (elided clean_lines) linenum;
  line ← lift (mask_operators (length line) line);
  when ((searches (rx "[\w.]=") line || searches (rx "=[\w.]") line)
        && negb (searches (rx "\b(if|while|for) ") line)
        && negb (searches (rx "(>=|<=|==|!=|&=|\^=|\|=|\+=|\*=|\/=|\%=)") line)
        && negb (searches (rx "operator=") line))
    (error filename linenum "whitespace/operators" 4 "Missing spaces around =") ;;
  check_comparison filename clean_lines linenum line error ;;
  match Search _SHIFT line with
  | Some mo =>
      when (negb (isdigit (grp mo 1) && isdigit (grp mo 2))
            && negb ((grp mo 1 =s "operator") && (grp mo 2 =s ";")))
        (error filename linenum "whitespace/operators" 3 "Missing spaces around <<")
  | None => skip
  end ;;
  when (searches (rx ">>[a-zA-Z_]") line)
    (error filename linenum "whitespace/operators" 3 "Missing spaces around >>") ;;
  match Search (rx "(!\s|~\s|[\s]--[\s;]|[\s]\+\+[\s;])") line with
  | Some mo =>
      error filename linenum "whitespace/operators" 4 ("Extra space for operator " +s grp mo 1)
  | None => skip
  end.

(** * Parentheses and commas *)

Definition _CONTROL_PARENS : pattern :=
  rx "\b(if|for|while|switch)\s*\(([ ]*)(.).*[^ ]+([ ]*)\)\s*{\s*$".

Definition CheckParenthesisSpacing (filename : str) (clean_lines : CleansedLines) (linenum : Z)
    (error : error_fn) : M unit :=
  line ← line_at (elided clean_lines) linenum;
  match Search (rx " (if\(|for\(|while\(|switch\()") line with
  | Some mo =>
      error filename linenum "whitespace/parens" 5 ("Missing space before ( in " +s grp mo 1)
  | None => skip
  end ;;
  match Search _CONTROL_PARENS line with
  | Some mo =>
      let left := len (grp mo 2) in
      let right := len (grp mo 4) in
      when (negb (left =? right)
            && negb ((grp mo 3 =s ";") && (left =? 1 + right)
                     || negb (nonempty (grp mo 2)) && searches (rx "\bfor\s*\(.*; \)") line))
        (error filename linenum "whitespace/parens" 5
           ("Mismatching spaces inside () in " +s grp mo 1)) ;;
      when (negb ((left =? 0) || (left =? 1)))
        (error filename linenum "whitespace/parens" 5
           ("Should have zero or one spaces inside ( and ) in " +s grp mo 1))
  | None => skip
  end.

Definition CheckCommaSpacing (filename : str) (clean_lines : CleansedLines) (linenum : Z)
    (error : error_fn) : M unit :=
  line ← line_at (elided clean_lines) linenum;
  (if searches (rx ",[^,\s]") (ReplaceAll (rx "\boperator\s*,\s*\(") "F(" line) then
     raw ← line_at (lines_without_raw_strings clean_lines) linenum;
     when (searches (rx ",[^,\s]") raw)
       (error filename linenum "whitespace/comma" 3 "Missing space after ,")
   else skip) ;;
  when (searches (rx ";[^\s};\\)/]") line)
    (error filename linenum "whitespace/semicolon" 3 "Missing space after ;").

(** * Braces *)

Definition _TYPES : pattern :=
  rx "^(?:(char(16_t|32_t)?)|wchar_t|bool|short|int|long|signed|unsigned|float|double|(ptrdiff_t|size_t|max_align_t|nullptr_t)|(u?int(_fast|_least)?(8|16|32|64)_t)|(u?int(max|ptr)_t)|)$".

Definition typename_pattern (token : str) : res pattern :=
  some_or ReError (re_compile ("\b(?:typename|class|struct)\s+" +s escape token +s "\b")).

(** The nearest of the lines that has [template], going up. *)
Fixpoint template_line (clean_lines : CleansedLines) (linenums : list Z) : res (option Z) :=
  match linenums with
  | [] => Ok None
  | i :: rest =>
      l ← idx (elided clean_lines) i;
      if 0 <=? find l "template" then Ok (Some i) else template_line clean_lines rest
  end.

Fixpoint any_search (p : pattern) (clean_lines : CleansedLines) (linenums : list Z) : res bool :=
  match linenums with
  | [] => Ok false
  | i :: rest =>
      l ← idx (elided clean_lines) i;
      if searches p l then Ok true else any_search p clean_lines rest
  end.

(** Up the blocks, innermost first. *)
Fixpoint type_of_block (clean_lines : CleansedLines) (token : str) (stack : list Block) : res bool :=
  match stack with
  | [] => Ok false
  | b :: outer =>
      if is_namespace b then Ok false
      else
        let last_line := starting_linenum b in
        let next_block_start := match outer with o :: _ => starting_linenum o | [] => 0 end in
        first ← template_line clean_lines (zrange_down last_line (next_block_start - 1));
        match first with
        | None => type_of_block clean_lines token outer
        | Some first_line =>
            p ← typename_pattern token;
            found ← any_search p clean_lines (zrange first_line (last_line + 1));
            if (found : bool) then Ok true else type_of_block clean_lines token outer
        end
  end.

Definition _IsType (clean_lines : CleansedLines) (ns : NestingState) (expr : str) : res bool :=
  let token := match Match (rx "^.*(\b\S+)$") expr with Some mo => grp mo 1 | None => expr end in
  if is_some (re_match _TYPES token) then Ok true
  else type_of_block clean_lines token (blocks ns).

Definition _OPEN_BRACE : pattern := rx "^(.*[^ ({>]){".

Fixpoint concat_lines (clean_lines : CleansedLines) (linenums : list Z) (text : str) : res str :=
  match linenums with
  | [] => Ok text
  | i :: rest => l ← idx (elided clean_lines) i; concat_lines clean_lines rest (text +s l)
  end.

(** What follows the brace that closes the one after [leading_text]. *)
Definition trailing_text (clean_lines : CleansedLines) (linenum : Z) (leading_text : str) : res str :=
  '(endline, endlinenum, endpos) ← CloseExpression clean_lines linenum (len leading_text);
  concat_lines clean_lines
    (zrange (endlinenum + 1) (Z.min (endlinenum + 3) (NumLines clean_lines - 1)))
    (if -1 <? endpos then slice_from endline endpos else []).

Definition CheckBracesSpacing (filename : str) (clean_lines : CleansedLines) (linenum : Z)
    (ns : NestingState) (error : error_fn) : M unit :=
  line ← line_at (elided clean_lines) linenum;
  match Match _OPEN_BRACE line with
  | Some mo =>
      let leading_text := grp mo 1 in
      trailing ← lift (trailing_text clean_lines linenum leading_text);
      if matches (rx "^[\s}]*[{.;,)<>\]:]") trailing then skip
      else
        is_type ← lift (_IsType clean_lines ns leading_text);
        when (negb is_type)
          (error filename linenum "whitespace/braces" 5 "Missing space before {")
  | None => skip
  end ;;
  when (searches (rx "}else") line)
    (error filename linenum "whitespace/braces" 5 "Missing space before else") ;;
  if searches (rx ":\s*;\s*$") line then
    error filename linenum "whitespace/semicolon" 5
      "Semicolon defining empty statement. Use {} instead."
  else if searches (rx "^\s*;\s*$") line then
    error filename linenum "whitespace/semicolon" 5
      ("Line contains only semicolon. If this should be an empty statement, " +s "use {} instead.")
  else
    when (searches (rx "\s+;\s*$") line && negb (searches (rx "\bfor\b") line))
      (error filename linenum "whitespace/semicolon" 5
         ("Extra space before last semicolon. If this should be an empty " +s
          "statement, use {} instead.")).

(** * Sections of a class *)

(** The first of the lines that ends with an opening brace, or [default]. *)
Fixpoint class_head_end (clean_lines : CleansedLines) (linenums : list Z) (head : Z) : res Z :=
  match linenums with
  | [] => Ok head
  | i :: rest =>
      l ← idx (lines clean_lines) i;
      if searches (rx "\{\s*$") l then Ok i else class_head_end clean_lines rest head
  end.

Definition CheckSectionSpacing (filename : str) (clean_lines : CleansedLines) (b : Block)
    (class_info : ClassData) (linenum : Z) (error : error_fn) : M unit :=
  if (last_line class_info - starting_linenum b <=? 24) || (linenum <=? starting_linenum b) then skip
  else
    line ← line_at (lines clean_lines) linenum;
    match Match (rx "\s*(public|protected|private):") line with
    | None => skip
    | Some matched =>
        prev_line ← line_at (lines clean_lines) (linenum - 1);
        if negb (IsBlankLine prev_line) && negb (searches (rx "\b(class|struct)\b") prev_line)
           && negb (searches (rx "\\$") prev_line) then
          end_class_head ← lift (class_head_end clean_lines
            (zrange (starting_linenum b) linenum) (starting_linenum b));
          when (end_class_head <? linenum - 1)
            (error filename linenum "whitespace/blank_line" 3
               ("`" +s grp matched 1 +s ":` should be preceded by a blank line"))
        else skip
    end.

(** * Function calls *)

Definition _CONTROL_FLOW : list pattern := [
  rx "\bif\s*\((.*)\)\s*{"; rx "\bfor\s*\((.*)\)\s*{"; rx "\bwhile\s*\((.*)\)\s*[{;]";
  rx "\bswitch\s*\((.*)\)\s*{" ].

(** The inside of the control structure of the line, or the line itself. *)
Fixpoint function_call (patterns : list pattern) (line : str) : str :=
  match patterns with
  | [] => line
  | p :: rest => match Search p line with Some mo => grp mo 1 | None => function_call rest line end
  end.

Definition CheckSpacingForFunctionCall (filename : str) (clean_lines : CleansedLines) (linenum : Z)
    (error : error_fn) : M unit :=
  line ← line_at (elided clean_lines) linenum;
  let fncall := function_call _CONTROL_FLOW line in
  if searches (rx "\b(if|for|while|switch|return|new|delete|catch|sizeof)\b") fncall
     || searches (rx " \([^)]+\)\([^)]*(\)|,$)") fncall
     || searches (rx " \([^)]+\)\[[^\]]+\]") fncall then skip
  else
    (if searches (rx "\w\s*\(\s(?!\s*\\$)") fncall then
       error filename linenum "whitespace/parens" 4 "Extra space after ( in function call"
     else
       when (searches (rx "\(\s+(?!(\s*\\)|\()") fncall)
         (error filename linenum "whitespace/parens" 2 "Extra space after (")) ;;
    when (searches (rx "\w\s+\(") fncall
          && negb (searches (rx "_{0,2}asm_{0,2}\s+_{0,2}volatile_{0,2}\s+\(") fncall)
          && negb (searches (rx "#\s*define|typedef|using\s+\w+\s*=") fncall)
          && negb (searches (rx "\w\s+\((\w+::)*\*\w+\)\(") fncall)
          && negb (searches (rx "\bcase\s+\(") fncall))
      (error filename linenum "whitespace/parens"
         (if searches (rx "\boperator_*\b") line then 0 else 4)
         "Extra space before ( in function call") ;;
    when (searches (rx "[^)]\s+\)\s*[^{\s]") fncall)
      (error filename linenum "whitespace/parens" 2
         (if searches (rx "^\s+\)") fncall then "Closing ) should be moved to the previous line"
          else "Extra space before )")).
