(* ===== verification/Style.v ===== *)
(** The style checks of one line: braces, trailing semicolons, empty bodies, the
    CHECK macros, the alternative tokens, and [CheckStyle] that runs them with the
    spacing checks. *)

From S2P Require Import Prelude PyStr Regex State Cleanse Expr Lines Nesting FilePath Spacing.

Open Scope Z_scope.
Open Scope py_scope.

(** * Braces *)

(** An opening brace or an [else] on a line of its own. *)
Definition check_brace_line (u : UnicodeData) (filename : str) (clean_lines : CleansedLines)
    (linenum : Z) (line : str) (error : error_fn) : M unit :=
  (if matches (rx "\s*{\s*$") line then
     let prevline := (GetPreviousNonBlankLine clean_lines linenum).1 in
     g ← get;
     when (negb (searches (rx "[,;:}{(]\s*$") prevline) && negb (matches (rx "\s*#") prevline)
           && negb ((line_length g - 2 <? GetLineWidth u prevline) && contains prevline "[]"))
       (error filename linenum "whitespace/braces" 4
          "{ should almost always be at the end of the previous line")
   else skip) ;;
  when (matches (rx "\s*else\b\s*(?:if\b|\{|$)") line
        && matches (rx "\s*}\s*$") (GetPreviousNonBlankLine clean_lines linenum).1)
    (error filename linenum "whitespace/newline" 4
       "An else should appear on the same line as the preceding }").

(** Braces on one side of an [else] only. *)
Definition check_else_braces (filename : str) (clean_lines : CleansedLines) (linenum : Z)
    (line : str) (error : error_fn) : M unit :=
  let message := of_string "If an else has a brace on one side, it should have it on both" in
  if searches (rx "else if\s*\(") line then
    let brace_on_left := searches (rx "}\s*else if\s*\(") line in
    let pos := find_from line "(" (find line "else if") in
    if 0 <? pos then
      '(endline, _, endpos) ← lift (CloseExpression clean_lines linenum pos);
      let brace_on_right := negb (find (slice_from endline endpos) "{" =? -1) in
      when (negb (Bool.eqb brace_on_left brace_on_right))
        (error filename linenum "readability/braces" 5 message)
    else skip
  else
    when (searches (rx "}\s*else[^{]*$") line || matches (rx "[^}]*else\s*{") line)
      (error filename linenum "readability/braces" 5 message).

(** The first line from [endlinenum] on, from column [endpos] of that line, that has
    a semicolon: its number and the line; [rest] are the lines from [endlinenum] on. *)
Fixpoint semicolon_line (rest : list str) (endlinenum endpos : Z) : option (Z * str) :=
  match rest with
  | [] => None
  | l :: rest' =>
      if contains (slice_from l endpos) ";" then Some (endlinenum, l)
      else semicolon_line rest' (endlinenum + 1) 0
  end.

Definition _LAMBDA : pattern := rx "^[^{};]*\[[^\[\]]*\][^{}]*\{[^{}]*\}\s*\)*[;,]\s*$".

(** The body of a conditional without braces. *)
Definition check_single_statement (filename : str) (clean_lines : CleansedLines)
    (linenum if_indent : Z) (if_match : bool) (endlinenum endpos : Z) (error : error_fn) : M unit :=
  let el := elided clean_lines in
  match semicolon_line (drop (Z.to_nat endlinenum) el) endlinenum endpos with
  | None => skip
  | Some (endlinenum, endline) =>
      if negb (matches (rx ";[\s}]*(\\?)$") (slice_from endline (find endline ";"))) then
        when (negb (matches _LAMBDA endline))
          (error filename linenum "readability/braces" 4
             "If/else bodies with multiple statements require braces")
      else if endlinenum <? len el - 1 then
        next_line ← line_at el (endlinenum + 1);
        let next_indent := GetIndentLevel next_line in
        if if_match && matches (rx "\s*else\b") next_line && negb (next_indent =? if_indent) then
          error filename linenum "readability/braces" 4
            ("Else clause should be indented at the same level as if. " +s
             "Ambiguous nested if/else chains require braces.")
        else
          when (if_indent <? next_indent)
            (error filename linenum "readability/braces" 4
               "If/else bodies with multiple statements require braces")
      else skip
  end.

Definition check_single_line_if (filename : str) (clean_lines : CleansedLines) (linenum : Z)
    (line : str) (error : error_fn) : M unit :=
  let el := elided clean_lines in
  match Search (rx "\b(if\s*\(|else\b)") line with
  | None => skip
  | Some if_else_match =>
      if matches (rx "\s*#") line then skip
      else
        let if_match := Search (rx "\bif\s*\(") line in
        '(endline, endlinenum, endpos) ←
          (match if_match with
           | Some mo => lift (CloseExpression clean_lines linenum (mend mo - 1))
           | None => mret (line, linenum, mend if_else_match)
           end);
        let after := slice_from endline endpos in
        brace ← (if matches (rx "\s*{") after then mret true
                 else if matches (rx "\s*$") after && (endlinenum <? len el - 1) then
                   next ← line_at el (endlinenum + 1); mret (matches (rx "\s*{") next)
                 else mret false);
        if (brace : bool) then skip
        else
          check_single_statement filename clean_lines linenum (GetIndentLevel line)
            (is_some if_match) endlinenum endpos error
  end.

Definition CheckBraces (u : UnicodeData) (filename : str) (clean_lines : CleansedLines)
    (linenum : Z) (error : error_fn) : M unit :=
  line ← line_at (elided clean_lines) linenum;
  check_brace_line u filename clean_lines linenum line error ;;
  check_else_braces filename clean_lines linenum line error ;;
  when (searches (rx "\belse [^\s{]") line && negb (searches (rx "\belse if\b") line))
    (error filename linenum "whitespace/newline" 4
       "Else clause should never be on same line as else (use 2 lines)") ;;
  when (matches (rx "\s*do [^\s{]") line)
    (error filename linenum "whitespace/newline" 4
       "do/while clauses should not be on a single line") ;;
  check_single_line_if filename clean_lines linenum line error.

(** * Trailing semicolons *)

Definition _SAFE_MACROS : list str := of_string <$> [
  "TEST"; "TEST_F"; "MATCHER"; "MATCHER_P"; "TYPED_TEST"; "EXCLUSIVE_LOCKS_REQUIRED";
  "SHARED_LOCKS_REQUIRED"; "LOCKS_EXCLUDED"; "INTERFACE_DEF"]%string.

(** The text before the parameter list says that no block follows. *)
Definition not_a_block (line_prefix : str) : bool :=
  match Search (rx "\b([A-Z_][A-Z0-9_]*)\s*$") line_prefix with
  | Some macro => negb (str_in (grp macro 1) _SAFE_MACROS)
  | None => false
  end
  || match Match (rx "^(.*\])\s*$") line_prefix with
     | Some func => negb (searches (rx "\boperator\s*\[\s*\]") (grp func 1))
     | None => false
     end
  || searches (rx "\b(?:struct|union)\s+alignas\s*$") line_prefix
  || searches (rx "\bdecltype$") line_prefix
  || searches (rx "\s+=\s*$") line_prefix.

Definition _BLOCK_AFTER_PARENS : pattern := rx "^(.*\)\s*)\{".

(** The text before the brace of the block that should not end with a semicolon. *)
Definition block_head (clean_lines : CleansedLines) (linenum : Z) (line : str) : res (option str) :=
  match Match _BLOCK_AFTER_PARENS line with
  | Some mo =>
      let head := grp mo 1 in
      '(open_line, open_linenum, open_pos) ←
        ReverseCloseExpression clean_lines linenum (rfind head ")");
      if (-1 <? open_pos) && not_a_block (slice open_line 0 open_pos) then Ok None
      else if 1 <? open_linenum then
        prev ← idx (elided clean_lines) (open_linenum - 1);
        Ok (if searches (rx "\]\s*$") prev then None else Some head)
      else Ok (Some head)
  | None =>
      match Match (rx "^(.*(?:else|\)\s*const)\s*)\{") line with
      | Some mo => Ok (Some (grp mo 1))
      | None =>
          let prevline := (GetPreviousNonBlankLine clean_lines linenum).1 in
          if nonempty prevline && searches (rx "[;{}]\s*$") prevline then
            Ok (match Match (rx "^(\s*)\{") line with Some mo => Some (grp mo 1) | None => None end)
          else Ok None
      end
  end.

Definition CheckTrailingSemicolon (filename : str) (clean_lines : CleansedLines) (linenum : Z)
    (error : error_fn) : M unit :=
  line ← line_at (elided clean_lines) linenum;
  block ← lift (block_head clean_lines linenum line);
  match block with
  | None => skip
  | Some head =>
      '(endline, endlinenum, endpos) ← lift (CloseExpression clean_lines linenum (len head));
      if (-1 <? endpos) && matches (rx "^\s*;") (slice_from endline endpos) then
        before ← line_at (raw_lines clean_lines) (endlinenum - 1);
        ParseNolintSuppressions filename before (endlinenum - 1) error ;;
        raw ← line_at (raw_lines clean_lines) endlinenum;
        ParseNolintSuppressions filename raw endlinenum error ;;
        error filename endlinenum "readability/braces" 4 "You don't need a ; after a }"
      else skip
  end.

(** * Empty bodies *)

Definition _EMPTY_CONDITIONAL_BODY_PATTERN : pattern := rx "^\s*$".

(** The opening brace of a body: the number of its line and the rest of the line it
    is looked for in; [None] when there is other code, or none. *)
Fixpoint opening_brace (rest : list str) (linenum : Z) (fragment : str) : option (Z * str) :=
  if searches (rx "^\s*\{") fragment then Some (linenum, fragment)
  else if searches (rx "^(?!\s*$)") fragment then None
  else match rest with
       | [] => None
       | l :: rest' => opening_brace rest' (linenum + 1) l
       end.

(** An else clause follows. *)
Fixpoint else_follows (rest : list str) (fragment : str) : bool :=
  if searches (rx "^\s*$|^(?=\s*else)") fragment then
    if searches (rx "^(?=\s*else)") fragment then true
    else match rest with
         | [] => false
         | l :: rest' => else_follows rest' l
         end
  else false.

(** The text between the braces; over several lines, the source joins the
    characters of the first one with line breaks. *)
Definition body_text (clean_lines : CleansedLines) (opening_line : str)
    (opening_linenum opening_pos closing_linenum closing_pos : Z) : res str :=
  if opening_linenum <? closing_linenum then
    last ← idx (elided clean_lines) closing_linenum;
    Ok (join [newline]
          (((fun c => [c]) <$> slice_from opening_line (opening_pos + 1))
           ++ slice (raw_lines clean_lines) (opening_linenum + 1) closing_linenum
           ++ [slice_to last (closing_pos - 1)])%list)
  else Ok (slice opening_line (opening_pos + 1) (closing_pos - 1)).

(** The body of an [if] whose condition ends at [end_pos] of line [end_linenum] is
    empty, without a comment, and no else clause follows. *)
Definition empty_if (clean_lines : CleansedLines) (end_line : str) (end_linenum end_pos : Z)
    : res bool :=
  let el := elided clean_lines in
  match opening_brace (drop (Z.to_nat (end_linenum + 1)) el) end_linenum
          (slice_from end_line end_pos) with
  | None => Ok false
  | Some (opening_linenum, fragment) =>
      opening_line ← idx el opening_linenum;
      let opening_pos :=
        find fragment "{" + (if opening_linenum =? end_linenum then end_pos else 0) in
      '(closing_line, closing_linenum, closing_pos) ←
        CloseExpression clean_lines opening_linenum opening_pos;
      if closing_pos <? 0 then Ok false
      else
        raw ← idx (raw_lines clean_lines) opening_linenum;
        if raw <>s CleanseComments raw then Ok false
        else
          body ← body_text clean_lines opening_line opening_linenum opening_pos
                   closing_linenum closing_pos;
          if negb (is_some (re_search _EMPTY_CONDITIONAL_BODY_PATTERN body)) then Ok false
          else Ok (negb (else_follows (drop (Z.to_nat (closing_linenum + 1)) el)
                           (slice_from closing_line closing_pos)))
  end.

Definition CheckEmptyBlockBody (filename : str) (clean_lines : CleansedLines) (linenum : Z)
    (error : error_fn) : M unit :=
  line ← line_at (elided clean_lines) linenum;
  match Match (rx "\s*(for|while|if)\s*\(") line with
  | None => skip
  | Some matched =>
      '(end_line, end_linenum, end_pos) ←
        lift (CloseExpression clean_lines linenum (find line "("));
      (if (0 <=? end_pos) && matches (rx ";") (slice_from end_line end_pos) then
         if grp matched 1 =s "if" then
           error filename end_linenum "whitespace/empty_conditional_body" 5
             "Empty conditional bodies should use {}"
         else
           error filename end_linenum "whitespace/empty_loop_body" 5
             "Empty loop bodies should use {} or continue"
       else skip) ;;
      if (0 <=? end_pos) && (grp matched 1 =s "if") then
        empty ← lift (empty_if clean_lines end_line end_linenum end_pos);
        when empty
          (error filename end_linenum "whitespace/empty_if_body" 4
             "If statement had no body and no else clause")
      else skip
  end.

(** * CHECK macros *)

Definition _CHECK_MACROS : list (str * pattern) := [
  (of_string "DCHECK", rx "^(.*\bDCHECK\s*)\("); (of_string "CHECK", rx "^(.*\bCHECK\s*)\(");
  (of_string "EXPECT_TRUE", rx "^(.*\bEXPECT_TRUE\s*)\(");
  (of_string "ASSERT_TRUE", rx "^(.*\bASSERT_TRUE\s*)\(");
  (of_string "EXPECT_FALSE", rx "^(.*\bEXPECT_FALSE\s*)\(");
  (of_string "ASSERT_FALSE", rx "^(.*\bASSERT_FALSE\s*)\(") ].

(** [_CHECK_REPLACEMENT[macro][operator]] *)
Definition operator_suffix (inverted : bool) (operator : str) : option str :=
  let pick (a b : string) := Some (of_string (if inverted then b else a)) in
  if operator =s "==" then pick "EQ" "NE"
  else if operator =s "!=" then pick "NE" "EQ"
  else if operator =s ">=" then pick "GE" "LT"
  else if operator =s ">" then pick "GT" "LE"
  else if operator =s "<=" then pick "LE" "GT"
  else if operator =s "<" then pick "LT" "GE"
  else None.

Definition _CHECK_REPLACEMENT (macro operator : str) : option str :=
  let named (prefix : string) inverted := (fun s => prefix +s s) <$> operator_suffix inverted operator in
  if macro =s "DCHECK" then named "DCHECK_" false
  else if macro =s "CHECK" then named "CHECK_" false
  else if macro =s "EXPECT_TRUE" then named "EXPECT_" false
  else if macro =s "ASSERT_TRUE" then named "ASSERT_" false
  else if macro =s "EXPECT_FALSE" then named "EXPECT_" true
  else if macro =s "ASSERT_FALSE" then named "ASSERT_" true
  else None.

Fixpoint find_check_macro (macros : list (str * pattern)) (line : str) : option (str * Z) :=
  match macros with
  | [] => None
  | (macro, p) :: rest =>
      if 0 <=? find line macro then
        match Match p line with
        | Some matched => Some (macro, len (grp matched 1))
        | None => find_check_macro rest line
        end
      else find_check_macro rest line
  end.

Definition FindCheckMacro (line : str) : option (str * Z) := find_check_macro _CHECK_MACROS line.

Definition _OPERATOR_TOKEN : pattern :=
  rx "^\s*(<<|<<=|>>|>>=|->\*|->|&&|\|\||==|!=|>=|>|<=|<|\()(.*)$".
Definition _OPERAND : pattern := rx "^([^-=!<>()&|]+)(.*)$".
Definition _OPERAND_CHAR : pattern := rx "^(\s*\S)(.*)$".

(** The left operand, the relational operator and the right operand of an
    expression; [None] when the check gives up on it, an empty operator when the
    expression has none. *)
Fixpoint parse_check (fuel : nat) (expression lhs : str) : res (option (str * str * str)) :=
  if negb (nonempty expression) then Ok (Some (lhs, [], []))
  else
    match fuel with
    | O => Raise OutOfFuel
    | S f =>
        match Match _OPERATOR_TOKEN expression with
        | Some matched =>
            let token := grp matched 1 in
            let expression := grp matched 2 in
            if token =s "(" then
              let '(end_pos, _) := FindEndOfExpressionInLine expression 0 (of_string "(") in
              if end_pos <? 0 then Ok None
              else parse_check f (slice_from expression end_pos)
                     (lhs +s "(" +s slice expression 0 end_pos)
            else if (token =s "&&") || (token =s "||") then Ok None
            else if str_in token (of_string <$> ["<<"; "<<="; ">>"; ">>="; "->*"; "->"]%string) then
              parse_check f expression (lhs +s token)
            else Ok (Some (lhs, token, expression))
        | None =>
            match Match _OPERAND expression with
            | Some matched => parse_check f (grp matched 2) (lhs +s grp matched 1)
            | None =>
                match Match _OPERAND_CHAR expression with
                | Some matched => parse_check f (grp matched 2) (lhs +s grp matched 1)
                | None => Ok (Some (lhs, [], []))
                end
            end
        end
    end.

Definition match_constant : pattern :=
  rx "^([-+]?(\d+|0[xX][0-9a-fA-F]+)[lLuU]{0,3}|`.*`|\'.*\')$".

(** The expression between the parentheses of the macro. *)
Definition check_expression (clean_lines : CleansedLines) (linenum : Z) (line last_line : str)
    (start_pos end_line end_pos : Z) : res str :=
  if linenum =? end_line then Ok (slice line (start_pos + 1) (end_pos - 1))
  else
    text ← concat_lines clean_lines (zrange (linenum + 1) end_line)
             (slice_from line (start_pos + 1));
    Ok (text +s slice last_line 0 (end_pos - 1)).

Definition CheckCheck (filename : str) (clean_lines : CleansedLines) (linenum : Z)
    (error : error_fn) : M unit :=
  line ← line_at (elided clean_lines) linenum;
  match FindCheckMacro line with
  | None => skip
  | Some (check_macro, start_pos) =>
      '(last_line, end_line, end_pos) ← lift (CloseExpression clean_lines linenum start_pos);
      if (end_pos <? 0) || negb (matches (rx "\s*;") (slice_from last_line end_pos)) then skip
      else
        expression ← lift (check_expression clean_lines linenum line last_line start_pos
                             end_line end_pos);
        parsed ← lift (parse_check (length expression) expression []);
        match parsed with
        | None => skip
        | Some (lhs, operator, rhs) =>
            if negb (nonempty lhs && nonempty operator && nonempty rhs) then skip
            else if contains rhs "&&" || contains rhs "||" then skip
            else if matches match_constant (strip lhs) || matches match_constant (strip rhs) then
              replacement ← lift (some_or KeyError (_CHECK_REPLACEMENT check_macro operator));
              error filename linenum "readability/check" 2
                ("Consider using " +s replacement +s " instead of " +s check_macro +s "(a "
                 +s operator +s " b)")
            else skip
        end
  end.

(** * Alternative tokens *)

Definition _ALT_TOKEN_REPLACEMENT (token : str) : option str :=
  if token =s "and" then Some (of_string "&&")
  else if token =s "bitor" then Some (of_string "|")
  else if token =s "or" then Some (of_string "||")
  else if token =s "xor" then Some (of_string "^")
  else if token =s "compl" then Some (of_string "~")
  else if token =s "bitand" then Some (of_string "&")
  else if token =s "and_eq" then Some (of_string "&=")
  else if token =s "or_eq" then Some (of_string "|=")
  else if token =s "xor_eq" then Some (of_string "^=")
  else if token =s "not" then Some (of_string "!")
  else if token =s "not_eq" then Some (of_string "!=")
  else None.

(** The source joins the keys of a dictionary, in an order Python leaves open; the
    look-ahead allows one of them at most, so the order does not matter. *)
Definition _ALT_TOKEN_REPLACEMENT_PATTERN : pattern :=
  rx "[ =()](and|bitor|or|xor|compl|bitand|and_eq|or_eq|xor_eq|not|not_eq)(?=[ (]|$)".

Definition CheckAltTokens (filename : str) (clean_lines : CleansedLines) (linenum : Z)
    (error : error_fn) : M unit :=
  line ← line_at (elided clean_lines) linenum;
  if matches (rx "^\s*#") line then skip
  else if (0 <=? find line "/*") || (0 <=? find line "*/") then skip
  else
    for_each (finditer _ALT_TOKEN_REPLACEMENT_PATTERN line) (fun mo =>
      replacement ← lift (some_or KeyError (_ALT_TOKEN_REPLACEMENT (grp mo 1)));
      error filename linenum "readability/alt_tokens" 2
        ("Use operator " +s replacement +s " instead of " +s grp mo 1)).

(** * The style rules *)

Definition initial_spaces (line : str) : Z := len (take_while (N.eqb " "%char) line).

(** The indentation of the line is odd, and it is not a label or a continuation. *)
Definition weird_indent (line prev cleansed_line raw : str) : bool :=
  negb (searches (rx "[`,=><] *$") prev)
  && ((initial_spaces line =? 1) || (initial_spaces line =? 3))
  && negb (matches (rx "\s*\w+\s*:\s*\\?$") cleansed_line)
  && negb ((raw <>s line) && matches (rx "^\s*``") line).

Definition is_header_guard (os : OS) (filename file_extension line : str) : M bool :=
  g ← get;
  if IsHeaderExtension file_extension g then
    cppvar ← lift (GetHeaderGuardCPPVariable os (root g) filename);
    mret (startswith line ("#ifndef " +s cppvar) || startswith line ("#define " +s cppvar)
          || startswith line ("#endif  // " +s cppvar))
  else mret false.

Definition check_line_length (u : UnicodeData) (filename : str) (linenum : Z) (line : str)
    (header_guard : bool) (error : error_fn) : M unit :=
  g ← get;
  when (negb (startswith line "#include") && negb header_guard
        && negb (matches (rx "^\s*//.*http(s?)://\S*$") line)
        && negb (matches (rx "^\s*//\s*[^\s]*$") line)
        && negb (matches (rx "^// \$Id:.*#[0-9]+ \$$") line)
        && (line_length g <? GetLineWidth u line))
    (error filename linenum "whitespace/line_length" 2
       ("Lines should be <= " +s str_of_Z (line_length g) +s " characters long")).

Definition several_commands (clean_lines : CleansedLines) (linenum : Z) (cleansed_line : str) : bool :=
  let prevline := (GetPreviousNonBlankLine clean_lines linenum).1 in
  (1 <? count cleansed_line ";")
  && (find cleansed_line "for" =? -1)
  && ((find prevline "for" =? -1) || negb (find prevline ";" =? -1))
  && negb ((negb (find cleansed_line "case " =? -1) || negb (find cleansed_line "default:" =? -1))
           && negb (find cleansed_line "break;" =? -1)).

Definition CheckStyle (os : OS) (u : UnicodeData) (filename : str) (clean_lines : CleansedLines)
    (linenum : Z) (file_extension : str) (ns : NestingState) (error : error_fn) : M unit :=
  let without := lines_without_raw_strings clean_lines in
  line ← line_at without linenum;
  prev ← (if 0 <? linenum then line_at without (linenum - 1) else mret []);
  when (negb (find line [9%N] =? -1))
    (error filename linenum "whitespace/tab" 1 "Tab found; better to use spaces") ;;
  cleansed_line ← line_at (elided clean_lines) linenum;
  raw ← line_at (raw_lines clean_lines) linenum;
  when (weird_indent line prev cleansed_line raw)
    (error filename linenum "whitespace/indent" 3
       ("Weird number of spaces at line-start.  " +s "Are you using a 2-space indent?")) ;;
  when (match last line with Some c => is_space c | None => false end)
    (error filename linenum "whitespace/end_of_line" 4
       "Line ends in whitespace.  Consider deleting these extra spaces.") ;;
  header_guard ← is_header_guard os filename file_extension line;
  check_line_length u filename linenum line header_guard error ;;
  when (several_commands clean_lines linenum cleansed_line)
    (error filename linenum "whitespace/newline" 0 "More than one command on the same line") ;;
  CheckBraces u filename clean_lines linenum error ;;
  CheckTrailingSemicolon filename clean_lines linenum error ;;
  CheckEmptyBlockBody filename clean_lines linenum error ;;
  CheckSpacing filename clean_lines linenum ns error ;;
  CheckOperatorSpacing filename clean_lines linenum error ;;
  CheckParenthesisSpacing filename clean_lines linenum error ;;
  CheckCommaSpacing filename clean_lines linenum error ;;
  CheckBracesSpacing filename clean_lines linenum ns error ;;
  CheckSpacingForFunctionCall filename clean_lines linenum error ;;
  CheckCheck filename clean_lines linenum error ;;
  CheckAltTokens filename clean_lines linenum error ;;
  match InnermostClass ns with
  | Some (b, c) => CheckSectionSpacing filename clean_lines b c linenum error
  | None => skip
  end.
