(* ===== verification/Usage.v ===== *)
(** The text [PrintUsage] writes, line by line. *)

From S2P Require Import Prelude.

Definition usage_lines : list str := of_string <$> [
  "";
  "Syntax: cpplint.py [--verbose=#] [--output=vs7] [--filter=-x,+y,...]";
  "                   [--counting=total|toplevel|detailed] [--root=subdir]";
  "                   [--linelength=digits] [--headers=x,y,...]";
  "                   [--quiet]";
  "        <file> [file] ...";
  "";
  "  The style guidelines this tries to follow are those in";
  "    https://google-styleguide.googlecode.com/svn/trunk/cppguide.xml";
  "";
  "  Every problem is given a confidence score from 1-5, with 5 meaning we are";
  "  certain of the problem, and 1 meaning it could be a legitimate construct.";
  "  This will miss some errors, and is not a substitute for a code review.";
  "";
  "  To suppress false-positive errors of a certain category, add a";
  "  'NOLINT(category)' comment to the line.  NOLINT or NOLINT(*)";
  "  suppresses errors of all categories on that line.";
  "";
  "  The files passed in will be linted; at least one file must be provided.";
  "  Default linted extensions are .cc, .cpp, .cu, .cuh and .h.  Change the";
  "  extensions with the --extensions flag.";
  "";
  "  Flags:";
  "";
  "    output=vs7";
  "      By default, the output is formatted to ease emacs parsing.  Visual Studio";
  "      compatible output (vs7) may also be used.  Other formats are unsupported.";
  "";
  "    verbose=#";
  "      Specify a number 0-5 to restrict errors to certain verbosity levels.";
  "";
  "    quiet";
  "      Don't print anything if no errors are found.";
  "";
  "    filter=-x,+y,...";
  "      Specify a comma-separated list of category-filters to apply: only";
  "      error messages whose category names pass the filters will be printed.";
  "      (Category names are printed with the message and look like";
  "      `[whitespace/indent]`.)  Filters are evaluated left to right.";
  "      `-FOO` and `FOO` means `do not print categories that start with FOO`.";
  "      `+FOO` means `do print categories that start with FOO`.";
  "";
  "      Examples: --filter=-whitespace,+whitespace/braces";
  "                --filter=whitespace,runtime/printf,+runtime/printf_format";
  "                --filter=-,+build/include_what_you_use";
  "";
  "      To see a list of all the categories used in cpplint, pass no arg:";
  "         --filter=";
  "";
  "    counting=total|toplevel|detailed";
  "      The total number of errors found is always printed. If";
  "      'toplevel' is provided, then the count of errors in each of";
  "      the top-level categories like 'build' and 'whitespace' will";
  "      also be printed. If 'detailed' is provided, then a count";
  "      is provided for each category like 'build/class'.";
  "";
  "    root=subdir";
  "      The root directory used for deriving header guard CPP variable.";
  "      By default, the header guard CPP variable is calculated as the relative";
  "      path to the directory that contains .git, .hg, or .svn.  When this flag";
  "      is specified, the relative path is calculated from the specified";
  "      directory. If the specified directory does not exist, this flag is";
  "      ignored.";
  "";
  "      Examples:";
  "        Assuming that top/src/.git exists (and cwd=top/src), the header guard";
  "        CPP variables for top/src/chrome/browser/ui/browser.h are:";
  "";
  "        No flag => CHROME_BROWSER_UI_BROWSER_H_";
  "        --root=chrome => BROWSER_UI_BROWSER_H_";
  "        --root=chrome/browser => UI_BROWSER_H_";
  "        --root=.. => SRC_CHROME_BROWSER_UI_BROWSER_H_";
  "";
  "    linelength=digits";
  "      This is the allowed line length for the project. The default value is";
  "      80 characters.";
  "";
  "      Examples:";
  "        --linelength=120";
  "";
  "    extensions=extension,extension,...";
  "      The allowed file extensions that cpplint will check";
  "";
  "      Examples:";
  "        --extensions=hpp,cpp";
  "";
  "    headers=x,y,...";
  "      The header extensions that cpplint will treat as .h in checks. Values are";
  "      automatically added to --extensions list.";
  "";
  "      Examples:";
  "        --headers=hpp,hxx";
  "        --headers=hpp";
  "";
  "    cpplint.py supports per-directory configurations specified in CPPLINT.cfg";
  "    files. CPPLINT.cfg file can contain a number of key=value pairs.";
  "    Currently the following options are supported:";
  "";
  "      set noparent";
  "      filter=+filter1,-filter2,...";
  "      exclude_files=regex";
  "      linelength=80";
  "      root=subdir";
  "      headers=x,y,...";
  "";
  "    `set noparent` option prevents cpplint from traversing directory tree";
  "    upwards looking for more .cfg files in parent directories. This option";
  "    is usually placed in the top-level project directory.";
  "";
  "    The `filter` option is similar in function to --filter flag. It specifies";
  "    message filters in addition to the |_DEFAULT_FILTERS| and those specified";
  "    through --filter command-line flag.";
  "";
  "    `exclude_files` allows to specify a regular expression to be matched against";
  "    a file name. If the expression matches, the file is skipped and not run";
  "    through liner.";
  "";
  "    `linelength` allows to specify the allowed line length for the project.";
  "";
  "    The `root` option is similar in function to the --root flag (see example";
  "    above). Paths are relative to the directory of the CPPLINT.cfg.";
  "";
  "    The `headers` option is similar in function to the --headers flag";
  "    (see example above).";
  "";
  "    CPPLINT.cfg has an effect on files in the same directory and all";
  "    sub-directories, unless overridden by a nested configuration file.";
  "";
  "      Example file:";
  "        filter=-build/include_order,+build/include_alpha";
  "        exclude_files=.*\.cc";
  "";
  "    The above example disables build/include_order warning and enables";
  "    build/include_alpha as well as excludes all .cc from being";
  "    processed by linter, in the current directory (where the .cfg";
  "    file is located) and all sub-directories.";
  ""]%string.
