(* ===== verification/Process.v ===== *)
(** The processing of a line, of the data of a file, of the configuration files, of a
    file and of the command line. *)

From S2P Require Import Prelude PyStr Regex State Cleanse Expr Lines Nesting FilePath Includes.
From S2P Require Import Functions Casts Language Spacing Style Usage.

Open Scope Z_scope.
Open Scope py_scope.

(** * What the program asks of its surroundings

    The operating system; whether a path is a file; the lines of a configuration
    file and the decoded text of a source file ([None] is an [IOError]); the text of
    the standard input; the tables of [unicodedata]; and the iteration orders of the
    dictionaries and sets that are iterated over. *)

Record Host : Type := mkHost {
  host_os : OS;
  unicode : UnicodeData;
  isfile : str -> bool;
  config_lines : str -> option (list str);
  read_text : str -> option str;
  stdin_text : option str;
  include_keys : gmap str Z -> list str;
  required_order : required_dict -> list (str * (Z * str));
  category_order : gmap str Z -> list (str * Z);
  extension_order : gset str -> list str
}.

(** An additional check of a line. *)
Definition check_fn : Type := str -> CleansedLines -> Z -> error_fn -> M unit.

(** The state kept along a file. *)
Record FileState : Type := mkFileState {
  include_state : IncludeState;
  function_state : FunctionState;
  nesting_state : NestingState
}.

Definition FileState_init : FileState :=
  mkFileState IncludeState_init FunctionState_init NestingState_init.

Section Host.
Context (h : Host).

(** * A line *)

Definition ProcessLine (filename file_extension : str) (clean_lines : CleansedLines) (line : Z)
    (st : FileState) (error : error_fn) (extra_check_functions : list check_fn) : M FileState :=
  raw ← line_at (raw_lines clean_lines) line;
  ParseNolintSuppressions filename raw line error ;;
  ns ← Update filename clean_lines line error (nesting_state st);
  CheckForNamespaceIndentation filename ns clean_lines line error ;;
  if InAsmBlock ns then mret (mkFileState (include_state st) (function_state st) ns)
  else
    fs ← CheckForFunctionLengths filename clean_lines line (function_state st) error;
    CheckForMultilineCommentsAndStrings filename clean_lines line error ;;
    CheckStyle (host_os h) (unicode h) filename clean_lines line file_extension ns error ;;
    inc ← CheckLanguage (host_os h) filename clean_lines line file_extension (include_state st) ns
           error;
    CheckForNonConstReference filename clean_lines line ns error ;;
    CheckForNonStandardConstructs filename clean_lines line ns error ;;
    CheckVlogArguments filename clean_lines line error ;;
    CheckPosixThreading filename clean_lines line error ;;
    CheckInvalidIncrement filename clean_lines line error ;;
    CheckMakePairUsesDeduction filename clean_lines line error ;;
    CheckRedundantVirtual filename clean_lines line error ;;
    CheckRedundantOverrideOrFinal filename clean_lines line error ;;
    for_each extra_check_functions (fun check => check filename clean_lines line error) ;;
    mret (mkFileState inc fs ns).

Fixpoint process_lines (filename file_extension : str) (clean_lines : CleansedLines)
    (linenums : list Z) (st : FileState) (error : error_fn) (extra : list check_fn) : M FileState :=
  match linenums with
  | [] => mret st
  | line :: rest =>
      st ← ProcessLine filename file_extension clean_lines line st error extra;
      FlagCxx11Features filename clean_lines line error ;;
      process_lines filename file_extension clean_lines rest st error extra
  end.

(** * The data of a file *)

Definition with_markers (lines : list str) : list str :=
  ([of_string "// marker so line numbers and indices both start at 1"] ++ lines
   ++ [of_string "// marker so line numbers end in a known way"])%list.

Definition ProcessFileData (filename file_extension : str) (lines : list str) (error : error_fn)
    (extra_check_functions : list check_fn) : M unit :=
  let lines := with_markers lines in
  ResetNolintSuppressions ;;
  CheckForCopyright filename lines error ;;
  ProcessGlobalSuppresions lines ;;
  lines ← RemoveMultiLineComments filename lines error;
  clean_lines ← lift (CleansedLines_init lines);
  g ← get;
  when (IsHeaderExtension file_extension g)
    (CheckForHeaderGuard (host_os h) filename clean_lines error) ;;
  st ← process_lines filename file_extension clean_lines (zrange 0 (NumLines clean_lines))
         FileState_init error extra_check_functions;
  CheckCompletedBlocks filename error (nesting_state st) ;;
  CheckForIncludeWhatYouUse (host_os h) (include_keys h) (required_order h) filename clean_lines
    (include_state st) error ;;
  when (_IsSourceExtension file_extension)
    (CheckHeaderFileIncluded (host_os h) filename (include_state st) error) ;;
  CheckForBadCharacters filename lines error ;;
  CheckForNewlineAtEOF filename lines error.

(** * Configuration files *)

(** [int(s)] *)
Definition int_of_str (s : str) : res Z :=
  let '(sign, digits) :=
    match strip s with
    | c :: t => if ceq c "-" then (-1, t) else if ceq c "+" then (1, t) else (1, c :: t)
    | [] => (1, [])
    end in
  if isdigit digits then Ok (sign * foldl (fun acc d => acc * 10 + Z.of_N (d - 48)) 0 digits)
  else Raise (ValueError ("invalid literal for int() with base 10: '" +s s +s "'")).

(** What the lines of a configuration file read so far ask for. *)
Record Config : Type := mkConfig {
  cfg_filters : list str;
  keep_looking : bool
}.

(** One line; [None] when the file is excluded. *)
Definition config_line (filename cfg_file base_name line : str) (c : Config) : M (option Config) :=
  let line := (partition line "#").1.1 in
  if negb (nonempty (strip line)) then mret (Some c)
  else
    let '(name, _, val) := partition line "=" in
    let name := strip name in
    let val := strip val in
    if name =s "set noparent" then mret (Some (mkConfig (cfg_filters c) false))
    else if name =s "filter" then mret (Some (mkConfig (cfg_filters c ++ [val]) (keep_looking c)))
    else if name =s "exclude_files" then
      pattern ← lift (some_or ReError (re_compile val));
      if matches pattern base_name then
        q ← _Quiet;
        when (negb q)
          (write_stderr ("Ignoring `" +s filename +s "`: file excluded by `" +s cfg_file +s "`. "
                         +s "File path component `" +s base_name +s "` matches " +s "pattern `"
                         +s val +s "`" +s [newline])) ;;
        mret None
      else mret (Some c)
    else
      (if name =s "linelength" then
         match int_of_str val with
         | Ok n => modify (with_line_length n)
         | Raise _ => write_stderr "Line length must be numeric."
         end
       else if name =s "root" then
         modify (with_root (Some (Path.join (Path.dirname cfg_file) [val])))
       else if name =s "headers" then ProcessHppHeadersOption val
       else
         write_stderr ("Invalid configuration option (" +s name +s ") in file " +s cfg_file
                       +s [newline])) ;;
      mret (Some c).

Fixpoint config_file (filename cfg_file base_name : str) (ls : list str) (c : Config)
    : M (option Config) :=
  match ls with
  | [] => mret (Some c)
  | line :: rest =>
      r ← config_line filename cfg_file base_name line c;
      match r with
      | Some c => config_file filename cfg_file base_name rest c
      | None => mret None
      end
  end.

(** Up the directories; the filters collected, or [None] when the file is excluded. *)
Fixpoint config_loop (fuel : nat) (filename abs_filename : str) (c : Config)
    : M (option (list str)) :=
  if negb (keep_looking c) then mret (Some (cfg_filters c))
  else
    match fuel with
    | O => raise OutOfFuel
    | S f =>
        let '(abs_path, base_name) := Path.split abs_filename in
        if negb (nonempty base_name) then mret (Some (cfg_filters c))
        else
          let cfg_file := Path.join abs_path [of_string "CPPLINT.cfg"] in
          if negb (isfile h cfg_file) then config_loop f filename abs_path c
          else
            match config_lines h cfg_file with
            | Some ls =>
                r ← config_file filename cfg_file base_name ls c;
                match r with
                | Some c => config_loop f filename abs_path c
                | None => mret None
                end
            | None =>
                write_stderr ("Skipping config file '" +s cfg_file +s "': Can't open for reading"
                              +s [newline]) ;;
                mret (Some (cfg_filters c))
            end
    end.

Definition ProcessConfigOverrides (filename : str) : M bool :=
  let abs_filename := Path.abspath (host_os h) filename in
  found ← config_loop (S (length abs_filename)) filename abs_filename (mkConfig [] true);
  match found with
  | Some filters => for_each (reverse filters) _AddFilters ;; mret true
  | None => mret false
  end.

(** * A file *)

(** The lines without a trailing carriage return, the last one excepted, and the
    numbers of the lines that had one and of those that had not. *)
Fixpoint strip_cr (n : Z) (ls : list str) : list str * list Z * list Z :=
  match ls with
  | [] => ([], [], [])
  | [l] => ([l], [], [])
  | l :: rest =>
      let '(out, crlf, lf) := strip_cr (n + 1) rest in
      if endswith l [13%N] then (rstrip_chars l [13%N] :: out, n :: crlf, lf)
      else (l :: out, crlf, n :: lf)
  end.

Definition file_text (filename : str) : option str :=
  if filename =s "-" then stdin_text h else read_text h filename.

Definition file_extension (filename : str) : str := slice_from filename (rfind filename "." + 1).

Definition ProcessFile (filename : str) (vlevel : Z) (extra_check_functions : list check_fn)
    : M unit :=
  _SetVerboseLevel vlevel ;;
  _BackupFilters ;;
  old ← get;
  process ← ProcessConfigOverrides filename;
  if negb process then _RestoreFilters
  else
    match file_text filename with
    | None =>
        write_stderr ("Skipping input '" +s filename +s "': Can't open for reading" +s [newline]) ;;
        _RestoreFilters
    | Some text =>
        let '(lines, crlf_lines, lf_lines) := strip_cr 1 (split text [newline]) in
        let ext := file_extension filename in
        g ← get;
        (if (filename <>s "-") && negb (bool_decide (ext ∈ valid_extensions g)) then
           write_stderr ("Ignoring " +s filename +s "; not a valid file name " +s "("
                         +s join (of_string ", ") (extension_order h (valid_extensions g)) +s ")"
                         +s [newline])
         else
           ProcessFileData filename ext lines Error extra_check_functions ;;
           match lf_lines with
           | [] => skip
           | _ =>
               for_each crlf_lines (fun linenum =>
                 Error filename linenum "whitespace/newline" 1
                   "Unexpected \r (^M) found; better to use only \n")
           end) ;;
        now ← get;
        when (negb (quiet (cpplint_state now))
              || negb (error_count (cpplint_state old) =? error_count (cpplint_state now)))
          (write_stdout ("Done processing " +s filename +s [newline])) ;;
        _RestoreFilters
    end.

End Host.

(** * [getopt.getopt] with long options only; [None] is a [GetoptError] *)

Module Getopt.
Definition long_has_args (opt : str) (longopts : list str) : option (bool * str) :=
  match List.filter (fun o => startswith o opt) longopts with
  | [] => None
  | possibilities =>
      if str_in opt possibilities then Some (false, opt)
      else if str_in (opt +s "=") possibilities then Some (true, opt)
      else match possibilities with
           | [m] => Some (if endswith m "=" then (true, slice_to m (-1)) else (false, m))
           | _ => None
           end
  end.

(** One long option, [opt] without its dashes; the arguments that follow. *)
Definition do_longs (opt : str) (longopts args : list str) : option (str * str * list str) :=
  let i := find opt "=" in
  let '(name, optarg) :=
    if i <? 0 then (opt, None) else (slice_to opt i, Some (slice_from opt (i + 1))) in
  '(has_arg, name) ← long_has_args name longopts;
  if (has_arg : bool) then
    match optarg, args with
    | Some v, _ => Some ("--" +s name, v, args)
    | None, v :: args' => Some ("--" +s name, v, args')
    | None, [] => None
    end
  else
    match optarg with
    | Some _ => None
    | None => Some ("--" +s name, [], args)
    end.

(** [fuel]: the number of arguments. *)
Fixpoint getopt (fuel : nat) (args longopts : list str) (opts : list (str * str))
    : option (list (str * str) * list str) :=
  match fuel, args with
  | S f, a :: args' =>
      if negb (startswith a "-") || (a =s "-") then Some (opts, args)
      else if a =s "--" then Some (opts, args')
      else if startswith a "--" then
        '(opt, val, args') ← do_longs (slice_from a 2) longopts args';
        getopt f args' longopts (opts ++ [(opt, val)])
      else None
  | _, _ => Some (opts, args)
  end.
End Getopt.

(** * The command line *)

Definition _USAGE : str := join [newline] usage_lines.

Definition PrintUsage {A} (message : option str) : M A :=
  write_stderr _USAGE ;;
  match message with
  | Some m => raise (SystemExit 1 ([newline] +s "FATAL ERROR: " +s m))
  | None => raise (SystemExit 1 [])
  end.

Definition PrintCategories {A} : M A :=
  write_stderr (concat ((fun cat => "  " +s cat +s [newline]) <$> _ERROR_CATEGORIES)) ;;
  raise (SystemExit 0 []).

Record Options : Type := mkOptions {
  opt_verbosity : Z;
  opt_output : str;
  opt_filters : str;
  opt_quiet : bool;
  opt_counting : str
}.

Definition process_option (opt val : str) (o : Options) : M Options :=
  if opt =s "--help" then PrintUsage None
  else if opt =s "--output" then
    if negb (str_in val (of_string <$> ["emacs"; "vs7"; "eclipse"]%string))
    then PrintUsage (Some (of_string "The only allowed output formats are emacs, vs7 and eclipse."))
    else mret (mkOptions (opt_verbosity o) val (opt_filters o) (opt_quiet o) (opt_counting o))
  else if opt =s "--quiet" then
    mret (mkOptions (opt_verbosity o) (opt_output o) (opt_filters o) true (opt_counting o))
  else if opt =s "--verbose" then
    v ← lift (int_of_str val);
    mret (mkOptions v (opt_output o) (opt_filters o) (opt_quiet o) (opt_counting o))
  else if opt =s "--filter" then
    if nonempty val
    then mret (mkOptions (opt_verbosity o) (opt_output o) val (opt_quiet o) (opt_counting o))
    else PrintCategories
  else if opt =s "--counting" then
    if negb (str_in val (of_string <$> ["total"; "toplevel"; "detailed"]%string))
    then PrintUsage (Some (of_string "Valid counting options are total, toplevel, and detailed"))
    else mret (mkOptions (opt_verbosity o) (opt_output o) (opt_filters o) (opt_quiet o) val)
  else
    (if opt =s "--root" then modify (with_root (Some val))
     else if opt =s "--linelength" then
       match int_of_str val with
       | Ok n => modify (with_line_length n)
       | Raise _ => PrintUsage (Some (of_string "Line length must be digits."))
       end
     else if opt =s "--extensions" then
       modify (fun g => with_extensions (list_to_set (split val ",")) (hpp_headers g) g)
     else when (opt =s "--headers") (ProcessHppHeadersOption val)) ;;
    mret o.

Fixpoint process_options (opts : list (str * str)) (o : Options) : M Options :=
  match opts with
  | [] => mret o
  | (opt, val) :: rest => o ← process_option opt val o; process_options rest o
  end.

Definition _LONG_OPTIONS : list str := of_string <$> [
  "help"; "output="; "verbose="; "counting="; "filter="; "root="; "linelength=";
  "extensions="; "headers="; "quiet"]%string.

Definition ParseArguments (args : list str) : M (list str) :=
  match Getopt.getopt (length args) args _LONG_OPTIONS [] with
  | None => PrintUsage (Some (of_string "Invalid arguments."))
  | Some (opts, filenames) =>
      verbosity ← _VerboseLevel;
      output ← _OutputFormat;
      q ← _Quiet;
      o ← process_options opts (mkOptions verbosity output [] q []);
      when (match filenames with [] => true | _ => false end)
        (PrintUsage (Some (of_string "No files were specified."))) ;;
      _SetOutputFormat (opt_output o) ;;
      _SetQuiet (opt_quiet o) ;;
      _SetVerboseLevel (opt_verbosity o) ;;
      _SetFilters (opt_filters o) ;;
      _SetCountingStyle (opt_counting o) ;;
      mret filenames
  end.

Definition main (h : Host) (argv : list str) : M unit :=
  filenames ← ParseArguments argv;
  ResetErrorCounts ;;
  for_each filenames (fun filename =>
    v ← _VerboseLevel; ProcessFile h filename v []) ;;
  g ← get;
  when (negb (quiet (cpplint_state g)) || (0 <? error_count (cpplint_state g)))
    (PrintErrorCounts (category_order h)) ;;
  raise (SystemExit (if 0 <? error_count (cpplint_state g) then 1 else 0) []).
