(* ===== verification/SpacingFacts.v ===== *)
(** What the spacing checks rely on: the names of operators are masked in a loop that
    ends and keeps the columns of the line. *)

From S2P Require Import Prelude PyStr Regex RegexFacts State StateFacts Cleanse CleanseFacts.
From S2P Require Import Spacing.

Open Scope Z_scope.
Open Scope py_scope.

(** The number of characters that are not part of a word. *)
Definition nonword (s : str) : nat := length (List.filter (fun c => negb (re_word c)) s).

(** [out] is [line] with some characters replaced by underscores. *)
Definition masked (line out : str) : Prop :=
  forall i c, out !! i = Some c -> line !! i = Some c \/ c = Ascii.N_of_ascii "_".

(** * Masking *)

Lemma nonword_app s t : nonword (s ++ t) = (nonword s + nonword t)%nat.
Proof. unfold nonword. by rewrite List.filter_app, length_app. Qed.

Lemma nonword_le s : (nonword s <= length s)%nat.
Proof. apply List.filter_length_le. Qed.

Lemma nonword_underscores n : nonword (replicate n (Ascii.N_of_ascii "_")) = 0%nat.
Proof. induction n; [done|exact IHn]. Qed.

Lemma repeat_underscore (s : str) : repeat_str "_" (len s) = replicate (length s) (Ascii.N_of_ascii "_").
Proof.
  unfold repeat_str, len. rewrite Nat2Z.id. induction (length s) as [|n IH]; [done|].
  simpl. by rewrite IH.
Qed.

(** The name of an operator starts with a character that is not part of a word, and
    the match ends at the end of the line. *)
Lemma OPERATOR_NAME_shape line mo :
  Match _OPERATOR_NAME line = Some mo ->
  exists a c b d e, line = a ++ (c :: b) ++ d ++ e /\ re_word c = false
    /\ grp mo 1 = a /\ grp mo 2 = c :: b /\ grp mo 3 = d /\ (e = [] \/ e = [newline]).
Proof.
  intros Hm. match_inv Hm _OPERATOR_NAME.
  match goal with H : mo_caps mo = _ |- _ => rename H into Hc end.
  set (l := mo_string mo) in *.
  match type of Hc with mo_caps mo = <[3%nat := Some (?j, ?e)]> (<[2%nat := Some (?i, _)]> _) =>
    set (i0 := i) in *; rename j into j0; set (e0 := e) in * end.
  assert (i0 < j0)%nat as Hij by (simpl in *; lia).
  destruct (lookup_lt_is_Some_2 l i0) as [c Hi]; [simpl in *; lia|].
  assert (re_word c = false) as Hw.
  { match goal with H : xorb false (at_word_boundary l i0) = true |- _ =>
      unfold at_word_boundary, word_before, word_at in H; unfold i0 in H, Hi;
      rewrite Hi in H end.
    match goal with H : set_match _ _ [CIChar 114] ?ch = true,
      E : l !! S (S (S (S (S (S (S _)))))) = Some ?ch |- _ =>
      rewrite E in *; unfold set_match in H; simpl in H;
      rewrite !orb_false_r in H; apply N.eqb_eq in H; subst ch end.
    by destruct (re_word c). }
  exists (take i0 l), c, (take (j0 - S i0) (drop (S i0) l)), (take (e0 - j0) (drop j0 l)), (drop e0 l).
  split_and!; [|done| | | |by apply at_eol_rest].
  - rewrite <- (take_drop i0 l) at 1. f_equal. rewrite (drop_S _ _ _ Hi). simpl. f_equal.
    rewrite <- (take_drop (j0 - S i0) (drop (S i0) l)) at 1. f_equal.
    rewrite drop_drop. replace (S i0 + (j0 - S i0))%nat with j0 by lia.
    rewrite <- (take_drop (e0 - j0) (drop j0 l)) at 1. f_equal.
    rewrite drop_drop. f_equal. lia.
  - rewrite (grp_text mo 1 0 i0) by (rewrite Hc; reflexivity). by rewrite Nat.sub_0_r.
  - rewrite (grp_text mo 2 i0 j0) by (rewrite Hc; reflexivity). fold l.
    rewrite (drop_S _ _ _ Hi). replace (j0 - i0)%nat with (S (j0 - S i0)) by lia. done.
  - by rewrite (grp_text mo 3 j0 e0) by (rewrite Hc; reflexivity).
Qed.

(** One round: the text after the name is kept, up to a line break that ends the line. *)
Lemma mask_step line mo :
  Match _OPERATOR_NAME line = Some mo ->
  let out := (grp mo 1 +s repeat_str "_" (len (grp mo 2)) +s grp mo 3) in
  (nonword out < nonword line)%nat /\ masked line out /\ (length out <= length line)%nat
  /\ (newline ∉ line -> (newline ∉ out) /\ length out = length line).
Proof.
  intros (a & c & b & d & e & -> & Hc & -> & -> & -> & He)%OPERATOR_NAME_shape. cbv zeta.
  rewrite repeat_underscore. split_and!.
  - rewrite !nonword_app, nonword_underscores.
    assert (1 <= nonword (c :: b))%nat; [|lia]. unfold nonword. simpl. rewrite Hc. simpl. lia.
  - intros i x. rewrite !lookup_app_Some.
    intros [H|[Hi [[H _]%lookup_replicate|[Hj H]]]]; [by left; left|by right|].
    left. right. split; [done|]. right. rewrite length_replicate in *. split; [done|]. by left.
  - rewrite !length_app, length_replicate. lia.
  - intros Hnl. assert (e = []) as ->.
    { destruct He as [->| ->]; [done|]. destruct Hnl. apply elem_of_app. right. right.
      apply elem_of_app. right. apply elem_of_app. right. left. }
    rewrite app_nil_r in *. split; [|by rewrite !length_app, length_replicate].
    rewrite !elem_of_app in *. intros [H|[H|H]]; [tauto| |tauto].
    apply elem_of_replicate in H as [H _]. discriminate H.
Qed.

Lemma masked_trans s t u : masked s t -> masked t u -> masked s u.
Proof. intros H1 H2 i c H. destruct (H2 i c H) as [?| ->]; [by apply H1|by right]. Qed.

Lemma mask_operators_ok fuel line :
  (nonword line <= fuel)%nat ->
  exists out, mask_operators fuel line = Ok out /\ Match _OPERATOR_NAME out = None
    /\ masked line out /\ (length out <= length line)%nat
    /\ (newline ∉ line -> length out = length line).
Proof.
  revert line. induction fuel as [|f IH]; intros line Hf; cbn [mask_operators];
    destruct (Match _OPERATOR_NAME line) as [mo|] eqn:Em;
    try (exists line; split_and!; [done..|by left|done|done]);
    destruct (mask_step _ _ Em) as (Hlt & Hm & Hle & Hl); [lia|].
  destruct (IH (grp mo 1 +s repeat_str "_" (len (grp mo 2)) +s grp mo 3))
    as (out & -> & Hn & Hm2 & Hle2 & Hl2); [lia|].
  exists out. split_and!; [done..|by eapply masked_trans|lia|].
  intros Hnl. destruct (Hl Hnl) as [? <-]. by apply Hl2.
Qed.

(** C20: the loop of [CheckOperatorSpacing] that masks the names of operators ends within
    as many rounds as the line has characters; no name is left, and every column of the
    line keeps its character or has an underscore. *)
Theorem mask_operators_total line :
  newline ∉ line ->
  exists out, mask_operators (length line) line = Ok out /\ Match _OPERATOR_NAME out = None
    /\ masked line out /\ length out = length line.
Proof.
  intros Hnl. destruct (mask_operators_ok (length line) line) as (out & ? & ? & ? & _ & Hl);
    [apply nonword_le|]. exists out. auto.
Qed.

Definition two_operators : str := "x.operator<<(y) == operator++(z);".

Lemma mask_operators_total_witness :
  exists out, mask_operators (length two_operators) two_operators = Ok out
    /\ out = of_string "x.operator__(y) == operator__(z);".
Proof.
  destruct (mask_operators_total two_operators) as (out & E & _ & _ & _).
  - apply (bool_decide_unpack (newline ∉ two_operators)). vm_compute. exact I.
  - exists out. split; [exact E|]. vm_compute in E. injection E. intros <-. reflexivity.
Defined.
