(* ===== verification/StyleFacts.v ===== *)
(** What the style checks rely on: the loop that looks for the operator of a CHECK
    macro ends and splits the expression, and the tables of replacements have an entry
    for every operator and token that is looked up. *)

From S2P Require Import Prelude PyStr Regex RegexFacts State StateFacts Cleanse CleanseFacts.
From S2P Require Import Expr ExprFacts NestingFacts Spacing SpacingFacts Style.

Open Scope Z_scope.
Open Scope py_scope.

(** The text without its white space. *)
Definition squeeze (s : str) : str := List.filter (fun c => negb (re_space c)) s.

Definition relational : list str := of_string <$> ["=="; "!="; ">="; ">"; "<="; "<"]%string.

Definition operator_tokens : list str := of_string <$> [
  "<<"; "<<="; ">>"; ">>="; "->*"; "->"; "&&"; "||"; "=="; "!="; ">="; ">"; "<="; "<"; "("]%string.

(** * The operator of an expression *)

Lemma squeeze_app s t : squeeze (s ++ t) = squeeze s ++ squeeze t.
Proof. apply List.filter_app. Qed.

Lemma squeeze_spaces s i j :
  run_of s (set_char false false [CISpace]) i j -> squeeze (take (j - i) (drop i s)) = [].
Proof.
  intros H%run_of_Forall. unfold squeeze. induction H as [|c t Hc _ IH]; [done|]. cbn.
  unfold set_char, set_match in Hc. simpl in Hc. rewrite !orb_false_r in Hc. by rewrite Hc.
Qed.

(** White space, one of the tokens, the rest. *)
Lemma OPERATOR_TOKEN_shape e mo :
  Match _OPERATOR_TOKEN e = Some mo ->
  exists ws nl, e = (ws ++ grp mo 1 ++ grp mo 2 ++ nl)%list /\ squeeze ws = []
    /\ grp mo 1 ∈ operator_tokens /\ (nl = [] \/ nl = [newline]).
Proof.
  intros Hm. pose proof (match_at_bounds _ _ _ _ (Nat.le_0_l _) Hm) as Hb.
  apply match_at_Some in Hm as (? & ? & H). unfold _OPERATOR_TOKEN in H.
  cbn [p_regex p_icase p_groups caps0] in H. mt_inv.
  match goal with H : Mt _ _ (RAlt _ _) _ _ _ _ |- _ =>
    eapply Mt_literals in H as (w & Hw & Hd & -> & ->); [|reflexivity] end.
  match goal with H : mo_caps mo = _ |- _ => rename H into Hc end.
  match type of Hc with mo_caps mo = <[2%nat := Some (_, ?e)]> (<[1%nat := Some (?i, _)]> _) =>
    set (i0 := i) in *; set (e0 := e) in * end.
  set (l := mo_string mo) in *.
  exists (take i0 l), (drop e0 l). split_and!.
  - rewrite (grp_text mo 1 i0 (i0 + length w)), (grp_text mo 2 (i0 + length w) e0)
      by (rewrite Hc; reflexivity). fold l.
    rewrite <- (take_drop i0 l) at 1. f_equal.
    replace (i0 + length w - i0)%nat with (length w) by lia.
    rewrite <- (take_drop (length w) (drop i0 l)) at 1. f_equal. rewrite drop_drop.
    rewrite <- (take_drop (e0 - (i0 + length w)) (drop (i0 + length w) l)) at 1. f_equal.
    rewrite drop_drop. f_equal. lia.
  - match goal with H : run_of l _ 0 i0 |- _ => apply squeeze_spaces in H end.
    by rewrite Nat.sub_0_r in *.
  - rewrite (grp_text mo 1 i0 (i0 + length w)) by (rewrite Hc; reflexivity). fold l.
    replace (i0 + length w - i0)%nat with (length w) by lia.
    rewrite Hd, take_app_length. exact Hw.
  - by apply at_eol_rest.
Qed.

(** A prefix that is not empty, and the rest. *)
Definition cut (e : str) (mo : match_obj) : Prop :=
  exists nl, e = (grp mo 1 ++ grp mo 2 ++ nl)%list /\ grp mo 1 <> [] /\ (nl = [] \/ nl = [newline]).

Lemma cut_groups mo k e :
  mo_caps mo !! 1%nat = Some (Some (0%nat, k)) -> mo_caps mo !! 2%nat = Some (Some (k, e)) ->
  (0 < k <= e)%nat -> at_eol (mo_string mo) e = true -> (e <= length (mo_string mo))%nat ->
  cut (mo_string mo) mo.
Proof.
  intros H1 H2 Hk He Hle. exists (drop e (mo_string mo)).
  rewrite (grp_text _ _ _ _ H1), (grp_text _ _ _ _ H2), Nat.sub_0_r. split_and!.
  - change (drop 0 (mo_string mo)) with (mo_string mo).
    rewrite <- (take_drop k (mo_string mo)) at 1. f_equal.
    rewrite <- (take_drop (e - k) (drop k (mo_string mo))) at 1. f_equal.
    rewrite drop_drop. f_equal. lia.
  - intros H%(f_equal length). rewrite length_take, drop_0 in H. cbn [length] in H. lia.
  - by apply at_eol_rest.
Qed.

Lemma OPERAND_cut e mo : Match _OPERAND e = Some mo -> cut e mo.
Proof.
  intros Hm. match_inv Hm _OPERAND.
  match goal with H : mo_caps mo = _ |- _ => rename H into Hc end.
  eapply cut_groups; [rewrite Hc; reflexivity|rewrite Hc; reflexivity| |done|lia].
  simpl in *. lia.
Qed.

Lemma OPERAND_CHAR_cut e mo : Match _OPERAND_CHAR e = Some mo -> cut e mo.
Proof.
  intros Hm. match_inv Hm _OPERAND_CHAR.
  match goal with H : mo_caps mo = _ |- _ => rename H into Hc end.
  eapply cut_groups; [rewrite Hc; reflexivity|rewrite Hc; reflexivity| |done|lia].
  simpl in *. lia.
Qed.

(** The expression [lhs ++ e] is split by the result, white space apart, at a relational
    operator. *)
Definition splits (lhs e : str) (r : option (str * str * str)) : Prop :=
  forall l op rhs, r = Some (l, op, rhs) -> nonempty op = true ->
    op ∈ relational /\ (newline ∉ e -> squeeze (lhs ++ e) = squeeze (l ++ op ++ rhs)).

Lemma splits_done lhs e : splits lhs e (Some (lhs, [], [])).
Proof. by intros l op rhs [= <- <- <-]. Qed.

Lemma splits_none lhs e : splits lhs e None.
Proof. by intros l op rhs [=]. Qed.

Lemma splits_step lhs e lhs1 e1 r :
  (newline ∉ e -> (newline ∉ e1) /\ squeeze (lhs ++ e) = squeeze (lhs1 ++ e1)) ->
  splits lhs1 e1 r -> splits lhs e r.
Proof.
  intros Hs Hr l op rhs Er Hop. destruct (Hr l op rhs Er Hop) as [Hrel Hsq]. split; [done|].
  intros Hnl. destruct (Hs Hnl) as [Hnl1 ->]. by apply Hsq.
Qed.

(** The rest of a line without line breaks after what was matched. *)
Lemma no_trailing (a nl : str) :
  newline ∉ a ++ nl -> nl = [] \/ nl = [newline] -> nl = [].
Proof. intros H [->| ->]; [done|]. destruct H. apply elem_of_app. right. left. Qed.

Lemma splits_cut lhs e mo r :
  cut e mo -> splits (lhs +s grp mo 1) (grp mo 2) r -> splits lhs e r.
Proof.
  intros (nl & -> & _ & Hnl). apply splits_step. intros Hn. rewrite app_assoc in *.
  rewrite (no_trailing _ _ Hn Hnl), app_nil_r in *. split; [|by rewrite ?app_assoc].
  intros H. apply Hn. rewrite !elem_of_app. auto.
Qed.

Lemma cut_shorter e mo : cut e mo -> (length (grp mo 2) < length e)%nat.
Proof.
  intros (nl & -> & Hne & _). rewrite !length_app. destruct (grp mo 1); [done|]. simpl. lia.
Qed.

Lemma slice_0_app {A} (s : list A) n : 0 <= n -> slice s 0 n ++ slice_from s n = s.
Proof.
  intros Hn. rewrite slice_from_pos by done. unfold slice. cbn [slice_bound Z.ltb Z.compare].
  rewrite Z2Nat.inj_0. cbn [Nat.min]. rewrite drop_0, Nat.sub_0_r. unfold slice_bound.
  destruct (Z.ltb_spec n 0); [lia|].
  destruct (decide (Z.to_nat n <= length s)%nat).
  - rewrite Nat.min_l by done. apply take_drop.
  - by rewrite Nat.min_r, take_ge, drop_ge, app_nil_r by lia.
Qed.

(** The token read is [token], followed by [rest]. *)
Lemma splits_token lhs e mo lhs1 e1 r :
  Match _OPERATOR_TOKEN e = Some mo -> lhs1 ++ e1 = lhs ++ grp mo 1 ++ grp mo 2 ->
  (forall c, c ∈ e1 -> c ∈ grp mo 2) -> splits lhs1 e1 r -> splits lhs e r.
Proof.
  intros (ws & nl & -> & Hws & _ & Hnl)%OPERATOR_TOKEN_shape Heq Hin. apply splits_step.
  intros Hn. rewrite !app_assoc in Hn. rewrite (no_trailing _ _ Hn Hnl), app_nil_r in *.
  split.
  - intros H%Hin. apply Hn. rewrite !elem_of_app. auto.
  - by rewrite Heq, !squeeze_app, Hws.
Qed.

Lemma splits_operator lhs e mo :
  Match _OPERATOR_TOKEN e = Some mo -> grp mo 1 ∈ relational ->
  splits lhs e (Some (lhs, grp mo 1, grp mo 2)).
Proof.
  intros (ws & nl & -> & Hws & _ & Hnl)%OPERATOR_TOKEN_shape Hr l op rhs [= <- <- <-] _.
  split; [done|]. intros Hn. rewrite !app_assoc in Hn. rewrite (no_trailing _ _ Hn Hnl), app_nil_r in *.
  by rewrite !squeeze_app, Hws.
Qed.

Lemma OPERATOR_TOKEN_shorter e mo :
  Match _OPERATOR_TOKEN e = Some mo -> (length (grp mo 2) < length e)%nat.
Proof.
  intros (ws & nl & -> & _ & Ht & _)%OPERATOR_TOKEN_shape. rewrite !length_app.
  assert (0 < length (grp mo 1))%nat; [|lia].
  destruct (grp mo 1); [|simpl; lia]. by apply (bool_decide_pack _) in Ht.
Qed.

Lemma token_relational t :
  t ∈ operator_tokens -> (t =s "(") = false -> (t =s "&&") || (t =s "||") = false ->
  str_in t (of_string <$> ["<<"; "<<="; ">>"; ">>="; "->*"; "->"]%string) = false ->
  t ∈ relational.
Proof.
  unfold operator_tokens. cbn [fmap list_fmap]. intros H. revert H.
  repeat (intros [->|H]%elem_of_cons; [vm_compute; intros; (discriminate || by repeat constructor)|revert H]).
  by intros ?%not_elem_of_nil.
Qed.

(** Each round of the loop reads at least one character. *)
Lemma parse_check_ok fuel e lhs :
  (length e <= fuel)%nat -> exists r, parse_check fuel e lhs = Ok r /\ splits lhs e r.
Proof.
  revert e lhs. induction fuel as [|f IH]; intros e lhs Hf.
  { destruct e; [|simpl in Hf; lia]. eexists. split; [done|apply splits_done]. }
  cbn [parse_check]. destruct (negb (nonempty e)); [eexists; split; [done|apply splits_done]|].
  destruct (Match _OPERATOR_TOKEN e) as [mo|] eqn:Em.
  - apply OPERATOR_TOKEN_shorter in Em as Hlt.
    destruct (grp mo 1 =s "(") eqn:Eopen.
    { destruct (FindEndOfExpressionInLine (grp mo 2) 0 "(") as [end_pos st].
      destruct (Z.ltb_spec end_pos 0); [eexists; split; [done|apply splits_none]|].
      destruct (IH (slice_from (grp mo 2) end_pos) (lhs +s "(" +s slice (grp mo 2) 0 end_pos))
        as (r & -> & Hr); [pose proof (length_slice_from (grp mo 2) end_pos); lia|].
      exists r. split; [done|]. eapply splits_token; [exact Em| | |exact Hr].
      - apply str_eqb_eq in Eopen as ->. by rewrite <- !app_assoc, slice_0_app.
      - intros c Hc. rewrite <- (slice_0_app (grp mo 2) end_pos) by done. apply elem_of_app. by right. }
    destruct (_ || _) eqn:Elogic; [eexists; split; [done|apply splits_none]|].
    destruct (str_in _ _) eqn:Eshift.
    + destruct (IH (grp mo 2) (lhs +s grp mo 1)) as (r & -> & Hr); [lia|].
      exists r. split; [done|]. eapply splits_token; [exact Em|by rewrite <- app_assoc|done|exact Hr].
    + eexists. split; [done|]. apply splits_operator; [done|].
      pose proof (OPERATOR_TOKEN_shape _ _ Em) as (_ & _ & _ & _ & Ht & _). by apply token_relational.
  - destruct (Match _OPERAND e) as [mo|] eqn:Eo;
      [apply OPERAND_cut in Eo as Hc|destruct (Match _OPERAND_CHAR e) as [mo|] eqn:Ec;
      [apply OPERAND_CHAR_cut in Ec as Hc|eexists; split; [done|apply splits_done]]];
      apply cut_shorter in Hc as Hlt;
      (destruct (IH (grp mo 2) (lhs +s grp mo 1)) as (r & -> & Hr); [lia|]);
      (exists r; split; [done|by eapply splits_cut]).
Qed.

(** C17: the loop that looks for the operator of a CHECK macro ends within as many rounds
    as the expression has characters.  The operator it finds is a relational one, and the
    expression is the left operand, the operator and the right operand, white space
    apart. *)
Theorem parse_check_splits e :
  newline ∉ e ->
  exists r, parse_check (length e) e [] = Ok r
    /\ forall lhs op rhs, r = Some (lhs, op, rhs) -> op <> [] ->
         op ∈ relational /\ squeeze e = squeeze (lhs ++ op ++ rhs).
Proof.
  intros Hnl. destruct (parse_check_ok (length e) e []) as (r & E & Hr); [lia|].
  exists r. split; [done|]. intros lhs op rhs Er Hop.
  destruct (Hr lhs op rhs Er) as [? Hs]; [by destruct op|]. by specialize (Hs Hnl).
Qed.

Definition sample_check : str := "f(a == 1, b) << 2 >= limit".

Lemma parse_check_splits_witness :
  exists lhs, parse_check (length sample_check) sample_check []
              = Ok (Some (lhs, of_string ">=", of_string " limit"))
    /\ squeeze sample_check = squeeze (lhs ++ ">=" ++ " limit").
Proof.
  destruct (parse_check_splits sample_check) as (r & E & Hr).
  - apply (bool_decide_unpack (newline ∉ sample_check)). vm_compute. exact I.
  - vm_compute in E. injection E. intros Er. eexists. split; [vm_compute; reflexivity|].
    refine (proj2 (Hr _ _ _ (eq_sym Er) _)). discriminate.
Defined.

(** * The tables of replacements *)

Lemma operator_suffix_some inverted op :
  op ∈ relational -> exists s, operator_suffix inverted op = Some s.
Proof.
  unfold relational. cbn [fmap list_fmap]. intros H. revert H.
  repeat (intros [->|H]%elem_of_cons; [by destruct inverted; eexists|revert H]).
  by intros ?%not_elem_of_nil.
Qed.

Definition check_macros : list str := fst <$> _CHECK_MACROS.

(** Every CHECK macro has a replacement for every relational operator. *)
Lemma CHECK_REPLACEMENT_some macro op :
  macro ∈ check_macros -> op ∈ relational -> exists s, _CHECK_REPLACEMENT macro op = Some s.
Proof.
  unfold check_macros. cbn [_CHECK_MACROS fmap list_fmap fst]. intros H Hop. revert H.
  destruct (operator_suffix_some false op Hop) as [s Hs].
  destruct (operator_suffix_some true op Hop) as [s' Hs'].
  repeat (intros [->|H]%elem_of_cons;
    [unfold _CHECK_REPLACEMENT; simpl; rewrite ?Hs, ?Hs'; by eexists|revert H]).
  by intros ?%not_elem_of_nil.
Qed.

(** The position of the parenthesis is inside the line. *)
Lemma macro_position line :
  Forall (fun '(macro, p) =>
    forall mo, Match p line = Some mo -> (length (grp mo 1) < length line)%nat) _CHECK_MACROS.
Proof.
  unfold _CHECK_MACROS.
  repeat (constructor; [intros mo Hm; apply match_at_Some in Hm as (<- & _ & Hm);
    cbn [p_regex p_icase p_groups caps0] in Hm; mt_inv;
    match goal with H : mo_caps mo = _ |- _ => rename H into Hc end;
    pose proof (grp_bound mo 1 _ _ ltac:(rewrite Hc; reflexivity)) as Hg;
    match goal with H : mo_string mo !! _ = Some _, E : set_match _ _ [CIChar 40] _ = true |- _ =>
      apply lookup_lt_Some in H; lia end|]).
  constructor.
Qed.

Lemma find_check_macro_in macros line macro pos :
  Forall (fun '(_, p) => forall mo, Match p line = Some mo ->
            (length (grp mo 1) < length line)%nat) macros ->
  find_check_macro macros line = Some (macro, pos) ->
  macro ∈ fst <$> macros /\ exists n, pos = Z.of_nat n /\ (n < length line)%nat.
Proof.
  induction 1 as [|[m p] macros Hp _ IH]; [done|]. cbn [find_check_macro fmap list_fmap fst].
  assert (find_check_macro macros line = Some (macro, pos) ->
    macro ∈ m :: (fst <$> macros) /\ exists n, pos = Z.of_nat n /\ (n < length line)%nat) as Hrest.
  { intros [H1 H2]%IH. split; [by right|done]. }
  destruct (0 <=? find line m); [|done]. destruct (Match p line) as [mo|] eqn:E; [|done].
  intros [= <- <-]. split; [left|]. exists (length (grp mo 1)). split; [done|]. by apply Hp.
Qed.

Lemma concat_lines_total cl linenums text :
  Forall (fun i => 0 <= i < len (elided cl)) linenums ->
  exists t, concat_lines cl linenums text = Ok t.
Proof.
  revert text. induction linenums as [|i l IH]; intros text H; [by eexists|].
  inversion_clear H as [|? ? Hi Hl]. cbn [concat_lines].
  destruct (lookup_lt_is_Some_2 (elided cl) (Z.to_nat i)) as [x Hx]; [unfold len in Hi; lia|].
  unfold idx. rewrite py_index_pos, Hx by lia. by apply IH.
Qed.

Lemma check_expression_total cl n k line last_line start_pos end_pos :
  (n <= k)%nat -> (k < length (elided cl))%nat ->
  exists e, check_expression cl (Z.of_nat n) line last_line start_pos (Z.of_nat k) end_pos = Ok e.
Proof.
  intros Hn Hk. unfold check_expression. destruct (_ =? _); [by eexists|].
  destruct (concat_lines_total cl (zrange (Z.of_nat n + 1) (Z.of_nat k))
    (slice_from line (start_pos + 1))) as [t ->]; [|by eexists].
  apply Forall_forall. intros i [? ?]%elem_of_zrange. unfold len. lia.
Qed.

Lemma ALT_TOKEN_some s i mo :
  match_at _ALT_TOKEN_REPLACEMENT_PATTERN s i = Some mo ->
  exists r, _ALT_TOKEN_REPLACEMENT (grp mo 1) = Some r.
Proof.
  intros (<- & _ & H)%match_at_Some. unfold _ALT_TOKEN_REPLACEMENT_PATTERN in H.
  cbn [p_regex p_icase p_groups caps0] in H. mt_inv.
  match goal with H : Mt _ _ (RLook _ _) _ _ _ _ |- _ =>
    apply Mt_no_groups in H as Hc; [|reflexivity] end.
  match goal with H : Mt _ _ (RAlt _ _) _ _ _ _ |- _ =>
    eapply Mt_literals in H as (w & Hw & Hd & -> & ->); [|reflexivity] end.
  rewrite (grp_text mo 1 (S i) (S i + length w)) by (rewrite Hc; reflexivity).
  replace (S i + length w - S i)%nat with (length w) by lia.
  rewrite Hd, take_app_length. clear -Hw. revert Hw. vm_compute.
  repeat (intros [->|H]%elem_of_cons; [by eexists|revert H]). by intros ?%not_elem_of_nil.
Qed.

Section Checks.
Context (I : globals -> Prop) (error : error_fn) `{!Handler I error}.

Lemma report_operator_total filename linenum macro lhs op rhs :
  macro ∈ check_macros -> (nonempty op = true -> op ∈ relational) ->
  total I (if negb (nonempty lhs && nonempty op && nonempty rhs) then skip
           else if contains rhs "&&" || contains rhs "||" then skip
           else if matches match_constant (strip lhs) || matches match_constant (strip rhs) then
             replacement ← lift (some_or KeyError (_CHECK_REPLACEMENT macro op));
             error filename linenum "readability/check" 2
               ("Consider using " +s replacement +s " instead of " +s macro +s "(a "
                +s op +s " b)")
           else skip) (fun _ => True).
Proof.
  intros Hm Hop. destruct (negb _) eqn:Hne; [total_step|]. destruct (_ || _); [total_step|].
  destruct (_ || _); [|total_step]. bool_hyps.
  destruct (CHECK_REPLACEMENT_some macro op Hm) as [s Hs]; [by apply Hop|].
  eapply total_bind; [by eapply (total_lift _ _ (fun _ => True)); [rewrite Hs|]|].
  intros r _. total_step.
Qed.

(** The checks of CHECK macros and of alternative tokens return on every line of a
    file: every table has an entry for what is looked up in it, every index is in range. *)
Lemma CheckCheck_total filename cl n :
  (n < length (elided cl))%nat -> total I (CheckCheck filename cl (Z.of_nat n) error) (fun _ => True).
Proof.
  intros Hn. unfold CheckCheck. total_step; [unfold len; lia|]. rewrite Nat2Z.id in *. rename a into line.
  destruct (FindCheckMacro line) as [[macro pos]|] eqn:Ef; [|total_step].
  apply find_check_macro_in in Ef as (Hm & p & -> & Hp); [|apply macro_position].
  destruct (CloseExpression_result cl n (Z.of_nat p) line p) as (last & e & q & E & Hres);
    [done..|]. rewrite E.
  eapply total_bind; [by apply (total_lift _ _ (fun x => x = (last, e, q)) _ eq_refl)|].
  intros ? ->. destruct (_ || _) eqn:Hq; [total_step|].
  destruct Hres as [[-> ->]|(k & r & c & -> & Hk & _ & Hl & -> & _)]; [done|].
  apply lookup_lt_Some in Hl.
  destruct (check_expression_total cl n k line last (Z.of_nat p) (Z.of_nat r + 1)) as [t ->];
    [done..|].
  eapply total_bind; [by apply (total_lift _ _ (fun x => x = t) _ eq_refl)|]. intros ? ->.
  destruct (parse_check_ok (length t) t []) as (parsed & -> & Hs); [lia|].
  eapply total_bind; [by apply (total_lift _ _ (fun x => x = parsed) _ eq_refl)|]. intros ? ->.
  destruct parsed as [[[lhs op] rhs]|]; [|total_step].
  apply report_operator_total; [done|]. intros Hop. by apply (Hs lhs op rhs).
Qed.

Lemma CheckAltTokens_total filename cl n :
  (n < length (elided cl))%nat -> total I (CheckAltTokens filename cl (Z.of_nat n) error) (fun _ => True).
Proof.
  intros Hn. unfold CheckAltTokens. total_step; [unfold len; lia|].
  repeat total_step. apply finditer_match in H0 as [i Hi].
  destruct (ALT_TOKEN_some _ _ _ Hi) as [s Hs].
  by eapply (total_lift _ _ (fun _ => True)); [rewrite Hs|].
Qed.
End Checks.
