(* ===== verification/StyleSafety.v ===== *)
(** The style checks never raise, under the condition [no_root_svn]: every index is in range, every pattern built at run time
    compiles, and the blocks of the nesting state start at lines of the file, which
    [Update] keeps. *)

From S2P Require Import Prelude PyStr Regex RegexFacts State StateFacts Cleanse CleanseFacts.
From S2P Require Import Expr ExprFacts Lines Nesting NestingFacts FilePath FilePathFacts.
From S2P Require Import Spacing SpacingFacts Style StyleFacts.

Open Scope Z_scope.
Open Scope py_scope.

(** * The pattern of a type name compiles *)

(** The tokens of an escaped character. *)
Definition escaped (c : N) : list tok :=
  if is_alnum c then [TC c] else if (c =? 0)%N then [TE "0"%char; TC "0"%char; TC "0"%char] else [TE c].

Lemma tokenize_escaped w s :
  tokenize (escape w ++ s) = app (w ≫= escaped) <$> tokenize s.
Proof.
  induction w as [|c w IH]; [simpl; by destruct (tokenize s)|].
  rewrite bind_cons. cbn [escape]. unfold escaped at 1. destruct (is_alnum c) eqn:Ea.
  - cbn [app tokenize]. rewrite name_char_no_backslash by (left; by unfold re_word; rewrite Ea).
    rewrite IH. by destruct (tokenize s).
  - destruct (c =? 0)%N.
    + change (tokenize ((of_string "\000" ++ escape w) ++ s)) with
        (l ← (l ← (l ← tokenize (escape w ++ s); Some (TC "0"%char :: l)); Some (TC "0"%char :: l));
         Some (TE "0"%char :: l)).
      rewrite IH. by destruct (tokenize s).
    + change (tokenize (([Ascii.N_of_ascii "\"; c] ++ escape w) ++ s)) with
        (l ← tokenize (escape w ++ s); Some (TE c :: l)).
      rewrite IH. by destruct (tokenize s).
Qed.

Lemma simple_escape_some c : is_alnum c = false -> exists e, simple_escape c = Some e.
Proof.
  intros H. unfold simple_escape. repeat (case_match; [by eexists|]).
  assert (is_digit c = false) as -> by (unfold is_alnum in H; by do 2 apply orb_false_elim in H as [H _]).
  unfold ceq. destruct (N.eqb_spec c (Ascii.N_of_ascii "x")) as [->|_]; [done|by eexists].
Qed.

Lemma parse_alt_escaped w f ts g acc :
  exists es, parse_alt (length w + f) ((w ≫= escaped) ++ ts) g acc = parse_alt f ts g (es ++ acc).
Proof.
  revert acc. induction w as [|c w IH]; intros acc; [by exists []|].
  rewrite bind_cons, <-app_assoc. cbn [length Nat.add]. unfold escaped at 1.
  destruct (is_alnum c) eqn:Ea.
  - cbn [app]. rewrite step_lit by by apply alnum_plain.
    destruct (IH ((true, RSet false [CIChar c]) :: acc)) as [es ->].
    exists (es ++ [(true, RSet false [CIChar c])]). by rewrite <- app_assoc.
  - destruct (N.eqb_spec c 0) as [->|Hc].
    + change (parse_alt (S ?m) ([TE "0"%char; TC "0"%char; TC "0"%char] ++ ?r) g acc)
        with (parse_alt m r g ((true, RSet false [CIChar 0]) :: acc)).
      destruct (IH ((true, RSet false [CIChar 0]) :: acc)) as [es ->].
      exists (es ++ [(true, RSet false [CIChar 0])]). by rewrite <- app_assoc.
    + cbn [app]. destruct (parse_escape_literal c ((w ≫= escaped) ++ ts)) as [e He].
      { cbn [literal]. rewrite Ea. by destruct (simple_escape_some c Ea) as [? ->]. }
      rewrite (step_esc _ _ _ _ _ _ He).
      destruct (IH ((true, e) :: acc)) as [es ->]. exists (es ++ [(true, e)]). by rewrite <- app_assoc.
Qed.

Lemma length_escaped w : (length w <= length (escape w))%nat.
Proof.
  induction w as [|c w IH]; [done|]. cbn [escape]. rewrite length_app.
  destruct (is_alnum c); simpl; [lia|]. destruct (c =? 0)%N; simpl; lia.
Qed.

(** A group that does not capture, whose body parses on its own. *)
Lemma step_noncapturing m f body rest g g' e acc :
  parse_alt f (body ++ TC ")"%char :: rest) g [] = Some (e, TC ")"%char :: rest, g') -> (f <= m)%nat ->
  parse_alt (S m) (TC "("%char :: TC "?"%char :: TC ":"%char :: body ++ TC ")"%char :: rest) g acc
  = parse_alt m rest g' ((true, e) :: acc).
Proof.
  intros He Hf. apply (parse_alt_mono _ m) in He; [|done].
  cbn [parse_alt]. unfold parse_quant. simpl. simpl in He. by rewrite He.
Qed.

Lemma typename_body : exists e, forall rest,
  parse_alt 30 (toks "typename|class|struct" ++ TC ")"%char :: rest) 0 [] = Some (e, TC ")"%char :: rest, 0%nat).
Proof. eexists. intros rest. vm_compute. reflexivity. Qed.

Lemma typename_compiles token : exists p, typename_pattern token = Ok p.
Proof.
  unfold typename_pattern.
  match goal with |- context [re_compile ?s] =>
    enough (exists p, re_compile s = Some p) as [p ->] by by exists p end.
  destruct typename_body as [e He].
  set (rest := (token ≫= escaped) ++ [TE "b"%char]).
  assert (not_lazy rest = true) as Hl.
  { destruct token as [|c token]; [done|]. unfold rest. rewrite bind_cons. unfold escaped at 1.
    destruct (is_alnum c) eqn:Ea; [|by destruct (c =? 0)%N]. apply alnum_plain in Ea. simpl.
    destruct (ceq c "?") eqn:E; [|done]. apply N.eqb_eq in E as ->. by vm_compute in Ea. }
  destruct (parse_alt_escaped token 29 [TE "b"%char] 0
              [(false, RRep true 1 None (RSet false [CISpace])); (true, e); (false, RWordB false)])
    as [es Hes].
  eapply (re_compile_parts _ _ (S (S (S (S (length token + 29)))))).
  - reflexivity.
  - erewrite tokenize_app by (vm_compute; reflexivity). rewrite tokenize_escaped. reflexivity.
  - rewrite !length_app. simpl length. pose proof (length_escaped token). lia.
  - change (?l ++ (token ≫= escaped) ++ [TE "b"%char]) with (l ++ rest).
    change (exists r g, parse_alt (S (S (S (S (length token + 29)))))
      (TE "b"%char :: TC "("%char :: TC "?"%char :: TC ":"%char :: toks "typename|class|struct"
        ++ TC ")"%char :: TE "s"%char :: TC "+"%char :: rest) 0 [] = Some (r, [], g)).
    erewrite step_esc by reflexivity.
    rewrite (step_noncapturing _ 30 _ _ 0 0 e _ (He _)) by lia.
    erewrite step_esc, step_quant by (reflexivity || exact Hl).
    eexists _, _. etransitivity; [exact Hes|reflexivity].
Qed.

(** * Indices in range *)

Lemma idx_total {A} (l : list A) i : 0 <= i < len l -> exists x, idx l i = Ok x /\ l !! Z.to_nat i = Some x.
Proof.
  intros H. destruct (lookup_lt_is_Some_2 l (Z.to_nat i)) as [x Hx]; [unfold len in H; lia|].
  exists x. unfold idx. by rewrite py_index_pos, Hx by lia.
Qed.

(** An index from the end is in range too. *)
Lemma idx_from_end {A} (l : list A) i : - len l <= i < len l -> exists x, idx l i = Ok x.
Proof.
  intros H. destruct (Z.ltb_spec i 0) as [Hi|Hi]; [|destruct (idx_total l i ltac:(lia)) as (x & -> & _); by exists x].
  unfold idx, py_index. rewrite (proj2 (Z.ltb_lt _ _) Hi). unfold len in H.
  destruct (Z.ltb_spec (Z.of_nat (length l) + i) 0); [lia|].
  destruct (lookup_lt_is_Some_2 l (Z.to_nat (Z.of_nat (length l) + i))) as [x ->]; [lia|by exists x].
Qed.

Lemma total_idx I {A} (l : list A) i (Q : A -> Prop) :
  - len l <= i < len l -> (forall x, Q x) -> total I (lift (idx l i)) Q.
Proof. intros (x & E)%idx_from_end HQ. by apply (total_lift _ _ _ x). Qed.

(** A block that starts at one of the first [m] lines. *)
Definition starts (m : Z) (b : Block) : Prop := 0 <= starting_linenum b < m.

Lemma elem_of_zrange_down a b i : i ∈ zrange_down a b <-> b < i <= a.
Proof.
  unfold zrange_down. rewrite list_elem_of_fmap. split.
  - intros (k & -> & Hk%elem_of_seq). lia.
  - intros H. exists (Z.to_nat (a - i)). split; [lia|]. apply elem_of_seq. lia.
Qed.

Section Types.
Context (cl : CleansedLines).

Lemma template_line_total l :
  Forall (fun i => 0 <= i < len (elided cl)) l ->
  exists r, template_line cl l = Ok r /\ forall i, r = Some i -> i ∈ l.
Proof.
  induction 1 as [|i l Hi Hl (r & E & Hr)]; [by exists None|]. cbn [template_line].
  destruct (idx_total (elided cl) i Hi) as (x & -> & _). cbn [mbind res_bind].
  destruct (0 <=? _); [exists (Some i); split; [done|]; intros ? [= ->]; left|].
  exists r. split; [done|]. intros j Hj. right. by apply Hr.
Qed.

Lemma any_search_total p l :
  Forall (fun i => 0 <= i < len (elided cl)) l -> exists b, any_search p cl l = Ok b.
Proof.
  induction 1 as [|i l Hi Hl IH]; [by exists false|]. cbn [any_search].
  destruct (idx_total (elided cl) i Hi) as (x & -> & _). cbn [mbind res_bind].
  by destruct (searches p x); [eexists|].
Qed.

Lemma type_of_block_total token stack :
  Forall (starts (len (elided cl))) stack -> exists b, type_of_block cl token stack = Ok b.
Proof.
  induction 1 as [|b outer Hb Hout IH]; [by exists false|]. cbn [type_of_block].
  destruct (is_namespace b); [by exists false|].
  assert (0 <= match outer with o :: _ => starting_linenum o | [] => 0 end) as Hnext.
  { destruct Hout as [|o ? [? _]]; [done|lia]. }
  unfold starts in Hb.
  destruct (template_line_total (zrange_down (starting_linenum b)
    (match outer with o :: _ => starting_linenum o | [] => 0 end - 1))) as (first & -> & Hf).
  { apply Forall_forall. intros i Hi%elem_of_zrange_down. lia. }
  cbn [mbind res_bind]. destruct first as [i|]; [|done].
  specialize (Hf i eq_refl). apply elem_of_zrange_down in Hf.
  destruct (typename_compiles token) as [p ->]. cbn [mbind res_bind].
  destruct (any_search_total p (zrange i (starting_linenum b + 1))) as [found ->].
  { apply Forall_forall. intros j Hj%elem_of_zrange. lia. }
  cbn [mbind res_bind]. by destruct found; [exists true|].
Qed.

Lemma IsType_total ns expr :
  Forall (starts (len (elided cl))) (blocks ns) -> exists b, _IsType cl ns expr = Ok b.
Proof.
  intros H. unfold _IsType. destruct (is_some _); [by exists true|]. by apply type_of_block_total.
Qed.

(** ** The result of going back *)

Lemma reverse_close_le rest linenum line stack :
  0 <= linenum - Z.of_nat (length rest) ->
  let '(_, l', _) := reverse_close_loop rest linenum line stack in 0 <= l' <= linenum.
Proof.
  revert linenum line stack. induction rest as [|prev rest IH]; intros linenum line stack H;
    destruct stack as [[|top st]|]; cbn [reverse_close_loop]; cbn [length] in *; try lia.
  destruct (FindStartOfExpressionInLine _ _ _) as [p st']. destruct (-1 <? p); [lia|].
  specialize (IH (linenum - 1) prev st' ltac:(lia)).
  destruct (reverse_close_loop _ _ _ _) as [[? l'] ?]. lia.
Qed.

Lemma ReverseCloseExpression_le n line pos :
  elided cl !! n = Some line -> - len line <= pos < len line ->
  exists line' l' p, ReverseCloseExpression cl (Z.of_nat n) pos = Ok (line', l', p)
    /\ 0 <= l' <= Z.of_nat n.
Proof.
  intros Hl Hp. unfold ReverseCloseExpression. rewrite (idx_Ok _ _ _ Hl). cbn [mbind res_bind].
  destruct (idx_from_end line pos Hp) as [c ->]. cbn [mbind res_bind].
  destruct (negb _); [eexists _, _, _; split; [done|lia]|].
  destruct (FindStartOfExpressionInLine line pos []) as [p st].
  destruct (-1 <? p); [eexists _, _, _; split; [done|lia]|].
  pose proof (reverse_close_le (reverse (take (Z.to_nat (Z.of_nat n)) (elided cl))) (Z.of_nat n) line st) as H.
  rewrite length_reverse, length_take in H. specialize (H ltac:(lia)).
  destruct (reverse_close_loop _ _ _ _) as [[line' l'] p']. by eexists _, _, _.
Qed.

(** What [CloseExpression] returns, as the checks use it: a position after a character of
    a line of the file, or the end of the file. *)
Lemma CloseExpression_end n line pos :
  elided cl !! n = Some line -> 0 <= pos < len line ->
  exists line' l' p, CloseExpression cl (Z.of_nat n) pos = Ok (line', l', p)
    /\ ((l' = NumLines cl /\ p = -1)
        \/ exists k, l' = Z.of_nat k /\ (n <= k)%nat /\ elided cl !! k = Some line' /\ 0 < p <= len line').
Proof.
  intros Hl Hp. destruct (CloseExpression_result cl n pos line (Z.to_nat pos))
    as (line' & l' & p & E & H); [done|lia|unfold len in Hp; lia|].
  exists line', l', p. split; [done|].
  destruct H as [H|(k & q & c & -> & Hk & _ & Hl' & -> & Hq & _)]; [by left|right].
  exists k. split; [done|]. split; [done|]. split; [done|]. apply lookup_lt_Some in Hq. unfold len. lia.
Qed.
End Types.

(** * Positions in the line *)

(** The first group ends before a character of the line. *)
Ltac before_char Hm :=
  lazymatch type of Hm with
  | Match ?p ?s = Some ?mo =>
      apply match_at_Some in Hm as (<- & _ & Hm); try unfold p in Hm;
      cbn [p_regex p_icase p_groups caps0] in Hm; mt_inv;
      repeat match goal with
      | H : Mt _ _ _ _ _ _ _ |- _ => apply Mt_no_groups in H; [|reflexivity]; subst
      end;
      lazymatch goal with Hc : mo_caps _ = _ |- _ =>
        pose proof (grp_bound mo 1 _ _ ltac:(rewrite Hc; reflexivity)) end;
      repeat match goal with H : mo_string mo !! _ = Some _ |- _ => apply lookup_lt_Some in H end;
      simpl in *; lia
  end.

Lemma LESS_inside line mo : Match _LESS line = Some mo -> (length (grp mo 1) < length line)%nat.
Proof. intros Hm. before_char Hm. Qed.

Lemma GREATER_inside line mo : Match _GREATER line = Some mo -> (length (grp mo 1) < length line)%nat.
Proof. intros Hm. before_char Hm. Qed.

Lemma OPEN_BRACE_inside line mo : Match _OPEN_BRACE line = Some mo -> (length (grp mo 1) < length line)%nat.
Proof. intros Hm. before_char Hm. Qed.

Lemma BLOCK_AFTER_PARENS_inside line mo :
  Match _BLOCK_AFTER_PARENS line = Some mo -> (length (grp mo 1) < length line)%nat.
Proof. intros Hm. before_char Hm. Qed.

Lemma ELSE_BLOCK_inside line mo :
  Match (rx "^(.*(?:else|\)\s*const)\s*)\{") line = Some mo -> (length (grp mo 1) < length line)%nat.
Proof. intros Hm. before_char Hm. Qed.

Lemma SPACES_BLOCK_inside line mo :
  Match (rx "^(\s*)\{") line = Some mo -> (length (grp mo 1) < length line)%nat.
Proof. intros Hm. before_char Hm. Qed.

Lemma find_from_inside s c k : find_from s [c] k < len s.
Proof.
  unfold find_from. destruct (len s <? k); [unfold len; lia|].
  destruct (find_nat [c] (drop _ s)) as [i|] eqn:E; [|unfold len; lia].
  apply find_nat_Some in E as [Hi Hp]. apply prefixb_length in Hp. rewrite !length_drop in Hp.
  simpl in Hp. unfold len. lia.
Qed.

Lemma find_inside s c : 0 <= find s [c] -> find s [c] < len s.
Proof. intros H%find_prefix. unfold len in *. simpl in H. lia. Qed.

(** A match that ends with a character contains it. *)
Lemma find_elem (s : str) c i : s !! i = Some c -> 0 <= find s [c].
Proof.
  intros H. apply find_nonneg_contains, contains_spec. exists (take i s), (drop (S i) s).
  symmetry. exact (take_drop_middle s i c H).
Qed.

Lemma set_one c d : set_match false false [CIChar c] d = true -> d = c.
Proof. unfold set_match. simpl. rewrite !orb_false_r. by intros ->%N.eqb_eq. Qed.

Lemma IF_PAREN_inside line mo : Search (rx "\bif\s*\(") line = Some mo -> 0 <= mend mo - 1 < len line.
Proof.
  intros (Hm & Hb & _)%re_search_Some. apply match_at_Some in Hm as (_ & _ & H).
  apply Mt_min_len in H. simpl in H. unfold mend, len. lia.
Qed.

Lemma CONTROL_PAREN line mo :
  Match (rx "\s*(for|while|if)\s*\(") line = Some mo -> 0 <= find line "(".
Proof.
  intros Hm. apply match_at_Some in Hm as (<- & _ & Hm). cbn [p_regex p_icase p_groups caps0] in Hm.
  mt_inv. match goal with H : _ !! _ = Some _, E : set_match _ _ [CIChar 40] _ = true |- _ =>
    apply set_one in E as ->; exact (find_elem _ _ _ H) end.
Qed.

Lemma BRACE_found f : searches (rx "^\s*\{") f = true -> 0 <= find f "{" < len f.
Proof.
  unfold searches, Search. intros (i & j & _ & (c & H))%re_search_is_some.
  cbn [p_regex p_icase p_groups caps0] in H. mt_inv.
  match goal with H : _ !! _ = Some _, E : set_match _ _ [CIChar 123] _ = true |- _ =>
    apply set_one in E as ->; apply find_elem in H end.
  split; [done|]. by apply find_inside.
Qed.

(** * The checks of a line *)

(** The views of a cleansed file have the same number of lines. *)
Definition views_ok (cl : CleansedLines) : Prop :=
  clean_ok cl /\ length (lines_without_raw_strings cl) = length (raw_lines cl).

Section Checks.
Context (I : globals -> Prop) (error : error_fn) `{!Handler I error, !OnLint I}.
Context (filename : str) (cl : CleansedLines) (n : nat).
Hypothesis Hviews : views_ok cl.
Hypothesis Hn : (n < length (elided cl))%nat.

Ltac in_view := destruct Hviews as [[? ?] ?]; unfold NumLines, len in *; lia.

(** The line itself, in any view. *)
Ltac line_step := total_step; [in_view|]; rewrite ?Nat2Z.id in *.

Lemma CheckParenthesisSpacing_total :
  total I (CheckParenthesisSpacing filename cl (Z.of_nat n) error) (fun _ => True).
Proof.
  unfold CheckParenthesisSpacing. line_step. total_step; [destruct (Search _ a); total_step|].
  destruct (Search _ a); repeat total_step.
Qed.

Lemma CheckCommaSpacing_total :
  total I (CheckCommaSpacing filename cl (Z.of_nat n) error) (fun _ => True).
Proof. unfold CheckCommaSpacing. line_step. repeat (total_step || in_view). Qed.

Lemma CheckSpacingForFunctionCall_total :
  total I (CheckSpacingForFunctionCall filename cl (Z.of_nat n) error) (fun _ => True).
Proof. unfold CheckSpacingForFunctionCall. line_step. repeat total_step. Qed.

Lemma CheckOperatorSpacing_total :
  total I (CheckOperatorSpacing filename cl (Z.of_nat n) error) (fun _ => True).
Proof.
  unfold CheckOperatorSpacing. line_step. rename a into line.
  destruct (mask_operators_ok (length line) line (nonword_le line)) as (out & E & _ & _ & Hlen & _).
  eapply total_bind; [by apply (total_lift _ _ (fun l => l = out) _ E)|]. intros ? ->.
  total_step; [repeat total_step|]. total_step.
  - unfold check_comparison. destruct (Search _ out); [total_step|]. destruct (matches _ out); [total_step|].
    total_step.
    + destruct (Match _LESS out) as [mo|] eqn:Em; [|total_step]. apply LESS_inside in Em.
      destruct (CloseExpression_end cl n line (len (grp mo 1))) as (l' & k & p & Ec & _);
        [done|unfold len; lia|].
      eapply total_bind; [by apply (total_lift _ _ (fun _ => True) _ Ec)|]. intros [[? ?] ?] _.
      repeat total_step.
    + destruct (Match _GREATER out) as [mo|] eqn:Em; [|total_step]. apply GREATER_inside in Em.
      destruct (ReverseCloseExpression_le cl n line (len (grp mo 1))) as (l' & k & p & Ec & _);
        [done|unfold len; lia|].
      eapply total_bind; [by apply (total_lift _ _ (fun _ => True) _ Ec)|]. intros [[? ?] ?] _.
      repeat total_step.
  - total_step; [destruct (Search _ out); repeat total_step|]. total_step; [repeat total_step|].
    destruct (Search _ out); repeat total_step.
Qed.

(** ** Spacing *)

Lemma not_whitespace_total line i : 0 <= i < len line -> exists b, not_whitespace_at line i = Ok b.
Proof. intros (x & E & _)%idx_total. unfold not_whitespace_at. rewrite E. by eexists. Qed.

Lemma too_close_total line pos : pos < len line -> exists b, too_close line pos = Ok b.
Proof.
  intros Hp. unfold too_close.
  assert (exists b, (if 1 <=? pos then not_whitespace_at line (pos - 1) else Ok false) = Ok b) as [b ->].
  { destruct (Z.leb_spec 1 pos); [apply not_whitespace_total; lia|by eexists]. }
  cbn [mbind res_bind]. destruct b; [by eexists|].
  destruct (Z.leb_spec 2 pos); [apply not_whitespace_total; lia|by eexists].
Qed.

Lemma CheckComment_total line start :
  total I (CheckComment line filename (Z.of_nat n) start error) (fun _ => True).
Proof.
  unfold CheckComment. destruct (find line "//" =? -1) eqn:Ef; [total_step|]. total_step; [total_step|].
  bool_hyps. pose proof (find_ge line "//").
  destruct (too_close_total line (find line "//")) as [b Eb].
  { pose proof (find_prefix line "//" ltac:(lia)) as Hp. unfold len in *. simpl in Hp. lia. }
  total_step; [total_step; [|repeat total_step]|].
  { by eapply (total_lift _ _ (fun _ => True)). }
  total_step; [repeat total_step|]. total_step; [|repeat total_step].
  destruct (re_match _ _); [|total_step]. unfold check_todo. repeat total_step.
Qed.

(** The line before; of the first line, the last one. *)
Ltac line_before := eapply total_bind; [apply (total_idx I _ _ (fun _ => True)); [in_view|done]|intros ? _].

Lemma CheckSpacing_total ns :
  total I (CheckSpacing filename cl (Z.of_nat n) ns error) (fun _ => True).
Proof.
  unfold CheckSpacing. line_step. total_step.
  { destruct (_ && _); [|total_step]. unfold check_blank_line. line_before.
    total_step; [repeat total_step|]. total_step.
    - destruct (Z.ltb_spec (Z.of_nat n + 1) (NumLines cl)); [|total_step].
      total_step; [in_view|]. repeat total_step.
    - destruct (Match _ _); repeat total_step. }
  total_step.
  { destruct (Z.ltb_spec (Z.of_nat n + 1) (NumLines cl)); [|total_step]. total_step; [in_view|]. total_step. }
  total_step; [apply CheckComment_total|]. line_step. repeat total_step.
Qed.

Lemma trailing_text_total line leading :
  elided cl !! n = Some line -> (length leading < length line)%nat ->
  exists t, trailing_text cl (Z.of_nat n) leading = Ok t.
Proof.
  intros Hl Hlt. unfold trailing_text.
  destruct (CloseExpression_end cl n line (len leading)) as (l' & k & p & -> & H);
    [done|unfold len; lia|]. cbn [mbind res_bind]. apply concat_lines_total.
  apply Forall_forall. intros i Hi%elem_of_zrange.
  destruct H as [[-> _]|(j & -> & _ & Hj%lookup_lt_Some & _)]; in_view.
Qed.

Lemma CheckBracesSpacing_total ns :
  Forall (starts (len (elided cl))) (blocks ns) ->
  total I (CheckBracesSpacing filename cl (Z.of_nat n) ns error) (fun _ => True).
Proof.
  intros Hb. unfold CheckBracesSpacing. line_step. rename a into line. total_step.
  - destruct (Match _OPEN_BRACE line) as [mo|] eqn:Em; [|total_step]. apply OPEN_BRACE_inside in Em.
    destruct (trailing_text_total line (grp mo 1)) as [t Et]; [done..|].
    total_step; [by eapply (total_lift _ _ (fun _ => True))|]. total_step; [total_step|].
    destruct (IsType_total cl ns (grp mo 1) Hb) as [b Eb].
    total_step; [by eapply (total_lift _ _ (fun _ => True))|]. repeat total_step.
  - repeat total_step.
Qed.

Lemma class_head_end_total l head :
  Forall (fun i => 0 <= i < len (lines cl)) l -> exists r, class_head_end cl l head = Ok r.
Proof.
  induction 1 as [|i l Hi Hl IH]; [by eexists|]. cbn [class_head_end].
  destruct (idx_total (lines cl) i Hi) as (x & -> & _). cbn [mbind res_bind].
  by destruct (searches _ x); [eexists|].
Qed.

Lemma CheckSectionSpacing_total b c :
  starts (len (elided cl)) b ->
  total I (CheckSectionSpacing filename cl b c (Z.of_nat n) error) (fun _ => True).
Proof.
  intros [Hb _]. unfold CheckSectionSpacing. destruct (_ || _) eqn:E; [total_step|]. bool_hyps.
  line_step. destruct (Match _ a); [|total_step]. total_step; [in_view|]. total_step; [|total_step].
  destruct (class_head_end_total (zrange (starting_linenum b) (Z.of_nat n)) (starting_linenum b)) as [r Er].
  { apply Forall_forall. intros i Hi%elem_of_zrange. in_view. }
  total_step; [by eapply (total_lift _ _ (fun _ => True))|]. repeat total_step.
Qed.

(** ** Braces *)

Lemma semicolon_line_ge rest l p r x : semicolon_line rest l p = Some (r, x) -> l <= r.
Proof.
  revert l p. induction rest as [|y rest IH]; intros l p; cbn [semicolon_line]; [done|].
  destruct (contains _ _); [intros [= -> _]; lia|]. intros H%IH. lia.
Qed.

Lemma check_single_statement_total indent b endlinenum endpos :
  0 <= endlinenum ->
  total I (check_single_statement filename cl (Z.of_nat n) indent b endlinenum endpos error) (fun _ => True).
Proof.
  intros He. unfold check_single_statement.
  destruct (semicolon_line _ _ _) as [[l x]|] eqn:E; [|total_step]. apply semicolon_line_ge in E.
  total_step; [repeat total_step|]. destruct (Z.ltb_spec l (len (elided cl) - 1)); [|total_step].
  total_step; [in_view|]. repeat total_step.
Qed.

Lemma check_single_line_if_total line :
  elided cl !! n = Some line ->
  total I (check_single_line_if filename cl (Z.of_nat n) line error) (fun _ => True).
Proof.
  intros Hl. unfold check_single_line_if. destruct (Search _ line) as [if_else|]; [|total_step].
  total_step; [total_step|].
  eapply (total_bind _ _ _ (fun r => 0 <= r.1.2)).
  - destruct (Search (rx "\bif\s*\(") line) as [mo|] eqn:Em; [|by apply total_ret; simpl; lia].
    apply IF_PAREN_inside in Em.
    destruct (CloseExpression_end cl n line (mend mo - 1)) as (l' & k & p & Ec & H); [done..|].
    eapply (total_lift _ _ _ _ Ec). simpl. destruct H as [[-> _]|(j & -> & _)]; in_view.
  - intros [[endline endlinenum] endpos] He. simpl in He. total_step.
    + total_step; [total_step|].
      destruct (_ && _) eqn:E; [|total_step]. bool_hyps. total_step; [in_view|]. total_step.
    + total_step; [total_step|]. by apply check_single_statement_total.
Qed.

Lemma CheckBraces_total u :
  total I (CheckBraces u filename cl (Z.of_nat n) error) (fun _ => True).
Proof.
  unfold CheckBraces. line_step. rename a into line. total_step.
  { unfold check_brace_line. total_step; [total_step; [|total_step]|repeat total_step].
    total_step; [by apply (total_get _ (fun _ => True))|]. repeat total_step. }
  total_step.
  { unfold check_else_braces. destruct (searches _ line); [|repeat total_step].
    destruct (Z.ltb_spec 0 (find_from line "(" (find line "else if"))); [|total_step].
    destruct (CloseExpression_end cl n line (find_from line "(" (find line "else if")))
      as (l' & k & p & Ec & _); [done|split; [lia|apply find_from_inside]|].
    eapply total_bind; [by apply (total_lift _ _ (fun _ => True) _ Ec)|]. intros [[? ?] ?] _.
    repeat total_step. }
  total_step; [repeat total_step|]. total_step; [repeat total_step|].
  by apply check_single_line_if_total.
Qed.

(** ** Trailing semicolons *)

Lemma block_head_total line :
  elided cl !! n = Some line ->
  exists r, block_head cl (Z.of_nat n) line = Ok r
    /\ forall head, r = Some head -> (length head < length line)%nat.
Proof.
  intros Hl. unfold block_head. destruct (Match _BLOCK_AFTER_PARENS line) as [mo|] eqn:Em.
  - apply BLOCK_AFTER_PARENS_inside in Em. pose proof (rfind_bounds (grp mo 1) ")") as Hr.
    destruct (ReverseCloseExpression_le cl n line (rfind (grp mo 1) ")")) as (ol & on & op & -> & Ho);
      [done|unfold len in *; lia|]. cbn [mbind res_bind].
    destruct (_ && _); [by exists None|].
    destruct (Z.ltb_spec 1 on); [|by exists (Some (grp mo 1)); split; [|intros ? [= <-]]].
    destruct (idx_total (elided cl) (on - 1)) as (x & -> & _); [unfold len; lia|]. cbn [mbind res_bind].
    eexists. split; [done|]. intros head. by destruct (searches _ x); intros [= <-].
  - clear Em. destruct (Match _ line) as [mo|] eqn:Ee.
    { apply ELSE_BLOCK_inside in Ee. exists (Some (grp mo 1)). by split; [|intros ? [= <-]]. }
    clear Ee. destruct (_ && _); [|by exists None]. eexists. split; [done|]. intros head.
    destruct (Match _ line) as [mo|] eqn:Es; [|done]. apply SPACES_BLOCK_inside in Es. by intros [= <-].
Qed.

Lemma CheckTrailingSemicolon_total :
  total I (CheckTrailingSemicolon filename cl (Z.of_nat n) error) (fun _ => True).
Proof.
  unfold CheckTrailingSemicolon. line_step. rename a into line.
  destruct (block_head_total line) as (r & Er & Hr); [done|].
  eapply total_bind; [by apply (total_lift _ _ (fun x => x = r) _ Er)|]. intros ? ->.
  destruct r as [head|]; [|total_step]. specialize (Hr head eq_refl).
  destruct (CloseExpression_end cl n line (len head)) as (l' & k & p & Ec & Hend); [done|unfold len; lia|].
  eapply total_bind; [by apply (total_lift _ _ (fun x => x = (l', k, p)) _ Ec)|]. intros ? ->.
  destruct (_ && _) eqn:E; [|total_step]. bool_hyps.
  destruct Hend as [[_ ->]|(j & -> & _ & Hj%lookup_lt_Some & _)]; [lia|].
  line_before. total_step; [by apply ParseNolintSuppressions_total|].
  line_before. total_step; [by apply ParseNolintSuppressions_total|]. total_step.
Qed.

(** ** Empty bodies *)

Lemma opening_brace_spec rest l f r f' :
  opening_brace rest l f = Some (r, f') ->
  0 <= find f' "{" < len f'
  /\ ((r = l /\ f' = f) \/ exists k, rest !! k = Some f' /\ r = l + 1 + Z.of_nat k).
Proof.
  revert l f. induction rest as [|x rest IH]; intros l f; cbn [opening_brace];
    destruct (searches _ f) eqn:E.
  - intros [= <- <-]. split; [by apply BRACE_found|by left].
  - by destruct (searches (rx "^(?!\s*$)") f).
  - intros [= <- <-]. split; [by apply BRACE_found|by left].
  - destruct (searches (rx "^(?!\s*$)") f); [done|]. intros [Hf [[-> ->]|(k & Hk & ->)]]%IH; (split; [done|right]).
    + exists 0%nat. split; [done|lia].
    + exists (S k). split; [done|lia].
Qed.

Lemma body_text_total ol on op cn cp :
  0 <= cn < len (elided cl) -> exists t, body_text cl ol on op cn cp = Ok t.
Proof.
  intros H. unfold body_text. destruct (_ <? _); [|by eexists].
  destruct (idx_total (elided cl) cn H) as (x & -> & _). by eexists.
Qed.

Lemma empty_if_total k line p :
  elided cl !! k = Some line -> 0 < p <= len line ->
  exists b, empty_if cl line (Z.of_nat k) p = Ok b.
Proof.
  intros Hk Hp. unfold empty_if.
  destruct (opening_brace _ _ _) as [[r f]|] eqn:E; [|by eexists].
  apply opening_brace_spec in E as [Hf Hr].
  assert (exists j x, r = Z.of_nat j /\ elided cl !! j = Some x
    /\ 0 <= find f "{" + (if r =? Z.of_nat k then p else 0) < len x) as (j & x & -> & Hj & Hpos).
  { destruct Hr as [[-> ->]|(i & Hi & ->)].
    - exists k, line. rewrite Z.eqb_refl. split_and!; [done..|lia|].
      pose proof (length_slice_from_pos line p). unfold len in *. lia.
    - rewrite lookup_drop in Hi. exists (Z.to_nat (Z.of_nat k + 1) + i)%nat, f.
      destruct (Z.eqb_spec (Z.of_nat k + 1 + Z.of_nat i) (Z.of_nat k)); [lia|].
      split_and!; [lia|done|lia..]. }
  rewrite (idx_Ok _ _ _ Hj). cbn [mbind res_bind].
  destruct (CloseExpression_end cl j x (find f "{" + (if Z.of_nat j =? Z.of_nat k then p else 0)))
    as (l' & c & q & -> & Hc); [done..|]. cbn [mbind res_bind].
  destruct (Z.ltb_spec q 0); [by eexists|].
  destruct Hc as [[_ ->]|(c' & -> & _ & Hc & _)]; [lia|]. apply lookup_lt_Some in Hc, Hj.
  destruct (idx_total (raw_lines cl) (Z.of_nat j)) as (raw & -> & _); [in_view|]. cbn [mbind res_bind].
  destruct (_ <>s _); [by eexists|].
  destruct (body_text_total x (Z.of_nat j) (find f "{" + (if Z.of_nat j =? Z.of_nat k then p else 0))
    (Z.of_nat c') q) as [t ->]; [unfold len; lia|]. cbn [mbind res_bind].
  by destruct (negb _); eexists.
Qed.

Lemma CheckEmptyBlockBody_total :
  total I (CheckEmptyBlockBody filename cl (Z.of_nat n) error) (fun _ => True).
Proof.
  unfold CheckEmptyBlockBody. line_step. rename a into line.
  destruct (Match _ line) as [mo|] eqn:Em; [|total_step]. apply CONTROL_PAREN in Em.
  destruct (CloseExpression_end cl n line (find line "(")) as (l' & k & p & Ec & Hend);
    [done|split; [done|by apply find_inside]|].
  eapply total_bind; [by apply (total_lift _ _ (fun x => x = (l', k, p)) _ Ec)|]. intros ? ->.
  total_step; [repeat total_step|]. destruct (_ && _) eqn:E; [|total_step]. bool_hyps.
  destruct Hend as [[_ ->]|(j & -> & _ & Hj & Hp)]; [lia|].
  destruct (empty_if_total j l' p) as [b Eb]; [done..|].
  total_step; [by eapply (total_lift _ _ (fun _ => True))|]. repeat total_step.
Qed.

Lemma InnermostClass_starts m ns b c :
  Forall (starts m) (blocks ns) -> InnermostClass ns = Some (b, c) -> starts m b.
Proof.
  unfold InnermostClass. intros H E. rewrite Forall_forall in H. apply H.
  destruct (omap class_of (blocks ns)) as [|x l] eqn:Eo; [done|]. simplify_eq/=.
  assert ((b, c) ∈ omap class_of (blocks ns)) as Hin by (rewrite Eo; left).
  apply list_elem_of_omap in Hin as (b' & Hb' & Hc). unfold class_of in Hc.
  by destruct (kind b'); simplify_eq.
Qed.

Lemma is_header_guard_total os ext line :
  no_root_svn os -> total I (is_header_guard os filename ext line) (fun _ => True).
Proof.
  intros Hno. unfold is_header_guard. eapply total_bind; [by apply (total_get _ (fun _ => True))|].
  intros g _. total_step; [|total_step].
  destruct (GetHeaderGuardCPPVariable_ok os (root g) filename Hno) as [v Hv].
  total_step; [by eapply (total_lift _ _ (fun _ => True))|]. total_step.
Qed.

Lemma CheckStyle_ok os u ext ns :
  no_root_svn os -> Forall (starts (len (elided cl))) (blocks ns) ->
  total I (CheckStyle os u filename cl (Z.of_nat n) ext ns error) (fun _ => True).
Proof.
  intros Hno Hb. unfold CheckStyle. line_step. rename a into line. total_step.
  { destruct (Z.ltb_spec 0 (Z.of_nat n)); [|total_step].
    apply (total_idx I _ _ (fun _ => True)); [in_view|done]. }
  total_step; [repeat total_step|]. line_step. line_step.
  total_step; [repeat total_step|]. total_step; [repeat total_step|].
  total_step; [by apply is_header_guard_total|].
  total_step.
  { unfold check_line_length. eapply total_bind; [by apply (total_get _ (fun _ => True))|].
    intros g _. repeat total_step. }
  total_step; [repeat total_step|].
  total_step; [apply CheckBraces_total|]. total_step; [apply CheckTrailingSemicolon_total|].
  total_step; [apply CheckEmptyBlockBody_total|]. total_step; [apply CheckSpacing_total|].
  total_step; [apply CheckOperatorSpacing_total|]. total_step; [apply CheckParenthesisSpacing_total|].
  total_step; [apply CheckCommaSpacing_total|]. total_step; [by apply CheckBracesSpacing_total|].
  total_step; [apply CheckSpacingForFunctionCall_total|].
  total_step; [by apply CheckCheck_total|]. total_step; [by apply CheckAltTokens_total|].
  destruct (InnermostClass ns) as [[b c]|] eqn:Ec; [|total_step].
  apply CheckSectionSpacing_total. by eapply InnermostClass_starts.
Qed.
End Checks.

(** * The blocks start in the file *)

Definition heap_starts (m : Z) (ns : NestingState) : Prop := Forall (starts m) (heap ns).

Section Starts.
Context (m : Z).

Lemma objs_starts (refs : list nat) h :
  Forall (starts m) h -> Forall (starts m) (omap (fun r => h !! r) refs).
Proof.
  intros Hh. apply Forall_forall. intros b (r & _ & Hr)%list_elem_of_omap. by eapply Forall_lookup_1.
Qed.

Lemma blocks_starts ns : heap_starts m ns -> Forall (starts m) (blocks ns).
Proof. apply objs_starts. Qed.

Lemma UpdatePreprocessor_starts line ns : heap_starts m ns -> heap_starts m (UpdatePreprocessor line ns).
Proof.
  unfold heap_starts, UpdatePreprocessor, deepcopy. intros H. pose proof (objs_starts) as Ho.
  repeat case_match; simplify_eq/=; try done; repeat (apply Forall_app; split); auto.
  all: apply objs_starts; try done; apply Forall_app; split; auto.
Qed.

Lemma turns_starts l k ns ns' : 0 <= l < m -> turns l k ns ns' -> heap_starts m ns -> heap_starts m ns'.
Proof.
  intros Hl [(j & Hh) _ _ _] H. unfold heap_starts in *.
  assert (forall h, Forall (starts m) h <-> Forall (fun s => 0 <= s < m) (starting_linenum <$> h)) as He.
  { intros h. by rewrite Forall_fmap. }
  rewrite He in *. rewrite Hh. apply Forall_app. split; [done|]. by apply Forall_replicate.
Qed.
End Starts.

(** * Every line of every file *)

(** The invariant of the nesting state along a file. *)
Definition nesting_ok (cl : CleansedLines) (ns : NestingState) : Prop :=
  ns_ok ns /\ heap_starts (len (elided cl)) ns.

Lemma CleansedLines_views raw cl :
  CleansedLines_init raw = Ok cl -> views_ok cl /\ length (elided cl) = length raw.
Proof.
  destruct (CleansedLines_ok raw) as (cl' & -> & Hr & He & Hl & Hw). intros [= <-].
  unfold views_ok, clean_ok. split; [|done]. split; [split|]; congruence.
Qed.

(** The update of the nesting and the style checks of some lines, as [ProcessLine] runs them. *)
Fixpoint style_lines (os : OS) (u : UnicodeData) (filename file_extension : str)
    (cl : CleansedLines) (error : error_fn) (ls : list nat) (ns : NestingState) : M NestingState :=
  match ls with
  | [] => mret ns
  | n :: ls' =>
      ns ← Update filename cl (Z.of_nat n) error ns;
      CheckStyle os u filename cl (Z.of_nat n) file_extension ns error ;;
      style_lines os u filename file_extension cl error ls' ns
  end.

Lemma style_lines_ok I error `{!Handler I error, !OnLint I} os u filename ext cl ls ns :
  views_ok cl -> no_root_svn os -> Forall (fun n => n < length (elided cl))%nat ls -> nesting_ok cl ns ->
  total I (style_lines os u filename ext cl error ls ns) (nesting_ok cl).
Proof.
  intros Hv Hno Hls. revert ns. induction Hls as [|n ls Hn Hls IH]; intros ns [Hok Hst]; [by apply total_ret|].
  cbn [style_lines]. apply (total_bind _ _ _ (nesting_ok cl)).
  - apply total_gives.
    + eapply total_weaken; [apply (Update_total_aux I error); [apply Hv|done..]|]. by intros ns' (l & _ & Hm & _).
    + intros g g' ns' E. destruct (Update_turns _ _ _ _ _ _ _ _ E) as (line & _ & Ht).
      eapply turns_starts; [|exact Ht|]; [unfold len; lia|]. by apply UpdatePreprocessor_starts.
  - intros ns' H'. apply (total_bind _ _ _ (fun _ => True)); [|intros _ _; by apply IH].
    apply CheckStyle_ok; [done..|]. apply blocks_starts, H'.
Qed.

(** C3: the style checks never raise when the working directory is absolute and no root
    directory is a Subversion checkout ([no_root_svn]; [RepositoryName_diverges] says why).
    On any lines of any file, in any order, from the initial state, the nesting is then
    updated and all the checks of [CheckStyle] return: every index is in range, every
    pattern that is put together at run time compiles, every table has an entry for what is
    looked up, every loop ends. *)
Theorem CheckStyle_total I error `{!Handler I error, !OnLint I} os u filename ext raw cl ls :
  CleansedLines_init raw = Ok cl -> no_root_svn os -> Forall (fun n => n < length raw)%nat ls ->
  total I (style_lines os u filename ext cl error ls NestingState_init) (nesting_ok cl).
Proof.
  intros [Hv Hl]%CleansedLines_views Hno Hls. apply style_lines_ok; [done..|by rewrite Hl|].
  split; [apply ns_ok_init|constructor].
Qed.

Definition sample_style : list str :=
  of_string <$> ["class A{"; "  int f(int x){return vec<int>{x};}"; "};"; "if (a<b) {}; else{ CHECK(x not_eq 1); }"]%string.

Definition no_unicode : UnicodeData := mkUnicodeData (fun s => s) (fun _ => false) (fun _ => false).

(** The checks of a sample with missing spaces, a trailing semicolon and an alternative token. *)
Lemma CheckStyle_total_witness :
  exists cl g' ns, CleansedLines_init sample_style = Ok cl
    /\ style_lines git_os no_unicode "a.cc" "cc" cl Error [0; 1; 2; 3]%nat NestingState_init globals_init
       = (g', Ok ns)
    /\ nesting_ok cl ns /\ error_count (cpplint_state g') = 5.
Proof.
  destruct (CleansedLines_init sample_style) as [cl|e] eqn:E; [|vm_compute in E; discriminate E].
  destruct (CheckStyle_total sound Error git_os no_unicode "a.cc" "cc" sample_style cl [0; 1; 2; 3]%nat
              E git_os_no_svn) with (g := globals_init) as (g' & ns & Er & _ & Hns).
  - repeat constructor; apply Nat.ltb_lt; reflexivity.
  - apply sound_init.
  - exists cl, g', ns. split; [reflexivity|]. split; [exact Er|]. split; [exact Hns|].
    apply (f_equal (fun r => error_count (cpplint_state r.1))) in Er. cbn [fst] in Er. rewrite <- Er.
    vm_compute in E. injection E. intros <-. vm_compute. reflexivity.
Defined.
