(* ===== verification/ProcessFacts.v ===== *)
(** Properties of the processing of files: the checks refine the abstract reporter, a file leaves the
    settings as its configuration files made them and the filters as they were, and
    the command line leaves them well formed. *)

From S2P Require Import Prelude PyStr Regex RegexFacts State StateFacts Frame Cleanse Expr Lines.
From S2P Require Import Nesting FilePath FilePathFacts Includes Functions Casts Language Spacing.
From S2P Require Import Style Process Reporter.

Open Scope Z_scope.
Open Scope py_scope.

(** * The checks only report *)

Section Checks.
Context (R : globals -> globals -> Prop) `{!PreOrder R, !OffSuppressions R}.
Context (error : error_fn) `{!Keeper R error}.

Lemma remove_comments_loop_keeps fuel filename ls lineix :
  keeps R (remove_comments_loop fuel filename ls lineix error).
Proof. revert ls lineix. induction fuel; intros ls lineix; cbn [remove_comments_loop]; keeps_all. Qed.

Lemma disallow_loop_keeps filename cl name linenums seen :
  keeps R (disallow_loop filename cl name linenums seen error).
Proof. revert seen. induction linenums; intros seen; cbn [disallow_loop]; keeps_all. Qed.
#[local] Hint Resolve disallow_loop_keeps : keeps.

Lemma brace_loop_keeps fuel filename cl linenum line ns :
  keeps R (brace_loop fuel filename cl linenum error line ns).
Proof. revert line ns. induction fuel; intros line ns; cbn [brace_loop]; keeps_all. Qed.

Lemma virt_specifier_loop_keeps filename cl linenum linenums end_col :
  keeps R (virt_specifier_loop filename cl linenum linenums end_col error).
Proof. revert end_col. induction linenums; intros end_col; cbn [virt_specifier_loop]; keeps_all. Qed.

Lemma bad_characters_loop_keeps filename linenum ls :
  keeps R (bad_characters_loop filename linenum ls error).
Proof. revert linenum. induction ls; intros linenum; cbn [bad_characters_loop]; keeps_all. Qed.

#[local] Hint Resolve remove_comments_loop_keeps brace_loop_keeps virt_specifier_loop_keeps
  bad_characters_loop_keeps : keeps.

Lemma Update_keeps filename cl linenum ns : keeps R (Update filename cl linenum error ns).
Proof. keeps_all. Qed.

Lemma CheckStyle_keeps os u filename cl linenum ext ns :
  keeps R (CheckStyle os u filename cl linenum ext ns error).
Proof. keeps_all. Qed.

Context (h : Host) (extra : list check_fn).
Hypothesis extra_keeps : forall check, check ∈ extra ->
  forall filename cl line, keeps R (check filename cl line error).
#[local] Hint Resolve extra_keeps : keeps.

Lemma ProcessLine_keeps filename ext cl line st :
  keeps R (ProcessLine h filename ext cl line st error extra).
Proof. keeps_all. Qed.
#[local] Hint Resolve ProcessLine_keeps : keeps.

Lemma process_lines_keeps filename ext cl linenums st :
  keeps R (process_lines h filename ext cl linenums st error extra).
Proof. revert st. induction linenums; intros st; cbn [process_lines]; keeps_all. Qed.
#[local] Hint Resolve process_lines_keeps : keeps.

Lemma ProcessFileData_keeps filename ext ls :
  keeps R (ProcessFileData h filename ext ls error extra).
Proof. keeps_all. Qed.
End Checks.

(** C2: whatever a file holds and however its processing ends, the processing of its data
    is simulated by the abstract reporter: from a state that represents a log, the state
    after it represents a log that only grew by errors the verbosity and the filters let
    through.  The error output is the rendering of the log, the number of errors its
    length, the numbers by category its tally; no setting and no other output changes.
    Additional checks are assumed to be simulated too. *)
Theorem ProcessFileData_refines h filename ext ls extra g0 l g g' r :
  (forall check, check ∈ extra ->
     forall filename cl line, keeps (simulated g0) (check filename cl line Error)) ->
  represents g0 l g -> ProcessFileData h filename ext ls Error extra g = (g', r) ->
  exists l', rtc (logs (verbose_level (cpplint_state g0)) (filters (cpplint_state g0))) l l'
    /\ represents g0 l' g'.
Proof. intros Hx Hl H. exact (ProcessFileData_keeps (simulated g0) Error h extra Hx _ _ _ _ _ _ H l Hl). Qed.

Definition sample_host : Host :=
  mkHost git_os (mkUnicodeData id (fun _ => false) (fun _ => false)) (fun _ => false)
    (fun _ => None) (fun _ => None) None (fun m => (map_to_list m).*1) map_to_list map_to_list
    elements.

Definition sample_file : list str :=
  of_string <$> ["// Copyright 2024 Nobody"; "int main() {"; "  return strcpy(a,b) ;"; "}"; ""]%string.

Lemma ProcessFileData_refines_witness :
  let run := ProcessFileData sample_host "a.cc" "cc" sample_file Error [] globals_init in
  exists l, represents globals_init l run.1 /\ error_count (cpplint_state run.1) = 3 /\ len l = 3.
Proof.
  destruct (ProcessFileData_refines sample_host "a.cc" "cc" sample_file [] globals_init [] globals_init
              (ProcessFileData sample_host "a.cc" "cc" sample_file Error [] globals_init).1
              (ProcessFileData sample_host "a.cc" "cc" sample_file Error [] globals_init).2)
    as (l & _ & Hl).
  - by intros check ?%not_elem_of_nil.
  - apply represents_refl.
  - apply surjective_pairing.
  - exists l. split; [exact Hl|].
    assert (error_count (cpplint_state
      (ProcessFileData sample_host "a.cc" "cc" sample_file Error [] globals_init).1) = 3) as E
      by (vm_compute; reflexivity).
    split; [exact E|]. pose proof (rep_count _ _ _ Hl) as Hc. rewrite E in Hc. clear -Hc.
    change (error_count (cpplint_state globals_init)) with 0 in Hc. lia.
Defined.

(** * Configuration files *)

Section Config.
Context (h : Host) (filename : str).

Lemma config_line_keeps cfg_file base_name line c :
  keeps same_fixed (config_line filename cfg_file base_name line c).
Proof. keeps_all. Qed.
#[local] Hint Resolve config_line_keeps : keeps.

Lemma config_file_keeps cfg_file base_name ls c :
  keeps same_fixed (config_file filename cfg_file base_name ls c).
Proof. revert c. induction ls; intros c; cbn [config_file]; keeps_all. Qed.
#[local] Hint Resolve config_file_keeps : keeps.

Lemma config_loop_keeps fuel abs_filename c :
  keeps same_fixed (config_loop h fuel filename abs_filename c).
Proof. revert abs_filename c. induction fuel; intros abs_filename c; cbn [config_loop]; keeps_all. Qed.
#[local] Hint Resolve config_loop_keeps : keeps.

Lemma ProcessConfigOverrides_keeps : keeps same_fixed (ProcessConfigOverrides h filename).
Proof. keeps_all. Qed.
End Config.

(** The state in which the configuration files of a file are read. *)
Definition backed_up (vlevel : Z) (g : globals) : globals :=
  with_lint (fun c => with_filters (filters c) (filters c)
                        (with_settings vlevel (counting c) (quiet c) (output_format c) c)) g.

Lemma restore_settings g1 g2 g3 :
  same_settings g1 g2 -> _RestoreFilters g2 = (g3, Ok tt) ->
  filters (cpplint_state g3) = filters_backup (cpplint_state g1)
  /\ fixed g3 = fixed g1
  /\ (line_length g3, root g3, valid_extensions g3, hpp_headers g3)
     = (line_length g1, root g1, valid_extensions g1, hpp_headers g1).
Proof.
  intros Hm H. injection H as <-. unfold same_settings, settings in Hm.
  injection Hm. intros. unfold fixed. cbn. split_and!; congruence.
Qed.

(** C13: a file that is processed leaves the filters as they were and keeps the other
    settings of the command line; but the line length, the root and the extensions
    stay as its configuration files set them, for the files that follow. *)
Theorem ProcessFile_settings h filename vlevel extra g g' :
  (forall check, check ∈ extra ->
     forall filename cl line, keeps same_settings (check filename cl line Error)) ->
  ProcessFile h filename vlevel extra g = (g', Ok tt) ->
  exists g1 process, ProcessConfigOverrides h filename (backed_up vlevel g) = (g1, Ok process)
    /\ filters (cpplint_state g') = filters (cpplint_state g)
    /\ fixed g' = fixed (backed_up vlevel g)
    /\ (line_length g', root g', valid_extensions g', hpp_headers g')
       = (line_length g1, root g1, valid_extensions g1, hpp_headers g1).
Proof.
  intros Hx H. unfold ProcessFile in H.
  apply bind_Ok in H as (ga & last & Ea & H). injection Ea as <- _.
  apply bind_Ok in H as (gb & [] & Eb & H). injection Eb as <-.
  apply bind_Ok in H as (gc & old & Ec & H). injection Ec as <- <-.
  apply bind_Ok in H as (g1 & process & E1 & H).
  exists g1, process. split; [exact E1|].
  assert (fixed g1 = fixed (backed_up vlevel g)) as Hf by exact (ProcessConfigOverrides_keeps _ _ _ _ _ E1).
  enough (exists g2, same_settings g1 g2 /\ _RestoreFilters g2 = (g', Ok tt)) as (g2 & Hm & E).
  { apply (restore_settings _ _ _ Hm) in E as (-> & -> & ->). rewrite Hf. split_and!; try done.
    by injection Hf. }
  destruct (negb process); [by exists g1|].
  destruct (file_text h filename) as [text|].
  - destruct (strip_cr 1 (split text [newline])) as [[ls crlf] lf].
    apply bind_Ok in H as (g2 & ga & E2 & H). injection E2 as <- <-.
    apply bind_Ok in H as (g2 & [] & E2 & H).
    apply bind_Ok in H as (g3 & now & E3 & H). injection E3 as <- <-.
    apply bind_Ok in H as (g3 & [] & E3 & H). exists g3. split; [|exact H].
    transitivity g2.
    + eapply keeps_run; [|exact E2].
      pose proof (ProcessFileData_keeps same_settings Error h extra Hx). keeps_all.
    + eapply keeps_run; [|exact E3]. keeps_all.
  - apply bind_Ok in H as (g2 & [] & E2 & H). exists g2. split; [|exact H].
    eapply keeps_run; [|exact E2]. keeps_all.
Qed.

(** A file in a directory whose configuration changes two settings. *)
Definition config_host : Host :=
  mkHost git_os (mkUnicodeData id (fun _ => false) (fun _ => false))
    (fun p => p =s "/home/u/p/CPPLINT.cfg")
    (fun _ => Some (of_string <$> ["linelength=100"; "filter=-legal"]%string))
    (fun _ => Some (join [newline] sample_file)) None
    (fun m => (map_to_list m).*1) map_to_list map_to_list elements.

Lemma run_Ok {A} (m : M A) g a : (m g).2 = Ok a -> m g = ((m g).1, Ok a).
Proof. destruct (m g) as [g' r]. by intros [= ->]. Qed.

Lemma ProcessFile_settings_witness :
  let g' := (ProcessFile config_host "a.cc" 3 [] globals_init).1 in
  filters (cpplint_state g') = _DEFAULT_FILTERS /\ line_length g' = 100.
Proof.
  split; [|vm_compute; reflexivity].
  assert ((ProcessFile config_host "a.cc" 3 [] globals_init).2 = Ok tt) as E
    by (vm_compute; reflexivity).
  apply run_Ok in E. apply ProcessFile_settings in E as (g1 & p & _ & Hf & _); [exact Hf|].
  clear. by intros check ?%not_elem_of_nil.
Defined.
