(* ===== verification/Ending.v ===== *)
(** How a program ends: [raises E m] says that whatever exception [m] raises satisfies
    [E], and [fails E r] the same of a result.  The checks raise [ordinary] exceptions
    only, those a Python program can catch: they do not exit, and no loop of theirs runs
    out of fuel. *)

From S2P Require Import Prelude PyStr Regex State StateFacts Frame.

Open Scope Z_scope.
Open Scope py_scope.

Definition fails (E : exn -> Prop) {A} (r : res A) : Prop := forall e, r = Raise e -> E e.
Definition raises (E : exn -> Prop) {A} (m : M A) : Prop := forall g, fails E (m g).2.

(** Neither the end of the program nor the end of the fuel. *)
Definition ordinary (e : exn) : Prop :=
  match e with OutOfFuel | SystemExit _ _ => False | _ => True end.

(** An error function that raises [E] only. *)
Class Raiser (E : exn -> Prop) (error : error_fn) : Prop :=
  raiser filename linenum category confidence message :
    raises E (error filename linenum category confidence message).

Section Raises.
Context (E : exn -> Prop).

Lemma fails_Ok {A} (a : A) : fails E (Ok a).
Proof. intros e [=]. Qed.

Lemma fails_Raise {A} e : E e -> fails E (Raise (A:=A) e).
Proof. by intros He e' [= <-]. Qed.

Lemma fails_exists {A} (r : res A) : (exists a, r = Ok a) -> fails E r.
Proof. intros [a ->]. apply fails_Ok. Qed.

Lemma fails_bind {A B} (r : res A) (f : A -> res B) :
  fails E r -> (forall a, r = Ok a -> fails E (f a)) -> fails E (r ≫= f).
Proof. intros Hr Hf e. destruct r as [a|e']; [by apply Hf|]. intros [= <-]. by apply Hr. Qed.

Lemma fails_some_or {A} e (o : option A) : E e -> fails E (some_or e o).
Proof. intros He. by destruct o; [apply fails_Ok|apply fails_Raise]. Qed.

Lemma fails_idx {A} (l : list A) i : E IndexError -> fails E (idx l i).
Proof. apply fails_some_or. Qed.

Lemma raises_ret {A} (a : A) : raises E (mret a).
Proof. intros g. apply fails_Ok. Qed.

Lemma raises_get : raises E get.
Proof. intros g. apply fails_Ok. Qed.

Lemma raises_modify f : raises E (modify f).
Proof. intros g. apply fails_Ok. Qed.

Lemma raises_raise {A} e : E e -> raises E (raise (A:=A) e).
Proof. intros He g. by apply fails_Raise. Qed.

Lemma raises_lift {A} (r : res A) : fails E r -> raises E (lift r).
Proof. by intros H g. Qed.

Lemma raises_bind {A B} (m : M A) (f : A -> M B) :
  raises E m -> (forall a, raises E (f a)) -> raises E (m ≫= f).
Proof.
  intros Hm Hf g. rewrite M_bind_eq. specialize (Hm g). destruct (m g) as [g1 [a|e]]; [apply Hf|].
  intros e' [= <-]. by apply Hm.
Qed.

(** A value computed first is known in what follows. *)
Lemma raises_bind_lift {A B} (r : res A) (f : A -> M B) :
  fails E r -> (forall a, r = Ok a -> raises E (f a)) -> raises E (lift r ≫= f).
Proof.
  intros Hr Hf g. rewrite M_bind_eq. unfold lift. destruct r as [a|e]; [by apply Hf|].
  intros e' [= <-]. by apply Hr.
Qed.

Lemma raises_when (b : bool) m : raises E m -> raises E (when b m).
Proof. destruct b; [done|]. intros _. apply raises_ret. Qed.

Lemma raises_for_each {A} (l : list A) f :
  (forall x, x ∈ l -> raises E (f x)) -> raises E (for_each l f).
Proof.
  induction l as [|x l IH]; intros H; [apply raises_ret|].
  apply raises_bind; [apply H; left|]. intros _. apply IH. intros y Hy. apply H. by right.
Qed.

Lemma raises_run {A} (m : M A) g g' e : raises E m -> m g = (g', Raise e) -> E e.
Proof. intros H Hm. apply (H g). by rewrite Hm. Qed.
End Raises.

Create HintDb ends discriminated.

(** Follow the structure of a program, unfolding its parts. *)
Ltac ends_step :=
  cbv beta zeta;
  lazymatch goal with
  | |- raises _ skip => apply raises_ret
  | |- raises _ (mret _) => apply raises_ret
  | |- raises _ get => apply raises_get
  | |- raises _ (modify _) => apply raises_modify
  | |- raises _ (raise _) => apply raises_raise; first [exact I | solve [eauto with ends]]
  | |- raises _ (lift _) => apply raises_lift
  | |- raises _ (line_at _ _) => apply raises_lift
  | |- raises _ (the_match _) => apply raises_lift
  | |- raises _ (when _ _) => apply raises_when
  | |- raises _ (mbind _ (lift _)) => apply raises_bind_lift; [|intros ? ?]
  | |- raises _ (mbind _ (line_at _ _)) => apply raises_bind_lift; [|intros ? ?]
  | |- raises _ (mbind _ _) => apply raises_bind; [|intros ?]
  | |- raises _ (for_each _ _) => apply raises_for_each; intros ? ?
  | |- raises _ (match ?x with _ => _ end) => destruct x eqn:?
  | H : Raiser _ ?error |- raises _ (?error _ _ _ _ _) => apply H
  | |- raises _ (Error _ _ _ _ _) => apply raiser
  | |- raises _ ?m => first [solve [eauto 3 with ends] | let h := head_of m in unfold h]
  | |- fails _ (Ok _) => apply fails_Ok
  | |- fails _ (mret _) => apply fails_Ok
  | |- fails _ (Raise _) => apply fails_Raise; first [exact I | solve [eauto with ends]]
  | |- fails _ (idx _ _) => apply fails_idx; exact I
  | |- fails _ (some_or _ _) => apply fails_some_or; exact I
  | |- fails _ (mbind _ _) => apply fails_bind; [|intros ? ?]
  | |- fails _ (match ?x with _ => _ end) => destruct x eqn:?
  | |- fails _ ?r => first [solve [eauto 3 with ends] | let h := head_of r in unfold h]
  end.

Ltac ends_all := repeat ends_step.

(** [Error] fails an assertion at most. *)
#[export] Instance Error_ordinary : Raiser ordinary Error.
Proof.
  assert (forall fs category b, fails ordinary (filter_loop fs category b)) as Hf.
  { intros fs category. induction fs as [|f fs IH]; intros b; cbn [filter_loop];
      repeat (apply IH || ends_step). }
  intros f l c n m. unfold Error. repeat (apply Hf || ends_step).
Qed.
