(* ===== verification/EndingFacts.v ===== *)
(** Every loop of the linter ends: the checks raise ordinary exceptions only, and the
    program ends with an exit status, or with an ordinary exception, whatever it is given
    to read, under the condition [no_root_svn] on its surroundings. *)

From S2P Require Import Prelude PyStr Regex RegexFacts State StateFacts Frame Ending.
From S2P Require Import Cleanse CleanseFacts Expr ExprFacts Lines Nesting NestingFacts.
From S2P Require Import FilePath FilePathFacts Includes Functions Casts Language.
From S2P Require Import Spacing SpacingFacts Style StyleFacts Process ProcessFacts.

Open Scope Z_scope.
Open Scope py_scope.

(** * Loops over lines *)

Ltac list_loop := cbn; ends_all.

Lemma prepend_lines_ends cl ls c : fails ordinary (prepend_lines cl ls c).
Proof. revert c. induction ls; intros c; list_loop. Qed.

Lemma derived_loop_ends cl ls : fails ordinary (derived_loop cl ls).
Proof. induction ls; list_loop. Qed.

Lemma out_of_line_loop_ends cl ls : fails ordinary (out_of_line_loop cl ls).
Proof. induction ls; list_loop. Qed.

Lemma initializer_loop_ends cl n ls : fails ordinary (initializer_loop cl n ls).
Proof. induction ls; list_loop. Qed.

Lemma join_stripped_ends cl ls line : fails ordinary (join_stripped cl ls line).
Proof. revert line. induction ls; intros line; list_loop. Qed.

Lemma after_colon_ends cl ls : fails ordinary (after_colon cl ls).
Proof. induction ls; list_loop. Qed.

Lemma whitelisted_before_ends cl n ls : fails ordinary (whitelisted_before cl n ls).
Proof. induction ls; list_loop. Qed.

Lemma body_loop_ends line rest joined fs : fails ordinary (body_loop line rest joined fs).
Proof. revert joined. induction rest; intros joined; list_loop. Qed.

Lemma collapse_args_ends pending args : fails ordinary (collapse_args pending args).
Proof. revert pending. induction args; intros pending; list_loop. Qed.

Lemma parameter_list_end_ends cl ls col : fails ordinary (parameter_list_end cl ls col).
Proof. revert col. induction ls; intros col; list_loop. Qed.

Lemma template_line_ends cl ls : fails ordinary (template_line cl ls).
Proof. induction ls; list_loop. Qed.

Lemma any_search_ends p cl ls : fails ordinary (any_search p cl ls).
Proof. induction ls; list_loop. Qed.

Lemma concat_lines_ends cl ls text : fails ordinary (concat_lines cl ls text).
Proof. revert text. induction ls; intros text; list_loop. Qed.

Lemma class_head_end_ends cl ls head : fails ordinary (class_head_end cl ls head).
Proof. induction ls; list_loop. Qed.

#[export] Hint Resolve prepend_lines_ends derived_loop_ends out_of_line_loop_ends
  initializer_loop_ends join_stripped_ends after_colon_ends whitelisted_before_ends
  body_loop_ends collapse_args_ends parameter_list_end_ends template_line_ends
  any_search_ends concat_lines_ends class_head_end_ends : ends.

Lemma type_of_block_ends cl token stack : fails ordinary (type_of_block cl token stack).
Proof. induction stack; list_loop. Qed.

(** * Loops over the characters of a line *)

Lemma CleansedLines_init_ends raw : fails ordinary (CleansedLines_init raw).
Proof. apply fails_exists. destruct (CleansedLines_ok raw) as (cl & ? & _). by exists cl. Qed.

Lemma mask_operators_ends line : fails ordinary (mask_operators (length line) line).
Proof.
  apply fails_exists. destruct (mask_operators_ok (length line) line) as (out & ? & _);
    [apply nonword_le|]. by exists out.
Qed.

Lemma parse_check_ends e : fails ordinary (parse_check (length e) e []).
Proof.
  apply fails_exists. destruct (parse_check_ok (length e) e []) as (r & ? & _); [lia|]. by exists r.
Qed.

#[export] Hint Resolve type_of_block_ends CleansedLines_init_ends mask_operators_ends
  parse_check_ends : ends.

(** * Nesting *)

Lemma namespace_loop_ends fuel linenum line ns :
  (length line < fuel)%nat -> fails ordinary (namespace_loop fuel linenum line ns).
Proof.
  revert line ns. induction fuel as [|f IH]; intros line ns Hf; [lia|]. cbn [namespace_loop].
  destruct (Match _NAMESPACE_DECL line) as [mo|] eqn:Em; [|ends_all].
  apply NAMESPACE_DECL_shape in Em as [Hlen _].
  pose proof (length_slice_from (grp mo 2) (find (grp mo 2) "{" + 1)).
  destruct (negb _); apply IH; lia.
Qed.

Lemma namespace_loop_shorter fuel linenum line ns line' ns' :
  namespace_loop fuel linenum line ns = Ok (line', ns') -> (length line' <= length line)%nat.
Proof.
  revert line ns. induction fuel as [|f IH]; intros line ns; [done|]. cbn [namespace_loop].
  destruct (Match _NAMESPACE_DECL line) as [mo|] eqn:Em; [|by intros [= <- _]].
  apply NAMESPACE_DECL_shape in Em as [Hlen _].
  pose proof (length_slice_from (grp mo 2) (find (grp mo 2) "{" + 1)).
  destruct (negb _); intros H1%IH; lia.
Qed.

Lemma idx_nat {A} (l : list A) n x : idx l (Z.of_nat n) = Ok x -> l !! n = Some x.
Proof.
  unfold idx. rewrite py_index_pos, Nat2Z.id by lia. by destruct (l !! n) as [y|]; [intros [= ->]|].
Qed.

Lemma class_declaration_ends cl n line0 line ns :
  clean_ok cl -> elided cl !! n = Some line0 -> (length line <= length line0)%nat ->
  fails ordinary (class_declaration cl (Z.of_nat n) line ns).
Proof.
  intros Hc Hl Hlen. unfold class_declaration.
  destruct (Match _CLASS_DECL line) as [mo|] eqn:Em; [|ends_all].
  apply CLASS_DECL_shape in Em as (_ & H1 & _).
  destruct (InTemplateArgumentList_total cl n (length (grp mo 1)) line0) as [b Hb];
    [done..|lia|]. unfold len. rewrite Hb. ends_all.
Qed.

Section Nesting.
Context (error : error_fn) `{!Raiser ordinary error}.

Lemma disallow_loop_ends filename cl name linenums seen :
  raises ordinary (disallow_loop filename cl name linenums seen error).
Proof. revert seen. induction linenums; intros seen; list_loop. Qed.
#[local] Hint Resolve disallow_loop_ends : ends.

Lemma brace_step_ends filename cl linenum token line ns :
  raises ordinary (brace_step filename cl linenum error token line ns).
Proof. ends_all. Qed.

Lemma brace_loop_ends fuel filename cl linenum line ns :
  (length line < fuel)%nat -> raises ordinary (brace_loop fuel filename cl linenum error line ns).
Proof.
  revert line ns. induction fuel as [|f IH]; intros line ns Hf; [lia|]. cbn [brace_loop].
  destruct (Match _BRACE_TOKEN line) as [mo|] eqn:Em; [|apply raises_ret].
  apply BRACE_TOKEN_shorter in Em.
  apply raises_bind; [apply brace_step_ends|]. intros ns1. apply IH. lia.
Qed.

Lemma access_control_ends filename linenum line ns :
  raises ordinary (access_control filename linenum error line ns).
Proof. ends_all. Qed.

Lemma Update_ends filename cl n ns :
  clean_ok cl -> raises ordinary (Update filename cl (Z.of_nat n) error ns).
Proof.
  intros Hc. unfold Update. apply raises_bind_lift; [by apply fails_idx|]. intros line Hl%idx_nat.
  apply raises_bind_lift; [apply namespace_loop_ends; lia|].
  intros [line1 ns1] H1%namespace_loop_shorter.
  apply raises_bind_lift; [by eapply class_declaration_ends|]. intros [line2 ns2] _.
  apply raises_bind_lift; [ends_all|]. intros ns3 _.
  apply raises_bind; [apply access_control_ends|]. intros ns4. apply brace_loop_ends. lia.
Qed.

(** * Files *)

Lemma remove_comments_loop_ends filename ls :
  raises ordinary (RemoveMultiLineComments filename ls error).
Proof.
  destruct (remove_comments_loop_ok filename error (S (length ls)) [] ls) as (ls' & r & _ & H); [lia|].
  assert (raises ordinary (removal filename error ls' (Nat.add 0 <$> r))) as Hr.
  { unfold removal. destruct (Nat.add 0 <$> r); ends_all. }
  intros g. unfold RemoveMultiLineComments. generalize (H g). simpl app. simpl length. intros ->. apply Hr.
Qed.

Lemma bad_characters_loop_ends filename linenum ls :
  raises ordinary (bad_characters_loop filename linenum ls error).
Proof. revert linenum. induction ls; intros linenum; list_loop. Qed.

Lemma virt_specifier_loop_ends filename cl linenum linenums end_col :
  raises ordinary (virt_specifier_loop filename cl linenum linenums end_col error).
Proof. revert end_col. induction linenums; intros end_col; list_loop. Qed.

#[local] Hint Resolve remove_comments_loop_ends bad_characters_loop_ends
  virt_specifier_loop_ends : ends.
Context (os : OS) (no_svn : no_root_svn os).

Lemma RepositoryName_ends filename : fails ordinary (RepositoryName os filename).
Proof. by apply fails_exists, RepositoryName_ok. Qed.

Lemma Split_ends filename : fails ordinary (Split os filename).
Proof. by apply fails_exists, Split_ok. Qed.

Lemma GetHeaderGuardCPPVariable_ends root filename :
  fails ordinary (GetHeaderGuardCPPVariable os root filename).
Proof. by apply fails_exists, GetHeaderGuardCPPVariable_ok. Qed.

#[local] Hint Resolve RepositoryName_ends Split_ends GetHeaderGuardCPPVariable_ends : ends.

Lemma module_loop_ends abs_filename keys found dict :
  fails ordinary (module_loop os abs_filename keys found dict).
Proof. revert found dict. induction keys; intros found dict; list_loop. Qed.
#[local] Hint Resolve module_loop_ends : ends.

Lemma CheckStyle_ends u filename cl linenum ext ns :
  raises ordinary (CheckStyle os u filename cl linenum ext ns error).
Proof. ends_all. Qed.

Lemma CheckLanguage_ends filename cl linenum ext st ns :
  raises ordinary (CheckLanguage os filename cl linenum ext st ns error).
Proof. ends_all. Qed.
#[local] Hint Resolve CheckStyle_ends CheckLanguage_ends : ends.

Context (h : Host) (host : host_os h = os) (extra : list check_fn).
Hypothesis extra_ends : forall check, check ∈ extra ->
  forall filename cl line, raises ordinary (check filename cl line error).

Lemma ProcessLine_ends filename ext cl line st :
  clean_ok cl -> 0 <= line ->
  raises ordinary (ProcessLine h filename ext cl line st error extra).
Proof.
  intros Hc Hl. unfold ProcessLine. rewrite host.
  ends_step; [ends_all|]. ends_step; [ends_all|]. apply raises_bind.
  { replace line with (Z.of_nat (Z.to_nat line)) by lia. by apply Update_ends. }
  intros ns. repeat first [apply extra_ends; assumption | ends_step].
Qed.

Lemma process_lines_ends filename ext cl linenums st :
  clean_ok cl -> Forall (fun i => 0 <= i) linenums ->
  raises ordinary (process_lines h filename ext cl linenums st error extra).
Proof.
  intros Hc H. revert st. induction H as [|i linenums Hi _ IH]; intros st; cbn [process_lines].
  - apply raises_ret.
  - apply raises_bind; [by apply ProcessLine_ends|]. intros st1.
    apply raises_bind; [ends_all|]. intros _. apply IH.
Qed.

Lemma clean_lines_ok raw cl : CleansedLines_init raw = Ok cl -> clean_ok cl.
Proof.
  intros E. destruct (CleansedLines_ok raw) as (cl' & E' & H1 & H2 & H3 & _).
  rewrite E in E'. injection E' as <-. split; by rewrite H1.
Qed.

Lemma ProcessFileData_ends filename ext ls :
  raises ordinary (ProcessFileData h filename ext ls error extra).
Proof.
  unfold ProcessFileData. rewrite host. repeat
    lazymatch goal with
    | |- raises _ (process_lines _ _ _ _ _ _ _ _) => fail
    | |- _ => ends_step
    end.
  apply process_lines_ends; [by eapply clean_lines_ok|].
  apply Forall_forall. by intros i [? _]%elem_of_zrange.
Qed.
End Nesting.

(** * Configuration files *)

Lemma split_head_shorter p :
  nonempty (Path.split p).2 = true -> (length (Path.split p).1 < length p)%nat.
Proof.
  unfold Path.split. pose proof (rfind_bounds p "/") as Hb. simpl.
  rewrite slice_from_pos, slice_to_pos by lia. set (n := Z.to_nat _). intros H.
  assert (n < length p)%nat as Hn.
  { destruct (decide (n < length p)%nat); [done|]. rewrite drop_ge in H by lia. done. }
  destruct (_ && _); [pose proof (rstrip_chars_le (take n p) "/")|]; rewrite length_take in *; lia.
Qed.

Lemma config_file_ends filename cfg_file base_name ls c :
  raises ordinary (config_file filename cfg_file base_name ls c).
Proof. revert c. induction ls; intros c; list_loop. Qed.

(** Every directory is shorter than what it is the directory of. *)
Lemma config_loop_ends h fuel filename abs_filename c :
  (length abs_filename < fuel)%nat -> raises ordinary (config_loop h fuel filename abs_filename c).
Proof.
  revert abs_filename c. induction fuel as [|f IH]; intros p c Hf; [lia|]. cbn [config_loop].
  destruct (negb (keep_looking c)); [apply raises_ret|].
  pose proof (split_head_shorter p) as Hs. destruct (Path.split p) as [abs_path base_name].
  cbn [fst snd] in Hs. destruct (nonempty base_name); cbn [negb]; [|apply raises_ret].
  specialize (Hs eq_refl).
  destruct (negb _); [apply IH; lia|]. destruct (config_lines h _) as [ls|]; [|ends_all].
  apply raises_bind; [apply config_file_ends|]. intros [c1|]; [apply IH; lia|apply raises_ret].
Qed.

Lemma ProcessConfigOverrides_ends h filename : raises ordinary (ProcessConfigOverrides h filename).
Proof.
  unfold ProcessConfigOverrides. apply raises_bind; [apply config_loop_ends; lia|].
  intros found. ends_all.
Qed.

Lemma ProcessFile_ends h filename vlevel extra :
  no_root_svn (host_os h) ->
  (forall check, check ∈ extra ->
     forall filename cl line, raises ordinary (check filename cl line Error)) ->
  raises ordinary (ProcessFile h filename vlevel extra).
Proof.
  intros Hno Hx.
  pose proof (fun f ext ls => ProcessFileData_ends Error _ Hno h eq_refl extra Hx f ext ls) as Hd.
  pose proof ProcessConfigOverrides_ends. ends_all.
Qed.

(** * The program *)

(** What refuses a command line: an exit, or a number or a filter that is malformed. *)
Definition refusal (e : exn) : Prop :=
  match e with SystemExit _ _ | ValueError _ => True | _ => False end.

Lemma SetFilters_refusal fs : raises refusal (_SetFilters fs).
Proof. ends_all. Qed.

Lemma process_option_refusal opt val o : raises refusal (process_option opt val o).
Proof. ends_all. Qed.

Lemma process_options_refusal opts o : raises refusal (process_options opts o).
Proof.
  revert o. induction opts as [|[opt val] opts IH]; intros o; cbn [process_options];
    [apply raises_ret|]. apply raises_bind; [apply process_option_refusal|]. apply IH.
Qed.

Lemma ParseArguments_refusal args : raises refusal (ParseArguments args).
Proof.
  pose proof process_options_refusal. pose proof SetFilters_refusal. ends_all.
Qed.

(** The exit status reports whether an error was counted. *)
Definition exit_status (g : globals) : exn :=
  SystemExit (if 0 <? error_count (cpplint_state g) then 1 else 0) [].

Definition same_lint (g g' : globals) : Prop := cpplint_state g' = cpplint_state g.

#[export] Instance same_lint_preorder : PreOrder same_lint.
Proof. split; [by intros g|]. intros g1 g2 g3 H1 H2. by etransitivity. Qed.

#[export] Hint Extern 1 (same_lint _ _) => reflexivity : keeps.

(** The end of the program: the counts are printed. *)
Definition finish (h : Host) : M unit :=
  g ← get;
  when (negb (quiet (cpplint_state g)) || (0 <? error_count (cpplint_state g)))
    (PrintErrorCounts (category_order h)) ;;
  raise (exit_status g).

Lemma finish_run h g : exists g', finish h g = (g', Raise (exit_status g')).
Proof.
  unfold finish. rewrite M_bind_eq. unfold get at 1. cbv beta iota. set (m := when _ _).
  assert (keeps same_lint m) as Hk by (subst m; keeps_all).
  assert (raises (fun _ => False) m) as Hr by (subst m; ends_all).
  rewrite M_bind_eq. specialize (Hr g). destruct (m g) as [g' [a|e]] eqn:E; [|by destruct (Hr e)].
  apply Hk in E. exists g'. unfold raise, exit_status. by rewrite E.
Qed.

Lemma check_files_ends h filenames :
  no_root_svn (host_os h) ->
  raises ordinary (for_each filenames (fun filename => v ← _VerboseLevel; ProcessFile h filename v [])).
Proof.
  intros Hno. apply raises_for_each. intros f _. apply raises_bind; [ends_all|]. intros v.
  apply ProcessFile_ends; [done|]. by intros check ?%not_elem_of_nil.
Qed.

(** C1: when the working directory is absolute and no root directory is a Subversion
    checkout, the program ends, whatever its arguments and whatever the files, the
    configuration and the other directories hold: no loop runs on forever.  It ends with an
    exception; when the command line was accepted this is the exit with status 1 if an
    error was counted and 0 if none was, or an ordinary Python exception.  Without the
    condition the search for the repository may run on ([RepositoryName_diverges]). *)
Theorem main_ends h argv g :
  no_root_svn (host_os h) ->
  exists g' e, main h argv g = (g', Raise e) /\ e <> OutOfFuel
    /\ forall g1 filenames, ParseArguments argv g = (g1, Ok filenames) ->
         ordinary e \/ e = exit_status g'.
Proof.
  intros Hno. pose proof (ParseArguments_refusal argv g) as Hp.
  unfold main. rewrite M_bind_eq. destruct (ParseArguments argv g) as [g1 [filenames|e]].
  - rewrite M_bind_eq. destruct (ResetErrorCounts g1) as [g2 [[]|e]] eqn:E2; [|done].
    rewrite M_bind_eq. pose proof (check_files_ends h filenames Hno g2) as Hc.
    destruct (for_each filenames _ g2) as [g3 [[]|e]].
    + destruct (finish_run h g3) as [g4 E4]. unfold finish, exit_status in E4.
      exists g4, (exit_status g4). split; [exact E4|]. split; [done|]. by right.
    + exists g3, e. split; [done|]. specialize (Hc e eq_refl). split; [by intros ->|]. by left.
  - exists g1, e. split; [done|]. specialize (Hp e eq_refl). split; [by intros ->|]. by intros ? ? [=].
Qed.

Definition sample_args : list str := of_string <$> ["--quiet"; "a.cc"]%string.

Lemma main_ends_witness :
  exists g', main config_host sample_args globals_init = (g', Raise (SystemExit 1 []))
    /\ error_count (cpplint_state g') = 3.
Proof.
  destruct (main_ends config_host sample_args globals_init) as (g' & e & E & _ & _).
  - apply git_os_no_svn.
  - exists g'. split.
    + assert ((main config_host sample_args globals_init).2 = Raise (SystemExit 1 [])) as E2
        by (vm_compute; reflexivity).
      rewrite E in E2. rewrite E. cbn in E2. congruence.
    + apply (f_equal (fun r => error_count (cpplint_state r.1))) in E. cbn [fst] in E.
      rewrite <- E. vm_compute. reflexivity.
Defined.
