(* ===== verification/OptionsFacts.v ===== *)
(** Properties of the command line: a command line that is accepted leaves the settings
    well formed, and what follows its options are the files. *)

From S2P Require Import Prelude PyStr Regex State StateFacts Frame Ending EndingFacts.
From S2P Require Import Process.

Open Scope Z_scope.
Open Scope py_scope.

(** * The values the settings may have *)




(** * Options *)




Lemma process_options_keeps opts o : keeps same_lint (process_options opts o).
Proof.
  revert o. induction opts as [|[opt val] opts IH]; intros o; cbn [process_options]; [keeps_all|].
  apply keeps_bind; [exact _| |exact IH]. keeps_all.
Qed.


(** * Arguments *)






