(* ===== verification/AgreeFacts.v ===== *)
(** The output format and the quiet flag change what is written, not what is found: the
    result of the program and the number of its errors do not depend on them. *)

From S2P Require Import Prelude PyStr Regex State StateFacts Frame Agree Cleanse Expr Lines.
From S2P Require Import Nesting FilePath FilePathFacts Includes Functions Casts Language Spacing.
From S2P Require Import Style Process ProcessFacts Ending EndingFacts.

Open Scope Z_scope.
Open Scope py_scope.

(** * The checks *)

Section Checks.
Context (error : error_fn) `{!Blind error}.

Lemma remove_comments_loop_blind fuel filename ls lineix :
  blind (remove_comments_loop fuel filename ls lineix error).
Proof. revert ls lineix. induction fuel; intros ls lineix; cbn [remove_comments_loop]; blind_all. Qed.

Lemma disallow_loop_blind filename cl name linenums seen :
  blind (disallow_loop filename cl name linenums seen error).
Proof. revert seen. induction linenums; intros seen; cbn [disallow_loop]; blind_all. Qed.
#[local] Hint Resolve disallow_loop_blind : blind.

Lemma brace_loop_blind fuel filename cl linenum line ns :
  blind (brace_loop fuel filename cl linenum error line ns).
Proof. revert line ns. induction fuel; intros line ns; cbn [brace_loop]; blind_all. Qed.

Lemma virt_specifier_loop_blind filename cl linenum linenums end_col :
  blind (virt_specifier_loop filename cl linenum linenums end_col error).
Proof. revert end_col. induction linenums; intros end_col; cbn [virt_specifier_loop]; blind_all. Qed.

Lemma bad_characters_loop_blind filename linenum ls :
  blind (bad_characters_loop filename linenum ls error).
Proof. revert linenum. induction ls; intros linenum; cbn [bad_characters_loop]; blind_all. Qed.

#[local] Hint Resolve remove_comments_loop_blind brace_loop_blind virt_specifier_loop_blind
  bad_characters_loop_blind : blind.

Context (h : Host) (extra : list check_fn).
Hypothesis extra_blind : forall check, check ∈ extra ->
  forall filename cl line, blind (check filename cl line error).
#[local] Hint Resolve extra_blind : blind.

Lemma ProcessLine_blind filename ext cl line st :
  blind (ProcessLine h filename ext cl line st error extra).
Proof. blind_all. Qed.
#[local] Hint Resolve ProcessLine_blind : blind.

Lemma process_lines_blind filename ext cl linenums st :
  blind (process_lines h filename ext cl linenums st error extra).
Proof. revert st. induction linenums; intros st; cbn [process_lines]; blind_all. Qed.
#[local] Hint Resolve process_lines_blind : blind.

Lemma ProcessFileData_blind filename ext ls :
  blind (ProcessFileData h filename ext ls error extra).
Proof. blind_all. Qed.
End Checks.

(** * Printing *)

(** [m] returns and does nothing but write. *)
Definition prints (m : M unit) : Prop := forall g, (m g).2 = Ok tt /\ agree g (m g).1.

Lemma prints_skip : prints skip.
Proof. by intros g. Qed.

Lemma prints_when (b : bool) m : prints m -> prints (when b m).
Proof. destruct b; [done|]. intros _. apply prints_skip. Qed.

Lemma prints_bind m m' : prints m -> prints m' -> prints (m ;; m').
Proof.
  intros H1 H2 g. rewrite M_bind_eq. destruct (H1 g) as [E A1]. destruct (m g) as [g1 r].
  cbn in E, A1. subst r. destruct (H2 g1) as [E2 A2]. split; [done|]. by etransitivity.
Qed.

Lemma prints_for_each {A} (l : list A) f : (forall x, prints (f x)) -> prints (for_each l f).
Proof. intros H. induction l as [|x l IH]; [apply prints_skip|]. by apply prints_bind. Qed.

Lemma prints_stderr s : prints (write_stderr s).
Proof. intros g. split; [done|]. by split. Qed.

Lemma prints_stdout s : prints (write_stdout s).
Proof. intros g. split; [done|]. by split. Qed.

(** What is printed may depend on all of the state, what follows may not. *)
Lemma blind_print {A} (p : globals -> M unit) (rest : globals -> M A) :
  (forall g, prints (p g)) -> (forall g1 g2, agree g1 g2 -> rest g1 = rest g2) ->
  (forall g, blind (rest g)) -> blind (g ← get; p g ;; rest g).
Proof.
  intros Hp Hr Hb g1 g2 H. rewrite !(M_bind_eq get). unfold get. cbv beta iota.
  rewrite !M_bind_eq, (Hr g1 g2 H). destruct (Hp g1 g1) as [E1 A1], (Hp g2 g2) as [E2 A2].
  destruct (p g1 g1) as [h1 r1], (p g2 g2) as [h2 r2]. cbn in *. subst r1 r2.
  apply Hb. transitivity g1; [by symmetry|]. by transitivity g2.
Qed.

(** * Files *)

Lemma config_line_blind filename cfg_file base_name line c :
  blind (config_line filename cfg_file base_name line c).
Proof.
  unfold config_line, _Quiet.
  assert (forall s, blind (q ← (g ← get; mret (quiet (cpplint_state g)));
                           when (negb q) (write_stderr s) ;; mret (A:=option Config) None)) as Hq.
  { intros s. refine (blind_print (fun g => when (negb (quiet (cpplint_state g))) (write_stderr s))
                        (fun _ => mret None) _ _ _).
    - intros g. apply prints_when, prints_stderr.
    - done.
    - intros g. apply blind_ret. }
  repeat first [apply Hq | blind_step].
Qed.

Lemma config_file_blind filename cfg_file base_name ls c :
  blind (config_file filename cfg_file base_name ls c).
Proof.
  revert c. induction ls as [|line ls IH]; intros c; cbn [config_file]; [apply blind_ret|].
  apply blind_bind; [apply config_line_blind|]. intros [c1|]; [apply IH|apply blind_ret].
Qed.
#[local] Hint Resolve config_file_blind : blind.

Lemma config_loop_blind h fuel filename abs_filename c :
  blind (config_loop h fuel filename abs_filename c).
Proof. revert abs_filename c. induction fuel; intros p c; cbn [config_loop]; blind_all. Qed.
#[local] Hint Resolve config_loop_blind : blind.

Lemma ProcessConfigOverrides_blind h filename : blind (ProcessConfigOverrides h filename).
Proof. blind_all. Qed.

Lemma done_processing_blind n s :
  blind (now ← get;
         when (negb (quiet (cpplint_state now)) || negb (n =? error_count (cpplint_state now)))
           (write_stdout s) ;;
         _RestoreFilters).
Proof.
  refine (blind_print (fun now => when (negb (quiet (cpplint_state now))
    || negb (n =? error_count (cpplint_state now))) (write_stdout s)) (fun _ => _RestoreFilters) _ _ _).
  - intros g. apply prints_when, prints_stdout.
  - done.
  - intros g. blind_all.
Qed.

Lemma ProcessFile_blind h filename vlevel extra :
  (forall check, check ∈ extra -> forall filename cl line, blind (check filename cl line Error)) ->
  blind (ProcessFile h filename vlevel extra).
Proof.
  intros Hx. pose proof (ProcessFileData_blind Error h extra Hx) as Hd.
  pose proof (ProcessConfigOverrides_blind h filename) as Hc. unfold ProcessFile.
  apply blind_bind; [blind_all|]. intros _. apply blind_bind; [blind_all|]. intros _.
  apply blind_get; [intros g1 g2 H; by rewrite (ag_count _ _ H)|]. intros old.
  repeat first [apply done_processing_blind | blind_step].
Qed.

(** * The program *)

Lemma finish_blind h : blind (finish h).
Proof.
  refine (blind_print (fun g => when (negb (quiet (cpplint_state g))
    || (0 <? error_count (cpplint_state g))) (PrintErrorCounts (category_order h)))
    (fun g => raise (exit_status g)) _ _ _).
  - intros g. apply prints_when. intros g1. unfold PrintErrorCounts. rewrite M_bind_eq.
    unfold get. cbv beta iota. apply prints_bind; [|apply prints_stdout].
    apply prints_for_each. intros it. apply prints_stderr.
  - intros g1 g2 H. unfold exit_status. by rewrite (ag_count _ _ H).
  - intros g. apply blind_raise.
Qed.

Lemma check_files_blind h filenames :
  blind (ResetErrorCounts ;;
         for_each filenames (fun filename => v ← _VerboseLevel; ProcessFile h filename v []) ;;
         finish h).
Proof.
  apply blind_bind; [blind_all|]. intros _. apply blind_bind; [|intros _; apply finish_blind].
  apply blind_for_each. intros f _. apply blind_bind; [unfold _VerboseLevel; blind_all|]. intros v.
  apply ProcessFile_blind. by intros check ?%not_elem_of_nil.
Qed.

(** C4: the output format and the quiet flag decide what is written, not what is found: two
    command lines that are accepted with the same files, and leave settings that agree but
    for the output format and the quiet flag, end the program in the same way, with the
    same exit status, the same number of errors and the same numbers by category. *)
Theorem main_independent h argv1 argv2 g1 g2 h1 h2 filenames :
  ParseArguments argv1 g1 = (h1, Ok filenames) -> ParseArguments argv2 g2 = (h2, Ok filenames) ->
  agree h1 h2 ->
  (main h argv1 g1).2 = (main h argv2 g2).2 /\ agree (main h argv1 g1).1 (main h argv2 g2).1.
Proof.
  intros E1 E2 H. unfold main. rewrite !M_bind_eq, E1, E2. exact (check_files_blind h filenames h1 h2 H).
Qed.

Definition quiet_args : list str := of_string <$> ["--quiet"; "--output=vs7"; "a.cc"]%string.
Definition plain_args : list str := of_string <$> ["a.cc"]%string.

Lemma main_independent_witness :
  (main config_host quiet_args globals_init).2 = (main config_host plain_args globals_init).2.
Proof.
  refine (proj1 (main_independent config_host quiet_args plain_args globals_init globals_init
    (ParseArguments quiet_args globals_init).1 (ParseArguments plain_args globals_init).1
    plain_args _ _ _)).
  - apply run_Ok. vm_compute. reflexivity.
  - apply run_Ok. vm_compute. reflexivity.
  - split; vm_compute; reflexivity.
Defined.
